(* ===== verification/_CoqProject ===== *)
-Q . S2P
Prelude.v
Driver.v
Metrics.v
Rows.v
Schema.v
Sql.v
Common.v
Timestamps.v
Guards.v
Where.v
RuleFilter.v
FaultDetect.v
Namespace.v
Service.v
Transaction.v
LeaderElection.v
Cleanup.v
Instances.v
ConfigRelease.v
Gray.v
Store.v
L5.v
CircuitBreaker.v
RateLimit.v
RoutingV2.v
Routing.v
Client.v
ServiceContract.v
Strategy.v
User.v
Group.v
ConfigFile.v
ConfigGroup.v
ConfigTemplate.v
ConfigHistory.v
Publish.v
ReadCommitted.v
LockDiscipline.v
SessionAlone.v
Publishers.v
Serial.v
ReleaseTurns.v
Progress.v
Operations.v
Invariant.v
Types.v
Sessions.v
Pauses.v
Frozen.v
Cache.v
RuleSpec.v
Examples.v
ExamplesRules.v
ExamplesStore.v
ExamplesConcurrent.v
