(* ===== verification/Prelude.v ===== *)
(** * The PostgreSQL store of the Polaris service mesh

    The repository is a storage plugin of the Polaris control plane written in
    Go: package [postgresql] (store/postgresql/) keeps namespaces, services,
    instances, configuration releases and the rest of the control plane's data
    in a PostgreSQL database.  This development models the package as it is
    written, including the places where it does not do what it means to do,
    and proves what its operations guarantee.

    ** The parts of the program and the files that model them

    A [PostgresqlStore] (default.go, file Store) owns two database handles,
    master and slave, and hands them to one sub-store per kind of data.  Every
    sub-store issues SQL through the wrappers of base_db.go (file Driver):
    [BaseDB.Exec], [Query] and [QueryRow] with retries, and transactions run by
    [processWithTransaction].  Text and placeholders of the longer statements
    come from sql.go (file Sql); batching, filters and times from common.go
    (file Common).  The tables are those of scripts/polaris_server.sql (file
    Schema).

    - Prelude: errors, results ([res]: value, error or panic), list lemmas,
      the constraint check [distinct], tactics and hints.
    - Driver (base_db.go): the connection [conn], its calls, [Retry],
      [processWithTransaction], and the refinement theory.
    - Rows, Schema (polaris_server.sql): rows, keys, [db_wf], statements.
    - Metrics (base_db.go): what each call reports of itself.
    - Sql (sql.go), Common and Timestamps (common.go): generators and helpers,
      and timestamps as texts.
    - Namespace (namespace.go), Service (service.go), Instances (instance.go),
      ConfigRelease (config_file_release.go), Gray (gray_resouce.go): the
      sub-stores, one definition per function of the source, with its name.
    - ConfigFile (config_file.go), ConfigGroup (config_file_group.go),
      ConfigTemplate and ConfigHistory (config_file_template.go,
      config_file_release_history.go): files with their tags, groups,
      templates and the history of releases.
    - Where: the conditions that filters are turned into, and what the server
      answers to them; RuleFilter: the generator of the conditions of rules.
      FaultDetect (fault_detect_config.go), CircuitBreaker
      (circuitbreaker_config_v2.go), RateLimit (ratelimit_config.go), Routing
      and RoutingV2 (routing_config.go, routing_config_v2.go): the rules.
    - Client (client.go), ServiceContract (service_contract.go), L5 (l5.go).
    - Strategy, User, Group (strategy.go, user.go, group.go): the tables of
      authorisation, with the default strategies users and groups get.
    - Transaction (transaction.go, tx.go, [CreateTransaction] of default.go):
      transactions handed to the caller, with the flags of the Go object.
    - LeaderElection, Cleanup (admin.go, tool.go): the election of a leader per
      job, and the jobs that delete for good.
    - Store (default.go, [openDatabase] of base_db.go): configuration and life
      cycle.
    - Guards: what an operation may do to the committed content, step by step
      of the connection and with the clock ([Guards], [GuardsAt]); instances
      for the combinators, so that an invariant of every statement is one of
      every operation; [Runs]: statements that never panic.  Operations: the
      writing operations of the package as one type, with [perform].
    - Theorems about any sequence of them.  Invariant: keys and unique
      constraints.  Types: readable rows.  Frozen: the tables nothing is added
      to.  Cache: incremental reads against full loads.  RuleSpec: the rule
      stores and namespaces against an abstract registry.  Publish: operations handed a
      transaction of the caller.  Sessions: what operations leave of their
      connection.  Pauses: how long they sleep.
    - Overlapping transactions.  ReadCommitted: sessions, row locks and
      schedules at read committed, with the calls of a transaction body as a
      term ([prog]).  LockDiscipline, Serial: invariants of systems whose
      sessions lock the row of a file first.  SessionAlone: a session nobody
      disturbs.  Publishers (config_file_release.go, [LockConfigFile] and
      [DeleteConfigFileTx] of config_file.go, [genNextL5Sid] of l5.go): the
      transactions as bodies.  ReleaseTurns: their serial executions.
      Progress: that they come to an end.
    - Examples, ExamplesRules, ExamplesStore and ExamplesConcurrent: the
      theorems applied to concrete databases and schedules.

    ** The model

    A call of the source is a function of type [M database A]: from a
    connection to a result and the connection after it.  A connection holds the
    committed content of the master, the content of the replica, and the
    content and state of the open transaction; what another session commits
    between the begin and the commit of a transaction is not part of it.  The
    class [Env] chooses for every driver call whether it fails before the
    server acted, after it acted (a lost reply) or in the middle of a result
    set, and what the clock shows; a theorem that does not assume [reliable]
    holds for all choices.  An aborted transaction refuses every further
    statement and its commit, as PostgreSQL does.

    Statements are pure programs on the content ([sql_insert], [sql_update],
    [sql_delete], [sql_select]); inserts and updates check the primary and
    unique keys.  Generated statements are kept as token lists, and the server
    refuses one whose placeholders and arguments disagree ([params_ok]).  Go
    maps are [gmap]s; the order of a [range] loop over one is a parameter
    ([MapRange]) or the order of a list, so a theorem covers every order.

    Two parts go beyond one session.  In LeaderElection the calls of any number
    of servers interleave, each of them atomic.  In ReadCommitted and the files
    after it the transactions of the configuration releases, of the files they
    lock and of the L5 generator overlap call by call and row by row, at the
    level they run at, read committed ([Begin] passes no options to the
    server): a statement takes the rows that match when it starts, waits for
    rows other sessions hold and evaluates its condition again when it gets
    them, and any session may fail at any step.  [denote] and
    [bodies_are_the_operations] tie these bodies to the sequential model, and
    [operation_alone] ties their schedules to it.

    Code outside the repository is a parameter with the laws the source relies
    on: package store and utils ([PolarisApi]), the conversions of package
    model ([InstanceApi]), strconv ([Strconv]), the release types
    ([ReleaseTypes]), the conversions of clients and contracts ([ClientApi],
    [ContractApi]), the names and limits of authorisation ([AuthApi]), the
    widths of the L5 integers ([ModelInt]), how the server reads a text as a
    number or time ([PgInput]), UUIDs, and the answers of the server to queries whose
    generated text has no model ([PgServer], [PgExpand]).  The examples give those
    the theorems with hypotheses use a concrete instance.

    ** What is proved

    - Refinement: a body run by [processWithTransaction] does exactly what its
      pure program computes, or nothing, or everything with a lost reply;
      [Refines] and [Implements] carry this through every operation, and
      [once] programs survive the retry after a lost commit reply.
    - Operations: for every write the exact effect on the tables on success,
      all or nothing after an error, and the inputs that are refused.
    - Round trips: what AddService, AddInstance, AddNamespace,
      CreateConfigFileReleaseTx, CreateConfigFileTx, CreateConfigFileGroup,
      CreateFaultDetectRule, CreateRoutingConfigV2 and
      LooseAddStrategyResources store is what the matching read returns when
      no call fails; metadata and health checks an earlier holder of the id
      left behind come back with it, and the theorems say which.  The reader of
      timestamps inverts their writing.
    - Queries: the lists of namespaces, rules, configuration files and users
      return the number and the page of the rows that satisfy each key of the
      filter, whatever the order of the map; for fault detection rules also
      with the key brief, with rows the scan cannot read and with faults.
    - Invariants of the package, over any sequence of its writing operations
      with any faults: the rows of rules and templates stay readable by the
      scans of the store, so the caches never fail on them; no user, group member, strategy, rate limit, contract or
      first-version routing rule is ever added.  Of releases: at most one is
      active per file and type.
    - Sessions: operations leave no transaction open, whatever fails, and but
      for two of them never panic; none sleeps for more than 23.1 seconds.
    - Caches: rows changed since the last read, laid over the rules loaded
      before, are what a full load delivers; a deleted rule never comes back.
    - An abstract specification: fault detection rules, circuit breaker rules,
      rate limits, second-version routing rules and namespaces as a registry of
      ids, refined by their stores.
    - Concurrency: transactions that lock their file with [LockConfigFile] and
      then write its releases are strictly serialisable at read committed, and
      they come to an end, with no deadlock, unless a release is created under
      the name of another file; publishers that lock first keep at most one
      release of each type active whatever else runs; the keys of the tables
      hold in every interleaving.  Without the lock two publications, or two
      activations, leave two active releases, and two runs of the L5 generator
      the same id.
    - Composition: a transaction of the caller carries at most one operation of
      the configuration stores, because each commits it; with it goes what
      activations refused before it, for a version that is too big, had
      deactivated.
    - L5: the counters of the session ids carry inside their words, and the ids
      of one server are distinct.
    - Transactions of the caller: under any sequence of calls the content
      committed is what the calls that were meant to do, in order, make of the
      content at the beginning, or nothing happened; errors are final.
    - Leader election: no version has two winners, a new leader is recorded,
      a released leader abstains; and nobody is elected when the session is in
      UTC, because the age of the lease has the wrong sign.
    - Generators: which filters give an acceptable statement; equivalence of
      the batching loops with a traversal of chunks; bounds on retries.
    - Failures of the source that the model shows, each as a theorem: see the
      comments that begin with the operation concerned.

    ** Bounds

    [Retry] is the loop of the source with its twenty attempts, so it needs no
    fuel; its sleep is bounded by 1050 milliseconds.  The loops of [BatchQuery]
    and [BatchOperation] run with the length of the data as fuel, which is
    proved enough (they equal the traversal of the chunks).  Timestamps are
    microseconds in Z; the only conversion to a narrow integer that matters,
    int32 seconds in the election, is written out, as are the uint64 argument
    of the driver (refused from 2^63), the uint32 counters of L5, which wrap
    ([u32]) and are refused by the integer columns from 2^31, and the ports of
    clients.

    ** What is not modelled

    Logs have no effect on the results and are left out; the metrics are kept
    apart from the results (Metrics).  Nothing remains of the package but
    imports, log messages, the registration of the plugin and the construction
    of the sub-stores.  A caller who keeps a transaction on the master and one
    on the replica open at once is not modelled: a connection has one
    transaction at a time, and [StartReadTx] opens it on the replica.  Column
    widths are not checked: a value that is too long is a fault of the environment.
    The model refuses a malformed statement when it is executed, also where
    the source would see the error of [Prepare]; sequences roll back with their
    transaction, which only gives smaller ids than the server; and the column
    name of config_file_release is treated as not null. *)
From stdpp Require Import base list strings gmap sorting.
From Stdlib Require Import ZArith Lia.

Declare Scope store_scope.
Delimit Scope store_scope with store.
Open Scope Z_scope.

(** ** Errors and results *)

(** Status codes of [store.NewStatusError] that the source names. *)
Inductive StatusCode :=
| EmptyParamsErr
| OutOfRangeErr
| DataConflictErr
| NotFoundService
| NotFoundResource
| AffectedRowsNotMatch
| DuplicateEntryErr
| OtherCode (n : Z).

(** Go [error] values: plain errors ([errors.New], [fmt.Errorf]), the two
    sentinels of [database/sql], errors of the driver or of the server, and
    the status errors of package [store]. *)
Inductive error :=
| EMsg (msg : string)
| ENoRows
| ETxDone
| EDriver (msg : string)
| EStatus (code : StatusCode) (msg : string).

(** Outcome of a Go call: a value, a non-nil error, or a run-time panic. *)
Inductive res (A : Type) :=
| Ok (a : A)
| Err (e : error)
| Panic (why : string).
Arguments Ok {A} a.
Arguments Err {A} e.
Arguments Panic {A} why.

#[export] Instance StatusCode_eq_dec : EqDecision StatusCode.
Proof. solve_decision. Defined.

#[export] Instance error_eq_dec : EqDecision error.
Proof. solve_decision. Defined.

#[export] Instance res_eq_dec {A} `{EqDecision A} : EqDecision (res A).
Proof. solve_decision. Defined.

Definition is_Ok {A} (r : res A) : bool :=
  match r with Ok _ => true | _ => false end.

(** Sequencing of outcomes: an error or a panic stops the computation. *)
Definition res_bind {A B} (r : res A) (f : A -> res B) : res B :=
  match r with
  | Ok a => f a
  | Err e => Err e
  | Panic w => Panic w
  end.

Definition res_map {A B} (f : A -> B) (r : res A) : res B :=
  res_bind r (fun a => Ok (f a)).

Lemma res_bind_Ok {A B} (r : res A) (f : A -> res B) b :
  res_bind r f = Ok b <-> exists a, r = Ok a /\ f a = Ok b.
Proof. destruct r; simpl; naive_solver. Qed.

Lemma res_map_Ok {A B} (f : A -> B) r b :
  res_map f r = Ok b <-> exists a, r = Ok a /\ f a = b.
Proof. unfold res_map. rewrite res_bind_Ok. naive_solver. Qed.

Notation "x <-? r ;; k" := (res_bind r (fun x => k))
  (at level 100, r at next level, right associativity) : store_scope.

(** ** Strings *)

(** [strings.Contains]. *)
Definition str_contains (s sub : string) : bool :=
  match String.index 0 sub s with Some _ => true | None => false end.

Definition str_empty (s : string) : bool := bool_decide (s = ""%string).

Lemma str_empty_spec s : str_empty s = true <-> s = ""%string.
Proof. unfold str_empty. by rewrite bool_decide_eq_true. Qed.

Lemma str_empty_false s : s <> ""%string -> str_empty s = false.
Proof. intros Hs. by apply bool_decide_eq_false_2. Qed.

(** ** Lists *)

(** No two elements of the list clash. *)
Fixpoint distinct {A} (clash : A -> A -> bool) (l : list A) : bool :=
  match l with
  | [] => true
  | x :: l' => forallb (fun y => negb (clash x y)) l' && distinct clash l'
  end.

(** The elements satisfying a boolean predicate, and how many there are. *)
Fixpoint keep {A} (p : A -> bool) (l : list A) : list A :=
  match l with
  | [] => []
  | x :: l' => if p x then x :: keep p l' else keep p l'
  end.

Definition count {A} (p : A -> bool) (l : list A) : nat := length (keep p l).

(** Rewrite in place the elements that satisfy [p]. *)
Definition change {A} (p : A -> bool) (f : A -> A) (l : list A) : list A :=
  map (fun x => if p x then f x else x) l.

Section list_facts.
Context {A : Type}.
Implicit Types (l : list A) (p : A -> bool) (x y : A).

Lemma elem_of_keep p l x : x ∈ keep p l <-> x ∈ l /\ p x = true.
Proof.
  induction l as [|y l IH]; simpl.
  { rewrite elem_of_nil. naive_solver. }
  destruct (p y) eqn:E; rewrite ?elem_of_cons, IH; intuition congruence.
Qed.

Lemma keep_app p l1 l2 : keep p (l1 ++ l2) = keep p l1 ++ keep p l2.
Proof. induction l1; simpl; [done|]. destruct (p a); simpl; congruence. Qed.

Lemma keep_nil_iff p l : keep p l = [] <-> forall x, x ∈ l -> p x = false.
Proof.
  induction l as [|y l IH]; simpl.
  { split; [|done]. intros _ x Hx. by apply elem_of_nil in Hx. }
  setoid_rewrite elem_of_cons. destruct (p y) eqn:E.
  - split; [done|]. intros H. rewrite H in E; [done|by left].
  - rewrite IH. naive_solver.
Qed.

Lemma keep_all p l : (forall x, x ∈ l -> p x = true) -> keep p l = l.
Proof. induction l; simpl; [done|]. intros H. rewrite H by (by left). f_equal. apply IHl. intros x Hx. apply H. by right. Qed.

Lemma keep_keep p q l : keep p (keep q l) = keep (fun x => q x && p x) l.
Proof.
  induction l as [|y l IH]; simpl; [done|].
  destruct (q y); simpl; [|done]. destruct (p y); simpl; congruence.
Qed.

Lemma keep_ext p q l : (forall x, x ∈ l -> p x = q x) -> keep p l = keep q l.
Proof.
  induction l as [|y l IH]; simpl; [done|]. intros H.
  rewrite (H y) by (by left). rewrite IH; [done|]. intros x Hx. apply H. by right.
Qed.

Lemma length_keep_le p l : (length (keep p l) <= length l)%nat.
Proof. induction l; simpl; [lia|]. destruct (p a); simpl; lia. Qed.

Lemma elem_of_change p f l x :
  x ∈ change p f l <-> exists y, y ∈ l /\ x = if p y then f y else y.
Proof. unfold change. rewrite list_elem_of_In, in_map_iff. setoid_rewrite list_elem_of_In. naive_solver. Qed.

Lemma length_change p f l : length (change p f l) = length l.
Proof. apply length_map. Qed.

Lemma change_none p f l : (forall x, x ∈ l -> p x = false) -> change p f l = l.
Proof. induction l; simpl; [done|]. intros H. rewrite H by (by left). f_equal. apply IHl. intros x Hx. apply H. by right. Qed.

Section distinct.
Context (clash : A -> A -> bool).

Lemma distinct_cons x l :
  distinct clash (x :: l) = true <->
  (forall y, y ∈ l -> clash x y = false) /\ distinct clash l = true.
Proof.
  simpl. rewrite andb_true_iff, forallb_forall.
  setoid_rewrite list_elem_of_In. setoid_rewrite negb_true_iff. done.
Qed.

Lemma distinct_app l1 l2 :
  distinct clash (l1 ++ l2) = true <->
  distinct clash l1 = true /\ distinct clash l2 = true /\
  forall x y, x ∈ l1 -> y ∈ l2 -> clash x y = false.
Proof.
  induction l1 as [|z l1 IH]; [simpl; set_solver|].
  rewrite <- app_comm_cons, !distinct_cons, IH.
  setoid_rewrite elem_of_app. setoid_rewrite elem_of_cons. naive_solver.
Qed.

Lemma distinct_keep p l : distinct clash l = true -> distinct clash (keep p l) = true.
Proof.
  induction l as [|x l IH]; [done|]. rewrite distinct_cons. intros [H1 H2]. simpl.
  destruct (p x); [|auto]. rewrite distinct_cons. split; [|auto].
  intros y [Hy _]%elem_of_keep. auto.
Qed.

(** An in-place rewrite that changes no key keeps the list distinct. *)
Lemma distinct_change p f l :
  (forall x y, clash (f x) (f y) = clash x y) ->
  (forall x y, clash (f x) y = clash x y) ->
  (forall x y, clash x (f y) = clash x y) ->
  distinct clash l = true -> distinct clash (change p f l) = true.
Proof.
  intros H1 H2 H3. induction l as [|x l IH]; [done|]. rewrite distinct_cons.
  intros [Hx Hl].
  change (change p f (x :: l)) with ((if p x then f x else x) :: change p f l).
  rewrite distinct_cons. split; [|auto].
  intros z (y & Hy & ->)%elem_of_change.
  specialize (Hx y Hy). destruct (p x), (p y); congruence.
Qed.

Lemma distinct_eq l x y :
  distinct clash l = true -> x ∈ l -> y ∈ l -> clash x y = true -> clash y x = true -> x = y.
Proof.
  induction l as [|z l IH]; [by intros _ Hx%elem_of_nil|]. rewrite distinct_cons. intros [Hz Hl].
  intros [->|Hx]%elem_of_cons [->|Hy]%elem_of_cons Hxy Hyx; [done| | |auto].
  - by rewrite Hz in Hxy.
  - by rewrite Hz in Hyx.
Qed.

(** Two members with clashing keys are the same member. *)
Lemma distinct_unique p l :
  distinct clash l = true ->
  (forall x y, p x = true -> p y = true -> clash x y = true) ->
  (length (keep p l) <= 1)%nat.
Proof.
  intros Hd Hp. induction l as [|x l IH]; simpl; [lia|].
  apply distinct_cons in Hd as [Hx Hl]. destruct (p x) eqn:E; [|auto].
  simpl. replace (keep p l) with (@nil A); [simpl; lia|].
  symmetry. apply keep_nil_iff. intros y Hy. destruct (p y) eqn:Ey; [|done].
  specialize (Hx y Hy). rewrite Hp in Hx; done.
Qed.

Lemma keep_unique p l x : distinct clash l = true -> x ∈ l -> p x = true ->
  (forall y z, p y = true -> p z = true -> clash y z = true) -> keep p l = [x].
Proof.
  intros Hd Hx Hp Hc. pose proof (distinct_unique p l Hd Hc) as Hl.
  assert (x ∈ keep p l) as Hk by (by apply elem_of_keep).
  destruct (keep p l) as [|y [|z k]]; simpl in Hl; [by apply elem_of_nil in Hk| |lia].
  by apply list_elem_of_singleton in Hk as ->.
Qed.

(** Rows that clash when they share a key have different keys. *)
Lemma distinct_NoDup {K} (key : A -> K) l :
  (forall x y, key x = key y -> clash x y = true) -> distinct clash l = true -> NoDup (map key l).
Proof.
  intros Hk. induction l as [|x l IH]; [constructor|]. rewrite distinct_cons. intros [Hx Hl]. simpl.
  apply list.NoDup_cons. split; [|auto]. intros (y & Hy & Hin)%list_elem_of_fmap.
  specialize (Hx y Hin). by rewrite Hk in Hx.
Qed.
End distinct.

End list_facts.

(** Lists filtered by a partial function. *)
Lemma omap_cons {A B} (f : A -> option B) x (l : list A) :
  omap f (x :: l) = match f x with Some y => y :: omap f l | None => omap f l end.
Proof. done. Qed.

Lemma omap_map {B C D} (f : B -> C) (g : C -> option D) (l : list B) : omap g (map f l) = omap (fun x => g (f x)) l.
Proof. induction l as [|x l IH]; [done|]. simpl. destruct (g (f x)); [f_equal|]; exact IH. Qed.
Lemma omap_all {B} (l : list B) : omap Some l = l.
Proof. induction l as [|x l IH]; [done|]. simpl. f_equal. exact IH. Qed.
Lemma omap_none {B C} (l : list B) : omap (fun _ : B => @None C) l = [].
Proof. induction l as [|x l IH]; [done|]. exact IH. Qed.

Lemma omap_omap {A B C} (f : A -> option B) (g : B -> option C) (l : list A) :
  omap g (omap f l) = omap (fun x => f x ≫= g) l.
Proof.
  induction l as [|x l IH]; [done|]. simpl. destruct (f x) as [b|]; simpl; [|exact IH].
  destruct (g b); [|exact IH]. f_equal. exact IH.
Qed.

Lemma count_omap_le {A B} (f : A -> option B) (p : B -> bool) l : (count p (omap f l) <= 1)%nat <->
  (forall i j x y a b, i <> j -> l !! i = Some x -> l !! j = Some y -> f x = Some a -> f y = Some b ->
    p a = true -> p b = true -> False).
Proof.
  unfold count. induction l as [|z l IH]; [split; [done|simpl; lia]|].
  assert (forall k : list B, (length k <= 0)%nat <-> k = []) as Hnil.
  { intros [|u k]; simpl; [done|]. split; [lia|done]. }
  assert ((length (keep p (omap f l)) <= 0)%nat <->
    (forall j y b, l !! j = Some y -> f y = Some b -> p b = false)) as Hz.
  { rewrite Hnil, keep_nil_iff. setoid_rewrite list_elem_of_omap. setoid_rewrite list_elem_of_lookup. naive_solver. }
  simpl. destruct (f z) as [c|] eqn:Ez; [destruct (p c) eqn:Ep|]; simpl; rewrite ?Ep; simpl;
    change (list_omap A B f l) with (omap f l).
  2,3: rewrite IH; split;
    [intros Hl [|i] [|j] x y a b Hij; simpl; intros; simplify_eq; try congruence; by eapply (Hl i j); [congruence|..]
    |intros Hl i j x y a b Hij Hx Hy; apply (Hl (S i) (S j)); [congruence|done..]].
  - split.
    + intros Hl. assert (length (keep p (omap f l)) <= 0)%nat as H0' by lia. rewrite Hz in H0'.
      intros [|i] [|j] x y a b Hij Hx Hy Ha Hb Hpa Hpb; simplify_eq/=.
      * by rewrite (H0' j y b) in Hpb.
      * by rewrite (H0' i x a) in Hpa.
      * by rewrite (H0' i x a) in Hpa.
    + intros Hl. assert (length (keep p (omap f l)) <= 0)%nat; [|lia]. apply Hz. intros j y b Hy Hb.
      destruct (p b) eqn:Eb; [|done]. by destruct (Hl 0%nat (S j) z y c b).
Qed.

Lemma omap_ext_in {B C} (f g : B -> option C) (l : list B) : (forall b, b ∈ l -> f b = g b) -> omap f l = omap g l.
Proof.
  induction l as [|b l IH]; intros Hfg; [done|]. rewrite !omap_cons, (Hfg b) by (by left).
  rewrite IH; [done|]. intros c Hc. apply Hfg. by right.
Qed.

Lemma omap_nothing {B C} (f : B -> option C) (l : list B) : (forall b, b ∈ l -> f b = None) -> omap f l = [].
Proof.
  induction l as [|b l IH]; intros Hf; [done|]. rewrite omap_cons, (Hf b) by (by left).
  apply IH. intros c Hc. apply Hf. by right.
Qed.

Lemma omap_same {B C} (f g : B -> option C) (l : list B) :
  (forall i b, l !! i = Some b -> f b = g b) -> omap f l = omap g l.
Proof. intros Hf. apply omap_ext_in. intros b [i Hi]%list_elem_of_lookup. by eapply Hf. Qed.

Lemma keep_omap {B C} (f : B -> option C) (p : C -> bool) (l : list B) :
  keep p (omap f l) = omap (fun b => f b ≫= fun c => if p c then Some c else None) l.
Proof.
  induction l as [|b l IH]; [done|]. rewrite !omap_cons. destruct (f b) as [c|]; simpl; [|done].
  destruct (p c); [by f_equal|done].
Qed.

(** The elements that satisfy a predicate after those that do not. *)
Lemma keep_split {B} (p : B -> bool) (l : list B) : l ≡ₚ keep (fun b => negb (p b)) l ++ keep p l.
Proof.
  induction l as [|b l IH]; [done|]. simpl. destruct (p b); simpl; [|by f_equiv].
  rewrite <- Permutation_middle. by f_equiv.
Qed.

Lemma distinct_map {B C} (f : B -> C) (cb : B -> B -> bool) cc l : (forall x y, cc (f x) (f y) = cb x y) ->
  distinct cb l = true -> distinct cc (map f l) = true.
Proof.
  intros Hf. induction l as [|x l IH]; [done|]. simpl map. rewrite !distinct_cons. intros [Hx Hl]. split; [|auto].
  intros y (z & -> & Hz)%list_elem_of_fmap. rewrite Hf. by apply Hx.
Qed.

(** An element of the right list of [Forall2] has a partner on the left. *)
Lemma Forall2_elem_r {A B} (R : A -> B -> Prop) l k y :
  Forall2 R l k -> y ∈ k -> exists x, x ∈ l /\ R x y.
Proof.
  induction 1 as [|x y' l k Hxy _ IH]; intros Hy; [by apply elem_of_nil in Hy|].
  apply elem_of_cons in Hy as [->|Hy].
  - exists x. split; [by left|done].
  - destruct (IH Hy) as (z & Hz & HR). exists z. split; [by right|done].
Qed.

(** And conversely. *)
Lemma Forall2_elem_l {A B} (R : A -> B -> Prop) l k x :
  Forall2 R l k -> x ∈ l -> exists y, y ∈ k /\ R x y.
Proof. intros Hr Hx. apply (Forall2_elem_r (flip R) k l x); [by apply Forall2_flip|done]. Qed.

(** Membership in a concatenation, as a boolean. *)
Lemma bool_decide_app {A} `{EqDecision A} (x : A) l k :
  bool_decide (x ∈ l ++ k) = bool_decide (x ∈ l) || bool_decide (x ∈ k).
Proof. apply eq_bool_prop_intro. by rewrite orb_True, !bool_decide_spec, elem_of_app. Qed.

Create HintDb store discriminated.
#[export] Hint Resolve distinct_keep : store.

(** ** Tactics *)

(** Split the innermost match of the goal or of a hypothesis. *)
Ltac split_match :=
  match goal with
  | |- context [match ?x with _ => _ end] => destruct x eqn:?
  | H : context [match ?x with _ => _ end] |- _ => destruct x eqn:?
  end.

(** Turn boolean equations of the context into propositions. *)
Ltac booleans :=
  repeat match goal with
  | H : (_ && _) = true |- _ => apply andb_true_iff in H as [? ?]
  | H : (_ || _) = false |- _ => apply orb_false_iff in H as [? ?]
  | H : negb _ = true |- _ => apply negb_true_iff in H
  | H : negb _ = false |- _ => apply negb_false_iff in H
  | H : bool_decide _ = true |- _ => apply bool_decide_eq_true in H
  | H : bool_decide _ = false |- _ => apply bool_decide_eq_false in H
  end.

(** Take apart the successful steps of a sequence of outcomes. *)
Ltac res_steps :=
  repeat match goal with
  | H : res_bind _ _ = Ok _ |- _ => apply res_bind_Ok in H as (? & ? & H)
  | H : res_map _ _ = Ok _ |- _ => apply res_map_Ok in H as (? & ? & H)
  end.
