(* ===== verification/Driver.v ===== *)
(** * Database access layer (store/postgresql/base_db.go, tx.go)

    [conn] is what one goroutine sees of the databases: the committed content
    of the master, the content of the read-only replica, and the transaction
    it has open, if any.  The environment decides at every driver call whether
    it fails ([fault_at]) and what the clock shows ([utc]).  On top of the
    [database/sql] calls stand the wrappers of the source: [Retry],
    [RetryTransaction], [BaseDB.Exec], [BaseDB.Query], [BaseDB.QueryRow],
    [BaseDB.Begin], [BaseTx.Commit], [BaseTx.Rollback] and
    [processWithTransaction].  The second half is the refinement theory the
    components use: [Implements m p] says that the transaction body [m]
    behaves like the pure program [p]. *)
From stdpp Require Import base list strings relations gmap.
From Stdlib Require Import ZArith Lia Ascii.
From S2P Require Import Prelude.
Open Scope Z_scope.

(** ** The environment *)

(** What can go wrong with a driver call: it fails before the server did
    anything, the server did its work but the reply was lost, or the result
    set breaks after some rows. *)
Inductive fault :=
| FailBefore (e : error)
| FailAfter (e : error)
| FailRows (n : nat) (e : error).

Definition fault_error (f : fault) : error :=
  match f with FailBefore e => e | FailAfter e => e | FailRows _ e => e end.

Class Env := {
  fault_at : nat -> option fault;  (* imposed on the k-th driver call *)
  utc : nat -> Z;                  (* microseconds, at the k-th driver call *)
  session_tz : Z                   (* offset of the server session's zone *)
}.

(** Functions of packages of polarismesh/polaris the store calls. *)
Class PolarisApi := {
  status_text : StatusCode -> string -> string;   (* Error() of a status error *)
  store_Error : error -> error;                   (* store.Error on non-nil errors *)
  store_Code : error -> StatusCode;               (* store.Code *)
  LocalHost : string;                             (* utils.LocalHost *)
  IsWildName : string -> bool;
  IsPrefixWildName : string -> bool;
  ParseWildNameForSql : string -> string;
  MustJson_set : gset string -> string;           (* utils.MustJson on a set *)
  Unmarshal_set : string -> gset string;          (* json.Unmarshal into a set, error ignored *)
  MustJson_map : gmap string string -> string;
  Unmarshal_map : string -> res (gmap string string)
}.

(** [err.Error()]. *)
Definition Error `{PolarisApi} (e : error) : string :=
  match e with
  | EMsg s => s
  | ENoRows => "sql: no rows in result set"
  | ETxDone => "sql: transaction has already been committed or rolled back"
  | EDriver s => s
  | EStatus code s => status_text code s
  end.

(** ** Connection state *)

Inductive txstatus := TxOpen | TxAborted | TxDone.

#[export] Instance txstatus_eq_dec : EqDecision txstatus.
Proof. solve_decision. Defined.

Record conn (D : Type) := Conn {
  committed : D;
  replica : D;
  work : D;          (* content the open transaction works on *)
  txst : txstatus;
  tx_now : Z;        (* CURRENT_TIMESTAMP of the open transaction *)
  calls : nat;       (* driver calls issued so far *)
  slept : Z          (* milliseconds slept between retries *)
}.
Arguments Conn {D}. Arguments committed {D}. Arguments replica {D}.
Arguments work {D}. Arguments txst {D}. Arguments tx_now {D}.
Arguments calls {D}. Arguments slept {D}.

Definition tick {D} (c : conn D) : conn D :=
  Conn (committed c) (replica c) (work c) (txst c) (tx_now c) (S (calls c)) (slept c).
Definition sleep {D} (ms : Z) (c : conn D) : conn D :=
  Conn (committed c) (replica c) (work c) (txst c) (tx_now c) (calls c) (slept c + ms).
Definition set_txst {D} (s : txstatus) (c : conn D) : conn D :=
  Conn (committed c) (replica c) (work c) s (tx_now c) (calls c) (slept c).
Definition set_work {D} (d : D) (c : conn D) : conn D :=
  Conn (committed c) (replica c) d (txst c) (tx_now c) (calls c) (slept c).
Definition set_committed {D} (d : D) (c : conn D) : conn D :=
  Conn d (replica c) (work c) (txst c) (tx_now c) (calls c) (slept c).
Definition open_tx {D} (now : Z) (c : conn D) : conn D :=
  Conn (committed c) (replica c) (committed c) TxOpen now (calls c) (slept c).

(** A connection on which no transaction was opened yet. *)
Definition fresh {D} (d : D) : conn D := Conn d d d TxDone 0 O 0.

(** A call: it ends with an outcome and leaves a new state. *)
Definition M (D A : Type) : Type := conn D -> res A * conn D.

Definition Ret {D A} (a : A) : M D A := fun c => (Ok a, c).
Definition Fail {D A} (e : error) : M D A := fun c => (Err e, c).
Definition Bind {D A B} (m : M D A) (f : A -> M D B) : M D B := fun c =>
  match m c with
  | (Ok a, c') => f a c'
  | (Err e, c') => (Err e, c')
  | (Panic w, c') => (Panic w, c')
  end.

Notation "x <- m ;; k" := (Bind m (fun x => k))
  (at level 100, m at next level, right associativity) : store_scope.
Notation "m ;;; k" := (Bind m (fun _ => k))
  (at level 100, right associativity) : store_scope.
Open Scope store_scope.

(** A pure outcome as a call. *)
Definition lift {D A} (r : res A) : M D A := fun c => (r, c).

(** Drop the value: [_, err = ...; return err]. *)
Definition void {D A} (m : M D A) : M D unit := Bind m (fun _ => Ret tt).

(** Run [m] and turn its error, if any, with [f]. *)
Definition map_err {D A} (f : error -> error) (m : M D A) : M D A := fun c =>
  match m c with
  | (Err e, c') => (Err (f e), c')
  | rc => rc
  end.

(** Pure programs on the content of the database; the first argument is the
    transaction's CURRENT_TIMESTAMP. *)
Definition P (D A : Type) : Type := Z -> D -> res (A * D).

Definition p_ret {D A} (a : A) : P D A := fun _ d => Ok (a, d).
Definition p_lift {D A} (r : res A) : P D A := fun _ d => res_map (fun a => (a, d)) r.
Definition p_bind {D A B} (p : P D A) (f : A -> P D B) : P D B := fun now d =>
  res_bind (p now d) (fun ad => f (fst ad) now (snd ad)).
Definition p_void {D A} (p : P D A) : P D unit := p_bind p (fun _ => p_ret tt).
Definition p_map_err {D A} (f : error -> error) (p : P D A) : P D A := fun now d =>
  match p now d with Err e => Err (f e) | r => r end.
Definition p_read {D A} (f : D -> res A) : P D A := fun _ d => res_map (fun a => (a, d)) (f d).

(** A result set: the rows delivered and the error [rows.Err()] reports. *)
Record rows (R : Type) := Rows { r_data : list R; r_err : option error }.
Arguments Rows {R}. Arguments r_data {R}. Arguments r_err {R}.

(** [rows.Scan] of a nullable column into a Go string. *)
Definition scan_string (o : option string) : res string :=
  match o with
  | Some s => Ok s
  | None => Err (EMsg "sql: Scan error: converting NULL to string is unsupported")
  end.

(** The usual fetch function: scan every row, then look at [rows.Err()]. *)
Fixpoint scan_all {R A} (scan : R -> res A) (l : list R) : res (list A) :=
  match l with
  | [] => Ok []
  | r :: l' => res_bind (scan r) (fun a => res_map (cons a) (scan_all scan l'))
  end.

Definition fetch_rows {R A} (scan : R -> res A) (rs : rows R) : res (list A) :=
  res_bind (scan_all scan (r_data rs)) (fun l =>
    match r_err rs with Some e => Err e | None => Ok l end).

(** [Row.Scan]: the error of the result set comes before its first row. *)
Definition first_row {R} (rs : rows R) : res R :=
  match r_err rs, r_data rs with
  | Some e, _ => Err e
  | None, x :: _ => Ok x
  | None, [] => Err ENoRows
  end.

Definition ErrTxIsNil : error := EMsg "tx is nil".

Definition aborted_error : error :=
  EDriver "pq: current transaction is aborted, commands ignored until end of transaction block".
Definition failed_commit_error : error :=
  EDriver "pq: Could not complete operation in a failed transaction".

Section driver.
Context `{Env} `{PolarisApi} {D : Type}.
Implicit Types c : conn D.

(** *** database/sql *)

(** CURRENT_TIMESTAMP as the server evaluates it at the current call. *)
Definition current_timestamp (c : conn D) : Z := utc (calls c) + session_tz.

Definition BeginTx : M D unit := fun c =>
  match fault_at (calls c) with
  | Some f => (Err (fault_error f), tick c)
  | None => (Ok tt, tick (open_tx (current_timestamp c) c))
  end.

(** A statement in the open transaction.  Any failure aborts it. *)
Definition tx_Exec {A} (f : P D A) : M D A := fun c =>
  match txst c with
  | TxDone => (Err ETxDone, c)
  | TxAborted => (Err aborted_error, tick c)
  | TxOpen =>
      match fault_at (calls c) with
      | Some (FailBefore e) | Some (FailAfter e) => (Err e, set_txst TxAborted (tick c))
      | _ =>
          match f (tx_now c) (work c) with
          | Ok (a, d') => (Ok a, set_work d' (tick c))
          | Err e => (Err e, set_txst TxAborted (tick c))
          | Panic w => (Panic w, tick c)
          end
      end
  end.

(** [tx.Prepare] of a statement whose text the server accepts. *)
Definition tx_Prepare : M D unit := tx_Exec (p_ret tt).

(** [tx.Prepare] followed by [stmt.Exec]. *)
Definition stmt_Exec {A} (f : P D A) : M D A := tx_Prepare ;;; tx_Exec f.

(** [tx.Query]: a fault may cut the result set short. *)
Definition tx_Query {R} (sel : Z -> D -> res (list R)) : M D (rows R) := fun c =>
  match txst c, fault_at (calls c) with
  | TxOpen, Some (FailRows n e) =>
      (res_map (fun l => Rows (take n l) (Some e)) (sel (tx_now c) (work c)),
       set_txst TxAborted (tick c))
  | _, _ => tx_Exec (fun now d => res_map (fun l => (Rows l None, d)) (sel now d)) c
  end.

(** [BaseTx.Commit]. *)
Definition Commit : M D unit := fun c =>
  match txst c with
  | TxDone => (Err ETxDone, c)
  | TxAborted => (Err failed_commit_error, set_txst TxDone (tick c))
  | TxOpen =>
      match fault_at (calls c) with
      | Some (FailBefore e) | Some (FailRows _ e) => (Err e, set_txst TxDone (tick c))
      | Some (FailAfter e) => (Err e, set_txst TxDone (set_committed (work c) (tick c)))
      | None => (Ok tt, set_txst TxDone (set_committed (work c) (tick c)))
      end
  end.

(** [BaseTx.Rollback]. *)
Definition Rollback : M D unit := fun c =>
  match txst c with
  | TxDone => (Err ETxDone, c)
  | _ =>
      (match fault_at (calls c) with Some f => Err (fault_error f) | None => Ok tt end,
       set_txst TxDone (tick c))
  end.

(** *** Retry *)

Definition errMsg : list string := ["Deadlock"; "bad connection"; "invalid connection"]%string.
Definition maxTryTimes : nat := 20.

Definition repeated (e : error) : bool := existsb (str_contains (Error e)) errMsg.

(** The loop of [Retry] from iteration [i], [left] iterations after it. *)
Fixpoint retry_loop {A} (left : nat) (i : Z) (handle : M D A) : M D A := fun c =>
  match handle c with
  | (Err e, c') =>
      if repeated e then
        match left with
        | O => (Err e, sleep (5 * i) c')
        | S left' => retry_loop left' (i + 1) handle (sleep (5 * i) c')
        end
      else (Err e, c')
  | rc => rc
  end.

Definition Retry {A} (handle : M D A) : M D A := retry_loop (maxTryTimes - 1) 1 handle.

(** [RetryTransaction] returns the error of the last attempt. *)
Definition RetryTransaction {A} (handle : M D A) : M D A := Retry handle.

(** *** BaseDB *)

(** [DB.Exec] of the embedded [sql.DB]: one auto-committed statement. *)
Definition DB_Exec {A} (f : P D A) : M D A := fun c =>
  match fault_at (calls c) with
  | Some (FailBefore e) | Some (FailRows _ e) => (Err e, tick c)
  | Some (FailAfter e) =>
      match f (current_timestamp c) (committed c) with
      | Ok (_, d') => (Err e, set_committed d' (tick c))
      | _ => (Err e, tick c)
      end
  | None =>
      match f (current_timestamp c) (committed c) with
      | Ok (a, d') => (Ok a, set_committed d' (tick c))
      | Err e => (Err e, tick c)
      | Panic w => (Panic w, tick c)
      end
  end.

(** [DB.Prepare] of a statement whose text the server accepts. *)
Definition DB_Prepare : M D unit := fun c =>
  match fault_at (calls c) with
  | Some f => (Err (fault_error f), tick c)
  | None => (Ok tt, tick c)
  end.

(** [BaseDB.Exec], retried. *)
Definition Exec {A} (f : P D A) : M D A := Retry (DB_Exec f).

(** [BaseDB.Query] on the database [view] shows (master or slave). *)
Definition Query {R} (view : conn D -> D) (sel : Z -> D -> res (list R)) : M D (rows R) :=
  Retry (fun c =>
    match fault_at (calls c) with
    | Some (FailBefore e) | Some (FailAfter e) => (Err e, tick c)
    | Some (FailRows n e) =>
        (res_map (fun l => Rows (take n l) (Some e)) (sel (current_timestamp c) (view c)), tick c)
    | None => (res_map (fun l => Rows l None) (sel (current_timestamp c) (view c)), tick c)
    end).

(** [BaseDB.QueryRow] followed by [Scan], which runs the query to completion
    and reports its error. *)
Definition QueryRow {R} (view : conn D -> D) (sel : Z -> D -> res (list R)) : M D R :=
  rs <- Query view sel ;;
  lift (first_row rs).

(** [DB.QueryRow(...).Scan] of the embedded [sql.DB]: no retry. *)
Definition DB_QueryRow {R} (view : conn D -> D) (sel : Z -> D -> res (list R)) : M D R := fun c =>
  match fault_at (calls c) with
  | Some f => (Err (fault_error f), tick c)
  | None =>
      (l <-? sel (current_timestamp c) (view c) ;;
       match l with x :: _ => Ok x | [] => Err ENoRows end, tick c)
  end.

(** [time.Now()], in UTC. *)
Definition time_Now : M D Z := fun c => (Ok (utc (calls c)), c).

(** Go on after an error, which is only logged. *)
Definition ignore_error {A} (m : M D A) : M D unit := fun c =>
  match m c with
  | (Panic w, c') => (Panic w, c')
  | (_, c') => (Ok tt, c')
  end.

(** [tx.QueryRow(...).Scan]. *)
Definition tx_QueryRow {R} (sel : Z -> D -> res (list R)) : M D R :=
  rs <- tx_Query sel ;;
  lift (first_row rs).

(** [BaseDB.Begin]. *)
Definition Begin : M D unit := Retry BeginTx.

(** Run [handle] with [defer func() { _ = tx.Rollback() }()] pending. *)
Definition defer_rollback {A} (handle : M D A) : M D A := fun c =>
  let '(r, c') := handle c in (r, snd (Rollback c')).

Definition processWithTransaction {A} (handle : M D A) : M D A :=
  Begin ;;; defer_rollback handle.

(** *** The slave *)

(** A call on the slave handle: there the replica is what transactions read
    and write. *)
Definition swap_dbs (c : conn D) : conn D :=
  Conn (replica c) (committed c) (work c) (txst c) (tx_now c) (calls c) (slept c).

Definition on_slave {A} (m : M D A) : M D A := fun c =>
  let '(r, c') := m (swap_dbs c) in (r, swap_dbs c').

(** *** Transactions of the caller *)

(** The transaction an operation is handed; [None] is a nil one. *)
Definition with_tx {A} (tx : option unit) (m : M D A) : M D A :=
  match tx with None => Fail ErrTxIsNil | Some _ => m end.

(** A call whose error lands in the variable a deferred function looks at:
    the transaction is rolled back before the error is returned.  Calls in an
    [if _, err := ...] shadow that variable and leave the transaction open. *)
Definition rolls_back {A} (m : M D A) : M D A := fun c =>
  match m c with
  | (Ok a, c') => (Ok a, c')
  | (Err e, c') => (Err e, snd (Rollback c'))
  | (Panic w, c') => (Panic w, snd (Rollback c'))
  end.

(** The last statement of such an operation. *)
Definition commit_tx : M D unit := map_err store_Error (rolls_back Commit).
End driver.

(** [stmt, err := tx.Prepare(...)] whose error nobody looks at: the statement
    is nil then, and its [Exec] panics. *)
Definition or_nil_stmt {D} (m : M D unit) : M D unit := fun c =>
  match m c with
  | (Err _, c') => (Panic "invalid memory address or nil pointer dereference", c')
  | rc => rc
  end.

(** ** Refinement of transaction bodies by pure programs *)

(** No fault is ever injected. *)
Definition reliable `{Env} : Prop := forall k, fault_at k = None.

(** What a transaction body may change: only the working copy. *)
Definition same_but_work {D} (c c' : conn D) : Prop :=
  committed c' = committed c /\ replica c' = replica c /\ tx_now c' = tx_now c.

#[export] Instance same_but_work_preorder {D} : PreOrder (@same_but_work D).
Proof. split; [by intros c|]. intros a b c (?&?&?) (?&?&?). repeat split; congruence. Qed.

(** [m], run in an open transaction, only touches the working copy; when it
    succeeds [p] describes its effect; and in an environment without faults it
    does exactly what [p] does. *)
Class Implements `{Env} {D A} (m : M D A) (p : P D A) : Prop := {
  impl_frame : forall c r c', m c = (r, c') -> same_but_work c c';
  impl_sound : forall c a c', m c = (Ok a, c') -> txst c = TxOpen ->
    p (tx_now c) (work c) = Ok (a, work c') /\ txst c' = TxOpen;
  impl_exact : forall c, reliable -> txst c = TxOpen ->
    fst (m c) = res_map fst (p (tx_now c) (work c))
}.
#[export] Hint Mode Implements - - - ! - : typeclass_instances.

(** The possible results of one transaction that runs [p] on the committed
    content [d] and then commits.  After an error the content is the old one,
    except when the commit took effect and only its reply was lost. *)
Definition tx_outcome {D A} (p : P D A) (d : D) (r : res A) (d' : D) : Prop :=
  match r with
  | Ok a => exists now, p now d = Ok (a, d')
  | Err _ => d' = d \/ exists now a, p now d = Ok (a, d')
  | Panic _ => d' = d
  end.

(** One effective run of [p]. *)
Definition commits {D A} (p : P D A) (d d' : D) : Prop := exists now a, p now d = Ok (a, d').

(** Results of a retried transaction: earlier attempts may have committed
    without their reply arriving. *)
Definition retried_outcome {D A} (p : P D A) (d : D) (r : res A) (d' : D) : Prop :=
  exists d1, rtc (commits p) d d1 /\ tx_outcome p d1 r d'.

Lemma Bind_Ok {D A B} (m : M D A) (f : A -> M D B) c b c' :
  Bind m f c = (Ok b, c') <-> exists a c1, m c = (Ok a, c1) /\ f a c1 = (Ok b, c').
Proof. unfold Bind. destruct (m c) as [[a|e|w] c1]; naive_solver. Qed.

Section refinement.
Context `{Env} `{PolarisApi} {D : Type}.
Implicit Types c : conn D.

#[export] Instance impl_ret {A} (a : A) : Implements (D:=D) (Ret a) (p_ret a).
Proof.
  split; [intros c r c' [= <- <-]; reflexivity| |done].
  by intros c a' c' [= <- <-].
Qed.

#[export] Instance impl_fail {A} (e : error) : Implements (D:=D) (A:=A) (Fail e) (fun _ _ => Err e).
Proof. split; [intros c r c' [= <- <-]; reflexivity|by intros c a' c' [=]|done]. Qed.

#[export] Instance impl_lift {A} (r : res A) : Implements (D:=D) (lift r) (p_lift r).
Proof.
  split; [intros c r' c' [= <- <-]; reflexivity| |].
  - intros c a c' [= -> <-]. done.
  - intros c _ _. by destruct r.
Qed.

#[export] Instance impl_bind {A B} (m : M D A) (f : A -> M D B) p q :
  Implements m p -> (forall a, Implements (f a) (q a)) -> Implements (Bind m f) (p_bind p q).
Proof.
  intros [Fm Sm Xm] Hf. split.
  - intros c r c'. unfold Bind. destruct (m c) as [[a|e|w] c1] eqn:E; intros Hr; simplify_eq.
    + destruct (Hf a) as [Ff _ _]. etrans; eauto.
    + eauto.
    + eauto.
  - intros c b c'. unfold Bind. destruct (m c) as [[a|e|w] c1] eqn:E; [|done..].
    intros Hr Ho. destruct (Hf a) as [_ Sf _]. destruct (Fm _ _ _ E) as (_ & _ & Hn).
    destruct (Sm _ _ _ E Ho) as [Hp Ho1]. destruct (Sf _ _ _ Hr Ho1) as [Hq Ho2].
    unfold p_bind. rewrite Hp. simpl. rewrite <- Hn. done.
  - intros c Hr Ho. unfold Bind, p_bind. pose proof (Xm c Hr Ho) as Hx.
    destruct (m c) as [[a|e|w] c1] eqn:E; simpl in Hx.
    + destruct (Hf a) as [_ _ Xf]. destruct (Fm _ _ _ E) as (_ & _ & Hn).
      destruct (Sm _ _ _ E Ho) as [Hp Ho1]. rewrite Hp. simpl.
      rewrite (Xf c1 Hr Ho1), Hn. done.
    + by destruct (p (tx_now c) (work c)) as [[]| |]; simplify_eq/=.
    + by destruct (p (tx_now c) (work c)) as [[]| |]; simplify_eq/=.
Qed.

#[export] Instance impl_map_err {A} f (m : M D A) p :
  Implements m p -> Implements (map_err f m) (p_map_err f p).
Proof.
  intros [Fm Sm Xm]. split.
  - intros c r c'. unfold map_err. destruct (m c) as [[a|e|w] c1] eqn:E; intros; simplify_eq;
      eauto.
  - intros c a c'. unfold map_err. destruct (m c) as [[a1|e|w] c1] eqn:E; intros; simplify_eq.
    unfold p_map_err. destruct (Sm _ _ _ E) as [-> ?]; done.
  - intros c Hr Ho. unfold map_err, p_map_err. pose proof (Xm c Hr Ho) as Hx.
    destruct (m c) as [[a|e|w] c1], (p (tx_now c) (work c)) as [[]| |]; simplify_eq/=; done.
Qed.

#[export] Instance impl_tx_Exec {A} (p : P D A) : Implements (tx_Exec p) p.
Proof.
  split.
  - intros c r c'. unfold tx_Exec. intros Hr.
    repeat (case_match; simplify_eq; try done).
  - intros c a c' Hr Ho. unfold tx_Exec in Hr. rewrite Ho in Hr.
    repeat (case_match; simplify_eq; try done).
  - intros c Hr Ho. unfold tx_Exec. rewrite Ho, (Hr (calls c)).
    by destruct (p (tx_now c) (work c)) as [[]| |].
Qed.

#[export] Instance impl_tx_Prepare : Implements (D:=D) tx_Prepare (p_ret tt).
Proof. apply impl_tx_Exec. Qed.

#[export] Instance impl_or_nil_stmt : Implements (D:=D) (or_nil_stmt tx_Prepare) (p_ret tt).
Proof.
  destruct impl_tx_Prepare as [F S X]. unfold or_nil_stmt. split.
  - intros c r c'. destruct (tx_Prepare c) as [[a|e|w] c1] eqn:E; intros [= _ <-]; by eapply F.
  - intros c a c'. destruct (tx_Prepare c) as [[b|e|w] c1] eqn:E; intros [= <- <-]. by eapply S.
  - intros c Hr Ho. specialize (X c Hr Ho). destruct (tx_Prepare c) as [[b|e|w] c1]; by simplify_eq/=.
Qed.

#[export] Instance impl_stmt_Exec {A} (p : P D A) : Implements (stmt_Exec p) p.
Proof.
  destruct (impl_bind tx_Prepare (fun _ => tx_Exec p) (p_ret tt) (fun _ => p)) as [F S X]; [apply _..|].
  split; [exact F|exact S|exact X].
Qed.

#[global] Typeclasses Opaque stmt_Exec.

#[export] Instance impl_void {A} (m : M D A) p : Implements m p -> Implements (void m) (p_void p).
Proof. intros. unfold void, p_void. apply _. Qed.

#[export] Instance impl_if {A} (b : bool) (m1 m2 : M D A) p1 p2 :
  Implements m1 p1 -> Implements m2 p2 ->
  Implements (if b then m1 else m2) (if b then p1 else p2).
Proof. by destruct b. Qed.

#[export] Instance impl_option {A X} (o : option X) (m1 : X -> M D A) (m2 : M D A) p1 p2 :
  (forall x, Implements (m1 x) (p1 x)) -> Implements m2 p2 ->
  Implements (match o with Some x => m1 x | None => m2 end)
             (match o with Some x => p1 x | None => p2 end).
Proof. by destruct o. Qed.

(** A query whose rows go through a [fetch] that honours [rows.Err()]. *)
Definition err_checking {R A} (fetch : rows R -> res A) : Prop :=
  forall l e, is_Ok (fetch (Rows l (Some e))) = false.

Lemma impl_tx_fetch {R A} (sel : Z -> D -> res (list R)) (fetch : rows R -> res A) :
  err_checking fetch ->
  Implements (l <- tx_Query sel ;; lift (fetch l))
    (fun now d => l <-? sel now d ;; res_map (fun a => (a, d)) (fetch (Rows l None))).
Proof.
  intros Hf. split.
  - intros c r c'. unfold Bind, lift, tx_Query, tx_Exec. intros Hr.
    repeat (case_match; simplify_eq; try done).
  - intros c a c' Hr Ho. unfold Bind, lift, tx_Query, tx_Exec in Hr. rewrite Ho in Hr.
    destruct (fault_at (calls c)) as [[e|e|n e]|]; simpl in Hr; [done|done| |];
      destruct (sel (tx_now c) (work c)) as [l|e'|w] eqn:E; simplify_eq/=.
    + specialize (Hf (take n l) e). by rewrite H1 in Hf.
    + rewrite H1. done.
  - intros c Hr Ho. unfold Bind, lift, tx_Query, tx_Exec. rewrite Ho, (Hr (calls c)).
    destruct (sel (tx_now c) (work c)) as [l|e'|w] eqn:E; simplify_eq/=; [|done..].
    by destruct (fetch (Rows l None)).
Qed.

#[export] Instance impl_tx_QueryRow {R} (sel : Z -> D -> res (list R)) :
  Implements (tx_QueryRow sel)
    (fun now d => l <-? sel now d ;; res_map (fun a => (a, d)) (first_row (Rows l None))).
Proof. by apply impl_tx_fetch. Qed.

(** *** Retry *)

(** A failed attempt that is going to be repeated. *)
Definition attempt_failed {A} (handle : M D A) (c c' : conn D) : Prop :=
  exists e c1 i, handle c = (Err e, c1) /\ repeated e = true /\ c' = sleep (5 * i) c1.

Lemma retry_loop_spec {A} (handle : M D A) left i c r c' :
  retry_loop left i handle c = (r, c') ->
  exists k c1 c2 ms, (k <= left)%nat /\ nsteps (attempt_failed handle) k c c1 /\ handle c1 = (r, c2) /\
    c' = sleep ms c2 /\ (forall e, r = Err e -> repeated e = true -> k = left).
Proof.
  assert (forall c, c = sleep 0 c) as Hz
    by (intros [???????]; unfold sleep; simpl; f_equal; lia).
  revert i c. induction left as [|left IH]; intros i c Hr; simpl in Hr;
    destruct (handle c) as [[a|e|w] c1] eqn:E; try destruct (repeated e) eqn:Er; simplify_eq.
  all: try (exists O, c; eexists _, 0; split_and!;
    [lia|apply nsteps_O|exact E|apply Hz|intros; simplify_eq; congruence]).
  - exists O, c, c1, (5 * i). split_and!; [lia|apply nsteps_O|exact E|done|done].
  - apply IH in Hr as (k & c2 & c3 & ms & Hk & Hn & Hh & -> & Hl).
    exists (S k), c2, c3, ms. split_and!; [lia| |done|done|].
    + eapply nsteps_l; [|done]. by exists e, c1, i.
    + intros e' He Hre. by rewrite (Hl e' He Hre).
Qed.

Lemma Retry_spec {A} (handle : M D A) c r c' :
  Retry handle c = (r, c') ->
  exists k c1 c2 ms, (k < maxTryTimes)%nat /\ nsteps (attempt_failed handle) k c c1 /\
    handle c1 = (r, c2) /\ c' = sleep ms c2.
Proof.
  intros (k & c1 & c2 & ms & Hk & Hs & Hh & Hc & _)%retry_loop_spec.
  exists k, c1, c2, ms. unfold maxTryTimes in *. split; [lia|done].
Qed.

(** A call that cannot fail with an error that is repeated runs once. *)
Lemma Retry_once {A} (handle : M D A) c r c' :
  handle c = (r, c') -> (forall e, r = Err e -> repeated e = false) ->
  Retry handle c = (r, c').
Proof.
  intros Hh Hr. unfold Retry, maxTryTimes. simpl. rewrite Hh.
  destruct r as [a|e|w]; [done| |done]. by rewrite (Hr e).
Qed.

Lemma Retry_Ok {A} (handle : M D A) c a c' :
  Retry handle c = (Ok a, c') -> exists c1 c2, handle c1 = (Ok a, c2).
Proof. intros (k & c1 & c2 & ms & _ & _ & Hh & _)%Retry_spec. eauto. Qed.

(** A relation every attempt and every pause respects is respected by the
    whole retried call. *)
Lemma Retry_rel {A} (R : relation (conn D)) `{!PreOrder R} (handle : M D A) :
  (forall c r c', handle c = (r, c') -> R c c') -> (forall c ms, R c (sleep ms c)) ->
  forall c r c', Retry handle c = (r, c') -> R c c'.
Proof.
  intros Hh Hs c r c' (k & c1 & c2 & ms & _ & Hn & H1 & ->)%Retry_spec.
  etrans; [|apply Hs]. etrans; [|by eapply Hh]. clear H1.
  induction Hn as [c|k c x c1 (e & x1 & i & Hx & _ & ->) _ IH]; [done|].
  etrans; [by eapply Hh|]. etrans; [apply Hs|done].
Qed.

(** *** Transactions *)

Lemma Rollback_frame c :
  committed (snd (Rollback c)) = committed c /\ replica (snd (Rollback c)) = replica c /\
  tx_now (snd (Rollback c)) = tx_now c /\ work (snd (Rollback c)) = work c /\
  txst (snd (Rollback c)) = TxDone.
Proof. unfold Rollback. destruct (txst c) eqn:E; simpl; auto. Qed.

Definition same_dbs (c c' : conn D) : Prop :=
  committed c' = committed c /\ replica c' = replica c.

#[export] Instance same_dbs_preorder : PreOrder same_dbs.
Proof. split; [by intros c|]. intros a b c [??] [??]. split; congruence. Qed.

Lemma Begin_spec c r c' :
  Begin c = (r, c') ->
  same_dbs c c' /\ (forall w, r <> Panic w) /\
  (r = Ok tt -> txst c' = TxOpen /\ work c' = committed c).
Proof.
  intros Hr.
  assert (same_dbs c c') as Hsame.
  { eapply (Retry_rel same_dbs); [|done|exact Hr].
    intros c0 r0 c0'. unfold BeginTx. intros. case_match; by simplify_eq. }
  apply Retry_spec in Hr as (k & c1 & c2 & ms & _ & _ & Hb & ->).
  split; [done|]. unfold BeginTx in Hb. destruct (fault_at (calls c1)); simplify_eq; [done|].
  split; [done|]. intros _. split; [done|]. by destruct Hsame.
Qed.

Lemma defer_rollback_eq {A} (m : M D A) c r c' :
  defer_rollback m c = (r, c') ->
  exists c1, m c = (r, c1) /\ committed c' = committed c1 /\ replica c' = replica c1 /\
    txst c' = TxDone.
Proof.
  unfold defer_rollback. destruct (m c) as [r1 c1] eqn:E. intros. simplify_eq.
  destruct (Rollback_frame c1) as (?&?&?&?&?). eauto 10.
Qed.

(** The body followed by the commit: the shape of the handlers. *)
Definition then_commit {A} (body : M D A) : M D A := a <- body ;; Commit ;;; Ret a.

(** [defer func() { _ = tx.Commit() }()] *)
Definition defer_commit {A} (m : M D A) : M D A := fun c =>
  let '(r, c') := m c in (r, snd (Commit c')).

(** The same with the error of the commit turned by [f]. *)
Definition commit_with {A} (f : error -> error) (body : M D A) : M D A :=
  a <- body ;; map_err f Commit ;;; Ret a.

Lemma then_commit_spec {A} (body : M D A) p `{!Implements body p} c r c' :
  txst c = TxOpen -> work c = committed c -> then_commit body c = (r, c') ->
  tx_outcome p (committed c) r (committed c') /\ replica c' = replica c.
Proof.
  intros Ho Hw. destruct Implements0 as [Fm Sm _]. unfold then_commit, Bind, Ret.
  destruct (body c) as [[a|e|w] c1] eqn:E; intros Hr;
    destruct (Fm _ _ _ E) as (Hc & Hre & Hn); simplify_eq/=; auto.
  destruct (Sm _ _ _ E Ho) as [Hp Ho1]. unfold Commit in Hr. rewrite Ho1, Hw in *.
  destruct (fault_at (calls c1)) as [[e|e|n e]|]; simplify_eq/=; eauto 10.
Qed.

Lemma process_spec {A} (body : M D A) p `{!Implements body p} c r c' :
  processWithTransaction (then_commit body) c = (r, c') ->
  tx_outcome p (committed c) r (committed c') /\ replica c' = replica c.
Proof.
  unfold processWithTransaction, Bind.
  destruct (Begin c) as [[[]|e|w] c1] eqn:E; intros Hr;
    destruct (Begin_spec _ _ _ E) as ([Hc Hre] & Hw & Ho).
  - destruct (Ho eq_refl) as [Ho1 Hw1].
    apply defer_rollback_eq in Hr as (c2 & Hb & -> & -> & _).
    rewrite <- Hc, <- Hre. apply (then_commit_spec body p); congruence.
  - simplify_eq. simpl. auto.
  - simplify_eq. by edestruct Hw.
Qed.

Lemma retry_process_spec {A} (body : M D A) p `{!Implements body p} c r c' :
  RetryTransaction (processWithTransaction (then_commit body)) c = (r, c') ->
  retried_outcome p (committed c) r (committed c') /\ replica c' = replica c.
Proof.
  intros (k & c1 & c2 & ms & _ & Hn & Hp & ->)%Retry_spec. simpl.
  enough (rtc (commits p) (committed c) (committed c1) /\ replica c1 = replica c) as [Hs Hr].
  { apply (process_spec body p) in Hp as [Ho ?]. split; [by eexists|congruence]. }
  clear Hp. induction Hn as [c|k c x c1 (e & x1 & i & Hx & _ & ->) _ [IH1 IH2]].
  { split; [apply rtc_refl|done]. }
  apply (process_spec body p) in Hx as [[Hd|(now & a & Hd)] Hr]; simpl in *; rewrite IH2.
  - split; congruence.
  - split; [|done]. eapply rtc_l; [|exact IH1]. by exists now, a.
Qed.

(** Invariants of the content every effective run preserves. *)
Lemma tx_outcome_inv {A} (I : D -> Prop) (p : P D A) d r d' :
  (forall now x a y, I x -> p now x = Ok (a, y) -> I y) ->
  I d -> tx_outcome p d r d' -> I d'.
Proof. intros Hp Hd. destruct r; simpl; [naive_solver|intros [->|(?&?&?)]; eauto|by intros ->]. Qed.

Lemma rtc_commits_inv {A} (I : D -> Prop) (p : P D A) d d' :
  (forall now x a y, I x -> p now x = Ok (a, y) -> I y) ->
  I d -> rtc (commits p) d d' -> I d'.
Proof. intros Hp Hd Hs. induction Hs as [|x y z (now & a & Hy) _ IH]; eauto. Qed.

Lemma retried_outcome_inv {A} (I : D -> Prop) (p : P D A) d r d' :
  (forall now x a y, I x -> p now x = Ok (a, y) -> I y) ->
  I d -> retried_outcome p d r d' -> I d'.
Proof.
  intros Hp Hd (d1 & Hs & Ho). eapply tx_outcome_inv; [done| |done].
  by eapply rtc_commits_inv.
Qed.

(** A preorder every effective run respects relates the contents before and
    after. *)
Lemma retried_outcome_rel {A} (R : relation D) `{!PreOrder R} (p : P D A) d r d' :
  (forall now x a y, p now x = Ok (a, y) -> R x y) -> retried_outcome p d r d' -> R d d'.
Proof.
  intros Hp. apply (retried_outcome_inv (R d)); [|done].
  intros now x a y Hx Hy. etrans; eauto.
Qed.

(** The last effective run of a successful call. *)
Lemma retried_outcome_Ok {A} (p : P D A) d a d' :
  retried_outcome p d (Ok a) d' ->
  exists d1 now, rtc (commits p) d d1 /\ p now d1 = Ok (a, d').
Proof. intros (d1 & Hs & now & Hp). eauto. Qed.

(** When no run can succeed on the content, nothing changes. *)
Lemma retried_outcome_stuck {A} (p : P D A) d r d' :
  (forall now, is_Ok (p now d) = false) -> retried_outcome p d r d' ->
  d' = d /\ is_Ok r = false.
Proof.
  intros Hp (d1 & Hs & Ho).
  assert (d1 = d) as ->.
  { destruct Hs as [|x y z (now & a & Hy) _]; [done|]. specialize (Hp now). by rewrite Hy in Hp. }
  destruct r as [a|e|w]; simpl in *.
  - destruct Ho as [now Hn]. specialize (Hp now). by rewrite Hn in Hp.
  - destruct Ho as [|(now & a & Hn)]; [done|]. specialize (Hp now). by rewrite Hn in Hp.
  - done.
Qed.

(** *** Transactions of the caller *)

#[export] Instance impl_rolls_back {A} (m : M D A) p : Implements m p -> Implements (rolls_back m) p.
Proof.
  intros [Fm Sm Xm]. split.
  - intros c r c'. unfold rolls_back. destruct (m c) as [[a|e|w] c1] eqn:E; intros; simplify_eq;
      [by eapply Fm|..]; (etrans; [by eapply Fm|]);
      by destruct (Rollback_frame c1) as (? & ? & ? & _).
  - intros c a c'. unfold rolls_back. destruct (m c) as [[a1|e|w] c1] eqn:E; intros; simplify_eq. eauto.
  - intros c Hr Ho. rewrite <- (Xm c Hr Ho). unfold rolls_back. by destruct (m c) as [[]].
Qed.

(** What committing the caller's transaction after [p] can lead to. *)
Definition finish_outcome {A} (p : P D A) c (r : res A) (d' : D) : Prop :=
  match r with
  | Ok a => p (tx_now c) (work c) = Ok (a, d')
  | Err _ => d' = committed c \/ exists a, p (tx_now c) (work c) = Ok (a, d')
  | Panic _ => d' = committed c
  end.

Lemma finish_spec (body : M D unit) p `{!Implements body p} c r c' :
  txst c = TxOpen -> Bind body (fun _ => commit_tx) c = (r, c') ->
  finish_outcome p c r (committed c') /\ replica c' = replica c /\
  (reliable -> r = Ok tt <-> exists d', p (tx_now c) (work c) = Ok (tt, d')).
Proof.
  intros Ho. destruct Implements0 as [Fm Sm Xm]. unfold Bind.
  destruct (body c) as [[[]|e|w] c1] eqn:E; intros Hr; destruct (Fm _ _ _ E) as (Hc & Hre & Hn).
  2-3: simplify_eq; simpl; split_and!; auto; intros Hrel; pose proof (Xm c Hrel Ho) as Hx;
    rewrite E in Hx; simpl in Hx; split; [done|]; intros [d' Hd]; by rewrite Hd in Hx.
  destruct (Sm _ _ _ E Ho) as [Hp Ho1].
  unfold commit_tx, map_err, rolls_back, Commit in Hr. rewrite Ho1 in Hr.
  destruct (fault_at (calls c1)) as [[e|e|n e]|] eqn:Ef; simplify_eq/=; split_and!; eauto.
  all: intros Hrel; pose proof (Hrel (calls c1)) as Hf; rewrite Ef in Hf; try done; split; by eauto.
Qed.

Lemma tx_Query_reliable {R} (sel : Z -> D -> res (list R)) c l : reliable ->
  txst c = TxOpen -> sel (tx_now c) (work c) = Ok l ->
  tx_Query sel c = (Ok (Rows l None), set_work (work c) (tick c)).
Proof.
  intros Hr Ho Hs. unfold tx_Query, tx_Exec. rewrite Ho, (Hr (calls c)), Hs. done.
Qed.

(** Without faults a transaction does exactly what its body describes. *)
Lemma Begin_reliable c : reliable ->
  Begin c = (Ok tt, tick (open_tx (current_timestamp c) c)).
Proof. intros Hr. apply Retry_once; [unfold BeginTx; by rewrite (Hr (calls c))|done]. Qed.

Lemma process_exact {A} (body : M D A) p `{!Implements body p} c : reliable ->
  fst (processWithTransaction (then_commit body) c) =
    res_map fst (p (current_timestamp c) (committed c)).
Proof.
  intros Hr. destruct Implements0 as [Fm Sm Xm].
  unfold processWithTransaction, Bind, defer_rollback, then_commit. rewrite Begin_reliable by done.
  set (c0 := tick (open_tx (current_timestamp c) c)).
  pose proof (Xm c0 Hr eq_refl) as Hx. unfold Bind, Ret.
  change (tx_now c0) with (current_timestamp c) in Hx. change (work c0) with (committed c) in Hx.
  destruct (body c0) as [[a|e|w] c1] eqn:E; simpl in Hx |- *; [|by rewrite <- Hx..].
  destruct (Sm _ _ _ E eq_refl) as [_ Ho]. unfold Commit. rewrite Ho, (Hr (calls c1)). done.
Qed.

Lemma retry_process_exact {A} (body : M D A) p `{!Implements body p} c : reliable ->
  (forall e, fst (processWithTransaction (then_commit body) c) = Err e -> repeated e = false) ->
  fst (RetryTransaction (processWithTransaction (then_commit body)) c) =
    res_map fst (p (current_timestamp c) (committed c)).
Proof.
  intros Hr He. unfold RetryTransaction.
  rewrite <- (process_exact body p c Hr) in *.
  destruct (processWithTransaction (then_commit body) c) as [r c'] eqn:E.
  rewrite (Retry_once _ _ _ _ E); [done|]. intros e ->. by apply He.
Qed.

(** *** Queries outside transactions *)

(** The database a query reads: the master or the replica. *)
Class DbView (view : conn D -> D) : Prop :=
  db_view : forall c c', same_dbs c c' -> view c' = view c.

#[export] Instance committed_view : DbView committed.
Proof. by intros c c' [? _]. Qed.
#[export] Instance replica_view : DbView replica.
Proof. by intros c c' [_ ?]. Qed.

Lemma Query_then {R A} view (sel : Z -> D -> res (list R)) (k : rows R -> M D A) c l : reliable ->
  sel (current_timestamp c) (view c) = Ok l ->
  Bind (Query view sel) k c = k (Rows l None) (tick c).
Proof.
  intros Hr Hs. unfold Bind. replace (Query view sel c) with (@Ok (rows R) (Rows l None), tick c); [done|].
  symmetry. apply Retry_once; [|done]. by rewrite (Hr (calls c)), Hs.
Qed.

Lemma fetch_rows_Ok {R A} (scan : R -> res A) l out :
  Forall2 (fun r a => scan r = Ok a) l out -> fetch_rows scan (Rows l None) = Ok out.
Proof.
  intros Hs. unfold fetch_rows. simpl.
  assert (scan_all scan l = Ok out) as ->; [|done].
  induction Hs as [|r a l out Hr _ IH]; [done|]. simpl. by rewrite Hr, IH.
Qed.

Lemma fetch_rows_one {R A} (scan : R -> res A) r a :
  scan r = Ok a -> fetch_rows scan (Rows [r] None) = Ok [a].
Proof. intros Hs. apply fetch_rows_Ok. constructor; [done|constructor]. Qed.

Lemma fetch_rows_map {R A} (scan : R -> res A) (f : R -> A) l :
  (forall r, r ∈ l -> scan r = Ok (f r)) -> fetch_rows scan (Rows l None) = Ok (map f l).
Proof.
  intros Hs. apply fetch_rows_Ok. induction l as [|r l IH]; simpl; constructor; [apply Hs; by left|].
  apply IH. intros x Hx. apply Hs. by right.
Qed.

Lemma Bind_run {A B} (m : M D A) (f : A -> M D B) c a c1 :
  m c = (Ok a, c1) -> Bind m f c = f a c1.
Proof. unfold Bind. by intros ->. Qed.

Lemma Query_frame {R} view (sel : Z -> D -> res (list R)) c r c' :
  Query view sel c = (r, c') -> same_dbs c c'.
Proof.
  apply (Retry_rel same_dbs); [|done].
  intros c0 r0 c0'. intros. repeat case_match; by simplify_eq.
Qed.

Lemma Query_Ok {R} view `{!DbView view} (sel : Z -> D -> res (list R)) c rs c' :
  Query view sel c = (Ok rs, c') ->
  same_dbs c c' /\ exists now l, sel now (view c) = Ok l /\
    (rs = Rows l None \/ exists n e, rs = Rows (take n l) (Some e)).
Proof.
  intros Hr. split; [by eapply Query_frame|].
  apply Retry_spec in Hr as (k & c1 & c2 & ms & _ & Hn & Hq & ->).
  assert (same_dbs c c1) as Hs.
  { clear Hq. induction Hn as [c|k c x c1 (e & x1 & i & Hx & _ & ->) _ IH]; [done|].
    etrans; [|exact IH]. repeat case_match; by simplify_eq. }
  rewrite <- (db_view _ _ Hs).
  destruct (fault_at (calls c1)) as [[e|e|n e]|]; [done|done|..];
    apply (f_equal fst) in Hq; simpl in Hq; apply res_map_Ok in Hq as (l & Hl & <-); eauto 10.
Qed.

Lemma Query_reliable {R} view (sel : Z -> D -> res (list R)) c l : reliable ->
  sel (current_timestamp c) (view c) = Ok l ->
  Query view sel c = (Ok (Rows l None), tick c).
Proof.
  intros Hr Hs. apply Retry_once; [|done]. by rewrite (Hr (calls c)), Hs.
Qed.

Lemma fetch_rows_err_checking {R A} (scan : R -> res A) : err_checking (fetch_rows scan).
Proof. intros l e. unfold fetch_rows. simpl. by destruct (scan_all scan l). Qed.

Lemma scan_all_Ok {R A} (scan : R -> res A) l out :
  scan_all scan l = Ok out <-> Forall2 (fun r a => scan r = Ok a) l out.
Proof.
  revert out. induction l as [|r l IH]; intros out; simpl.
  - split; [intros [= <-]; constructor|by inversion 1].
  - rewrite res_bind_Ok. setoid_rewrite res_map_Ok. split.
    + intros (a & Ha & l' & Hl & <-). constructor; [done|by apply IH].
    + inversion 1; subst. eexists. split; [done|]. eexists. rewrite IH. done.
Qed.

(** A query whose rows are fetched with a check of [rows.Err()] delivers
    either an error or the complete result. *)
Lemma Query_fetch_Ok {R A} view `{!DbView view} (sel : Z -> D -> res (list R))
    (fetch : rows R -> res A) c a c' :
  err_checking fetch -> Bind (Query view sel) (fun rs => lift (fetch rs)) c = (Ok a, c') ->
  same_dbs c c' /\ exists now l, sel now (view c) = Ok l /\ fetch (Rows l None) = Ok a.
Proof.
  intros Hf. unfold Bind, lift. destruct (Query view sel c) as [[rs|e|w] c1] eqn:E; [|done..].
  intros [= Hr <-]. apply Query_Ok in E as (Hs & now & l & Hl & Hrs); [|done].
  destruct Hrs as [->|(n & e & ->)].
  - eauto 10.
  - specialize (Hf (take n l) e). by rewrite Hr in Hf.
Qed.

Lemma Query_fetch_then_Ok {R A B} view `{!DbView view} (sel : Z -> D -> res (list R))
    (fetch : rows R -> res A) (k : A -> M D B) c b c' :
  err_checking fetch ->
  Bind (Query view sel) (fun rs => Bind (lift (fetch rs)) k) c = (Ok b, c') ->
  exists a c1, same_dbs c c1 /\ k a c1 = (Ok b, c') /\
    exists now l, sel now (view c) = Ok l /\ fetch (Rows l None) = Ok a.
Proof.
  intros Hf Hr. unfold Bind in Hr. unfold lift in Hr.
  destruct (Query view sel c) as [[rs|e|w] c1] eqn:E; [|done..].
  destruct (fetch rs) as [a|e|w] eqn:Ef; [|done..].
  destruct (Query_fetch_Ok view sel fetch c a c1) as [Hs Hl]; [done| |eauto 10].
  unfold Bind, lift. by rewrite E, Ef.
Qed.

Lemma Query_fetch_frame {R A} view (sel : Z -> D -> res (list R)) (fetch : rows R -> res A) c r c' :
  Bind (Query view sel) (fun rs => lift (fetch rs)) c = (r, c') -> same_dbs c c'.
Proof.
  unfold Bind, lift. destruct (Query view sel c) as [[rs|e|w] c1] eqn:E; intros;
    simplify_eq; by eapply Query_frame.
Qed.

(** A query the server refuses. *)
Lemma Query_refused {R} view (sel : Z -> D -> res (list R)) c r c' :
  (forall now d, is_Ok (sel now d) = false) -> Query view sel c = (r, c') -> is_Ok r = false.
Proof.
  intros Hs (k & c1 & c2 & ms & _ & _ & Hq & _)%Retry_spec. revert Hq.
  specialize (Hs (current_timestamp c1) (view c1)).
  destruct (sel _ _); [done|..]; destruct (fault_at (calls c1)) as [[]|]; by intros [= <- _].
Qed.

(** A transaction on the replica whose query the server refuses. *)
Lemma slave_refused {R A} g g' (sel : Z -> D -> res (list R)) (k : rows R -> M D A) c r c' :
  (forall now d, exists e, sel now d = Err e) ->
  on_slave (Bind (map_err g Begin) (fun _ => defer_commit (Bind (map_err g' (tx_Query sel)) k))) c = (r, c') ->
  is_Ok r = false /\ same_dbs c c'.
Proof.
  intros Hs. unfold on_slave, Bind, map_err.
  destruct (Begin (swap_dbs c)) as [[[]|e|w] c1] eqn:E;
    destruct (Begin_spec _ _ _ E) as ([Hc Hre] & Hw & Ho); simpl in Hc, Hre.
  - destruct (Ho eq_refl) as [Ho1 Hw1]. destruct (Hs (tx_now c1) (work c1)) as [e He].
    unfold defer_commit, Bind, map_err, tx_Query, tx_Exec. rewrite Ho1, He.
    destruct (fault_at (calls c1)) as [[]|]; intros [= <- <-]; (split; [done|]);
      unfold Commit; simpl; by split.
  - intros [= <- <-]. done.
  - by edestruct Hw.
Qed.

Lemma first_row_err_checking {R} : err_checking (@first_row R).
Proof. done. Qed.

Lemma QueryRow_frame {R} view (sel : Z -> D -> res (list R)) c r c' :
  QueryRow view sel c = (r, c') -> same_dbs c c'.
Proof. apply Query_fetch_frame. Qed.

Lemma QueryRow_Ok {R} view `{!DbView view} (sel : Z -> D -> res (list R)) c x c' :
  QueryRow view sel c = (Ok x, c') ->
  same_dbs c c' /\ exists now l, sel now (view c) = Ok (x :: l).
Proof.
  intros Hr. apply Query_fetch_Ok in Hr as (Hs & now & l & Hl & Hf); [|done|apply first_row_err_checking].
  split; [done|]. exists now.
  destruct l as [|y l]; unfold first_row in Hf; simplify_eq/=. eauto.
Qed.
End refinement.

Arguments then_commit {_ _ _} body.
Arguments commit_with {_ _ _} f body.

(** ** Whole operations *)

(** [op], whatever faults occur, has the results of retried transactions that
    run [p]. *)
Class Refines `{Env} {D A} (op : M D A) (p : P D A) : Prop :=
  refines : forall c r c', op c = (r, c') ->
    retried_outcome p (committed c) r (committed c') /\ replica c' = replica c.
#[export] Hint Mode Refines - - - ! - : typeclass_instances.

(** [op] changes no database. *)
Class ReadOnly `{Env} {D A} (op : M D A) : Prop :=
  read_only : forall c r c', op c = (r, c') -> same_dbs c c'.
#[export] Hint Mode ReadOnly - - - ! : typeclass_instances.

(** [op] keeps the invariant [I] of the committed content. *)
Class Keeps `{Env} {D A} (I : D -> Prop) (op : M D A) : Prop :=
  keeps : forall c r c', op c = (r, c') -> I (committed c) -> I (committed c').
#[export] Hint Mode Keeps - - - ! ! : typeclass_instances.

Section operations.
Context `{Env} `{PolarisApi} {D : Type}.
Implicit Types c : conn D.

Lemma retried_outcome_refl {A} (p : P D A) d e : retried_outcome p d (Err e) d.
Proof. exists d. split; [apply rtc_refl|by left]. Qed.

Lemma retried_outcome_error {A} (p : P D A) d e e' d' :
  retried_outcome p d (Err e) d' -> retried_outcome p d (Err e') d'.
Proof. by intros (d1 & ? & ?); exists d1. Qed.

#[export] Instance refines_fail {A} e (p : P D A) : Refines (Fail e) p.
Proof. intros c r c' [= <- <-]. split; [apply retried_outcome_refl|done]. Qed.

#[export] Instance refines_process {A} (body : M D A) p :
  Implements body p -> Refines (processWithTransaction (then_commit body)) p.
Proof.
  intros Hb c r c' [Ho Hr]%(process_spec body p). split; [|done].
  exists (committed c). split; [apply rtc_refl|done].
Qed.

#[export] Instance refines_retry_process {A} (body : M D A) p :
  Implements body p -> Refines (RetryTransaction (processWithTransaction (then_commit body))) p.
Proof. intros Hb c r c'. by apply (retry_process_spec body p). Qed.

(** An auto-committed statement is a transaction of its own. *)
Lemma DB_Exec_spec {A} (f : P D A) c r c' : DB_Exec f c = (r, c') ->
  tx_outcome f (committed c) r (committed c') /\ replica c' = replica c.
Proof.
  unfold DB_Exec, tx_outcome.
  destruct (fault_at (calls c)) as [[e|e|n e]|]; [intros; simplify_eq; simpl; auto| |
    intros; simplify_eq; simpl; auto|];
    destruct (f (current_timestamp c) (committed c)) as [[a d']|e'|w] eqn:E; intros; simplify_eq; simpl; eauto.
Qed.

#[export] Instance refines_Exec {A} (f : P D A) : Refines (Exec f) f.
Proof.
  intros c r c' (k & c1 & c2 & ms & _ & Hn & Hh & ->)%Retry_spec. simpl.
  assert (rtc (commits f) (committed c) (committed c1) /\ replica c1 = replica c) as [Hs Hr].
  { clear Hh. induction Hn as [c|k c x c1 (e & x1 & i & Hx & _ & ->) _ [IH1 IH2]]; [split; [apply rtc_refl|done]|].
    apply DB_Exec_spec in Hx as [[Hd|(now & a & Hd)] Hr]; simpl in *; rewrite IH2.
    - split; congruence.
    - split; [|done]. eapply rtc_l; [|exact IH1]. by exists now, a. }
  apply DB_Exec_spec in Hh as [Ho ?]. split; [by exists (committed c1)|congruence].
Qed.

Lemma Exec_reliable {A} (f : P D A) c a d' : reliable ->
  f (current_timestamp c) (committed c) = Ok (a, d') ->
  Exec f c = (Ok a, set_committed d' (tick c)).
Proof. intros Hr Hf. apply Retry_once; [|done]. unfold DB_Exec. by rewrite (Hr (calls c)), Hf. Qed.

#[export] Instance refines_map_err {A} f (op : M D A) p : Refines op p -> Refines (map_err f op) p.
Proof.
  intros Ho c r c'. unfold map_err. destruct (op c) as [[a|e|w] c1] eqn:E; intros; simplify_eq;
    destruct (Ho _ _ _ E); [done| |done].
  split; [by eapply retried_outcome_error|done].
Qed.

#[export] Instance refines_if {A} (b : bool) (m1 m2 : M D A) p :
  Refines m1 p -> Refines m2 p -> Refines (if b then m1 else m2) p.
Proof. by destruct b. Qed.

(** Reading first does not change what a transaction does. *)
Lemma refines_after_read {A B} (m : M D B) (f : B -> M D A) p :
  ReadOnly m -> (forall b, Refines (f b) p) -> Refines (Bind m f) p.
Proof.
  intros Hm Hf c r c'. unfold Bind. destruct (m c) as [[b|e|w] c1] eqn:E; intros Hr;
    destruct (Hm _ _ _ E) as [Hc Hre].
  - destruct (Hf _ _ _ _ Hr). rewrite <- Hc, <- Hre. done.
  - simplify_eq. rewrite Hc. split; [apply retried_outcome_refl|done].
  - simplify_eq. rewrite Hc. split; [exists (committed c); split; [apply rtc_refl|done]|done].
Qed.

Lemma refines_rel {A} (R : relation D) `{!PreOrder R} (op : M D A) p c r c' :
  Refines op p -> op c = (r, c') ->
  (forall now x a y, p now x = Ok (a, y) -> R x y) -> R (committed c) (committed c').
Proof. intros Hp [Ho _]%Hp Hs. by eapply retried_outcome_rel. Qed.

(** A program that cannot succeed again on what it left. *)
Definition once {A} (p : P D A) : Prop :=
  forall now now' d a d1, p now d = Ok (a, d1) -> is_Ok (p now' d1) = false.

(** Such a program takes effect at most once, however often it is retried. *)
Lemma retried_once {A} (p : P D A) d r d' :
  once p -> retried_outcome p d r d' ->
  match r with
  | Ok a => exists now, p now d = Ok (a, d')
  | _ => d' = d \/ exists now a, p now d = Ok (a, d')
  end.
Proof.
  intros Hp (d1 & Hs & Ho).
  assert (d1 = d \/ exists now a, p now d = Ok (a, d1)) as Hd.
  { destruct Hs as [|x y z (now & a & Hy) Hs]; [by left|]. right.
    destruct Hs as [|y2 y3 z (now' & a' & Hy') _]; [eauto|].
    specialize (Hp now now' _ _ _ Hy). by rewrite Hy' in Hp. }
  destruct r as [a|e|w]; simpl in Ho.
  - destruct Ho as [now Ho]. destruct Hd as [->|(now' & a' & Hd)]; [eauto|].
    specialize (Hp now' now _ _ _ Hd). by rewrite Ho in Hp.
  - destruct Ho as [->|(now & a & Ho)]; [done|]. destruct Hd as [->|(now' & a' & Hd)]; [eauto|].
    specialize (Hp now' now _ _ _ Hd). by rewrite Ho in Hp.
  - by subst.
Qed.

(** *** Read-only operations *)

#[export] Instance read_ret {A} (a : A) : ReadOnly (D:=D) (Ret a).
Proof. by intros c r c' [= _ <-]. Qed.
#[export] Instance read_fail {A} e : ReadOnly (D:=D) (A:=A) (Fail e).
Proof. by intros c r c' [= _ <-]. Qed.
#[export] Instance read_lift {A} (x : res A) : ReadOnly (D:=D) (lift x).
Proof. by intros c r c' [= _ <-]. Qed.
#[export] Instance read_Query {R} view (sel : Z -> D -> res (list R)) : ReadOnly (Query view sel).
Proof. intros c r c'. apply Query_frame. Qed.
#[export] Instance read_QueryRow {R} view (sel : Z -> D -> res (list R)) : ReadOnly (QueryRow view sel).
Proof. intros c r c'. apply QueryRow_frame. Qed.

#[export] Instance read_DB_QueryRow {R} view (sel : Z -> D -> res (list R)) : ReadOnly (DB_QueryRow view sel).
Proof. intros c r c'. unfold DB_QueryRow. destruct (fault_at (calls c)); intros; by simplify_eq. Qed.
#[export] Instance read_time_Now : ReadOnly (D:=D) time_Now.
Proof. by intros c r c' [= _ <-]. Qed.

#[export] Instance read_bind {A B} (m : M D A) (f : A -> M D B) :
  ReadOnly m -> (forall a, ReadOnly (f a)) -> ReadOnly (Bind m f).
Proof.
  intros Hm Hf c r c'. unfold Bind. destruct (m c) as [[a|e|w] c1] eqn:E; intros Hr; simplify_eq.
  - destruct (Hm _ _ _ E), (Hf _ _ _ _ Hr). split; congruence.
  - by eapply Hm.
  - by eapply Hm.
Qed.

#[export] Instance read_map_err {A} f (m : M D A) : ReadOnly m -> ReadOnly (map_err f m).
Proof.
  intros Hm c r c'. unfold map_err. destruct (m c) as [[a|e|w] c1] eqn:E; intros; simplify_eq;
    by eapply Hm.
Qed.

#[export] Instance read_if {A} (b : bool) (m1 m2 : M D A) :
  ReadOnly m1 -> ReadOnly m2 -> ReadOnly (if b then m1 else m2).
Proof. by destruct b. Qed.

#[export] Instance read_option {A X} (o : option X) (m1 : X -> M D A) (m2 : M D A) :
  (forall x, ReadOnly (m1 x)) -> ReadOnly m2 ->
  ReadOnly (match o with Some x => m1 x | None => m2 end).
Proof. by destruct o. Qed.

#[export] Instance read_Retry {A} (m : M D A) : ReadOnly m -> ReadOnly (Retry m).
Proof. intros Hm c r c'. by apply (Retry_rel same_dbs). Qed.

(** *** Invariants *)

#[export] Instance keeps_read {A} I (op : M D A) : ReadOnly op -> Keeps I op | 10.
Proof. by intros Ho c r c' [-> _]%Ho. Qed.

Lemma keeps_refines {A} (I : D -> Prop) (op : M D A) p :
  Refines op p -> (forall now x a y, I x -> p now x = Ok (a, y) -> I y) -> Keeps I op.
Proof. intros Ho Hp c r c' [Hr _]%Ho Hi. by eapply retried_outcome_inv. Qed.

#[export] Instance keeps_bind {A B} I (m : M D A) (f : A -> M D B) :
  Keeps I m -> (forall a, Keeps I (f a)) -> Keeps I (Bind m f) | 20.
Proof.
  intros Hm Hf c r c'. unfold Bind. destruct (m c) as [[a|e|w] c1] eqn:E; intros Hr Hi; simplify_eq.
  - eapply Hf; [exact Hr|]. by eapply Hm.
  - by eapply Hm.
  - by eapply Hm.
Qed.

(** *** Without faults *)

(** One transaction: its effect when it succeeds, none when it fails. *)
Lemma process_reliable {A} (body : M D A) p `{!Implements body p} c r c' : reliable ->
  processWithTransaction (then_commit body) c = (r, c') ->
  match r with
  | Ok a => exists now, p now (committed c) = Ok (a, committed c')
  | _ => committed c' = committed c
  end.
Proof.
  intros Hr Hp. destruct (process_spec body p _ _ _ Hp) as [Ho _]. destruct r as [a|e|w]; [done| |done].
  destruct Ho as [|(now & a & Ho)]; [done|]. destruct Implements0 as [Fm Sm Xm].
  unfold processWithTransaction, Bind, then_commit in Hp. rewrite Begin_reliable in Hp by done.
  apply defer_rollback_eq in Hp as (c1 & Hp & -> & _ & _). unfold Bind, Ret in Hp.
  destruct (body _) as [[a'|e'|w] c2] eqn:E; [|destruct (Fm _ _ _ E); by simplify_eq/=..].
  destruct (Sm _ _ _ E eq_refl) as [_ Hopen]. unfold Commit in Hp.
  by rewrite Hopen, (Hr (calls c2)) in Hp.
Qed.

(** The timestamp of the one attempt. *)
Lemma process_reliable_Ok {A} (body : M D A) p `{!Implements body p} c a c' : reliable ->
  processWithTransaction (then_commit body) c = (Ok a, c') ->
  p (current_timestamp c) (committed c) = Ok (a, committed c') /\ replica c' = replica c.
Proof.
  intros Hr Hp. split; [|by apply (process_spec body p) in Hp as [_ ?]]. destruct Implements0 as [Fm Sm Xm].
  unfold processWithTransaction, Bind, then_commit in Hp. rewrite Begin_reliable in Hp by done.
  apply defer_rollback_eq in Hp as (c1 & Hp & -> & _ & _). unfold Bind, Ret in Hp.
  destruct (body _) as [[a'|e'|w] c2] eqn:E; [|done..].
  destruct (Sm _ _ _ E eq_refl) as [Hb Hopen]. unfold Commit in Hp.
  rewrite Hopen, (Hr (calls c2)) in Hp. simplify_eq. exact Hb.
Qed.

Lemma retry_process_reliable {A} (body : M D A) p `{!Implements body p} c r c' : reliable ->
  RetryTransaction (processWithTransaction (then_commit body)) c = (r, c') ->
  match r with
  | Ok a => exists now, p now (committed c) = Ok (a, committed c')
  | _ => committed c' = committed c
  end.
Proof.
  intros Hr (k & c1 & c2 & ms & _ & Hn & Hp & ->)%Retry_spec. simpl.
  assert (committed c1 = committed c) as Hc.
  { clear Hp. induction Hn as [c|k c x c1 (e & x1 & i & Hx & _ & ->) _ IH]; [done|].
    rewrite IH. by apply (process_reliable body p) in Hx. }
  apply (process_reliable body p) in Hp; [|done]. by rewrite Hc in Hp.
Qed.

(** A check of the result after the commit. *)
Lemma process_then {A B} (body : M D A) (g : A -> res B) c :
  processWithTransaction (Bind (then_commit body) (fun a => lift (g a))) c =
  Bind (processWithTransaction (then_commit body)) (fun a => lift (g a)) c.
Proof.
  unfold processWithTransaction, Bind at 1 3. unfold Bind at 2.
  destruct (Begin c) as [[[]|e|w] c1]; [|done..]. unfold defer_rollback, Bind, lift.
  destruct (then_commit body c1) as [[a|e|w] c2] eqn:E; [|done..].
  unfold then_commit, Bind, Ret in E. destruct (body c1) as [[a'|e|w] c3]; [|done..].
  assert (txst c2 = TxDone) as Hd.
  { unfold Commit in E. repeat (case_match; simplify_eq; try done). }
  unfold Rollback. by rewrite Hd.
Qed.
End operations.

(** ** Equality of pure programs *)

(** Two programs are equal when they agree on every timestamp and content. *)
Definition p_equiv {D A} (p q : P D A) : Prop := forall now d, p now d = q now d.
Infix "≡p" := p_equiv (at level 70) : store_scope.

#[export] Instance p_equiv_equivalence {D A} : Equivalence (@p_equiv D A).
Proof.
  split; [by intros p now d|by intros p q Hp now d|].
  intros p q r H1 H2 now d. by rewrite H1.
Qed.

#[export] Instance p_bind_proper {D A B} :
  Proper (p_equiv ==> pointwise_relation A p_equiv ==> p_equiv) (@p_bind D A B).
Proof.
  intros p q Hp f g Hf now d. unfold p_bind. rewrite Hp. destruct (q now d); simpl; [|done..].
  apply Hf.
Qed.

#[export] Instance p_map_err_proper {D A} f : Proper (p_equiv ==> p_equiv) (@p_map_err D A f).
Proof. intros p q Hp now d. unfold p_map_err. by rewrite Hp. Qed.

#[export] Instance implements_proper `{Env} {D A} (m : M D A) :
  Proper (p_equiv ==> iff) (Implements m).
Proof.
  intros p q Hp. split; intros [F S X]; split; auto.
  - intros c a c' Hm Ho. rewrite <- Hp. by apply S.
  - intros c Hr Ho. rewrite <- Hp. by apply X.
  - intros c a c' Hm Ho. rewrite Hp. by apply S.
  - intros c Hr Ho. rewrite Hp. by apply X.
Qed.

Lemma p_ret_bind {D A B} (a : A) (f : A -> P D B) : p_bind (p_ret a) f ≡p f a.
Proof. by intros now d. Qed.

Lemma p_bind_Ok {D A B} (p : P D A) (f : A -> P D B) now d b d' :
  p_bind p f now d = Ok (b, d') <-> exists a d1, p now d = Ok (a, d1) /\ f a now d1 = Ok (b, d').
Proof.
  unfold p_bind. rewrite res_bind_Ok. split.
  - intros ([a d1] & H1 & H2). eauto.
  - intros (a & d1 & H1 & H2). exists (a, d1). done.
Qed.

Lemma p_void_Ok {D A} (p : P D A) now d u d' :
  p_void p now d = Ok (u, d') <-> exists a, p now d = Ok (a, d').
Proof.
  unfold p_void. rewrite p_bind_Ok. unfold p_ret. split.
  - intros (a & d1 & H1 & H2). simplify_eq. eauto.
  - intros (a & H1). exists a, d'. by destruct u.
Qed.

Lemma p_map_err_Ok {D A} f (p : P D A) now d x :
  p_map_err f p now d = Ok x <-> p now d = Ok x.
Proof. unfold p_map_err. by destruct (p now d). Qed.

(** Dropping the value. *)
#[export] Instance refines_void `{Env} {D A} (op : M D A) p : Refines op p -> Refines (void op) (p_void p).
Proof.
  intros Ho c r c'. unfold void, Bind, Ret.
  destruct (op c) as [r1 c1] eqn:E. apply Ho in E as [(d1 & Hs & Hd) Hre].
  assert (rtc (commits (p_void p)) (committed c) d1) as Hs'.
  { eapply rtc_subrel; [|exact Hs]. intros x y (now & a & Hy). exists now, tt. apply p_void_Ok. by exists a. }
  destruct r1 as [a|e|w]; simpl in Hd; intros [= <- <-]; (split; [|done]); exists d1; (split; [done|]); simpl.
  - destruct Hd as [now Hd]. exists now. apply p_void_Ok. by exists a.
  - destruct Hd as [->|(now & a & Hd)]; [by left|right; exists now, tt; apply p_void_Ok; by exists a].
  - done.
Qed.

(** Replace the program of a body by an equal one. *)
Lemma impl_equiv `{Env} {D A} (m : M D A) (p q : P D A) :
  Implements m p -> p ≡p q -> Implements m q.
Proof. intros Hm Hp. by rewrite <- Hp. Qed.

(** [implement by p]: the body unfolds to a composition of calls whose
    programs are found by instance search; what remains is to show that
    their composition is the program wanted. *)
Ltac implement := eapply impl_equiv; [apply _|intros now d].

(** ** Bodies that look at the clock

    A body that reads [time.Now()] between its statements is not a function of
    the content; it is specified by a relation instead. *)

Class Does `{Env} {D A} (m : M D A) (R : Z -> D -> A -> D -> Prop) : Prop := {
  does_frame : forall c r c', m c = (r, c') -> same_but_work c c';
  does_sound : forall c a c', m c = (Ok a, c') -> txst c = TxOpen ->
    R (tx_now c) (work c) a (work c') /\ txst c' = TxOpen
}.
#[export] Hint Mode Does - - - ! - : typeclass_instances.

Definition r_bind {D A B} (R : Z -> D -> A -> D -> Prop) (S : A -> Z -> D -> B -> D -> Prop) :
    Z -> D -> B -> D -> Prop :=
  fun now d b d' => exists a d1, R now d a d1 /\ S a now d1 b d'.

(** One transaction, and a retried one, whose body does [R]. *)
Definition does_outcome {D A} (R : Z -> D -> A -> D -> Prop) (d : D) (r : res A) (d' : D) : Prop :=
  match r with
  | Ok a => exists now, R now d a d'
  | Err _ => d' = d \/ exists now a, R now d a d'
  | Panic _ => d' = d
  end.

Definition retried_does {D A} (R : Z -> D -> A -> D -> Prop) (d : D) (r : res A) (d' : D) : Prop :=
  exists d1, rtc (fun x y => exists now a, R now x a y) d d1 /\ does_outcome R d1 r d'.

Section does.
Context `{Env} `{PolarisApi} {D : Type}.
Implicit Types c : conn D.

#[export] Instance does_implements {A} (m : M D A) p :
  Implements m p -> Does m (fun now d a d' => p now d = Ok (a, d')) | 10.
Proof. intros [F S _]. by split. Qed.

Lemma does_bind {A B} (m : M D A) (f : A -> M D B) R S :
  Does m R -> (forall a, Does (f a) (S a)) -> Does (Bind m f) (r_bind R S).
Proof.
  intros [Fm Sm] Hf. split.
  - intros c r c'. unfold Bind. destruct (m c) as [[a|e|w] c1] eqn:E; intros Hr; simplify_eq.
    + destruct (Hf a) as [Ff _]. etrans; eauto.
    + eauto.
    + eauto.
  - intros c b c'. unfold Bind. destruct (m c) as [[a|e|w] c1] eqn:E; [|done..].
    intros Hr Ho. destruct (Hf a) as [_ Sf]. destruct (Fm _ _ _ E) as (_ & _ & Hn).
    destruct (Sm _ _ _ E Ho) as [Hp Ho1]. destruct (Sf _ _ _ Hr Ho1) as [Hq Ho2].
    split; [|done]. exists a, (work c1). rewrite <- Hn at 2. done.
Qed.

Lemma does_time_Now : Does (D:=D) time_Now (fun _ d _ d' => d' = d).
Proof. split; [by intros c r c' [= _ <-]|by intros c a c' [= _ <-]]. Qed.

(** A relation may be replaced by a weaker one. *)
Lemma does_weaken {A} (m : M D A) (R S : Z -> D -> A -> D -> Prop) :
  Does m R -> (forall now d a d', R now d a d' -> S now d a d') -> Does m S.
Proof.
  intros [F Sd] Hw. split; [done|]. intros c a c' Hm Ho. destruct (Sd c a c' Hm Ho). auto.
Qed.

(** Reading the clock: the rest does what it does for some time. *)
Lemma does_now {A} (f : Z -> M D A) (R : Z -> Z -> D -> A -> D -> Prop) :
  (forall t, Does (f t) (R t)) -> Does (Bind time_Now f) (fun now d a d' => exists t, R t now d a d').
Proof.
  intros Hf. eapply does_weaken; [apply (does_bind _ _ _ R does_time_Now Hf)|].
  intros now d a d' (t & d1 & -> & Hr). by exists t.
Qed.

(** A call without effect or result before the rest. *)
Lemma does_after_ret {A B} (m : M D B) b (f : M D A) (R : Z -> D -> A -> D -> Prop) :
  Implements m (p_ret b) -> Does f R -> Does (Bind m (fun _ => f)) R.
Proof.
  intros Hm Hf. eapply does_weaken; [apply (does_bind m (fun _ => f) (fun now d a d' => p_ret b now d = Ok (a, d')) (fun _ => R));
    [by apply does_implements|done]|].
  intros now d a d' (x & d1 & [= _ <-] & Hr). done.
Qed.

(** A body that cannot succeed. *)
Lemma does_never {A} (m : M D A) p : Implements m p -> (forall now d, is_Ok (p now d) = false) ->
  Does m (fun _ _ _ _ => False).
Proof.
  intros Hm Hp. eapply does_weaken; [by apply does_implements|]. intros now d a d' Ho.
  specialize (Hp now d). by rewrite Ho in Hp.
Qed.

Lemma does_then_never {A B} (m : M D A) (f : A -> M D B) R :
  Does m R -> (forall a, Does (f a) (fun _ _ _ _ => False)) -> Does (Bind m f) (fun _ _ _ _ => False).
Proof.
  intros Hm Hf. eapply does_weaken; [apply (does_bind m f R (fun _ _ _ _ _ => False) Hm Hf)|].
  by intros now d a d' (x & d1 & _ & ?).
Qed.

Lemma does_never_then {A B} (m : M D A) (f : A -> M D B) S :
  Does m (fun _ _ _ _ => False) -> (forall a, Does (f a) S) -> Does (Bind m f) (fun _ _ _ _ => False).
Proof.
  intros Hm Hf. eapply does_weaken; [apply (does_bind m f _ (fun _ => S) Hm Hf)|].
  by intros now d a d' (x & d1 & ? & _).
Qed.

Lemma process_does {A} (body : M D A) R `{!Does body R} c r c' :
  processWithTransaction (then_commit body) c = (r, c') ->
  does_outcome R (committed c) r (committed c') /\ replica c' = replica c.
Proof.
  destruct Does0 as [Fm Sm]. unfold processWithTransaction, Bind at 1.
  destruct (Begin c) as [[[]|e|w] c1] eqn:E; intros Hr;
    destruct (Begin_spec _ _ _ E) as ([Hc Hre] & Hw & Ho).
  - destruct (Ho eq_refl) as [Ho1 Hw1].
    apply defer_rollback_eq in Hr as (c2 & Hb & -> & -> & _). rewrite <- Hc, <- Hre.
    unfold then_commit, Bind, Ret in Hb.
    destruct (body c1) as [[a|e|w] c3] eqn:Eb; destruct (Fm _ _ _ Eb) as (F1 & F2 & F3);
      [|simplify_eq; simpl; rewrite F1; auto..].
    destruct (Sm _ _ _ Eb Ho1) as [Hp Ho3]. rewrite Hw1, <- Hc in Hp. unfold Commit in Hb. rewrite Ho3 in Hb.
    destruct (fault_at (calls c3)) as [[e|e|n e]|]; simplify_eq/=; rewrite ?F1, ?F2; eauto 10.
  - simplify_eq. simpl. auto.
  - simplify_eq. by edestruct Hw.
Qed.

(** A body that may also go on after a failed statement: the transaction is
    aborted then and its commit fails. *)
Lemma process_may_abort (body : M D unit) (R : Z -> D -> D -> Prop) c r c' :
  (forall c r c', body c = (r, c') -> same_but_work c c') ->
  (forall c c', body c = (Ok tt, c') -> txst c = TxOpen ->
     txst c' = TxAborted \/ (txst c' = TxOpen /\ R (tx_now c) (work c) (work c'))) ->
  processWithTransaction (then_commit body) c = (r, c') ->
  replica c' = replica c /\ (r = Ok tt -> exists now, R now (committed c) (committed c')) /\
  (committed c' = committed c \/ exists now, R now (committed c) (committed c')).
Proof.
  intros Fm Sm. unfold processWithTransaction, Bind at 1.
  destruct (Begin c) as [[[]|e|w] c1] eqn:E; intros Hr;
    destruct (Begin_spec _ _ _ E) as ([Hc Hre] & Hw & Ho);
    [|simplify_eq; split_and!; auto; done|by edestruct Hw].
  destruct (Ho eq_refl) as [Ho1 Hw1].
  apply defer_rollback_eq in Hr as (c2 & Hb & -> & -> & _). rewrite <- Hc, <- Hre.
  unfold then_commit, Bind, Ret in Hb.
  destruct (body c1) as [[[]|e|w] c3] eqn:Eb; destruct (Fm _ _ _ Eb) as (F1 & F2 & F3);
    [|simplify_eq; split_and!; auto; done..].
  unfold Commit in Hb. destruct (Sm _ _ Eb Ho1) as [Ha|[Ho3 Hp]].
  - rewrite Ha in Hb. simplify_eq/=. split_and!; auto; done.
  - rewrite Ho3 in Hb. rewrite Hw1, <- Hc in Hp.
    destruct (fault_at (calls c3)) as [[e|e|n e]|]; simplify_eq/=; split_and!; eauto 10; done.
Qed.

(** One attempt at something: all of it or nothing. *)
Definition attempt_does {A} (m : M D A) (R : Z -> D -> A -> D -> Prop) : Prop :=
  forall c r c', m c = (r, c') -> does_outcome R (committed c) r (committed c') /\ replica c' = replica c.

Lemma Retry_attempts {A} (m : M D A) R c r c' : attempt_does m R -> Retry m c = (r, c') ->
  retried_does R (committed c) r (committed c') /\ replica c' = replica c.
Proof.
  intros Hm (k & c1 & c2 & ms & _ & Hn & Hp & ->)%Retry_spec. simpl.
  enough (rtc (fun x y => exists now a, R now x a y) (committed c) (committed c1) /\ replica c1 = replica c) as [Hs Hr].
  { apply Hm in Hp as [Ho ?]. split; [by eexists|congruence]. }
  clear Hp. induction Hn as [c|k c x c1 (e & x1 & i & Hx & _ & ->) _ [IH1 IH2]].
  { split; [apply rtc_refl|done]. }
  apply Hm in Hx as [[Hd|(now & a & Hd)] Hr]; simpl in *; rewrite IH2.
  - split; congruence.
  - split; [|done]. eapply rtc_l; [|exact IH1]. by exists now, a.
Qed.

Lemma attempt_process {A} (body : M D A) R `{!Does body R} :
  attempt_does (processWithTransaction (then_commit body)) R.
Proof. intros c r c'. by apply process_does. Qed.

Lemma retry_process_does {A} (body : M D A) R `{!Does body R} c r c' :
  RetryTransaction (processWithTransaction (then_commit body)) c = (r, c') ->
  retried_does R (committed c) r (committed c') /\ replica c' = replica c.
Proof. by apply Retry_attempts, attempt_process. Qed.

(** Two outcomes that differ in the error only. *)
Definition same_shape {A} (r r' : res A) : Prop :=
  match r, r' with
  | Ok a, Ok b => a = b
  | Err _, Err _ | Panic _, Panic _ => True
  | _, _ => False
  end.

Lemma does_outcome_shape {A} (R : Z -> D -> A -> D -> Prop) d r r' d' :
  same_shape r r' -> does_outcome R d r d' -> does_outcome R d r' d'.
Proof. by destruct r, r'; simpl; intros; subst. Qed.

(** Handlers that turn the error of the commit. *)
Lemma attempt_commit_with {A} f (body : M D A) R `{!Does body R} :
  attempt_does (processWithTransaction (commit_with f body)) R.
Proof.
  intros c r c' Hr.
  assert (exists r0, processWithTransaction (then_commit body) c = (r0, c') /\ same_shape r0 r) as (r0 & H1 & H2).
  { unfold processWithTransaction in *. unfold Bind at 1. unfold Bind at 1 in Hr.
    destruct (Begin c) as [[[]|e|w] c1]; simplify_eq; [|by eexists..].
    unfold defer_rollback, then_commit, commit_with, Bind, map_err, Ret in *.
    destruct (body c1) as [[a|e|w] c2]; simplify_eq; [|by eexists..].
    destruct (Commit c2) as [[u|e|w] c3]; simplify_eq; by eexists. }
  apply (process_does body R) in H1 as [H1 Hre]. split; [by eapply does_outcome_shape|done].
Qed.

Lemma attempt_map_err {A} f (m : M D A) R : attempt_does m R -> attempt_does (map_err f m) R.
Proof.
  intros Hm c r c'. unfold map_err. destruct (m c) as [[a|e|w] c1] eqn:E; intros [= <- <-];
    destruct (Hm _ _ _ E) as [Ho Hre]; done.
Qed.

(** An auto-committed statement prepared first, with values from the clock. *)
Lemma attempt_DB_Exec {A} (p : Z -> P D A) :
  attempt_does (t <- time_Now ;; DB_Prepare ;;; DB_Exec (p t)) (fun now d a d' => exists t, p t now d = Ok (a, d')).
Proof.
  intros c r c'. unfold Bind, time_Now, DB_Prepare.
  destruct (fault_at (calls c)) as [fl|]; [intros; simplify_eq; simpl; auto|].
  intros [Ho Hre]%DB_Exec_spec. split; [|done]. simpl in Ho. unfold tx_outcome, does_outcome in *.
  destruct r; [destruct Ho as [now Ho]; eauto|destruct Ho as [->|(now & a & Ho)]; eauto 10|done].
Qed.

Lemma Retry_store_Error {A} g (m : M D A) R c r c' : attempt_does m R ->
  map_err g (RetryTransaction m) c = (r, c') ->
  retried_does R (committed c) r (committed c') /\ replica c' = replica c.
Proof.
  intros Hm. unfold map_err. destruct (RetryTransaction m c) as [r0 c0] eqn:E.
  apply (Retry_attempts m R) in E as [(d1 & Hs & Ho) Hre]; [|done].
  destruct r0; intros [= <- <-]; (split; [|done]); by exists d1.
Qed.

(** The same through [store.Error]. *)
Lemma map_err_retry_does {A} g (body : M D A) R `{!Does body R} c r c' :
  map_err g (RetryTransaction (processWithTransaction (then_commit body))) c = (r, c') ->
  retried_does R (committed c) r (committed c') /\ replica c' = replica c.
Proof. by apply Retry_store_Error, attempt_process. Qed.

(** A retried program is the relation of its successful runs. *)
Lemma retried_outcome_does {A} (p : P D A) (R : Z -> D -> A -> D -> Prop) d r d' :
  (forall now x a y, p now x = Ok (a, y) -> R now x a y) -> retried_outcome p d r d' -> retried_does R d r d'.
Proof.
  intros Hp (d1 & Hs & Ho). exists d1. split.
  - eapply rtc_subrel; [|exact Hs]. intros x y (now & a & Hy). exists now, a. auto.
  - destruct r as [a|e|w]; simpl in *; [destruct Ho as [now Ho]; eauto| |done].
    destruct Ho as [->|(now & a & Ho)]; eauto 10.
Qed.

Lemma retried_does_weaken {A} (R S : Z -> D -> A -> D -> Prop) d r d' :
  (forall now x a y, R now x a y -> S now x a y) -> retried_does R d r d' -> retried_does S d r d'.
Proof.
  intros Hp (d1 & Hs & Ho). exists d1. split.
  - eapply rtc_subrel; [|exact Hs]. intros x y (now & a & Hy). exists now, a. auto.
  - destruct r as [a|e|w]; simpl in *; [destruct Ho as [now Ho]; eauto| |done].
    destruct Ho as [->|(now & a & Ho)]; eauto 10.
Qed.

Lemma retried_does_inv {A} (I : D -> Prop) (R : Z -> D -> A -> D -> Prop) d r d' :
  (forall now x a y, I x -> R now x a y -> I y) -> I d -> retried_does R d r d' -> I d'.
Proof.
  intros Hp Hd (d1 & Hs & Ho).
  assert (I d1) as Hd1 by (induction Hs as [|x y z (now & a & Hy) _ IH]; eauto).
  destruct r; simpl in Ho; [naive_solver|destruct Ho as [->|(?&?&?)]; eauto|by rewrite Ho].
Qed.

(** The last effective run of a successful call starts from content that
    satisfies the invariants of the earlier ones. *)
Lemma retried_does_Ok {A} (I : D -> Prop) (R : Z -> D -> A -> D -> Prop) d a d' :
  (forall now x a y, I x -> R now x a y -> I y) -> I d -> retried_does R d (Ok a) d' ->
  exists d1 now, I d1 /\ R now d1 a d'.
Proof.
  intros Hp Hd (d1 & Hs & now & Hr). exists d1, now. split; [|done].
  induction Hs as [|x y z (n & b & Hy) _ IH]; eauto.
Qed.

(** Nothing happens when the body cannot succeed on the content. *)
Lemma retried_does_stuck {A} (R : Z -> D -> A -> D -> Prop) d r d' :
  (forall now a d1, ~ R now d a d1) -> retried_does R d r d' -> d' = d /\ is_Ok r = false.
Proof.
  intros Hp (d1 & Hs & Ho).
  assert (d1 = d) as -> by (destruct Hs as [|x y z (now & a & Hy) _]; [done|by edestruct Hp]).
  destruct r as [a|e|w]; simpl in *.
  - destruct Ho as [now Hn]. by edestruct Hp.
  - destruct Ho as [|(now & a & Hn)]; [done|]. by edestruct Hp.
  - done.
Qed.

(** A retried transaction whose body cannot succeed. *)
Lemma never_outcome {A} (m : M D A) g c r c' : Does m (fun _ _ _ _ => False) ->
  map_err g (RetryTransaction (processWithTransaction (then_commit m))) c = (r, c') ->
  is_Ok r = false /\ committed c' = committed c /\ replica c' = replica c.
Proof.
  intros Hm Hr. apply (map_err_retry_does _ m (fun _ _ _ _ => False)) in Hr as [Ho Hre].
  apply retried_does_stuck in Ho as [Hc Hok]; [done|]. intros now a d Hf. exact Hf.
Qed.

(** A run that overwrites what an earlier one left: as if there had been one. *)
Lemma retried_does_overwrite {A X} (I : D -> Prop) (f : X -> D -> D) (R : Z -> D -> A -> D -> Prop) d r d' :
  (forall now z a y, I z -> R now z a y -> I y) -> I d ->
  (forall now a y, R now d a y -> exists x, y = f x d) ->
  (forall now x a y, I (f x d) -> R now (f x d) a y -> exists x', y = f x' d) ->
  retried_does R d r d' ->
  I d' /\ ((exists a, r = Ok a) -> exists x, d' = f x d) /\ (d' = d \/ exists x, d' = f x d).
Proof.
  intros Hi Hd Hf Hg Hr. pose (J := fun z => I z /\ (z = d \/ exists x, z = f x d)).
  assert (forall now z a y, J z -> R now z a y -> I y /\ exists x, y = f x d) as Hs.
  { intros now z a y [Hz Hj] Hy. split; [by eapply Hi|]. destruct Hj as [->|[x ->]]; eauto. }
  assert (forall now z a y, J z -> R now z a y -> J y) as Hj.
  { intros now z a y Hz Hy. destruct (Hs now z a y Hz Hy). split; auto. }
  assert (J d') as [Hi' Hor] by (eapply (retried_does_inv J); [exact Hj|by split; [|left]|exact Hr]).
  split_and!; [done| |done]. intros [a ->].
  destruct (retried_does_Ok J R d a d' Hj ltac:(by split; [|left]) Hr) as (d1 & now & Hd1 & Ho).
  by apply (Hs now d1 a d' Hd1).
Qed.

(** One effective run at most. *)
Lemma retried_does_once {A} (R : Z -> D -> A -> D -> Prop) d r d' :
  (forall now now' x a y a' z, R now x a y -> ~ R now' y a' z) -> retried_does R d r d' ->
  match r with
  | Ok a => exists now, R now d a d'
  | _ => d' = d \/ exists now a, R now d a d'
  end.
Proof.
  intros Hp (d1 & Hs & Ho).
  assert (d1 = d \/ exists now a, R now d a d1) as Hd.
  { destruct Hs as [|x y z (now & a & Hy) Hs]; [by left|]. right.
    destruct Hs as [|y2 y3 z (now' & a' & Hy') _]; [eauto|]. by edestruct (Hp now now'). }
  destruct r as [a|e|w]; simpl in Ho.
  - destruct Ho as [now Ho]. destruct Hd as [->|(now' & a' & Hd)]; [eauto|]. by edestruct (Hp now' now).
  - destruct Ho as [->|(now & a & Ho)]; [done|]. destruct Hd as [->|(now' & a' & Hd)]; [eauto|].
    by edestruct (Hp now' now).
  - by subst.
Qed.
End does.

(** ** Properties *)

Section driver_properties.
Context `{Env} `{PolarisApi} {D : Type}.
Implicit Types c : conn D.

(** C1: [processWithTransaction] around a handler that ends with the commit is
    all or nothing, whatever faults occur: success means the committed content
    is exactly what the handler's program computes; after an error it is the
    old one, or the new one if only the reply of the commit was lost; a panic
    changes nothing.  Without faults it fails only where the program does. *)
Theorem processWithTransaction_all_or_nothing {A} (body : M D A) p c r c' :
  Implements body p -> processWithTransaction (then_commit body) c = (r, c') ->
  tx_outcome p (committed c) r (committed c') /\ replica c' = replica c /\
  (reliable -> r = res_map fst (p (current_timestamp c) (committed c))).
Proof.
  intros Hi Hr. destruct (process_spec body p _ _ _ Hr) as [Ho Hre]. split_and!; [done..|].
  intros Hrel. rewrite <- (process_exact body p c Hrel). by rewrite Hr.
Qed.

Lemma retry_loop_slept {A} (handle : M D A) left i c r c' :
  (forall c r c', handle c = (r, c') -> slept c' = slept c) -> 0 <= i ->
  retry_loop left i handle c = (r, c') ->
  slept c <= slept c' /\ 2 * (slept c' - slept c) <= 5 * (Z.of_nat (S left) * (2 * i + Z.of_nat left)).
Proof.
  intros Hh. revert i c. induction left as [|left IH]; intros i c Hi Hr; simpl in Hr;
    destruct (handle c) as [[a|e|w] c1] eqn:E; apply Hh in E; [simplify_eq; nia| |simplify_eq; nia..| |simplify_eq; nia].
  - destruct (repeated e); simplify_eq; simpl; nia.
  - destruct (repeated e); simplify_eq; [|nia].
    apply IH in Hr; [|lia]. simpl in Hr. nia.
Qed.

(** C37: [Retry] makes at most 20 attempts and returns the outcome of the last
    one: every attempt before it failed with an error whose text is in
    [errMsg], and when the returned error is such an error all 20 were made.
    The pauses add up to at most 1050 ms. *)
Theorem Retry_bounded {A} (handle : M D A) c r c' :
  (forall c r c', handle c = (r, c') -> slept c' = slept c) ->
  Retry handle c = (r, c') ->
  (exists k c1 c2 ms, (k < 20)%nat /\ nsteps (attempt_failed handle) k c c1 /\
     handle c1 = (r, c2) /\ c' = sleep ms c2 /\
     (forall e, r = Err e -> repeated e = true -> k = 19%nat)) /\
  slept c <= slept c' <= slept c + 1050.
Proof.
  intros Hh Hr. split.
  - apply retry_loop_spec in Hr as (k & c1 & c2 & ms & Hk & Hrest). exists k, c1, c2, ms.
    unfold maxTryTimes in *. split; [lia|exact Hrest].
  - apply retry_loop_slept in Hr; [|done|lia]. unfold maxTryTimes in Hr. lia.
Qed.

(** A deadlock is never retried: PostgreSQL reports it as "deadlock
    detected", while [errMsg] has the MySQL spelling with a capital D, so the
    call returns after its first attempt. *)
Theorem Retry_deadlock {A} (handle : M D A) c c' :
  handle c = (Err (EDriver "pq: deadlock detected"), c') ->
  Retry handle c = (Err (EDriver "pq: deadlock detected"), c').
Proof. intros Hh. apply Retry_once; [done|]. by intros e [= <-]. Qed.
End driver_properties.

(** ** A concrete environment, for examples *)

(** No fault; the clock advances one second per call. *)
Definition calm : Env :=
  {| fault_at := fun _ => None; utc := fun k => 1000000 * Z.of_nat k; session_tz := 0 |}.

(** The same with the given faults. *)
Definition faulty (f : nat -> option fault) : Env :=
  {| fault_at := f; utc := fun k => 1000000 * Z.of_nat k; session_tz := 0 |}.

Lemma calm_reliable : @reliable calm.
Proof. done. Defined.

(** Stars become percent signs. *)
Fixpoint star_to_percent (s : string) : string :=
  match s with
  | EmptyString => ""
  | String ch s' => String (if Ascii.eqb ch "*" then "%"%char else ch) (star_to_percent s')
  end.

Definition plain_api : PolarisApi :=
  {| status_text := fun _ s => s;
     store_Error := fun e => match e with EStatus _ _ => e | _ => EStatus (OtherCode 0) "store" end;
     store_Code := fun e => match e with EStatus c _ => c | _ => OtherCode 0 end;
     LocalHost := "127.0.0.1";
     IsWildName := fun s => str_contains s "*";
     IsPrefixWildName := fun s => str_contains s "*";
     ParseWildNameForSql := star_to_percent;
     MustJson_set := fun s => String.concat "," (elements s);
     Unmarshal_set := fun s => if str_empty s then ∅ else {[ s ]};
     MustJson_map := fun m => String.concat "," (map fst (map_to_list m));
     Unmarshal_map := fun s => Ok (if str_empty s then ∅ else {[ s := ""%string ]}) |}.
