(* ===== verification/Metrics.v ===== *)
(** * Call metrics (store/postgresql/base_db.go)

    [BaseDB.QueryRow], [BaseDB.Begin], [BaseTx.Commit] and [BaseTx.Rollback]
    report how long they took and how they ended.  The report is deferred, and
    Go evaluates the arguments of a deferred call where the [defer] stands:
    before the call, when the error is still nil. *)
From stdpp Require Import base list strings.
From Stdlib Require Import ZArith Lia.
From S2P Require Import Prelude Driver.
Open Scope Z_scope.
Open Scope store_scope.

(** The enumerations of the metrics package, with the values used here. *)
Class MetricsApi := {
  MetricType : Type; StoreCallMetric : MetricType;
  Direction : Type; TrafficDirectionOutBound : Direction
}.

Record CallMetric {api : MetricsApi} := mkCallMetric {
  Type_ : MetricType; API : string; Protocol : string; Code : Z; Times : Z; Success : bool;
  Duration : Z; TrafficDirection : Direction }.
Arguments mkCallMetric {_} _ _ _ _ _ _ _ _.

Section metrics.
Context `{Env} `{PolarisApi} `{MetricsApi} {D : Type}.
Context (code_int : StatusCode -> Z).   (* the number of a code of the API *)
Implicit Types c : conn D.

(** [reportCallMetrics], called at the time [now]. *)
Definition reportCallMetrics (label : string) (start : Z) (err : option error) (now : Z) : CallMetric :=
  mkCallMetric StoreCallMetric label "MySQL"
    match err with None => 0 | Some err => code_int (store_Code (store_Error err)) end
    1 (match err with None => true | Some _ => false end) (now - start) TrafficDirectionOutBound.

(** [defer reportCallMetrics(label, start, err)] at the head of a function
    whose body is [m]: the error is nil when the arguments are evaluated. *)
Definition metered {A} (label : string) (m : M D A) : conn D -> res A * conn D * CallMetric := fun c =>
  let start := utc (calls c) in
  let report := reportCallMetrics label start None in
  let '(r, c') := m c in
  (r, c', report (utc (calls c'))).

Definition QueryRow_metered {R} (view : conn D -> D) (sel : Z -> D -> res (list R)) := metered "QueryRow" (Query view sel).
Definition Begin_metered := metered "Begin" Begin.
Definition Commit_metered := metered "Commit" Commit.
Definition Rollback_metered := metered "Rollback" Rollback.

(** Reporting does not change what a call does. *)
Lemma metered_same {A} label (m : M D A) c : fst (metered label m c) = m c.
Proof. unfold metered. by destruct (m c). Qed.

(** Every report is one of success, with code 0, whatever became of the call:
    failures never show in the metrics. *)
Theorem metrics_never_fail {A} label (m : M D A) c :
  let '(r, c', report) := metered label m c in
  m c = (r, c') /\ API report = label /\ Success report = true /\ Code report = 0 /\
  Duration report = utc (calls c') - utc (calls c).
Proof. unfold metered. by destruct (m c). Qed.
End metrics.
