(* ===== verification/Rows.v ===== *)
(** * Rows and keys (store/postgresql/scripts/polaris_server.sql)

    One record per table the modelled components use, with the columns the
    store reads or writes (nullable columns are options), and the PRIMARY KEY
    constraints, UNIQUE constraints and unique indexes of the script: [clash]
    says which two rows may not be in the table together.  Timestamps are
    microseconds.  Column widths are not checked here: a value that is too long
    shows up as a fault of the environment. *)
From stdpp Require Import base list strings.
From Stdlib Require Import ZArith Lia.
From S2P Require Import Prelude.
Open Scope Z_scope.

(** ** Rows *)

Record namespace_row := NamespaceRow {
  ns_name : string; ns_comment : option string; ns_token : string; ns_owner : string;
  ns_flag : Z; ns_ctime : Z; ns_mtime : Z; ns_service_export_to : option string }.

Record service_row := ServiceRow {
  svc_id : string; svc_name : string; svc_namespace : string; svc_ports : option string;
  svc_business : option string; svc_department : option string; svc_cmdb_mod1 : option string;
  svc_cmdb_mod2 : option string; svc_cmdb_mod3 : option string; svc_comment : option string;
  svc_token : string; svc_revision : string; svc_owner : string; svc_flag : Z;
  svc_reference : option string; svc_refer_filter : option string;
  svc_platform_id : option string; svc_ctime : Z; svc_mtime : Z }.

Record service_metadata_row := ServiceMetadataRow {
  smd_id : string; smd_mkey : string; smd_mvalue : string; smd_ctime : Z; smd_mtime : Z }.

Record owner_service_map_row := OwnerServiceMapRow {
  osm_id : string; osm_owner : string; osm_service : string; osm_namespace : string }.

Record instance_row := InstanceRow {
  ins_id : string; ins_service_id : string; ins_vpc_id : option string; ins_host : string;
  ins_port : Z; ins_protocol : option string; ins_version : option string;
  ins_health_status : Z; ins_isolate : Z; ins_weight : Z; ins_enable_health_check : Z;
  ins_logic_set : option string; ins_cmdb_region : option string; ins_cmdb_zone : option string;
  ins_cmdb_idc : option string; ins_priority : Z; ins_revision : string; ins_flag : Z;
  ins_ctime : Z; ins_mtime : Z }.

Record instance_metadata_row := InstanceMetadataRow {
  imd_id : string; imd_mkey : string; imd_mvalue : string; imd_ctime : Z; imd_mtime : Z }.

Record health_check_row := HealthCheckRow { hck_id : string; hck_type : Z; hck_ttl : Z }.

Record leader_election_row := LeaderElectionRow {
  lel_elect_key : string; lel_version : Z; lel_leader : string; lel_ctime : Z; lel_mtime : Z }.

Record config_file_release_row := ConfigFileReleaseRow {
  cfr_id : Z; cfr_name : string; cfr_namespace : string; cfr_group : string;
  cfr_file_name : string; cfr_content : string; cfr_comment : option string; cfr_md5 : string;
  cfr_version : Z; cfr_flag : Z; cfr_create_time : Z; cfr_create_by : option string;
  cfr_modify_time : Z; cfr_modify_by : option string; cfr_tags : option string;
  cfr_active : Z; cfr_description : option string; cfr_release_type : string }.

Record gray_resource_row := GrayResourceRow {
  gry_name : string; gry_match_rule : string; gry_create_time : Z; gry_create_by : option string;
  gry_modify_time : Z; gry_modify_by : option string; gry_flag : option Z }.

Record start_lock_row := StartLockRow {
  slk_lock_id : Z; slk_lock_key : string; slk_server : string; slk_mtime : Z }.

Record client_row := ClientRow {
  cli_id : string; cli_host : string; cli_type : string; cli_version : string;
  cli_region : option string; cli_zone : option string; cli_campus : option string;
  cli_flag : Z; cli_ctime : Z; cli_mtime : Z }.

(** *** Configuration files *)

Record config_file_row := ConfigFileRow {
  cf_id : Z; cf_namespace : string; cf_group : string; cf_name : string; cf_content : string;
  cf_format : option string; cf_comment : option string; cf_flag : Z; cf_create_time : Z;
  cf_create_by : option string; cf_modify_time : Z; cf_modify_by : option string }.

Record config_file_tag_row := ConfigFileTagRow {
  cft_id : Z; cft_key : string; cft_value : string; cft_namespace : string; cft_group : string;
  cft_file_name : string; cft_create_time : Z; cft_create_by : option string;
  cft_modify_time : Z; cft_modify_by : option string }.

Record config_file_group_row := ConfigFileGroupRow {
  cfg_id : Z; cfg_name : string; cfg_namespace : string; cfg_comment : option string;
  cfg_owner : option string; cfg_create_time : Z; cfg_create_by : option string;
  cfg_modify_time : Z; cfg_modify_by : option string; cfg_business : option string;
  cfg_department : option string; cfg_metadata : option string; cfg_flag : Z }.

Record config_file_template_row := ConfigFileTemplateRow {
  tpl_id : Z; tpl_name : string; tpl_content : string; tpl_format : option string;
  tpl_comment : option string; tpl_create_time : Z; tpl_create_by : option string;
  tpl_modify_time : Z; tpl_modify_by : option string }.

Record config_file_release_history_row := ConfigFileReleaseHistoryRow {
  crh_id : Z; crh_name : option string; crh_namespace : string; crh_group : string;
  crh_file_name : string; crh_content : string; crh_format : option string;
  crh_comment : option string; crh_md5 : string; crh_type : string; crh_status : string;
  crh_create_time : Z; crh_create_by : option string; crh_modify_time : Z;
  crh_modify_by : option string; crh_tags : option string; crh_version : option Z;
  crh_reason : option string; crh_description : option string }.

(** *** Clients, rules and contracts *)

Record client_stat_row := ClientStatRow {
  cst_client_id : string; cst_target : string; cst_port : Z; cst_protocol : string; cst_path : string }.

Record ratelimit_config_row := RatelimitConfigRow {
  rl_id : string; rl_name : string; rl_disable : Z; rl_service_id : string; rl_method : string;
  rl_labels : string; rl_priority : Z; rl_rule : string; rl_revision : string; rl_flag : Z;
  rl_ctime : Z; rl_mtime : Z; rl_etime : Z }.

Record routing_config_row := RoutingConfigRow {
  rc_id : string; rc_in_bounds : option string; rc_out_bounds : option string; rc_revision : string;
  rc_flag : Z; rc_ctime : Z; rc_mtime : Z }.

Record routing_config_v2_row := RoutingConfigV2Row {
  rv_id : string; rv_name : string; rv_namespace : string; rv_policy : string;
  rv_config : option string; rv_enable : Z; rv_revision : string; rv_description : string;
  rv_priority : Z; rv_flag : Z; rv_ctime : Z; rv_mtime : Z; rv_etime : Z }.

Record circuitbreaker_rule_v2_row := CircuitbreakerRuleV2Row {
  cb_id : string; cb_name : string; cb_namespace : string; cb_enable : Z; cb_revision : string;
  cb_description : string; cb_level : Z; cb_src_service : string; cb_src_namespace : string;
  cb_dst_service : string; cb_dst_namespace : string; cb_dst_method : string;
  cb_config : option string; cb_flag : Z; cb_ctime : Z; cb_mtime : Z; cb_etime : Z }.

Record fault_detect_rule_row := FaultDetectRuleRow {
  fd_id : string; fd_name : string; fd_namespace : string; fd_revision : string;
  fd_description : string; fd_dst_service : string; fd_dst_namespace : string;
  fd_dst_method : string; fd_config : option string; fd_flag : Z; fd_ctime : Z; fd_mtime : Z }.

Record service_contract_row := ServiceContractRow {
  sct_id : string; sct_type : string; sct_namespace : string; sct_service : string;
  sct_protocol : string; sct_version : string; sct_revision : string; sct_flag : option Z;
  sct_content : option string; sct_ctime : Z; sct_mtime : Z }.

Record service_contract_detail_row := ServiceContractDetailRow {
  scd_id : string; scd_contract_id : string; scd_type : string; scd_namespace : string;
  scd_service : string; scd_protocol : string; scd_version : string; scd_method : string;
  scd_path : string; scd_source : option Z; scd_content : option string; scd_revision : string;
  scd_flag : option Z; scd_ctime : Z; scd_mtime : Z }.

(** *** L5 *)

Record cl5_module_row := Cl5ModuleRow {
  cl5_module_id : Z; cl5_interface_id : Z; cl5_range_num : Z; cl5_mtime : Z }.

Record t_route_row := TRouteRow {
  rt_fip : Z; rt_fmodid : Z; rt_fcmdid : Z; rt_fsetid : string; rt_fflag : option Z; rt_fflow : Z }.

Record t_policy_row := TPolicyRow {
  pl_fmodid : Z; pl_fdiv : Z; pl_fmod : Z; pl_fflag : option Z; pl_fflow : Z }.

Record t_section_row := TSectionRow {
  sn_fmodid : Z; sn_ffrom : Z; sn_fto : Z; sn_fxid : Z; sn_fflag : option Z; sn_fflow : Z }.

Record t_ip_config_row := TIpConfigRow {
  ip_fip : Z; ip_fareaid : Z; ip_fcityid : Z; ip_fidcid : Z; ip_fflag : option Z; ip_fflow : Z }.

(** *** Users, groups and strategies *)

Record user_row := UserRow {
  us_id : string; us_name : string; us_password : string; us_owner : string; us_source : string;
  us_mobile : string; us_email : string; us_token : string; us_token_enable : Z; us_user_type : Z;
  us_comment : string; us_flag : Z; us_ctime : Z; us_mtime : Z }.

Record user_group_row := UserGroupRow {
  ug_id : string; ug_name : string; ug_owner : string; ug_token : string; ug_comment : string;
  ug_token_enable : Z; ug_flag : Z; ug_ctime : Z; ug_mtime : Z }.

Record user_group_relation_row := UserGroupRelationRow {
  ugr_user_id : string; ugr_group_id : string; ugr_ctime : Z; ugr_mtime : Z }.

Record auth_strategy_row := AuthStrategyRow {
  as_id : string; as_name : string; as_action : string; as_owner : string; as_comment : string;
  as_default_status : Z; as_source : string; as_revision : string; as_flag : Z; as_ctime : Z; as_mtime : Z }.

Record auth_principal_row := AuthPrincipalRow {
  ap_strategy_id : string; ap_principal_id : string; ap_principal_role : Z }.

Record auth_strategy_resource_row := AuthStrategyResourceRow {
  asr_strategy_id : string; asr_res_type : Z; asr_res_id : string; asr_ctime : Z; asr_mtime : Z }.

(** ** Keys *)

Definition str_eq (s t : string) : bool := bool_decide (s = t).

Lemma str_eq_true s t : str_eq s t = true <-> s = t.
Proof. apply bool_decide_eq_true. Qed.
Lemma str_eq_refl s : str_eq s s = true.
Proof. by apply str_eq_true. Qed.
Lemma str_eq_false s t : str_eq s t = false <-> s <> t.
Proof. apply bool_decide_eq_false. Qed.

(** Rows two of which may not be in the table together: the PRIMARY KEY and
    UNIQUE constraints. *)
Definition clash_namespace (a b : namespace_row) := str_eq (ns_name a) (ns_name b).
Definition clash_service (a b : service_row) :=
  str_eq (svc_id a) (svc_id b) ||
  (str_eq (svc_name a) (svc_name b) && str_eq (svc_namespace a) (svc_namespace b)).
Definition clash_service_metadata (a b : service_metadata_row) :=
  str_eq (smd_id a) (smd_id b) && str_eq (smd_mkey a) (smd_mkey b).
Definition clash_owner_service_map (a b : owner_service_map_row) := str_eq (osm_id a) (osm_id b).
Definition clash_instance (a b : instance_row) := str_eq (ins_id a) (ins_id b).
Definition clash_instance_metadata (a b : instance_metadata_row) :=
  str_eq (imd_id a) (imd_id b) && str_eq (imd_mkey a) (imd_mkey b).
Definition clash_health_check (a b : health_check_row) := str_eq (hck_id a) (hck_id b).
Definition clash_leader_election (a b : leader_election_row) :=
  str_eq (lel_elect_key a) (lel_elect_key b).
Definition clash_config_file_release (a b : config_file_release_row) :=
  (cfr_id a =? cfr_id b) ||
  (str_eq (cfr_namespace a) (cfr_namespace b) && str_eq (cfr_group a) (cfr_group b) &&
   str_eq (cfr_file_name a) (cfr_file_name b) && str_eq (cfr_name a) (cfr_name b)).
Definition clash_gray_resource (a b : gray_resource_row) := str_eq (gry_name a) (gry_name b).
Definition clash_start_lock (a b : start_lock_row) :=
  (slk_lock_id a =? slk_lock_id b) && str_eq (slk_lock_key a) (slk_lock_key b).
Definition clash_client (a b : client_row) := str_eq (cli_id a) (cli_id b).

Definition clash_config_file (a b : config_file_row) :=
  (cf_id a =? cf_id b) ||
  (str_eq (cf_namespace a) (cf_namespace b) && str_eq (cf_group a) (cf_group b) &&
   str_eq (cf_name a) (cf_name b)).
Definition clash_config_file_tag (a b : config_file_tag_row) :=
  (cft_id a =? cft_id b) ||
  (str_eq (cft_key a) (cft_key b) && str_eq (cft_value a) (cft_value b) &&
   str_eq (cft_namespace a) (cft_namespace b) && str_eq (cft_group a) (cft_group b) &&
   str_eq (cft_file_name a) (cft_file_name b)).
Definition clash_config_file_group (a b : config_file_group_row) :=
  (cfg_id a =? cfg_id b) ||
  (str_eq (cfg_namespace a) (cfg_namespace b) && str_eq (cfg_name a) (cfg_name b)).
Definition clash_config_file_template (a b : config_file_template_row) :=
  (tpl_id a =? tpl_id b) || str_eq (tpl_name a) (tpl_name b).
Definition clash_config_file_release_history (a b : config_file_release_history_row) :=
  crh_id a =? crh_id b.
Definition clash_client_stat (a b : client_stat_row) :=
  str_eq (cst_client_id a) (cst_client_id b) && str_eq (cst_target a) (cst_target b) &&
  (cst_port a =? cst_port b).
Definition clash_ratelimit_config (a b : ratelimit_config_row) := str_eq (rl_id a) (rl_id b).
Definition clash_routing_config (a b : routing_config_row) := str_eq (rc_id a) (rc_id b).
Definition clash_routing_config_v2 (a b : routing_config_v2_row) := str_eq (rv_id a) (rv_id b).
Definition clash_circuitbreaker_rule_v2 (a b : circuitbreaker_rule_v2_row) := str_eq (cb_id a) (cb_id b).
Definition clash_fault_detect_rule (a b : fault_detect_rule_row) := str_eq (fd_id a) (fd_id b).
Definition clash_service_contract (a b : service_contract_row) :=
  str_eq (sct_id a) (sct_id b) ||
  (str_eq (sct_namespace a) (sct_namespace b) && str_eq (sct_service a) (sct_service b) &&
   str_eq (sct_type a) (sct_type b) && str_eq (sct_version a) (sct_version b) &&
   str_eq (sct_protocol a) (sct_protocol b)).
Definition clash_service_contract_detail (a b : service_contract_detail_row) :=
  str_eq (scd_id a) (scd_id b) ||
  (str_eq (scd_contract_id a) (scd_contract_id b) && str_eq (scd_path a) (scd_path b) &&
   str_eq (scd_method a) (scd_method b) &&
   match scd_source a, scd_source b with Some x, Some y => x =? y | _, _ => false end).
Definition clash_cl5_module (a b : cl5_module_row) := cl5_module_id a =? cl5_module_id b.
Definition clash_t_route (a b : t_route_row) :=
  (rt_fip a =? rt_fip b) && (rt_fmodid a =? rt_fmodid b) && (rt_fcmdid a =? rt_fcmdid b).
Definition clash_t_policy (a b : t_policy_row) := pl_fmodid a =? pl_fmodid b.
Definition clash_t_section (a b : t_section_row) :=
  (sn_fmodid a =? sn_fmodid b) && (sn_ffrom a =? sn_ffrom b) && (sn_fto a =? sn_fto b).
Definition clash_t_ip_config (a b : t_ip_config_row) := ip_fip a =? ip_fip b.
Definition clash_user (a b : user_row) :=
  str_eq (us_id a) (us_id b) || (str_eq (us_name a) (us_name b) && str_eq (us_owner a) (us_owner b)).
Definition clash_user_group (a b : user_group_row) :=
  str_eq (ug_id a) (ug_id b) || (str_eq (ug_name a) (ug_name b) && str_eq (ug_owner a) (ug_owner b)).
Definition clash_user_group_relation (a b : user_group_relation_row) :=
  str_eq (ugr_user_id a) (ugr_user_id b) && str_eq (ugr_group_id a) (ugr_group_id b).
Definition clash_auth_strategy (a b : auth_strategy_row) :=
  str_eq (as_id a) (as_id b) || (str_eq (as_name a) (as_name b) && str_eq (as_owner a) (as_owner b)).
Definition clash_auth_principal (a b : auth_principal_row) :=
  str_eq (ap_strategy_id a) (ap_strategy_id b) && str_eq (ap_principal_id a) (ap_principal_id b) &&
  (ap_principal_role a =? ap_principal_role b).
Definition clash_auth_strategy_resource (a b : auth_strategy_resource_row) :=
  str_eq (asr_strategy_id a) (asr_strategy_id b) && (asr_res_type a =? asr_res_type b) &&
  str_eq (asr_res_id a) (asr_res_id b).
