(* ===== verification/Schema.v ===== *)
(** * Tables and SQL statements (store/postgresql/scripts/polaris_server.sql)

    The content of the database: the tables whose rows are in Rows, grouped
    by the part of the store they belong to, with uniform access through the
    class [Table]; the invariant [db_wf] that every key holds; and the meaning
    of the statements the source issues: insert, update, delete and select as
    pure programs on the content. *)
From stdpp Require Import base list strings relations.
From Stdlib Require Import ZArith Lia.
From S2P Require Import Prelude Driver Rows.
Open Scope Z_scope.

(** The tables of configuration files, of rules, of L5 and of authorisation,
    with the sequences behind their ids. *)
Record config_tables := ConfigTables {
  t_config_file : list config_file_row;
  t_config_file_tag : list config_file_tag_row;
  t_config_file_group : list config_file_group_row;
  t_config_file_template : list config_file_template_row;
  t_config_file_release_history : list config_file_release_history_row;
  config_file_id_seq : Z;
  config_file_tag_id_seq : Z;
  config_file_group_id_seq : Z;
  config_file_template_id_seq : Z;
  config_file_release_history_id_seq : Z }.

Record rule_tables := RuleTables {
  t_client_stat : list client_stat_row;
  t_ratelimit_config : list ratelimit_config_row;
  t_routing_config : list routing_config_row;
  t_routing_config_v2 : list routing_config_v2_row;
  t_circuitbreaker_rule_v2 : list circuitbreaker_rule_v2_row;
  t_fault_detect_rule : list fault_detect_rule_row;
  t_service_contract : list service_contract_row;
  t_service_contract_detail : list service_contract_detail_row }.

Record l5_tables := L5Tables {
  t_cl5_module : list cl5_module_row;
  t_route : list t_route_row;
  t_policy : list t_policy_row;
  t_section : list t_section_row;
  t_ip_config : list t_ip_config_row }.

Record auth_tables := AuthTables {
  t_user : list user_row;
  t_user_group : list user_group_row;
  t_user_group_relation : list user_group_relation_row;
  t_auth_strategy : list auth_strategy_row;
  t_auth_principal : list auth_principal_row;
  t_auth_strategy_resource : list auth_strategy_resource_row }.

(** The content of the database. *)
Record database := Database {
  t_namespace : list namespace_row;
  t_service : list service_row;
  t_service_metadata : list service_metadata_row;
  t_owner_service_map : list owner_service_map_row;
  t_instance : list instance_row;
  t_instance_metadata : list instance_metadata_row;
  t_health_check : list health_check_row;
  t_leader_election : list leader_election_row;
  t_config_file_release : list config_file_release_row;
  t_gray_resource : list gray_resource_row;
  t_start_lock : list start_lock_row;
  t_client : list client_row;
  config_file_release_id_seq : Z;
  x_config : config_tables;
  x_rule : rule_tables;
  x_l5 : l5_tables;
  x_auth : auth_tables }.

Definition empty_database : database :=
  Database [] [] [] [] [] [] [] [] [] [] [] [] 1 (ConfigTables [] [] [] [] [] 1 1 1 1 1)
    (RuleTables [] [] [] [] [] [] [] []) (L5Tables [] [] [] [] []) (AuthTables [] [] [] [] [] []).

Definition set_config (k : config_tables) (d : database) : database :=
  Database (t_namespace d) (t_service d) (t_service_metadata d) (t_owner_service_map d)
    (t_instance d) (t_instance_metadata d) (t_health_check d) (t_leader_election d)
    (t_config_file_release d) (t_gray_resource d) (t_start_lock d) (t_client d)
    (config_file_release_id_seq d) k (x_rule d) (x_l5 d) (x_auth d).
Definition set_rule (k : rule_tables) (d : database) : database :=
  Database (t_namespace d) (t_service d) (t_service_metadata d) (t_owner_service_map d)
    (t_instance d) (t_instance_metadata d) (t_health_check d) (t_leader_election d)
    (t_config_file_release d) (t_gray_resource d) (t_start_lock d) (t_client d)
    (config_file_release_id_seq d) (x_config d) k (x_l5 d) (x_auth d).
Definition set_l5 (k : l5_tables) (d : database) : database :=
  Database (t_namespace d) (t_service d) (t_service_metadata d) (t_owner_service_map d)
    (t_instance d) (t_instance_metadata d) (t_health_check d) (t_leader_election d)
    (t_config_file_release d) (t_gray_resource d) (t_start_lock d) (t_client d)
    (config_file_release_id_seq d) (x_config d) (x_rule d) k (x_auth d).

Definition set_auth (k : auth_tables) (d : database) : database :=
  Database (t_namespace d) (t_service d) (t_service_metadata d) (t_owner_service_map d)
    (t_instance d) (t_instance_metadata d) (t_health_check d) (t_leader_election d)
    (t_config_file_release d) (t_gray_resource d) (t_start_lock d) (t_client d)
    (config_file_release_id_seq d) (x_config d) (x_rule d) (x_l5 d) k.

Definition config_wf (k : config_tables) : Prop :=
  distinct clash_config_file (t_config_file k) = true /\
  distinct clash_config_file_tag (t_config_file_tag k) = true /\
  distinct clash_config_file_group (t_config_file_group k) = true /\
  distinct clash_config_file_template (t_config_file_template k) = true /\
  distinct clash_config_file_release_history (t_config_file_release_history k) = true.

Definition rule_wf (k : rule_tables) : Prop :=
  distinct clash_client_stat (t_client_stat k) = true /\
  distinct clash_ratelimit_config (t_ratelimit_config k) = true /\
  distinct clash_routing_config (t_routing_config k) = true /\
  distinct clash_routing_config_v2 (t_routing_config_v2 k) = true /\
  distinct clash_circuitbreaker_rule_v2 (t_circuitbreaker_rule_v2 k) = true /\
  distinct clash_fault_detect_rule (t_fault_detect_rule k) = true /\
  distinct clash_service_contract (t_service_contract k) = true /\
  distinct clash_service_contract_detail (t_service_contract_detail k) = true.

Definition l5_wf (k : l5_tables) : Prop :=
  distinct clash_cl5_module (t_cl5_module k) = true /\
  distinct clash_t_route (t_route k) = true /\
  distinct clash_t_policy (t_policy k) = true /\
  distinct clash_t_section (t_section k) = true /\
  distinct clash_t_ip_config (t_ip_config k) = true.

Definition auth_wf (k : auth_tables) : Prop :=
  distinct clash_user (t_user k) = true /\
  distinct clash_user_group (t_user_group k) = true /\
  distinct clash_user_group_relation (t_user_group_relation k) = true /\
  distinct clash_auth_strategy (t_auth_strategy k) = true /\
  distinct clash_auth_principal (t_auth_principal k) = true /\
  distinct clash_auth_strategy_resource (t_auth_strategy_resource k) = true.

(** Every table satisfies its constraints. *)
Definition db_wf (d : database) : Prop :=
  distinct clash_namespace (t_namespace d) = true /\
  distinct clash_service (t_service d) = true /\
  distinct clash_service_metadata (t_service_metadata d) = true /\
  distinct clash_owner_service_map (t_owner_service_map d) = true /\
  distinct clash_instance (t_instance d) = true /\
  distinct clash_instance_metadata (t_instance_metadata d) = true /\
  distinct clash_health_check (t_health_check d) = true /\
  distinct clash_leader_election (t_leader_election d) = true /\
  distinct clash_config_file_release (t_config_file_release d) = true /\
  distinct clash_gray_resource (t_gray_resource d) = true /\
  distinct clash_start_lock (t_start_lock d) = true /\
  distinct clash_client (t_client d) = true /\
  config_wf (x_config d) /\ rule_wf (x_rule d) /\ l5_wf (x_l5 d) /\
  auth_wf (x_auth d).

(** Access to the table with rows [R]. *)
Class Table (R : Type) := {
  tbl : database -> list R;
  set_tbl : list R -> database -> database;
  clash : R -> R -> bool;
  tbl_set : forall l d, tbl (set_tbl l d) = l;
  set_tbl_id : forall d, set_tbl (tbl d) d = d;
  set_set : forall l l' d, set_tbl l (set_tbl l' d) = set_tbl l d;
  tbl_distinct : forall d, db_wf d -> distinct clash (tbl d) = true;
  set_tbl_wf : forall l d, db_wf d -> distinct clash l = true -> db_wf (set_tbl l d)
}.
#[export] Hint Mode Table ! : typeclass_instances.
Arguments tbl : simpl never.
Arguments set_tbl : simpl never.
Arguments clash : simpl never.

Create Rewrite HintDb tables.

Ltac table_laws :=
  try reflexivity;
  try (by intros []; simpl;
    repeat match goal with
    | k : config_tables |- _ => destruct k
    | k : rule_tables |- _ => destruct k
    | k : l5_tables |- _ => destruct k
    | k : auth_tables |- _ => destruct k
    end);
  unfold db_wf, config_wf, rule_wf, l5_wf, auth_wf; simpl; tauto.

#[export] Instance namespace_table : Table namespace_row.
Proof.
  refine {| tbl := t_namespace; clash := clash_namespace;
    set_tbl l d := Database l (t_service d) (t_service_metadata d) (t_owner_service_map d)
      (t_instance d) (t_instance_metadata d) (t_health_check d) (t_leader_election d)
      (t_config_file_release d) (t_gray_resource d) (t_start_lock d) (t_client d)
      (config_file_release_id_seq d) (x_config d) (x_rule d) (x_l5 d) (x_auth d) |}; table_laws.
Defined.

#[export] Instance service_table : Table service_row.
Proof.
  refine {| tbl := t_service; clash := clash_service;
    set_tbl l d := Database (t_namespace d) l (t_service_metadata d) (t_owner_service_map d)
      (t_instance d) (t_instance_metadata d) (t_health_check d) (t_leader_election d)
      (t_config_file_release d) (t_gray_resource d) (t_start_lock d) (t_client d)
      (config_file_release_id_seq d) (x_config d) (x_rule d) (x_l5 d) (x_auth d) |}; table_laws.
Defined.

#[export] Instance service_metadata_table : Table service_metadata_row.
Proof.
  refine {| tbl := t_service_metadata; clash := clash_service_metadata;
    set_tbl l d := Database (t_namespace d) (t_service d) l (t_owner_service_map d)
      (t_instance d) (t_instance_metadata d) (t_health_check d) (t_leader_election d)
      (t_config_file_release d) (t_gray_resource d) (t_start_lock d) (t_client d)
      (config_file_release_id_seq d) (x_config d) (x_rule d) (x_l5 d) (x_auth d) |}; table_laws.
Defined.

#[export] Instance owner_service_map_table : Table owner_service_map_row.
Proof.
  refine {| tbl := t_owner_service_map; clash := clash_owner_service_map;
    set_tbl l d := Database (t_namespace d) (t_service d) (t_service_metadata d) l
      (t_instance d) (t_instance_metadata d) (t_health_check d) (t_leader_election d)
      (t_config_file_release d) (t_gray_resource d) (t_start_lock d) (t_client d)
      (config_file_release_id_seq d) (x_config d) (x_rule d) (x_l5 d) (x_auth d) |}; table_laws.
Defined.

#[export] Instance instance_table : Table instance_row.
Proof.
  refine {| tbl := t_instance; clash := clash_instance;
    set_tbl l d := Database (t_namespace d) (t_service d) (t_service_metadata d)
      (t_owner_service_map d) l (t_instance_metadata d) (t_health_check d) (t_leader_election d)
      (t_config_file_release d) (t_gray_resource d) (t_start_lock d) (t_client d)
      (config_file_release_id_seq d) (x_config d) (x_rule d) (x_l5 d) (x_auth d) |}; table_laws.
Defined.

#[export] Instance instance_metadata_table : Table instance_metadata_row.
Proof.
  refine {| tbl := t_instance_metadata; clash := clash_instance_metadata;
    set_tbl l d := Database (t_namespace d) (t_service d) (t_service_metadata d)
      (t_owner_service_map d) (t_instance d) l (t_health_check d) (t_leader_election d)
      (t_config_file_release d) (t_gray_resource d) (t_start_lock d) (t_client d)
      (config_file_release_id_seq d) (x_config d) (x_rule d) (x_l5 d) (x_auth d) |}; table_laws.
Defined.

#[export] Instance health_check_table : Table health_check_row.
Proof.
  refine {| tbl := t_health_check; clash := clash_health_check;
    set_tbl l d := Database (t_namespace d) (t_service d) (t_service_metadata d)
      (t_owner_service_map d) (t_instance d) (t_instance_metadata d) l (t_leader_election d)
      (t_config_file_release d) (t_gray_resource d) (t_start_lock d) (t_client d)
      (config_file_release_id_seq d) (x_config d) (x_rule d) (x_l5 d) (x_auth d) |}; table_laws.
Defined.

#[export] Instance leader_election_table : Table leader_election_row.
Proof.
  refine {| tbl := t_leader_election; clash := clash_leader_election;
    set_tbl l d := Database (t_namespace d) (t_service d) (t_service_metadata d)
      (t_owner_service_map d) (t_instance d) (t_instance_metadata d) (t_health_check d) l
      (t_config_file_release d) (t_gray_resource d) (t_start_lock d) (t_client d)
      (config_file_release_id_seq d) (x_config d) (x_rule d) (x_l5 d) (x_auth d) |}; table_laws.
Defined.

#[export] Instance config_file_release_table : Table config_file_release_row.
Proof.
  refine {| tbl := t_config_file_release; clash := clash_config_file_release;
    set_tbl l d := Database (t_namespace d) (t_service d) (t_service_metadata d)
      (t_owner_service_map d) (t_instance d) (t_instance_metadata d) (t_health_check d)
      (t_leader_election d) l (t_gray_resource d) (t_start_lock d) (t_client d)
      (config_file_release_id_seq d) (x_config d) (x_rule d) (x_l5 d) (x_auth d) |}; table_laws.
Defined.

#[export] Instance gray_resource_table : Table gray_resource_row.
Proof.
  refine {| tbl := t_gray_resource; clash := clash_gray_resource;
    set_tbl l d := Database (t_namespace d) (t_service d) (t_service_metadata d)
      (t_owner_service_map d) (t_instance d) (t_instance_metadata d) (t_health_check d)
      (t_leader_election d) (t_config_file_release d) l (t_start_lock d) (t_client d)
      (config_file_release_id_seq d) (x_config d) (x_rule d) (x_l5 d) (x_auth d) |}; table_laws.
Defined.

#[export] Instance start_lock_table : Table start_lock_row.
Proof.
  refine {| tbl := t_start_lock; clash := clash_start_lock;
    set_tbl l d := Database (t_namespace d) (t_service d) (t_service_metadata d)
      (t_owner_service_map d) (t_instance d) (t_instance_metadata d) (t_health_check d)
      (t_leader_election d) (t_config_file_release d) (t_gray_resource d) l (t_client d)
      (config_file_release_id_seq d) (x_config d) (x_rule d) (x_l5 d) (x_auth d) |}; table_laws.
Defined.

#[export] Instance client_table : Table client_row.
Proof.
  refine {| tbl := t_client; clash := clash_client;
    set_tbl l d := Database (t_namespace d) (t_service d) (t_service_metadata d)
      (t_owner_service_map d) (t_instance d) (t_instance_metadata d) (t_health_check d)
      (t_leader_election d) (t_config_file_release d) (t_gray_resource d) (t_start_lock d) l
      (config_file_release_id_seq d) (x_config d) (x_rule d) (x_l5 d) (x_auth d) |}; table_laws.
Defined.

#[export] Instance config_file_table : Table config_file_row.
Proof.
  refine {| tbl d := t_config_file (x_config d); clash := clash_config_file;
        set_tbl l d := let k := x_config d in set_config (ConfigTables l (t_config_file_tag k)
      (t_config_file_group k) (t_config_file_template k) (t_config_file_release_history k)
      (config_file_id_seq k) (config_file_tag_id_seq k) (config_file_group_id_seq k)
      (config_file_template_id_seq k) (config_file_release_history_id_seq k)) d |}; table_laws.
Defined.

#[export] Instance config_file_tag_table : Table config_file_tag_row.
Proof.
  refine {| tbl d := t_config_file_tag (x_config d); clash := clash_config_file_tag;
        set_tbl l d := let k := x_config d in set_config (ConfigTables (t_config_file k) l
      (t_config_file_group k) (t_config_file_template k) (t_config_file_release_history k)
      (config_file_id_seq k) (config_file_tag_id_seq k) (config_file_group_id_seq k)
      (config_file_template_id_seq k) (config_file_release_history_id_seq k)) d |}; table_laws.
Defined.

#[export] Instance config_file_group_table : Table config_file_group_row.
Proof.
  refine {| tbl d := t_config_file_group (x_config d); clash := clash_config_file_group;
        set_tbl l d := let k := x_config d in set_config (ConfigTables (t_config_file k)
      (t_config_file_tag k) l (t_config_file_template k) (t_config_file_release_history k)
      (config_file_id_seq k) (config_file_tag_id_seq k) (config_file_group_id_seq k)
      (config_file_template_id_seq k) (config_file_release_history_id_seq k)) d |}; table_laws.
Defined.

#[export] Instance config_file_template_table : Table config_file_template_row.
Proof.
  refine {| tbl d := t_config_file_template (x_config d); clash := clash_config_file_template;
        set_tbl l d := let k := x_config d in set_config (ConfigTables (t_config_file k)
      (t_config_file_tag k) (t_config_file_group k) l (t_config_file_release_history k)
      (config_file_id_seq k) (config_file_tag_id_seq k) (config_file_group_id_seq k)
      (config_file_template_id_seq k) (config_file_release_history_id_seq k)) d |}; table_laws.
Defined.

#[export] Instance config_file_release_history_table : Table config_file_release_history_row.
Proof.
    refine {| tbl d := t_config_file_release_history (x_config d); clash :=
    clash_config_file_release_history;
        set_tbl l d := let k := x_config d in set_config (ConfigTables (t_config_file k)
      (t_config_file_tag k) (t_config_file_group k) (t_config_file_template k) l
      (config_file_id_seq k) (config_file_tag_id_seq k) (config_file_group_id_seq k)
      (config_file_template_id_seq k) (config_file_release_history_id_seq k)) d |}; table_laws.
Defined.

#[export] Instance client_stat_table : Table client_stat_row.
Proof.
  refine {| tbl d := t_client_stat (x_rule d); clash := clash_client_stat;
        set_tbl l d := let k := x_rule d in set_rule (RuleTables l (t_ratelimit_config k)
      (t_routing_config k) (t_routing_config_v2 k) (t_circuitbreaker_rule_v2 k)
      (t_fault_detect_rule k) (t_service_contract k) (t_service_contract_detail k)) d |};
      table_laws.
Defined.

#[export] Instance ratelimit_config_table : Table ratelimit_config_row.
Proof.
  refine {| tbl d := t_ratelimit_config (x_rule d); clash := clash_ratelimit_config;
        set_tbl l d := let k := x_rule d in set_rule (RuleTables (t_client_stat k) l
      (t_routing_config k) (t_routing_config_v2 k) (t_circuitbreaker_rule_v2 k)
      (t_fault_detect_rule k) (t_service_contract k) (t_service_contract_detail k)) d |};
      table_laws.
Defined.

#[export] Instance routing_config_table : Table routing_config_row.
Proof.
  refine {| tbl d := t_routing_config (x_rule d); clash := clash_routing_config;
        set_tbl l d := let k := x_rule d in set_rule (RuleTables (t_client_stat k)
      (t_ratelimit_config k) l (t_routing_config_v2 k) (t_circuitbreaker_rule_v2 k)
      (t_fault_detect_rule k) (t_service_contract k) (t_service_contract_detail k)) d |};
      table_laws.
Defined.

#[export] Instance routing_config_v2_table : Table routing_config_v2_row.
Proof.
  refine {| tbl d := t_routing_config_v2 (x_rule d); clash := clash_routing_config_v2;
        set_tbl l d := let k := x_rule d in set_rule (RuleTables (t_client_stat k)
      (t_ratelimit_config k) (t_routing_config k) l (t_circuitbreaker_rule_v2 k)
      (t_fault_detect_rule k) (t_service_contract k) (t_service_contract_detail k)) d |};
      table_laws.
Defined.

#[export] Instance circuitbreaker_rule_v2_table : Table circuitbreaker_rule_v2_row.
Proof.
  refine {| tbl d := t_circuitbreaker_rule_v2 (x_rule d); clash := clash_circuitbreaker_rule_v2;
        set_tbl l d := let k := x_rule d in set_rule (RuleTables (t_client_stat k)
      (t_ratelimit_config k) (t_routing_config k) (t_routing_config_v2 k) l (t_fault_detect_rule
      k) (t_service_contract k) (t_service_contract_detail k)) d |}; table_laws.
Defined.

#[export] Instance fault_detect_rule_table : Table fault_detect_rule_row.
Proof.
  refine {| tbl d := t_fault_detect_rule (x_rule d); clash := clash_fault_detect_rule;
        set_tbl l d := let k := x_rule d in set_rule (RuleTables (t_client_stat k)
      (t_ratelimit_config k) (t_routing_config k) (t_routing_config_v2 k)
      (t_circuitbreaker_rule_v2 k) l (t_service_contract k) (t_service_contract_detail k)) d |};
      table_laws.
Defined.

#[export] Instance service_contract_table : Table service_contract_row.
Proof.
  refine {| tbl d := t_service_contract (x_rule d); clash := clash_service_contract;
        set_tbl l d := let k := x_rule d in set_rule (RuleTables (t_client_stat k)
      (t_ratelimit_config k) (t_routing_config k) (t_routing_config_v2 k)
      (t_circuitbreaker_rule_v2 k) (t_fault_detect_rule k) l (t_service_contract_detail k)) d
      |}; table_laws.
Defined.

#[export] Instance service_contract_detail_table : Table service_contract_detail_row.
Proof.
  refine {| tbl d := t_service_contract_detail (x_rule d); clash := clash_service_contract_detail;
        set_tbl l d := let k := x_rule d in set_rule (RuleTables (t_client_stat k)
      (t_ratelimit_config k) (t_routing_config k) (t_routing_config_v2 k)
      (t_circuitbreaker_rule_v2 k) (t_fault_detect_rule k) (t_service_contract k) l) d |};
      table_laws.
Defined.

#[export] Instance cl5_module_table : Table cl5_module_row.
Proof.
  refine {| tbl d := t_cl5_module (x_l5 d); clash := clash_cl5_module;
        set_tbl l d := let k := x_l5 d in set_l5 (L5Tables l (t_route k) (t_policy k) (t_section
      k) (t_ip_config k)) d |}; table_laws.
Defined.

#[export] Instance t_route_table : Table t_route_row.
Proof.
  refine {| tbl d := t_route (x_l5 d); clash := clash_t_route;
        set_tbl l d := let k := x_l5 d in set_l5 (L5Tables (t_cl5_module k) l (t_policy k)
      (t_section k) (t_ip_config k)) d |}; table_laws.
Defined.

#[export] Instance t_policy_table : Table t_policy_row.
Proof.
  refine {| tbl d := t_policy (x_l5 d); clash := clash_t_policy;
        set_tbl l d := let k := x_l5 d in set_l5 (L5Tables (t_cl5_module k) (t_route k) l
      (t_section k) (t_ip_config k)) d |}; table_laws.
Defined.

#[export] Instance t_section_table : Table t_section_row.
Proof.
  refine {| tbl d := t_section (x_l5 d); clash := clash_t_section;
        set_tbl l d := let k := x_l5 d in set_l5 (L5Tables (t_cl5_module k) (t_route k)
      (t_policy k) l (t_ip_config k)) d |}; table_laws.
Defined.

#[export] Instance t_ip_config_table : Table t_ip_config_row.
Proof.
  refine {| tbl d := t_ip_config (x_l5 d); clash := clash_t_ip_config;
        set_tbl l d := let k := x_l5 d in set_l5 (L5Tables (t_cl5_module k) (t_route k)
      (t_policy k) (t_section k) l) d |}; table_laws.
Defined.

#[export] Instance user_table : Table user_row.
Proof.
  refine {| tbl d := t_user (x_auth d); clash := clash_user;
    set_tbl l d := let k := x_auth d in set_auth (AuthTables l (t_user_group k) (t_user_group_relation k) (t_auth_strategy k) (t_auth_principal k) (t_auth_strategy_resource k)) d |}; table_laws.
Defined.

#[export] Instance user_group_table : Table user_group_row.
Proof.
  refine {| tbl d := t_user_group (x_auth d); clash := clash_user_group;
    set_tbl l d := let k := x_auth d in set_auth (AuthTables (t_user k) l (t_user_group_relation k) (t_auth_strategy k) (t_auth_principal k) (t_auth_strategy_resource k)) d |}; table_laws.
Defined.

#[export] Instance user_group_relation_table : Table user_group_relation_row.
Proof.
  refine {| tbl d := t_user_group_relation (x_auth d); clash := clash_user_group_relation;
    set_tbl l d := let k := x_auth d in set_auth (AuthTables (t_user k) (t_user_group k) l (t_auth_strategy k) (t_auth_principal k) (t_auth_strategy_resource k)) d |}; table_laws.
Defined.

#[export] Instance auth_strategy_table : Table auth_strategy_row.
Proof.
  refine {| tbl d := t_auth_strategy (x_auth d); clash := clash_auth_strategy;
    set_tbl l d := let k := x_auth d in set_auth (AuthTables (t_user k) (t_user_group k) (t_user_group_relation k) l (t_auth_principal k) (t_auth_strategy_resource k)) d |}; table_laws.
Defined.

#[export] Instance auth_principal_table : Table auth_principal_row.
Proof.
  refine {| tbl d := t_auth_principal (x_auth d); clash := clash_auth_principal;
    set_tbl l d := let k := x_auth d in set_auth (AuthTables (t_user k) (t_user_group k) (t_user_group_relation k) (t_auth_strategy k) l (t_auth_strategy_resource k)) d |}; table_laws.
Defined.

#[export] Instance auth_strategy_resource_table : Table auth_strategy_resource_row.
Proof.
  refine {| tbl d := t_auth_strategy_resource (x_auth d); clash := clash_auth_strategy_resource;
    set_tbl l d := let k := x_auth d in set_auth (AuthTables (t_user k) (t_user_group k) (t_user_group_relation k) (t_auth_strategy k) (t_auth_principal k) l) d |}; table_laws.
Defined.

(** The sequence behind the ids of config_file_release. *)
Definition set_seq (n : Z) (d : database) : database :=
  Database (t_namespace d) (t_service d) (t_service_metadata d) (t_owner_service_map d)
    (t_instance d) (t_instance_metadata d) (t_health_check d) (t_leader_election d)
    (t_config_file_release d) (t_gray_resource d) (t_start_lock d) (t_client d) n
    (x_config d) (x_rule d) (x_l5 d) (x_auth d).

Definition nextval : P database Z := fun _ d =>
  Ok (config_file_release_id_seq d, set_seq (config_file_release_id_seq d + 1) d).

Lemma set_seq_wf n d : db_wf d -> db_wf (set_seq n d).
Proof. done. Qed.

(** [d'] differs from [d] in the table of rows [R] only. *)
Definition only_table (R : Type) `{Table R} (d d' : database) : Prop :=
  d' = set_tbl (R:=R) (tbl d') d.

#[export] Instance only_table_preorder {R} `{!Table R} : PreOrder (only_table R).
Proof.
  split; unfold only_table; [intros d; by rewrite set_tbl_id|].
  intros a b c H1 H2. rewrite H2, H1, set_set, tbl_set. done.
Qed.

Lemma only_table_set {R} `{!Table R} (l : list R) d : only_table R d (set_tbl l d).
Proof. unfold only_table. by rewrite tbl_set. Qed.
#[export] Hint Resolve only_table_set : store.
#[export] Hint Rewrite @tbl_set @set_tbl_id @set_set : tables.

(** Two different tables. *)
Class Apart (R S : Type) `{Table R} `{Table S} : Prop :=
  apart : forall (l : list S) d, tbl (R:=R) (set_tbl l d) = tbl d.
#[export] Hint Extern 0 (Apart _ _) => (intros ? ?; reflexivity) : typeclass_instances.
#[export] Hint Rewrite @apart using apply _ : tables.

(** ** Statements *)

Definition unique_violation : error :=
  EDriver "pq: duplicate key value violates unique constraint".
Definition syntax_error : error := EDriver "pq: syntax error".

(** INSERT of the rows [mk now]; the result is the number of affected rows. *)
Definition sql_insert {R} `{Table R} (mk : Z -> list R) : P database Z := fun now d =>
  if distinct clash (tbl d ++ mk now)
  then Ok (Z.of_nat (length (mk now)), set_tbl (tbl d ++ mk now) d)
  else Err unique_violation.

(** UPDATE [set] WHERE [where_]. *)
Definition sql_update {R} `{Table R} (where_ : R -> bool) (set : Z -> R -> R) : P database Z :=
  fun now d =>
  let t := change where_ (set now) (tbl d) in
  if distinct clash t then Ok (Z.of_nat (count where_ (tbl d)), set_tbl t d)
  else Err unique_violation.

(** DELETE WHERE [where_]. *)
Definition sql_delete {R} `{Table R} (where_ : R -> bool) : P database Z := fun _ d =>
  Ok (Z.of_nat (count where_ (tbl d)), set_tbl (keep (fun r => negb (where_ r)) (tbl d)) d).

(** SELECT * WHERE [where_]. *)
Definition sql_select {R} `{Table R} (where_ : R -> bool) (d : database) : list R :=
  keep where_ (tbl d).

(** SELECT count( * ) WHERE [where_]. *)
Definition count_rows {R} `{Table R} (where_ : R -> bool) (d : database) : nat := count where_ (tbl d).

(** ** What statements preserve *)

(** [p] preserves the invariant [I] of the content. *)
Class Preserves (I : database -> Prop) {A} (p : P database A) : Prop :=
  preserves : forall now d a d', I d -> p now d = Ok (a, d') -> I d'.
#[export] Hint Mode Preserves ! ! ! : typeclass_instances.

Section preserves.
Context (I : database -> Prop).

#[export] Instance preserves_ret {A} (a : A) : Preserves I (p_ret a).
Proof. by intros now d a' d' Hd [= _ <-]. Qed.

#[export] Instance preserves_err {A} e : Preserves I (A:=A) (fun _ _ => Err e).
Proof. done. Qed.

#[export] Instance preserves_lift {A} (r : res A) : Preserves I (p_lift r).
Proof. intros now d a d' Hd. unfold p_lift, res_map. destruct r; naive_solver. Qed.

#[export] Instance preserves_read {A} (f : database -> res A) : Preserves I (p_read f).
Proof. intros now d a d' Hd. unfold p_read, res_map. destruct (f d); naive_solver. Qed.

#[export] Instance preserves_bind {A B} (p : P database A) (f : A -> P database B) :
  Preserves I p -> (forall a, Preserves I (f a)) -> Preserves I (p_bind p f).
Proof.
  intros Hp Hf now d b d' Hd. unfold p_bind. rewrite res_bind_Ok.
  intros ([a d1] & H1 & H2). eapply Hf; [|exact H2]. by eapply Hp.
Qed.

#[export] Instance preserves_map_err {A} f (p : P database A) :
  Preserves I p -> Preserves I (p_map_err f p).
Proof.
  intros Hp now d a d' Hd. unfold p_map_err. case_match eqn:E; [|done..].
  intros. simplify_eq. by eapply Hp.
Qed.

#[export] Instance preserves_if {A} (b : bool) (p q : P database A) :
  Preserves I p -> Preserves I q -> Preserves I (if b then p else q).
Proof. by destruct b. Qed.

#[export] Instance preserves_option {A X} (o : option X) (p : X -> P database A) q :
  (forall x, Preserves I (p x)) -> Preserves I q ->
  Preserves I (match o with Some x => p x | None => q end).
Proof. by destruct o. Qed.
End preserves.

(** Committing the caller's transaction, opened for the operation. *)
Lemma finish_keeps `{Env} `{PolarisApi} I (body : M database unit) p `{!Implements body p} `{HI : !Preserves I p} c r c' :
  txst c = TxOpen -> work c = committed c -> I (committed c) ->
  Bind body (fun _ => commit_tx) c = (r, c') -> I (committed c').
Proof.
  intros Ho Hw Hi Hr. destruct (finish_spec body p _ _ _ Ho Hr) as [Hf _]. unfold finish_outcome in Hf.
  rewrite Hw in Hf. destruct r as [a|e|w]; [|destruct Hf as [->|[a Hf]]; [done|]|by rewrite Hf];
    by eapply HI.
Qed.

Section statement_facts.
Context {R : Type} `{!Table R}.
Implicit Types (d : database) (w : R -> bool).

#[export] Instance insert_wf (mk : Z -> list R) : Preserves db_wf (sql_insert mk).
Proof.
  intros now d a d' Hd. unfold sql_insert. case_match eqn:E; [|done]. intros. simplify_eq.
  by apply set_tbl_wf.
Qed.

#[export] Instance update_wf w set : Preserves db_wf (sql_update w set).
Proof.
  intros now d a d' Hd. unfold sql_update. case_match eqn:E; [|done]. intros. simplify_eq.
  by apply set_tbl_wf.
Qed.

#[export] Instance nextval_wf : Preserves db_wf nextval.
Proof. intros now d a d' Hd [= _ <-]. by apply set_seq_wf. Qed.

#[export] Instance delete_wf w : Preserves db_wf (sql_delete w).
Proof.
  intros now d a d' Hd. unfold sql_delete. intros. simplify_eq.
  apply set_tbl_wf, distinct_keep, tbl_distinct; done.
Qed.

#[export] Instance void_preserves {A} I (p : P database A) : Preserves I p -> Preserves I (p_void p).
Proof. intros Hp. unfold p_void. apply _. Qed.

(** An update that leaves the key columns alone always succeeds. *)
Lemma update_ok w set now d :
  db_wf d ->
  (forall x y, clash (set now x) (set now y) = clash x y) ->
  (forall x y, clash (set now x) y = clash x y) ->
  (forall x y, clash x (set now y) = clash x y) ->
  sql_update w set now d =
    Ok (Z.of_nat (count w (tbl d)), set_tbl (change w (set now) (tbl d)) d).
Proof.
  intros Hd H1 H2 H3. unfold sql_update. rewrite distinct_change; eauto using tbl_distinct.
Qed.

Lemma delete_eq w now d :
  sql_delete w now d =
    Ok (Z.of_nat (count w (tbl d)), set_tbl (keep (fun r => negb (w r)) (tbl d)) d).
Proof. done. Qed.

(** Inserting one row succeeds exactly when no row clashes with it. *)
Lemma insert_one_ok (r : R) now d :
  db_wf d -> (forall x, x ∈ tbl d -> clash x r = false) ->
  sql_insert (fun _ => [r]) now d = Ok (1, set_tbl (tbl d ++ [r]) d).
Proof.
  intros Hd Hr. unfold sql_insert. simpl.
  replace (distinct clash (tbl d ++ [r])) with true; [done|]. symmetry.
  apply distinct_app. split; [by apply tbl_distinct|]. split; [done|].
  intros x y Hx Hy%list_elem_of_singleton. subst. auto.
Qed.

Lemma insert_clash (mk : Z -> list R) now d x y :
  x ∈ tbl d -> y ∈ mk now -> clash x y = true -> sql_insert mk now d = Err unique_violation.
Proof.
  intros Hx Hy Hc. unfold sql_insert.
  destruct (distinct clash (tbl d ++ mk now)) eqn:E; [|done].
  apply distinct_app in E as (_ & _ & E). by rewrite E in Hc.
Qed.

Lemma insert_Ok_inv (mk : Z -> list R) now d n d' :
  sql_insert mk now d = Ok (n, d') ->
  d' = set_tbl (tbl d ++ mk now) d /\ distinct clash (tbl d ++ mk now) = true.
Proof. unfold sql_insert. case_match; intros; by simplify_eq. Qed.

Lemma update_Ok_inv w set now d n d' :
  sql_update w set now d = Ok (n, d') ->
  d' = set_tbl (change w (set now) (tbl d)) d /\ n = Z.of_nat (count w (tbl d)).
Proof. unfold sql_update. case_match; intros; by simplify_eq. Qed.
End statement_facts.

(** ** Retried statements on one table

    The values written may depend on the clock, be it the transaction's or
    the one the program reads; [X] stands for what they depend on. *)

Section retried_statements.
Context {R X : Type} `{!Table R}.
Implicit Types (d : database) (w : R -> bool).

(** INSERT of one row whose key does not depend on the time. *)
Definition inserted (mk : X -> R) (d d' : database) : Prop :=
  exists x, d' = set_tbl (tbl d ++ [mk x]) d.

Definition does_insert (mk : X -> R) (now : Z) (d : database) (_ : unit) (d' : database) : Prop :=
  exists x n, sql_insert (fun _ => [mk x]) now d = Ok (n, d').

(** It takes effect at most once, and not at all when the key is in use. *)
Lemma does_insert_outcome (mk : X -> R) d r d' : (forall x x', clash (mk x) (mk x') = true) ->
  db_wf d -> retried_does (does_insert mk) d r d' ->
  db_wf d' /\ (r = Ok tt -> inserted mk d d') /\ (d' = d \/ inserted mk d d') /\
  ((exists y, y ∈ tbl d /\ forall x, clash y (mk x) = true) -> d' = d /\ is_Ok r = false).
Proof.
  intros Hc Hd Ho.
  assert (forall now a z, does_insert mk now d a z -> inserted mk d z) as Hi.
  { intros now a z (x & n & [-> _]%insert_Ok_inv). by exists x. }
  assert (forall now now' x a y a' z, does_insert mk now x a y -> ~ does_insert mk now' y a' z) as Honce.
  { intros now now' x a y a' z (u & n & [-> _]%insert_Ok_inv) (v & m & Hv).
    rewrite (insert_clash _ now' _ (mk u) (mk v)) in Hv; [done| |by left|done].
    rewrite tbl_set. apply elem_of_app. right. by left. }
  split; [|split; [|split]].
  - eapply (retried_does_inv db_wf); [|exact Hd|exact Ho]. intros now x a y Hx (u & n & Hy).
    by eapply (insert_wf (fun _ => [mk u])).
  - intros ->. apply (retried_does_once _ _ _ _ Honce) in Ho as [now Ho]. by eapply Hi.
  - apply (retried_does_once _ _ _ _ Honce) in Ho.
    destruct r; [destruct Ho as [now Ho]; right; by eapply Hi|..];
      (destruct Ho as [->|(now & a & Ho)]; [by left|right; by eapply Hi]).
  - intros (y & Hy & Hcy). eapply retried_does_stuck; [|exact Ho]. intros now a z (u & n & Hu).
    by rewrite (insert_clash _ now _ y (mk u)) in Hu; [|done|left|].
Qed.

(** UPDATE that sets some columns to fixed values or to a time, and none its
    condition looks at. *)
Definition updated w (set : X -> R -> R) (d d' : database) : Prop :=
  exists x, d' = set_tbl (change w (set x) (tbl d)) d.

Definition does_update w (set : X -> R -> R) (now : Z) (d : database) (_ : unit) (d' : database) : Prop :=
  exists x n, sql_update w (fun _ => set x) now d = Ok (n, d').

Lemma change_change w (f g : R -> R) (l : list R) :
  (forall r, w (g r) = w r) -> (forall r, f (g r) = f r) -> change w f (change w g l) = change w f l.
Proof.
  intros Hw Hs. unfold change. rewrite map_map. apply map_ext. intros r.
  destruct (w r) eqn:E; [by rewrite Hw, E, Hs|by rewrite E].
Qed.

(** Repeating it only changes the time. *)
Lemma does_update_outcome w (set : X -> R -> R) d r d' :
  (forall x r, w (set x r) = w r) -> (forall x x' r, set x (set x' r) = set x r) ->
  db_wf d -> retried_does (does_update w set) d r d' ->
  db_wf d' /\ (r = Ok tt -> updated w set d d') /\ (d' = d \/ updated w set d d').
Proof.
  intros Hw Hs Hd Ho.
  assert (forall now a y z, y = d \/ updated w set d y -> does_update w set now y a z -> updated w set d z) as Hu.
  { intros now a y z Hy (x & n & [-> _]%update_Ok_inv). exists x.
    destruct Hy as [->|[x' ->]]; [done|]. by rewrite tbl_set, set_set, change_change. }
  assert (db_wf d') as Hd'.
  { eapply (retried_does_inv db_wf); [|exact Hd|exact Ho]. intros now x a y Hx (u & n & Hy).
    by eapply (update_wf w (fun _ => set u)). }
  split; [done|]. split.
  - intros ->. apply (retried_does_Ok (fun y => y = d \/ updated w set d y)) in Ho as (d1 & now & H1 & Ho);
      [by eapply Hu|eauto|by left].
  - eapply (retried_does_inv (fun y => y = d \/ updated w set d y)); [eauto|by left|exact Ho].
Qed.
End retried_statements.

(** The same for statements that only depend on CURRENT_TIMESTAMP. *)
Section retried_now.
Context {R : Type} `{!Table R}.

Lemma insert_row_outcome (mk : Z -> R) d r d' : (forall n n', clash (mk n) (mk n') = true) ->
  db_wf d -> retried_outcome (p_void (sql_insert (fun now => [mk now]))) d r d' ->
  db_wf d' /\ (r = Ok tt -> inserted mk d d') /\ (d' = d \/ inserted mk d d') /\
  ((exists y, y ∈ tbl d /\ forall now, clash y (mk now) = true) -> d' = d /\ is_Ok r = false).
Proof.
  intros Hc Hd Ho. eapply does_insert_outcome; [done..|]. eapply retried_outcome_does; [|exact Ho].
  intros now x [] y [n Hy]%p_void_Ok. by exists now, n.
Qed.

Lemma update_row_outcome (w : R -> bool) (set : Z -> R -> R) d r d' :
  (forall n r, w (set n r) = w r) -> (forall n n' r, set n (set n' r) = set n r) ->
  db_wf d -> retried_outcome (p_void (sql_update w set)) d r d' ->
  db_wf d' /\ (r = Ok tt -> updated w set d d') /\ (d' = d \/ updated w set d d').
Proof.
  intros Hw Hs Hd Ho. eapply does_update_outcome; [done..|]. eapply retried_outcome_does; [|exact Ho].
  intros now x [] y [n Hy]%p_void_Ok. by exists now, n.
Qed.
End retried_now.
