(* ===== verification/Sql.v ===== *)
(** * Generated SQL text (store/postgresql/sql.go)

    The generators of the source build a statement by concatenation and number
    its placeholders [$n] by hand while they collect the arguments.  A
    statement is modelled as the list of the pieces that are concatenated,
    with the placeholders kept apart; [render] gives the text.  Go maps are
    given as the list of their entries in the order the [range] loop produces
    them, so a theorem for every list covers every iteration order.
    [params_ok] is the condition under which the server accepts the arguments
    of a statement: the placeholders are exactly [$1] to [$n]. *)
From stdpp Require Import base list strings pretty numbers.
From Stdlib Require Import ZArith Lia Ascii.
From S2P Require Import Prelude Driver.
Open Scope Z_scope.

Inductive tok := T (s : string) | Ph (n : Z).
Definition sql := list tok.

#[export] Instance tok_eq_dec : EqDecision tok.
Proof. solve_decision. Defined.

Inductive arg := AStr (s : string) | AInt (z : Z) | ATime (z : Z).

Fixpoint render (q : sql) : string :=
  match q with
  | [] => ""
  | T s :: q' => s +:+ render q'
  | Ph n :: q' => "$" +:+ pretty n +:+ render q'
  end.

Fixpoint phs (q : sql) : list Z :=
  match q with
  | [] => []
  | T _ :: q' => phs q'
  | Ph n :: q' => n :: phs q'
  end.

(** The server wants placeholders [$1] ... [$n] and [n] arguments. *)
Definition params_ok (q : sql) (nargs : nat) : bool :=
  forallb (fun n => (1 <=? n) && (n <=? Z.of_nat nargs)) (phs q) &&
  forallb (fun k => bool_decide (k ∈ phs q)) (seqZ 1 (Z.of_nat nargs)).

Definition param_error : error := EDriver "pq: wrong number of parameters".

(** ** sql.go *)

Definition OwnerAttribute : string := "owner".
Definition NameAttribute : string := "name".
Definition And : string := " and".

Record Order := mkOrder { Field : string; Sequence : string }.
Record Page := mkPage { Offset : Z; Limit : Z }.

Definition boolToInt (v : bool) : Z := if v then 1 else 0.

(** [strings.Split(s, sep)] for a one-character separator. *)
Fixpoint split_on (sep : ascii) (s : string) : list string :=
  match s with
  | EmptyString => [""%string]
  | String c s' =>
      if Ascii.eqb c sep then ""%string :: split_on sep s'
      else match split_on sep s' with
           | [] => [String c ""]
           | w :: ws => String c w :: ws
           end
  end.

(** [strconv.ParseBool] with its error ignored. *)
Definition parse_bool (s : string) : bool :=
  bool_decide (s ∈ ["1"; "t"; "T"; "true"; "TRUE"; "True"]%string).

Fixpoint placeholders_loop (n : nat) (index : Z) : sql :=
  match n with
  | O => []
  | S O => [Ph index]
  | S n' => Ph index :: T "," :: placeholders_loop n' (index + 1)
  end.

(** [PlaceholdersNI]: "$i,$i+1,..." and the next index. *)
Definition PlaceholdersNI (size : Z) (indexSort : Z) : sql * Z :=
  if size <=? 0 then ([], indexSort)
  else (placeholders_loop (Z.to_nat size) indexSort, indexSort + size).

Section generators.
Context `{PolarisApi}.

(** One iteration of the loop of [genFilterSQL]: the text and the arguments
    it adds, and the next index. *)
Definition genFilterSQL_step (key value : string) (index : Z) : sql * list arg * Z :=
  if bool_decide (key = OwnerAttribute) || bool_decide (key = "alias." +:+ OwnerAttribute)
     || bool_decide (key = "business"%string) then
    ([T " "; T key; T " like "; Ph index], [AStr ("%" +:+ value +:+ "%")], index + 1)
  else if bool_decide (key = "name"%string) && IsWildName value then
    ([T " name like "; Ph index], [AStr (ParseWildNameForSql value)], index + 1)
  else if bool_decide (key = "id"%string) then
    if IsWildName value then
      ([T " instance.id like "; Ph index], [AStr (ParseWildNameForSql value)], index + 1)
    else ([T " instance.id = "; Ph index], [AStr value], index + 1)
  else if bool_decide (key = "host"%string) then
    let hosts := split_on "," value in
    let '(placeholder, index1) := PlaceholdersNI (Z.of_nat (length hosts)) index in
    (T " host in (" :: placeholder ++ [T ")"], map AStr hosts, index1 + 1)
  else if bool_decide (key = "managed"%string) then
    ([T " managed = "; Ph index], [AInt (boolToInt (parse_bool value))], index + 1)
  else if bool_decide (key = "namespace"%string) && IsWildName value then
    ([T " namespace like "; Ph index], [AStr (ParseWildNameForSql value)], index + 1)
  else ([T " "; T key; T "="; Ph index], [AStr value], index + 1).

Fixpoint genFilterSQL_loop (filter : list (string * string)) (firstIndex : bool)
    (str : sql) (args : list arg) (index : Z) : sql * list arg * Z :=
  match filter with
  | [] => (str, args, index)
  | (key, value) :: filter' =>
      let '(s, a, index') := genFilterSQL_step key value index in
      genFilterSQL_loop filter' false
        (str ++ (if firstIndex then [] else [T And]) ++ s) (args ++ a) index'
  end.

Definition genFilterSQL (filter : list (string * string)) (index : Z) : sql * list arg * Z :=
  genFilterSQL_loop filter true [] [] index.

Definition genServiceFilterSQL_step (key value : string) (indexSort : Z) : sql * arg :=
  if bool_decide (key = OwnerAttribute) then
    ([T " (service.name, service.namespace) in (select service,namespace from owner_service_map where owner=";
      Ph indexSort; T ")"], AStr value)
  else if bool_decide (key = "alias." +:+ OwnerAttribute) then
    ([T " (alias.name, alias.namespace) in (select service,namespace from owner_service_map where owner=";
      Ph indexSort; T ")"], AStr value)
  else if bool_decide (key = "business"%string) then
    ([T " "; T key; T " like "; Ph indexSort], AStr ("%" +:+ value +:+ "%"))
  else if bool_decide (key = "name"%string) && IsPrefixWildName value then
    ([T " name like "; Ph indexSort],
     AStr ("%" +:+ String.substring 0 (String.length value - 1) value +:+ "%"))
  else ([T " "; T key; T "="; Ph indexSort], AStr value).

Fixpoint genServiceFilterSQL_loop (filter : list (string * string)) (firstIndex : bool)
    (str : sql) (args : list arg) (indexSort : Z) : sql * list arg * Z :=
  match filter with
  | [] => (str, args, indexSort)
  | (key, value) :: filter' =>
      let '(s, a) := genServiceFilterSQL_step key value indexSort in
      genServiceFilterSQL_loop filter' false
        (str ++ (if firstIndex then [] else [T And]) ++ s) (args ++ [a]) (indexSort + 1)
  end.

Definition genServiceFilterSQL (filter : list (string * string)) (indexSort : Z) :
  sql * list arg * Z := genServiceFilterSQL_loop filter true [] [] indexSort.

(** [genRuleFilterSQL]: the index is never advanced. *)
Fixpoint genRuleFilterSQL_loop (tableName : string) (filter : list (string * string))
    (firstIndex : bool) (str : sql) (args : list arg) (index : Z) : sql * list arg * Z :=
  match filter with
  | [] => (str, args, index)
  | (key0, value0) :: filter' =>
      let key := if bool_decide (tableName <> ""%string) then tableName +:+ "." +:+ key0 else key0 in
      let str := str ++ (if firstIndex then [] else [T And]) in
      if bool_decide (key = OwnerAttribute)
         || bool_decide (key = tableName +:+ "." +:+ OwnerAttribute) then
        genRuleFilterSQL_loop tableName filter' false
          (str ++ [T " "; T key; T " like "; Ph index; T " "])
          (args ++ [AStr ("%" +:+ value0 +:+ "%")]) index
      else
        genRuleFilterSQL_loop tableName filter' false
          (str ++ [T " "; T key; T " = "; Ph index; T " "]) (args ++ [AStr value0]) index
  end.

Definition genRuleFilterSQL (tableName : string) (filter : list (string * string)) (index : Z) :
  sql * list arg * Z := genRuleFilterSQL_loop tableName filter true [] [] index.

Definition genOrderAndPage (order : option Order) (page : option Page) (indexSort : Z) :
    sql * list arg * Z :=
  let str := match order with
             | Some o => [T " order by "; T (Field o); T " "; T (Sequence o)]
             | None => []
             end in
  let '(str, args) :=
    match page with
    | Some p => (str ++ [T " limit "; Ph indexSort; T " offset "; Ph (indexSort + 1)],
                 [AInt (Limit p); AInt (Offset p)])
    | None => (str, [])
    end in
  (str, args, indexSort + 2).

Definition genInstanceMetadataArgs (metaFilter : list (string * string)) (index : Z) :
    sql * list arg * Z :=
  ([T "instance.id in (select id from instance_metadata where "; Ph index; T " = "; Ph (index + 1);
    T " and "; Ph (index + 2); T " = "; Ph (index + 3); T ")"],
   concat (map (fun kv => [AStr (fst kv); AStr (snd kv)]) metaFilter), index + 4).

Definition genWhereSQLAndArgs (str : sql) (filter metaFilter : list (string * string))
    (order : option Order) (offset limit : Z) : sql * list arg :=
  let '(filterStr, filterArgs, index) := genFilterSQL filter 1 in
  let '(baseStr, conjunction) :=
    match filterStr with
    | [] => (str, " where "%string)
    | _ => (str ++ T " where " :: filterStr, " and "%string)
    end in
  let '(baseStr, args, index) :=
    match metaFilter with
    | [] => (baseStr, filterArgs, index)
    | _ =>
        let '(metaStr, metaArgs, index') := genInstanceMetadataArgs metaFilter index in
        (baseStr ++ T conjunction :: metaStr, filterArgs ++ metaArgs, index')
    end in
  let '(opStr, opArgs, _) := genOrderAndPage order (Some (mkPage offset limit)) index in
  (baseStr ++ opStr, args ++ opArgs).

Definition genServiceAliasWhereSQLAndArgs (str : sql) (filter : list (string * string))
    (order : option Order) (offset limit indexSort : Z) : sql * list arg :=
  let '(filterStr, filterArgs, indexSort) := genServiceFilterSQL filter indexSort in
  let baseStr := match filterStr with [] => str | _ => str ++ [T " where "] end in
  let '(opStr, opArgs, _) := genOrderAndPage order (Some (mkPage offset limit)) indexSort in
  (baseStr ++ filterStr ++ opStr, filterArgs ++ opArgs).

(** The inner loop of [genNamespaceWhereSQLAndArgs] over the values of a key. *)
Fixpoint genNamespace_items (index : string) (value : list string) (firstItem : bool)
    (str : sql) (args : list arg) (sqlIndex : Z) : sql * list arg * Z :=
  match value with
  | [] => (str, args, sqlIndex)
  | item :: value' =>
      let str := str ++ (if firstItem then [] else [T " or "]) in
      let '(s, a) :=
        if bool_decide (index = OwnerAttribute) then
          ([T "owner like "; Ph sqlIndex], AStr ("%" +:+ item +:+ "%"))
        else if bool_decide (index = NameAttribute) && IsWildName item then
          ([T "name like "; Ph sqlIndex], AStr (ParseWildNameForSql item))
        else ([T index; T "="; Ph sqlIndex], AStr item) in
      genNamespace_items index value' false (str ++ s) (args ++ [a]) (sqlIndex + 1)
  end.

Fixpoint genNamespace_keys (filter : list (string * list string)) (firstIndex : bool)
    (str : sql) (args : list arg) (sqlIndex : Z) : sql * list arg * Z :=
  match filter with
  | [] => (str, args, sqlIndex)
  | (index, value) :: filter' =>
      let str := str ++ (if firstIndex then [] else [T And]) ++ [T " ("] in
      let '(str, args, sqlIndex) := genNamespace_items index value true str args sqlIndex in
      genNamespace_keys filter' false (str ++ [T ")"]) args sqlIndex
  end.

Definition genNamespaceWhereSQLAndArgs (str : sql) (filter : list (string * list string))
    (order : option Order) (offset limit : Z) : sql * list arg :=
  let num := length (concat (map snd filter)) in
  let '(str, args, sqlIndex) :=
    if (0 <? num)%nat then genNamespace_keys filter true (str ++ [T "where"]) [] 1
    else (str, [], 1) in
  let str := match order with
             | Some o => str ++ [T " order by "; T (Field o); T " "; T (Sequence o)]
             | None => str
             end in
  (str ++ [T " limit "; Ph sqlIndex; T " offset "; Ph (sqlIndex + 1)],
   args ++ [AInt limit; AInt offset]).
End generators.

(** [filterMetadataWithTable] still writes MySQL's [?] placeholders. *)
Definition filterMetadataWithTable (table : string) (metas : list (string * string)) :
    sql * list arg :=
  ([T "(SELECT id FROM "; T table; T " WHERE ";
    T (String.concat " OR " (map (fun _ => "(mkey = ? AND mvalue = ?)"%string) metas)); T ")"],
   concat (map (fun kv => [AStr (fst kv); AStr (snd kv)]) metas)).

(** ** VALUES lists

    Several inserts write one group of placeholders per row and advance the
    index by hand; [w] is the number of placeholders of a row and [step] what
    the loop adds to the index. *)
Fixpoint values_loop (w step : Z) (rows : list (list arg)) (index : Z) : list (list Z) * list arg :=
  match rows with
  | [] => ([], [])
  | r :: rows' =>
      let '(groups, args) := values_loop w step rows' (index + step) in
      (seqZ index w :: groups, r ++ args)
  end.

Fixpoint placeholders_sql (ns : list Z) : sql :=
  match ns with
  | [] => []
  | [n] => [Ph n]
  | n :: ns' => Ph n :: T "," :: placeholders_sql ns'
  end.

Fixpoint values_sql (tail : string) (groups : list (list Z)) : sql :=
  match groups with
  | [] => []
  | [g] => T "(" :: placeholders_sql g ++ [T tail; T ")"]
  | g :: groups' => T "(" :: placeholders_sql g ++ [T tail; T ")"; T ","] ++ values_sql tail groups'
  end.

(** The argument a placeholder stands for, and its text. *)
Definition arg_at (args : list arg) (n : Z) : arg := nth (Z.to_nat (n - 1)) args (AStr "").
Definition arg_str (a : arg) : string := match a with AStr s => s | _ => "" end.
Definition arg_int (a : arg) : Z := match a with AInt z => z | _ => 0 end.

(** ** Placeholders of the generated text *)

Lemma phs_app q1 q2 : phs (q1 ++ q2) = phs q1 ++ phs q2.
Proof. induction q1 as [|[s|n] q1 IH]; simpl; [done|done|]. by rewrite IH. Qed.

Create Rewrite HintDb phs.
#[export] Hint Rewrite phs_app app_nil_r length_app length_map : phs.

Ltac phs_simpl := autorewrite with phs; simpl.

(** The text uses the next [length args] indexes in order and returns the
    index after them. *)
Definition numbered (from : Z) (r : sql * list arg * Z) : Prop :=
  let '(q, args, next) := r in
  phs q = seqZ from (Z.of_nat (length args)) /\ next = from + Z.of_nat (length args).

Lemma seqZ_snoc from n : 0 <= n -> seqZ from (n + 1) = seqZ from n ++ [from + n].
Proof. intros Hn. rewrite seqZ_app by lia. done. Qed.

Lemma seqZ_nat_app from (n m : nat) :
  seqZ from (Z.of_nat (n + m)) = seqZ from (Z.of_nat n) ++ seqZ (from + Z.of_nat n) (Z.of_nat m).
Proof. rewrite Nat2Z.inj_add. apply seqZ_app; lia. Qed.

Lemma params_ok_seqZ q n : phs q = seqZ 1 (Z.of_nat n) -> params_ok q n = true.
Proof.
  intros Hq. unfold params_ok. rewrite Hq, andb_true_iff, !forallb_forall.
  split; intros x Hx%list_elem_of_In%elem_of_seqZ.
  - apply andb_true_iff. lia.
  - apply bool_decide_eq_true. apply elem_of_seqZ. lia.
Qed.

(** A placeholder beyond the arguments is refused, and so is a gap. *)
Lemma params_ok_bound q n i : params_ok q n = true -> i ∈ phs q -> 1 <= i <= Z.of_nat n.
Proof.
  unfold params_ok. rewrite andb_true_iff, forallb_forall. intros [Hb _] Hi.
  apply list_elem_of_In, Hb in Hi. lia.
Qed.

Lemma params_ok_all q n i : params_ok q n = true -> 1 <= i <= Z.of_nat n -> i ∈ phs q.
Proof.
  unfold params_ok. rewrite andb_true_iff, !forallb_forall. intros [_ Hb] Hi.
  specialize (Hb i). rewrite bool_decide_eq_true in Hb. apply Hb, list_elem_of_In, elem_of_seqZ. lia.
Qed.

Lemma placeholders_loop_phs n index : phs (placeholders_loop n index) = seqZ index (Z.of_nat n).
Proof.
  revert index. induction n as [|n IH]; intros index; [done|].
  destruct n as [|n]; [done|].
  change (phs (placeholders_loop (S (S n)) index))
    with (index :: phs (placeholders_loop (S n) (index + 1))).
  rewrite IH, (seqZ_cons index) by lia. f_equal. f_equal; lia.
Qed.

Lemma PlaceholdersNI_phs n index :
  0 <= n -> phs (fst (PlaceholdersNI n index)) = seqZ index n /\ snd (PlaceholdersNI n index) = index + n.
Proof.
  intros Hn. unfold PlaceholdersNI. destruct (Z.leb_spec n 0); simpl.
  - replace n with 0 by lia. split; [done|lia].
  - rewrite placeholders_loop_phs, Z2Nat.id by lia. done.
Qed.

(** Append a step that starts where the text so far stopped. *)
Lemma numbered_app from q args next s a next' sep :
  numbered from (q, args, next) -> numbered next (s, a, next') -> phs sep = [] ->
  numbered from (q ++ sep ++ s, args ++ a, next').
Proof.
  intros [H1 H2] [H3 H4] Hs. unfold numbered. phs_simpl.
  rewrite H1, H3, Hs. simpl. subst next. split; [by rewrite seqZ_nat_app|lia].
Qed.

Section numbering.
Context `{PolarisApi}.

Lemma genServiceFilterSQL_loop_numbered filter from first str args index :
  numbered from (str, args, index) ->
  numbered from (genServiceFilterSQL_loop filter first str args index).
Proof.
  revert first str args index. induction filter as [|[k v] filter IH]; intros first str args index Hn;
    simpl; [done|].
  destruct (genServiceFilterSQL_step k v index) as [s a] eqn:E. apply IH.
  eapply numbered_app; [done| |by destruct first].
  unfold genServiceFilterSQL_step in E. repeat case_match; simplify_eq; split; simpl; done.
Qed.

Lemma genServiceFilterSQL_numbered filter index : numbered index (genServiceFilterSQL filter index).
Proof. apply genServiceFilterSQL_loop_numbered. split; simpl; [done|lia]. Qed.

Lemma genServiceFilterSQL_length filter index :
  length (snd (fst (genServiceFilterSQL filter index))) = length filter.
Proof.
  unfold genServiceFilterSQL.
  enough (forall first str args i, length (snd (fst (genServiceFilterSQL_loop filter first str args i)))
            = length args + length filter)%nat as Hl by apply Hl.
  induction filter as [|[k v] filter IH]; intros first str args i; simpl; [lia|].
  destruct (genServiceFilterSQL_step k v i) as [s a]. rewrite IH, length_app. simpl. lia.
Qed.

(** Every key but [host] consumes exactly one index. *)
Lemma genFilterSQL_step_numbered key value index :
  key <> "host"%string -> numbered index (genFilterSQL_step key value index).
Proof.
  intros Hk. unfold genFilterSQL_step. rewrite (bool_decide_eq_false_2 (key = "host"%string)) by done.
  repeat case_match; split; simpl; done.
Qed.

Lemma genFilterSQL_loop_numbered filter from first str args index :
  "host"%string ∉ map fst filter -> numbered from (str, args, index) ->
  numbered from (genFilterSQL_loop filter first str args index).
Proof.
  revert first str args index. induction filter as [|[k v] filter IH];
    intros first str args index Hh Hn; simpl in *; [done|].
  destruct (genFilterSQL_step k v index) as [[s a] i'] eqn:E.
  apply not_elem_of_cons in Hh as [Hk Hh].
  apply IH; [done|]. eapply numbered_app; [done| |by destruct first].
  rewrite <- E. apply genFilterSQL_step_numbered. congruence.
Qed.

(** The index [genFilterSQL] returns and the number of its arguments drift
    apart by one for every [host] key. *)
Lemma genFilterSQL_step_index key value index :
  let '(_, a, index') := genFilterSQL_step key value index in
  index' = index + Z.of_nat (length a) + (if bool_decide (key = "host"%string) then 1 else 0).
Proof.
  destruct (decide (key = "host"%string)) as [->|Hk].
  - unfold genFilterSQL_step. simpl. set (hosts := split_on "," value).
    unfold PlaceholdersNI. destruct (Z.leb_spec (Z.of_nat (length hosts)) 0); rewrite length_map; lia.
  - pose proof (genFilterSQL_step_numbered key value index Hk) as Hn.
    destruct (genFilterSQL_step key value index) as [[s a] i']. destruct Hn as [_ ->].
    rewrite bool_decide_eq_false_2 by done. lia.
Qed.

Definition is_host (kv : string * string) : bool := bool_decide (fst kv = "host"%string).

Lemma genFilterSQL_loop_index filter first str args index :
  let '(_, a, index') := genFilterSQL_loop filter first str args index in
  index' - Z.of_nat (length a) = index - Z.of_nat (length args) + Z.of_nat (count is_host filter).
Proof.
  revert first str args index. induction filter as [|[k v] filter IH]; intros first str args index;
    [unfold count; simpl; lia|].
  simpl. pose proof (genFilterSQL_step_index k v index) as Hs.
  destruct (genFilterSQL_step k v index) as [[s a] i'].
  specialize (IH false (str ++ (if first then [] else [T And]) ++ s) (args ++ a) i').
  destruct (genFilterSQL_loop filter false _ (args ++ a) i') as [[q b] j].
  rewrite length_app in IH. unfold count, is_host in *. simpl.
  destruct (bool_decide (k = "host"%string)); simpl; lia.
Qed.

Lemma genNamespace_items_numbered index value from first str args i :
  numbered from (str, args, i) ->
  numbered from (genNamespace_items index value first str args i).
Proof.
  revert first str args i. induction value as [|item value IH]; intros first str args i Hn; simpl; [done|].
  match goal with |- context [let '(s, a) := ?x in _] => destruct x as [s a] eqn:E end.
  apply IH. rewrite <- app_assoc. eapply numbered_app; [done| |by destruct first].
  repeat case_match; simplify_eq; split; done.
Qed.

Lemma genNamespace_keys_numbered filter from first str args i :
  numbered from (str, args, i) -> numbered from (genNamespace_keys filter first str args i).
Proof.
  revert first str args i. induction filter as [|[k v] filter IH]; intros first str args i Hn; simpl; [done|].
  match goal with |- context [genNamespace_items ?a ?b ?c ?d ?e ?f] =>
    pose proof (genNamespace_items_numbered a b from c d e f) as Hi;
    destruct (genNamespace_items a b c d e f) as [[s a'] j] eqn:E end.
  apply IH. destruct Hi as [Hs ->].
  { destruct Hn as [Hn ->]. split; [|done]. phs_simpl. by destruct first; phs_simpl. }
  split; [|done]. phs_simpl. done.
Qed.
End numbering.

(** ** Statements the server accepts *)

Lemma seqZ_two i : seqZ i (0 + 2) = [i; i + 1].
Proof. unfold seqZ. simpl. by rewrite (Z.add_comm i 1). Qed.

Lemma seqZ_six i : seqZ i (4 + 2) = [i; i + 1; i + 2; i + 3; i + 4; i + 4 + 1].
Proof.
  unfold seqZ. simpl. repeat apply (f_equal2 cons); lia || done.
Qed.

Section accepted.
Context `{PolarisApi}.
Implicit Types filter metaFilter : list (string * string).

Lemma genFilterSQL_step_below key value index :
  let '(s, _, index') := genFilterSQL_step key value index in
  index <= index' /\ forall i, i ∈ phs s -> i < index'.
Proof.
  destruct (decide (key = "host"%string)) as [->|Hk].
  - unfold genFilterSQL_step. simpl. set (hosts := split_on "," value).
    destruct (PlaceholdersNI (Z.of_nat (length hosts)) index) as [p i'] eqn:E.
    destruct (PlaceholdersNI_phs (Z.of_nat (length hosts)) index) as [Hp Hi]; [lia|].
    rewrite E in Hp, Hi. simpl in *. split; [lia|]. phs_simpl. intros i.
    rewrite Hp, elem_of_seqZ. lia.
  - pose proof (genFilterSQL_step_numbered key value index Hk) as Hn.
    destruct (genFilterSQL_step key value index) as [[s a] i']. destruct Hn as [Hn ->].
    split; [lia|]. intros i. rewrite Hn, elem_of_seqZ. lia.
Qed.

Lemma genFilterSQL_loop_below filter first str args index :
  (forall i, i ∈ phs str -> i < index) ->
  let '(q, _, index') := genFilterSQL_loop filter first str args index in
  forall i, i ∈ phs q -> i < index'.
Proof.
  revert first str args index. induction filter as [|[k v] filter IH]; intros first str args index Hb;
    simpl; [done|].
  pose proof (genFilterSQL_step_below k v index) as Hs.
  destruct (genFilterSQL_step k v index) as [[s a] i']. destruct Hs as [Hle Hs].
  apply IH. intros i. phs_simpl. destruct first; phs_simpl; rewrite ?elem_of_app;
    intros [Hi|Hi]; auto; apply Hb in Hi; lia.
Qed.

Lemma genFilterSQL_nil filter index q args i :
  genFilterSQL filter index = (q, args, i) -> q = [] -> args = [].
Proof.
  unfold genFilterSQL. destruct filter as [|[k v] filter]; [by intros [= <- <- <-]|].
  simpl. destruct (genFilterSQL_step k v index) as [[s a] j] eqn:E. intros Hl ->. exfalso.
  assert (s <> []) as Hs by (unfold genFilterSQL_step in E; repeat case_match; by simplify_eq).
  clear E. revert Hl. generalize dependent s. generalize a, j, false. clear.
  induction filter as [|[k v] filter IH]; intros a j b s Hs; simpl; [intros [= ->]; done|].
  destruct (genFilterSQL_step k v j) as [[s' a'] j']. apply IH. by destruct s.
Qed.

(** Indexes the metadata condition takes. *)
Definition meta_width (metaFilter : list (string * string)) : Z :=
  match metaFilter with [] => 0 | _ => 4 end.

(** Placeholders and arguments of [genWhereSQLAndArgs]. *)
Lemma genWhereSQLAndArgs_phs str filter metaFilter order offset limit :
  phs str = [] ->
  let '(q, args) := genWhereSQLAndArgs str filter metaFilter order offset limit in
  let '(fq, fargs, fi) := genFilterSQL filter 1 in
  phs q = phs fq ++ seqZ fi (meta_width metaFilter + 2) /\
  length args = (length fargs + 2 * length metaFilter + 2)%nat.
Proof.
  intros Hstr. unfold genWhereSQLAndArgs.
  destruct (genFilterSQL filter 1) as [[fq fargs] fi] eqn:E.
  set (base := match fq with [] => (str, " where "%string)
               | _ => (str ++ T " where " :: fq, " and "%string) end).
  assert (phs (fst base) = phs fq) as Hbase.
  { unfold base. destruct fq; simpl; [done|]. by rewrite phs_app, Hstr. }
  destruct base as [baseStr conj]. simpl in Hbase.
  assert (length (concat (map (fun kv : string * string => [AStr (fst kv); AStr (snd kv)]) metaFilter))
          = 2 * length metaFilter)%nat as Hlen
    by (clear; induction metaFilter; simpl in *; lia).
  unfold genOrderAndPage. destruct metaFilter as [|m ms].
  - simpl meta_width. rewrite seqZ_two.
    destruct order; phs_simpl; rewrite Hbase; (split; [done|lia]).
  - simpl meta_width. rewrite seqZ_six. unfold genInstanceMetadataArgs.
    destruct order; phs_simpl; rewrite Hbase, <- app_assoc; simpl in *;
      (split; [done|rewrite ?length_app; simpl; lia]).
Qed.

Lemma genFilterSQL_facts filter :
  let '(fq, fargs, fi) := genFilterSQL filter 1 in
  fi = 1 + Z.of_nat (length fargs) + Z.of_nat (count is_host filter) /\
  (forall i, i ∈ phs fq -> i < fi) /\
  ("host"%string ∉ map fst filter -> phs fq = seqZ 1 (Z.of_nat (length fargs))).
Proof.
  pose proof (genFilterSQL_loop_index filter true [] [] 1) as Hi.
  pose proof (genFilterSQL_loop_below filter true [] [] 1) as Hb.
  pose proof (genFilterSQL_loop_numbered filter 1 true [] [] 1) as Hn.
  unfold genFilterSQL. destruct (genFilterSQL_loop filter true [] [] 1) as [[fq fargs] fi].
  simpl in *. split; [lia|]. split; [apply Hb; intros i Hi'; by apply elem_of_nil in Hi'|].
  intros Hh. by apply Hn.
Qed.

Lemma count_host_zero filter : "host"%string ∉ map fst filter <-> count is_host filter = O.
Proof.
  unfold count, is_host. induction filter as [|[k v] filter IH]; simpl.
  { split; [done|]. intros _. apply not_elem_of_nil. }
  rewrite not_elem_of_cons, IH. case_bool_decide; simpl.
  - split; [intros [? _]; congruence|discriminate].
  - split; [by intros [_ ?]|]. intros ?. split; [congruence|done].
Qed.

Lemma count_host_NoDup filter : NoDup (map fst filter) -> (count is_host filter <= 1)%nat.
Proof.
  unfold count. induction filter as [|[k v] filter IH]; simpl; [lia|].
  intros [Hk Hn]%list.NoDup_cons. unfold is_host at 1. simpl. case_bool_decide as E; [|auto].
  subst k. apply count_host_zero in Hk. unfold count in Hk. simpl. lia.
Qed.

(** C38: a query built by [genWhereSQLAndArgs] has parameters the server
    accepts exactly when the filter has no [host] key (the [host] branch
    advances the index once too often) and the metadata filter is empty or
    has two entries (its condition always takes four placeholders). *)
Theorem genWhereSQLAndArgs_accepted str filter metaFilter order offset limit :
  phs str = [] -> NoDup (map fst filter) ->
  let '(q, args) := genWhereSQLAndArgs str filter metaFilter order offset limit in
  params_ok q (length args) = true <->
  "host"%string ∉ map fst filter /\ (metaFilter = [] \/ length metaFilter = 2%nat).
Proof.
  intros Hstr Hnd. pose proof (genWhereSQLAndArgs_phs str filter metaFilter order offset limit Hstr) as Hp.
  destruct (genWhereSQLAndArgs str filter metaFilter order offset limit) as [q args].
  pose proof (genFilterSQL_facts filter) as Hf. pose proof (count_host_NoDup filter Hnd) as Hc.
  destruct (genFilterSQL filter 1) as [[fq fargs] fi]. destruct Hp as [Hq Ha].
  destruct Hf as (Hfi & Hb & Hn). rewrite count_host_zero in *.
  assert (0 <= meta_width metaFilter) as Hw by (destruct metaFilter; simpl; lia).
  split.
  - intros Hok.
    assert (fi + meta_width metaFilter + 1 <= Z.of_nat (length args)).
    { eapply (params_ok_bound q); [done|]. rewrite Hq, elem_of_app, elem_of_seqZ. right. lia. }
    assert (Z.of_nat (length args) ∈ phs q) as Hl by (apply (params_ok_all q (length args)); [done|lia]).
    rewrite Hq, elem_of_app, elem_of_seqZ in Hl.
    assert (Z.of_nat (length args) < fi + (meta_width metaFilter + 2))
      by (destruct Hl as [Hl%Hb|?]; lia).
    destruct metaFilter as [|m [|m' [|]]]; simpl in *; (split; [lia|]);
      first [by left|by right|exfalso; lia].
  - intros [Hh Hm]. apply params_ok_seqZ. rewrite Hq, (Hn Hh), Ha, Hfi, Hh.
    replace (Z.of_nat (length fargs + 2 * length metaFilter + 2))
      with (Z.of_nat (length fargs) + (meta_width metaFilter + 2)); [|destruct Hm as [->|Hm];
        [simpl; lia|rewrite Hm; destruct metaFilter as [|? [|? [|]]]; simpl in *; lia]].
    rewrite (seqZ_app 1) by lia. do 2 f_equal. lia.
Qed.

(** The WHERE clause of a namespace query always carries well-numbered
    parameters, whatever the filter. *)
Theorem genNamespaceWhereSQLAndArgs_accepted str (filter : list (string * list string)) order offset limit :
  phs str = [] ->
  let '(q, args) := genNamespaceWhereSQLAndArgs str filter order offset limit in
  params_ok q (length args) = true.
Proof.
  intros Hstr. unfold genNamespaceWhereSQLAndArgs.
  set (start := if (0 <? length (concat (map snd filter)))%nat
                then genNamespace_keys filter true (str ++ [T "where"]) [] 1 else (str, [], 1)).
  assert (numbered 1 start) as Hn.
  { unfold start. case_match; [apply genNamespace_keys_numbered|]; split; phs_simpl; by rewrite ?Hstr. }
  destruct start as [[q args] i]. destruct Hn as [Hn ->].
  apply params_ok_seqZ. phs_simpl. rewrite seqZ_nat_app, <- Hn.
  change (Z.of_nat 2) with (0 + 2). rewrite seqZ_two. destruct order; phs_simpl; done.
Qed.

(** So do the queries for service aliases, which number from 1. *)
Theorem genServiceAliasWhereSQLAndArgs_accepted str filter order offset limit :
  phs str = [] ->
  let '(q, args) := genServiceAliasWhereSQLAndArgs str filter order offset limit 1 in
  params_ok q (length args) = true.
Proof.
  intros Hstr. unfold genServiceAliasWhereSQLAndArgs.
  pose proof (genServiceFilterSQL_numbered filter 1) as Hn.
  destruct (genServiceFilterSQL filter 1) as [[fq fargs] fi]. destruct Hn as [Hn ->].
  apply params_ok_seqZ. unfold genOrderAndPage.
  assert (phs (match fq with [] => str | _ => str ++ [T " where "] end) = []) as Hb
    by (destruct fq; phs_simpl; by rewrite ?Hstr).
  destruct order; phs_simpl; rewrite Hb, Hn, seqZ_nat_app; simpl;
    change (Z.of_nat 2) with (0 + 2); by rewrite seqZ_two.
Qed.

Lemma genRuleFilterSQL_loop_phs tableName filter first str args index :
  let '(q, a, i) := genRuleFilterSQL_loop tableName filter first str args index in
  phs q = phs str ++ replicate (length filter) index /\ i = index /\
  length a = (length args + length filter)%nat.
Proof.
  revert first str args. induction filter as [|[k v] filter IH]; intros first str args; simpl.
  { phs_simpl. repeat split; lia. }
  set (key := if bool_decide (tableName <> _) then _ else _). clearbody key.
  destruct (bool_decide (key = OwnerAttribute) || _).
  all: match goal with |- context [genRuleFilterSQL_loop ?t ?f ?b ?s ?a ?i] =>
         specialize (IH b s a); destruct (genRuleFilterSQL_loop t f b s a i) as [[q b'] j] end.
  all: destruct IH as (-> & -> & ->); phs_simpl; rewrite ?length_app; simpl.
  all: destruct first; phs_simpl; rewrite <- ?app_assoc; simpl; repeat split; lia.
Qed.

(** [genRuleFilterSQL] gives every condition the same placeholder, so
    its text is accepted with its own arguments only up to one condition. *)
Theorem genRuleFilterSQL_accepted tableName filter :
  let '(q, args, _) := genRuleFilterSQL tableName filter 1 in
  params_ok q (length args) = true <-> (length filter <= 1)%nat.
Proof.
  pose proof (genRuleFilterSQL_loop_phs tableName filter true [] [] 1) as Hl.
  unfold genRuleFilterSQL.
  destruct (genRuleFilterSQL_loop tableName filter true [] [] 1) as [[q args] i].
  destruct Hl as (Hq & _ & Ha). simpl in *. split.
  - intros Hok. destruct (decide (length filter <= 1)%nat) as [|Hn]; [done|].
    assert (2 ∈ phs q) as H2 by (apply (params_ok_all q (length args)); [done|lia]).
    rewrite Hq in H2. apply elem_of_replicate in H2 as [? _]. done.
  - intros Hl. apply params_ok_seqZ. rewrite Hq, Ha.
    destruct filter as [|? [|]]; simpl in *; [done|done|lia].
Qed.
End accepted.

(** ** Facts on VALUES lists *)

Lemma placeholders_sql_phs ns : phs (placeholders_sql ns) = ns.
Proof.
  induction ns as [|n ns IH]; [done|]. destruct ns as [|m ns]; [done|].
  change (n :: phs (placeholders_sql (m :: ns)) = n :: m :: ns). by rewrite IH.
Qed.

Lemma values_sql_phs tail groups : phs (values_sql tail groups) = concat groups.
Proof.
  induction groups as [|g groups IH]; [done|].
  assert (phs (T "(" :: placeholders_sql g ++ [T tail; T ")"]) = g) as Hg.
  { simpl. rewrite phs_app, placeholders_sql_phs. simpl. by rewrite app_nil_r. }
  destruct groups as [|g' groups]; [simpl concat; by rewrite app_nil_r|].
  change (phs (T "(" :: placeholders_sql g ++ [T tail; T ")"; T ","] ++ values_sql tail (g' :: groups))
          = g ++ concat (g' :: groups)).
  rewrite <- IH. simpl. rewrite !phs_app, placeholders_sql_phs. done.
Qed.

Lemma seqZ_map_nth (pre r post : list arg) :
  map (arg_at (pre ++ r ++ post)) (seqZ (Z.of_nat (length pre) + 1) (Z.of_nat (length r))) = r.
Proof.
  revert pre. induction r as [|a r IH]; intros pre; [done|].
  rewrite seqZ_cons by (simpl; lia). cbn [map]. f_equal.
  - unfold arg_at. rewrite app_nth2 by lia.
    by replace (Z.to_nat (Z.of_nat (length pre) + 1 - 1) - length pre)%nat with O by lia.
  - specialize (IH (pre ++ [a])). rewrite <- app_assoc, length_app in IH. simpl in *.
    etrans; [|exact IH]. f_equal. f_equal; lia.
Qed.

Lemma values_loop_length w step rows i :
  length (snd (values_loop w step rows i)) = length (concat rows).
Proof.
  revert i. induction rows as [|r rows IH]; intros i; simpl; [done|].
  specialize (IH (i + step)). destruct (values_loop w step rows (i + step)). simpl in *.
  by rewrite !length_app, IH.
Qed.

Lemma values_loop_args w step rows i : snd (values_loop w step rows i) = concat rows.
Proof.
  revert i. induction rows as [|r rows IH]; intros i; simpl; [done|].
  specialize (IH (i + step)). destruct (values_loop w step rows (i + step)). simpl in *. by rewrite IH.
Qed.

(** When the index advances by the width of a row, the placeholders are
    consecutive and every group reads back the row it was written for. *)
Lemma values_loop_ok (w : nat) rows pre :
  Forall (fun r : list arg => length r = w) rows ->
  let '(groups, args) := values_loop (Z.of_nat w) (Z.of_nat w) rows (Z.of_nat (length pre) + 1) in
  concat groups = seqZ (Z.of_nat (length pre) + 1) (Z.of_nat (length args)) /\
  forall post, map (map (arg_at (pre ++ args ++ post))) groups = rows.
Proof.
  intros Hr. revert pre. induction Hr as [|r rows Hw _ IH]; intros pre; [done|]. simpl.
  specialize (IH (pre ++ r)). rewrite length_app, Nat2Z.inj_add in IH.
  replace (Z.of_nat (length pre) + 1 + Z.of_nat w)
    with (Z.of_nat (length pre) + Z.of_nat (length r) + 1) by lia.
  destruct (values_loop _ _ rows _) as [groups args]. destruct IH as [IH1 IH2]. split.
  - simpl. rewrite IH1, length_app, seqZ_nat_app, Hw. do 2 f_equal; lia.
  - intros post. simpl. f_equal.
    + rewrite <- Hw, <- app_assoc. apply seqZ_map_nth.
    + rewrite <- (IH2 post). by rewrite <- !app_assoc.
Qed.

Lemma values_ok (w : nat) rows tail pre :
  phs pre = [] -> Forall (fun r : list arg => length r = w) rows ->
  let '(groups, args) := values_loop (Z.of_nat w) (Z.of_nat w) rows 1 in
  params_ok (pre ++ values_sql tail groups) (length args) = true /\
  map (map (arg_at args)) groups = rows.
Proof.
  intros Hp Hr. pose proof (values_loop_ok w rows [] Hr) as Hv. cbn [length app] in Hv.
  change (Z.of_nat 0 + 1) with 1 in Hv.
  destruct (values_loop (Z.of_nat w) (Z.of_nat w) rows 1) as [groups args]. destruct Hv as [H1 H2].
  split.
  - apply params_ok_seqZ. rewrite phs_app, Hp, values_sql_phs. done.
  - specialize (H2 []). by rewrite app_nil_r in H2.
Qed.

(** When the index advances by less than the width of a row, only a single
    row is numbered well. *)
Lemma values_loop_bound w step rows i :
  0 < step -> step <= w -> rows <> [] ->
  forall n, n ∈ concat (fst (values_loop w step rows i)) ->
    n < i + step * (Z.of_nat (length rows) - 1) + w.
Proof.
  intros Hs Hw. revert i. induction rows as [|r rows IH]; intros i Hne n; [done|]. simpl.
  destruct (values_loop w step rows (i + step)) as [groups args] eqn:E. simpl.
  rewrite elem_of_app, elem_of_seqZ. intros [Hn|Hn]; [nia|].
  destruct rows as [|r' rows]; [simpl in E; simplify_eq; by apply elem_of_nil in Hn|].
  specialize (IH (i + step) ltac:(done) n). rewrite E in IH. specialize (IH Hn). simpl length in *. nia.
Qed.

Lemma values_short (w step : nat) rows tail pre :
  phs pre = [] -> (0 < step < w)%nat -> (2 <= length rows)%nat ->
  Forall (fun r : list arg => length r = w) rows ->
  let '(groups, args) := values_loop (Z.of_nat w) (Z.of_nat step) rows 1 in
  params_ok (pre ++ values_sql tail groups) (length args) = false.
Proof.
  intros Hp Hs Hl Hr.
  pose proof (values_loop_bound (Z.of_nat w) (Z.of_nat step) rows 1) as Hb.
  pose proof (values_loop_length (Z.of_nat w) (Z.of_nat step) rows 1) as Hn.
  destruct (values_loop (Z.of_nat w) (Z.of_nat step) rows 1) as [groups args]. simpl in Hb, Hn.
  assert (length (concat rows) = w * length rows)%nat as Hc.
  { clear -Hr. induction Hr as [|r rows E _ IH]; simpl; [lia|]. rewrite length_app, IH, E. lia. }
  destruct (params_ok _ _) eqn:E; [|done]. exfalso.
  assert (Z.of_nat (length args) ∈ phs (pre ++ values_sql tail groups)) as Hi
    by (apply (params_ok_all _ (length args)); [done|nia]).
  rewrite phs_app, Hp, values_sql_phs in Hi.
  apply Hb in Hi; [nia|lia|lia|]. intros ->. simpl in Hl. lia.
Qed.
