(* ===== verification/Common.v ===== *)
(** * Shared helpers (store/postgresql/common.go)

    The batching loops [BatchQuery] and [BatchOperation], proved equal to a
    traversal of the chunks of the data, the alias filter translation, name
    and timestamp conversions, and [queryEntryCount]. *)
From stdpp Require Import base list strings pretty gmap.
From Stdlib Require Import ZArith Lia Ascii.
From S2P Require Import Prelude Driver Rows Schema Sql.
Open Scope Z_scope.
Open Scope store_scope.

(** ** Outside functions *)

(** A Go map yields its entries in an unspecified order. *)
Class MapRange := {
  range_map : gmap string string -> list (string * string);
  range_map_perm : forall m, range_map m ≡ₚ map_to_list m
}.

(** [utils.NewUUID]: the n-th identifier drawn while the transaction with the
    given timestamp is open. *)
Class Uuid := NewUUID : Z -> nat -> string.

(** The server's answer to a query whose text is generated: nothing is
    assumed of it but that it refuses wrongly numbered parameters. *)
Class PgServer := {
  pg_services : sql -> list arg -> database -> res (list service_row);
  pg_aliases : sql -> list arg -> database -> res (list (service_row * service_row));
  pg_count : sql -> list arg -> database -> res Z;
  pg_services_params : forall q args d,
    params_ok q (length args) = false -> pg_services q args d = Err param_error;
  pg_aliases_params : forall q args d,
    params_ok q (length args) = false -> pg_aliases q args d = Err param_error;
  pg_count_params : forall q args d,
    params_ok q (length args) = false -> pg_count q args d = Err param_error
}.

Definition SystemNamespace : string := "Polaris".

(** The zero [time.Time], in microseconds since 1970. *)
Definition zero_time : Z := -62135596800000000.

(** ** Chunks of a list *)

Fixpoint chunks_from {A} (fuel n : nat) (l : list A) : list (list A) :=
  match fuel, l with
  | S fuel', _ :: _ => take n l :: chunks_from fuel' n (drop n l)
  | _, _ => []
  end.

Definition chunks {A} (n : nat) (l : list A) : list (list A) := chunks_from (length l) n l.

(** Run a handler on each element, stopping at the first failure. *)
Fixpoint each {D A} (handler : A -> M D unit) (l : list A) : M D unit :=
  match l with
  | [] => Ret tt
  | x :: l' => handler x ;;; each handler l'
  end.

(** The same with the variables the handler captures passed along. *)
Fixpoint each_st {D A S} (handler : A -> S -> M D S) (l : list A) (s : S) : M D S :=
  match l with
  | [] => Ret s
  | x :: l' => s' <- handler x s ;; each_st handler l' s'
  end.

Fixpoint p_each {D A} (handler : A -> P D unit) (l : list A) : P D unit :=
  match l with
  | [] => p_ret tt
  | x :: l' => p_bind (handler x) (fun _ => p_each handler l')
  end.

(** ** common.go *)

Definition out_of_fuel {D A} : M D A := lift (Panic "fuel").

(** The [for] loop of [BatchQuery], at most 200 elements at a time.  The
    handler is a closure; [s] holds the variables it captures. *)
Fixpoint BatchQuery_loop {D A S} (fuel : nat) (data : list A) (handler : list A -> S -> M D S)
    (beg remain : nat) (s : S) : M D S :=
  match fuel with
  | O => out_of_fuel
  | Datatypes.S fuel' =>
      let maxCount := 200%nat in
      if (maxCount <? remain)%nat then
        s' <- handler (take maxCount (drop beg data)) s ;;
        BatchQuery_loop fuel' data handler (beg + maxCount) (remain - maxCount) s'
      else handler (take remain (drop beg data)) s
  end.

Definition BatchQuery {D A S} (data : list A) (handler : list A -> S -> M D S) (s : S) : M D S :=
  let remain := length data in
  if (remain =? 0)%nat then Ret s
  else BatchQuery_loop (Datatypes.S (length data)) data handler 0 remain s.

(** The [for] loop of [BatchOperation], at most 100 elements at a time. *)
Fixpoint BatchOperation_loop {D A} (fuel : nat) (data : list A) (handler : list A -> M D unit)
    (begin_ : nat) : M D unit :=
  match fuel with
  | O => out_of_fuel
  | S fuel' =>
      let maxCount := 100%nat in
      if (begin_ <? length data)%nat then
        let end_ := if (length data <? begin_ + maxCount)%nat then length data
                    else (begin_ + maxCount)%nat in
        handler (take (end_ - begin_) (drop begin_ data)) ;;;
        BatchOperation_loop fuel' data handler (begin_ + maxCount)
      else Ret tt
  end.

Definition BatchOperation {D A} (data : list A) (handler : list A -> M D unit) : M D unit :=
  BatchOperation_loop (S (length data)) data handler 0.

(** [queryEntryCount] *)
Definition queryEntryCount `{Env} `{PolarisApi} {D} (view : conn D -> D)
    (sel : Z -> D -> res Z) : M D Z :=
  Retry (QueryRow view (fun now d => res_map (fun n => [n]) (sel now d))).

Definition aliasFilter2Where : gmap string string :=
  {["service" := "source.name"; "namespace" := "source.namespace"; "alias" := "alias.name";
    "alias_namespace" := "alias.namespace"; "owner" := "alias.owner"]}%string.

(** [serviceAliasFilter2Where], over the entries of the filter in range order. *)
Fixpoint serviceAliasFilter2Where_loop (filter : list (string * string)) (out : gmap string string) :
    gmap string string :=
  match filter with
  | [] => out
  | (k, v) :: filter' =>
      match aliasFilter2Where !! k with
      | Some d => serviceAliasFilter2Where_loop filter' (<[d := v]> out)
      | None => serviceAliasFilter2Where_loop filter' (<[k := v]> out)
      end
  end.

Definition serviceAliasFilter2Where (filter : list (string * string)) : gmap string string :=
  serviceAliasFilter2Where_loop filter ∅.

(** [timeToTimestamp]: seconds, with negative values turned into 1. *)
Definition timeToTimestamp (unix : Z) : Z := if unix <? 0 then 1 else unix.

(** [unicode.IsUpper] and [strings.ToLower] on ASCII characters. *)
Definition is_upper (c : ascii) : bool :=
  (65 <=? Z.of_nat (nat_of_ascii c)) && (Z.of_nat (nat_of_ascii c) <=? 90).
Definition to_lower (c : ascii) : ascii :=
  if is_upper c then ascii_of_nat (nat_of_ascii c + 32) else c.

Fixpoint toUnderscoreName_loop (name : string) (i : nat) : string :=
  match name with
  | EmptyString => EmptyString
  | String token name' =>
      let rest := String (to_lower token) (toUnderscoreName_loop name' (S i)) in
      if is_upper token && (0 <? i)%nat then String "_" rest else rest
  end.

Definition toUnderscoreName (name : string) : string := toUnderscoreName_loop name 0.

(** Seconds of a timestamp in microseconds, as [time.Time.Unix]. *)
Definition unix_seconds (t : Z) : Z := t / 1000000.

(** [GetLocation]: seconds east of Greenwich in Asia/Shanghai; the zone the
    code falls back to is the same. *)
Definition GetLocation : Z := 8 * 3600.

(** [ConvertSecond]: the second does not depend on the location. *)
Definition ConvertSecond (ctime : Z) : Z := unix_seconds ctime.

(** [CurrDiffTimeSecond(before)] is [before.Sub(now).Seconds()]: microseconds
    here; [trunc_seconds] is the conversion of that float to an integer. *)
Definition CurrDiffTimeSecond (now beforeTime : Z) : Z := beforeTime - now.
Definition trunc_seconds (micros : Z) : Z := Z.quot micros 1000000.

(** [GetCurrentSsTimestamp]. *)
Definition GetCurrentSsTimestamp (now : Z) : Z := unix_seconds now.

(** The timestamp [GetCurrentTimeFormat] prints: the clock of Asia/Shanghai
    (UTC+8), to the second. *)
Definition GetCurrentTimeFormat (now : Z) : Z := (unix_seconds now + GetLocation) * 1000000.

(** [UnixSecondToTime]: the wall clock of Asia/Shanghai at that second, which
    is what a column without time zone is compared with. *)
Definition UnixSecondToTime (second : Z) : Z := (second + GetLocation) * 1000000.

(** [int32(f)] of a number of seconds given in microseconds; out of range the
    conversion gives the smallest integer (as on amd64). *)
Definition int32_seconds (micros : Z) : Z :=
  let s := trunc_seconds micros in
  if (-2147483648 <=? s) && (s <=? 2147483647) then s else -2147483648.

(** ** Timestamps as text

    A column of type [timestamp] scanned into a Go string is printed as
    [time.RFC3339Nano], in UTC for a column without time zone. *)

(** Year, month and day of a number of days since 1970-01-01. *)
Definition civil_from_days (days : Z) : Z * Z * Z :=
  let z := days + 719468 in
  let era := z / 146097 in
  let doe := z - era * 146097 in
  let yoe := (doe - doe / 1460 + doe / 36524 - doe / 146096) / 365 in
  let doy := doe - (365 * yoe + yoe / 4 - yoe / 100) in
  let mp := (5 * doy + 2) / 153 in
  let d := doy - (153 * mp + 2) / 5 + 1 in
  let m := if mp <? 10 then mp + 3 else mp - 9 in
  (yoe + era * 400 + (if m <=? 2 then 1 else 0), m, d).

Fixpoint zeros (n : nat) : string :=
  match n with O => EmptyString | S n' => String "0" (zeros n') end.

Definition pad (width : nat) (n : Z) : string :=
  let s := pretty n in zeros (width - String.length s) +:+ s.

(** The fraction of a second, without its trailing zeros. *)
Fixpoint drop_zeros (fuel : nat) (n : Z) (width : nat) : string :=
  match fuel with
  | O => ""
  | S fuel' => if n =? 0 then "" else if n mod 10 =? 0 then drop_zeros fuel' (n / 10) (width - 1)
               else "." +:+ pad width n
  end.

Definition RFC3339Nano (t : Z) : string :=
  let s := unix_seconds t in
  let '(y, m, d) := civil_from_days (s / 86400) in
  let sod := s mod 86400 in
  pad 4 y +:+ "-" +:+ pad 2 m +:+ "-" +:+ pad 2 d +:+ "T" +:+
  pad 2 (sod / 3600) +:+ ":" +:+ pad 2 (sod / 60 mod 60) +:+ ":" +:+ pad 2 (sod mod 60) +:+
  drop_zeros 6 (t mod 1000000) 6 +:+ "Z".

(** The character occurs in the string. *)
Fixpoint str_has (c : ascii) (s : string) : bool :=
  match s with EmptyString => false | String x s' => Ascii.eqb x c || str_has c s' end.

(** EXTRACT(EPOCH FROM ts), a numeric with six decimals, scanned into a
    string. *)
Definition epoch_text (t : Z) : string :=
  (if t <? 0 then "-" else "") +:+ pretty (Z.abs_N t / 1000000)%N +:+ "." +:+ pad 6 (Z.abs t mod 1000000).

(** [strconv.ParseFloat(s, 64)] followed by the conversion to int64: a colon
    occurs in no syntax of a number, and on the text of an instant before
    2096 (where a float64 keeps the seconds) the result is its second. *)
Class Strconv := {
  ParseFloat : string -> res Z;
  ParseFloat_colon : forall s, str_has ":" s = true -> exists msg, ParseFloat s = Err (EMsg msg);
  ParseFloat_epoch : forall t, 0 <= t < 4000000000000000 -> ParseFloat (epoch_text t) = Ok (unix_seconds t)
}.

(** [Scan] of an integer column into a bool. *)
Definition scan_bool (n : Z) : res bool :=
  if n =? 0 then Ok false else if n =? 1 then Ok true
  else Err (EMsg "sql: Scan error: couldn't convert into type bool").

(** [Scan] of an int4 column into a uint32. *)
Definition scan_uint32 (n : Z) : res Z :=
  if (0 <=? n) && (n <? 2 ^ 32) then Ok n
  else Err (EMsg "sql: Scan error: converting driver.Value type int64 to a uint32: value out of range").

(** A uint32 as the value of an int4 parameter. *)
Definition int4_arg (n : Z) : res Z :=
  if n <? 2 ^ 31 then Ok n else Err (EDriver "pq: value is out of range for type integer").

(** [fmt.Errorf(prefix + ": %v", err)] *)
Definition errorf `{PolarisApi} (prefix : string) (e : error) : error :=
  EMsg (prefix +:+ ": " +:+ Error e).

(** Two texts as instants: the first error wins. *)
Definition scan_times `{PolarisApi} `{Strconv} (ctimeStr mtimeStr : string) : res (Z * Z) :=
  match ParseFloat ctimeStr with
  | Err e => Err (errorf "failed to parse create_time" e)
  | Panic w => Panic w
  | Ok ctime =>
  match ParseFloat mtimeStr with
  | Err e => Err (errorf "failed to parse modify_time" e)
  | Panic w => Panic w
  | Ok mtime => Ok (ctime, mtime)
  end end.

(** ** Facts *)

(** *** Maps *)

Lemma fold_insert_lookup {V} (kvs : list (string * V)) (m : gmap string V) k :
  NoDup (map fst kvs) ->
  fold_left (fun m kv => <[fst kv := snd kv]> m) kvs m !! k =
    match (list_to_map kvs : gmap string V) !! k with Some v => Some v | None => m !! k end.
Proof.
  revert m. induction kvs as [|[k' v'] kvs IH]; intros m; simpl; [by rewrite lookup_empty|].
  intros [Hk Hn]%list.NoDup_cons. rewrite IH by done.
  destruct (decide (k = k')) as [->|Hne].
  - rewrite lookup_insert_eq. replace ((list_to_map kvs : gmap string V) !! k') with (@None V).
    + by rewrite lookup_insert_eq.
    + symmetry. by apply not_elem_of_list_to_map_1.
  - rewrite !lookup_insert_ne by done. done.
Qed.

(** A map built from the elements of a list without repeated keys. *)
Lemma fold_insert_Some {B V} (key : B -> string) (val : B -> V) l id v :
  NoDup (map key l) ->
  fold_left (fun m b => <[key b := val b]> m) l (∅ : gmap string V) !! id = Some v <->
  exists b, b ∈ l /\ key b = id /\ v = val b.
Proof.
  intros Hn.
  assert (forall m : gmap string V, fold_left (fun m b => <[key b := val b]> m) l m =
    fold_left (fun m kv => <[fst kv := snd kv]> m) (map (fun b => (key b, val b)) l) m) as ->.
  { clear Hn. induction l as [|b l IH]; intros m; [done|]. apply IH. }
  assert (NoDup (map (fun b => (key b, val b)) l).*1) as Hn' by (by rewrite <- list_fmap_compose).
  rewrite fold_insert_lookup, lookup_empty by exact Hn'.
  transitivity ((list_to_map (map (fun b => (key b, val b)) l) : gmap string V) !! id = Some v).
  { by destruct (_ !! id). }
  rewrite <- elem_of_list_to_map by exact Hn'. rewrite list_elem_of_fmap.
  split; [intros (b & [= -> ->] & Hb); eauto|intros (b & Hb & <- & ->); eauto].
Qed.

(** Whatever order the entries of a map are visited in, inserting them one
    after the other lays the map over what was there. *)
Lemma range_map_fold_over `{MapRange} m acc :
  fold_left (fun m kv => <[fst kv := snd kv]> m) (range_map m) acc = m ∪ acc.
Proof.
  apply map_eq. intros k.
  assert (NoDup (map fst (range_map m))) as Hn.
  { change (NoDup (range_map m).*1). rewrite (range_map_perm m). apply NoDup_fst_map_to_list. }
  rewrite fold_insert_lookup by done.
  rewrite (list_to_map_proper (range_map m) (map_to_list m)); [|done|apply range_map_perm].
  rewrite list_to_map_to_list, lookup_union. by destruct (m !! k), (acc !! k).
Qed.

Lemma range_map_fold `{MapRange} m :
  fold_left (fun m kv => <[fst kv := snd kv]> m) (range_map m) ∅ = m.
Proof. by rewrite range_map_fold_over, (right_id_L ∅ (∪)). Qed.

Lemma str_has_app c s t : str_has c (s +:+ t) = str_has c s || str_has c t.
Proof. induction s as [|x s IH]; [done|]. simpl. by rewrite IH, orb_assoc. Qed.

Lemma RFC3339Nano_colon t : str_has ":" (RFC3339Nano t) = true.
Proof.
  unfold RFC3339Nano. destruct (civil_from_days _) as [[y m] d].
  rewrite !str_has_app. replace (str_has ":" ":") with true by done.
  by rewrite !orb_true_l, !orb_true_r.
Qed.

Lemma scan_times_fails `{PolarisApi} `{Strconv} t s : is_Ok (scan_times (RFC3339Nano t) s) = false.
Proof. unfold scan_times. by destruct (ParseFloat_colon _ (RFC3339Nano_colon t)) as [msg ->]. Qed.

Section chunks_facts.
Context {A : Type}.
Implicit Types l : list A.

Lemma chunks_from_fuel n l f1 f2 :
  (0 < n)%nat -> (length l <= f1)%nat -> (length l <= f2)%nat ->
  chunks_from f1 n l = chunks_from f2 n l.
Proof.
  intros Hn. revert l f2. induction f1 as [|f1 IH]; intros l f2 H1 H2.
  { destruct l; [by destruct f2|simpl in *; lia]. }
  destruct l as [|x l]; [by destruct f2|]. destruct f2 as [|f2]; [simpl in *; lia|].
  change (take n (x :: l) :: chunks_from f1 n (drop n (x :: l)) =
          take n (x :: l) :: chunks_from f2 n (drop n (x :: l))).
  f_equal. apply IH; rewrite length_drop; simpl in *; lia.
Qed.

Lemma chunks_cons n l : (0 < n)%nat -> l <> [] ->
  chunks n l = take n l :: chunks n (drop n l).
Proof.
  intros Hn Hl. unfold chunks. destruct l as [|x l]; [done|]. simpl. f_equal.
  apply chunks_from_fuel; [done| |done]. rewrite length_drop. simpl. lia.
Qed.

Lemma chunks_spec n l : (0 < n)%nat ->
  concat (chunks n l) = l /\ Forall (fun c => (1 <= length c <= n)%nat) (chunks n l).
Proof.
  intros Hn. remember (length l) as k eqn:Hk.
  revert l Hk. induction (lt_wf k) as [k _ IH]; intros l ->.
  destruct (decide (l = [])) as [->|Hl]; [by split; [|constructor]|].
  rewrite chunks_cons by done.
  assert (0 < length l)%nat by (destruct l; simpl; [done|lia]).
  destruct (IH (length (drop n l))) with (l := drop n l) as [H1 H2];
    [rewrite length_drop; lia|done|].
  simpl. rewrite H1, take_drop. split; [done|]. constructor; [|done].
  rewrite length_take. lia.
Qed.
End chunks_facts.

Section batches.
Context {D A : Type}.
Implicit Types (data : list A).

Lemma BatchQuery_loop_eq {S} fuel data (handler : list A -> S -> M D S) beg remain :
  (remain < fuel)%nat -> (0 < remain)%nat -> remain = (length data - beg)%nat ->
  forall s c, BatchQuery_loop fuel data handler beg remain s c =
    each_st handler (chunks 200 (drop beg data)) s c.
Proof.
  revert beg remain. induction fuel as [|fuel IH]; intros beg remain Hf Hr He s c; [lia|].
  assert (length (drop beg data) = remain) as Hd by (rewrite length_drop; lia).
  rewrite (chunks_cons 200); [|lia|intros E; rewrite E in Hd; simpl in Hd; lia].
  cbn [BatchQuery_loop each_st]. destruct (Nat.ltb_spec 200 remain).
  - unfold Bind. destruct (handler (take 200 (drop beg data)) s c) as [[] c1]; try done.
    rewrite IH by lia. by rewrite drop_drop.
  - assert (length (drop beg data) <= remain /\ length (drop beg data) <= 200)%nat as [? ?] by lia.
    rewrite !take_ge, (drop_ge (drop beg data)) by done. unfold Bind, Ret. simpl.
    by destruct (handler (drop beg data) s c) as [[] c1].
Qed.

Lemma BatchOperation_loop_eq fuel data (handler : list A -> M D unit) begin_ :
  (length data - begin_ < fuel)%nat ->
  forall c, BatchOperation_loop fuel data handler begin_ c = each handler (chunks 100 (drop begin_ data)) c.
Proof.
  revert begin_. induction fuel as [|fuel IH]; intros b Hf c; [lia|].
  cbn [BatchOperation_loop]. destruct (Nat.ltb_spec b (length data)) as [Hb|Hb].
  - rewrite (chunks_cons 100) by first [lia|intros E%(f_equal length); rewrite length_drop in E; simpl in E; lia].
    cbn [each]. replace (take _ (drop b data)) with (take 100 (drop b data)).
    + unfold Bind. destruct (handler (take 100 (drop b data)) c) as [[] c1]; try done.
      rewrite IH by lia. by rewrite drop_drop.
    + destruct (Nat.ltb_spec (length data) (b + 100)); [|f_equal; lia].
      rewrite !take_ge; rewrite ?length_drop; auto; lia.
  - by rewrite drop_ge by lia.
Qed.

Lemma BatchQuery_eq {S} data (handler : list A -> S -> M D S) s c :
  BatchQuery data handler s c = each_st handler (chunks 200 data) s c.
Proof.
  unfold BatchQuery. destruct (Nat.eqb_spec (length data) 0) as [E|E]; [by destruct data|].
  by rewrite BatchQuery_loop_eq by lia.
Qed.

(** [BatchQuery] hands the data to its handler in consecutive chunks of
    1 to 200 elements, in order, and stops at the first failure; its loop
    always ends. *)
Theorem BatchQuery_chunks {S} data (handler : list A -> S -> M D S) s c :
  BatchQuery data handler s c = each_st handler (chunks 200 data) s c /\
  concat (chunks 200 data) = data /\
  Forall (fun part => (1 <= length part <= 200)%nat) (chunks 200 data).
Proof.
  split; [apply BatchQuery_eq|by apply chunks_spec; lia].
Qed.

(** So does [BatchOperation] with chunks of at most 100. *)
Theorem BatchOperation_chunks data (handler : list A -> M D unit) c :
  BatchOperation data handler c = each handler (chunks 100 data) c /\
  concat (chunks 100 data) = data /\
  Forall (fun part => (1 <= length part <= 100)%nat) (chunks 100 data).
Proof.
  split; [|by apply chunks_spec; lia]. unfold BatchOperation.
  by rewrite BatchOperation_loop_eq by lia.
Qed.
End batches.

Section batch_refinement.
Context `{Env} {D A : Type}.

#[export] Instance impl_each {B} (handler : B -> M D unit) p l :
  (forall x, Implements (handler x) (p x)) -> Implements (each handler l) (p_each p l).
Proof. intros Hh. induction l; simpl; apply _. Qed.

#[export] Instance impl_BatchOperation (handler : list A -> M D unit) p data :
  (forall x, Implements (handler x) (p x)) ->
  Implements (BatchOperation data handler) (p_each p (chunks 100 data)).
Proof.
  intros Hh. destruct (impl_each handler p (chunks 100 data) Hh) as [F S X].
  assert (forall c, BatchOperation data handler c = each handler (chunks 100 data) c) as E.
  { intros c. unfold BatchOperation. by rewrite BatchOperation_loop_eq by lia. }
  split; intros c; rewrite E; eauto.
Qed.
End batch_refinement.

#[export] Instance read_queryEntryCount `{Env} `{PolarisApi} {D} view (sel : Z -> D -> res Z) :
  ReadOnly (queryEntryCount view sel).
Proof. unfold queryEntryCount. apply _. Qed.

(** The count comes from an evaluation of the query. *)
Lemma queryEntryCount_reliable `{Env} `{PolarisApi} {D} view `{!DbView view} (sel : Z -> D -> res Z) c n :
  reliable -> sel (current_timestamp c) (view c) = Ok n -> queryEntryCount view sel c = (Ok n, tick c).
Proof.
  intros Hr Hs. unfold queryEntryCount. apply Retry_once; [|done]. unfold QueryRow, Bind.
  erewrite Query_reliable; [|done|by rewrite Hs]. done.
Qed.

Lemma queryEntryCount_Ok `{Env} `{PolarisApi} {D} view `{!DbView view} (sel : Z -> D -> res Z) c n c' :
  queryEntryCount view sel c = (Ok n, c') -> exists now d, sel now d = Ok n.
Proof.
  unfold queryEntryCount. intros (c1 & c2 & Hq)%Retry_Ok.
  apply QueryRow_Ok in Hq as (_ & now & l & Hl); [|done].
  apply res_map_Ok in Hl as (n' & Hn & [= -> _]). eauto.
Qed.

#[export] Instance read_each_st `{Env} {D A S} (handler : A -> S -> M D S) l s :
  (forall x s, ReadOnly (handler x s)) -> ReadOnly (each_st handler l s).
Proof. intros Hh. revert s. induction l; intros s; simpl; apply _. Qed.

#[export] Instance read_BatchQuery `{Env} {D A S} (handler : list A -> S -> M D S) data s :
  (forall x s, ReadOnly (handler x s)) -> ReadOnly (BatchQuery data handler s).
Proof.
  intros Hh c r c'. rewrite BatchQuery_eq.
  apply read_each_st. apply _.
Qed.

#[export] Instance preserves_each {A} I (p : A -> P database unit) l :
  (forall x, Preserves I (p x)) -> Preserves I (p_each p l).
Proof. intros Hp. induction l; simpl; apply _. Qed.

(** The translated name starts new words in lower case and never contains an
    upper-case letter. *)
Lemma to_lower_not_upper c : is_upper (to_lower c) = false.
Proof. by destruct c as [[] [] [] [] [] [] [] []]. Qed.

Fixpoint str_forall (p : ascii -> bool) (s : string) : bool :=
  match s with EmptyString => true | String c s' => p c && str_forall p s' end.

Lemma toUnderscoreName_lower name :
  str_forall (fun c => negb (is_upper c)) (toUnderscoreName name) = true.
Proof.
  unfold toUnderscoreName. generalize 0%nat. induction name as [|c name IH]; intros i; [done|].
  simpl. destruct (is_upper c && (0 <? i)%nat); simpl; by rewrite to_lower_not_upper, IH.
Qed.

(** ** Concrete instances, for examples *)

Definition plain_range : MapRange :=
  {| range_map := map_to_list; range_map_perm := fun m => Permutation_refl (map_to_list m) |}.

Definition plain_uuid : Uuid := fun now n => "uuid" +:+ pretty now +:+ "-" +:+ pretty n.

Definition answers {A} (a : A) (q : sql) (args : list arg) (d : database) : res A :=
  if params_ok q (length args) then Ok a else Err param_error.

Lemma answers_params {A} (a : A) q args d :
  params_ok q (length args) = false -> answers a q args d = Err param_error.
Proof. unfold answers. by intros ->. Defined.

Definition plain_server : PgServer :=
  {| pg_services := answers []; pg_aliases := answers []; pg_count := answers 0;
     pg_services_params := answers_params []; pg_aliases_params := answers_params [];
     pg_count_params := answers_params 0 |}.

(** Decimal digits up to the point, as a number. *)
Fixpoint digits (acc : Z) (s : string) : res Z :=
  match s with
  | EmptyString => Ok acc
  | String c s' =>
      if Ascii.eqb c "." then Ok acc
      else if (48 <=? Z.of_nat (nat_of_ascii c)) && (Z.of_nat (nat_of_ascii c) <=? 57)
      then digits (10 * acc + (Z.of_nat (nat_of_ascii c) - 48)) s'
      else Err (EMsg "strconv.ParseFloat: invalid syntax")
  end.

Definition plain_ParseFloat (s : string) : res Z :=
  if str_has ":" s then Err (EMsg "strconv.ParseFloat: invalid syntax") else digits 0 s.

Lemma digits_pretty x s : digits 0 (pretty_N_go x s) = digits (Z.of_N x) s.
Proof.
  revert s. induction (N.lt_wf_0 x) as [x _ IH]. intros s.
  destruct (decide (0 < x)%N) as [Hx|Hx]; [|by replace x with 0%N by lia].
  rewrite pretty_N_go_step by done. rewrite IH by (apply N.div_lt; lia).
  assert (x = 10 * (x `div` 10) + x `mod` 10)%N as Hd by (apply N.div_mod; lia).
  assert (x `mod` 10 < 10)%N as Hm by (by apply N.mod_lt).
  generalize dependent (x `mod` 10)%N. intros m Hd Hm.
  simpl. transitivity (digits (10 * Z.of_N (x `div` 10) + Z.of_N m) s); [|f_equal; lia].
  assert (m = 0 \/ m = 1 \/ m = 2 \/ m = 3 \/ m = 4 \/ m = 5 \/ m = 6 \/ m = 7 \/ m = 8 \/ m = 9)%N as Hc by lia.
  destruct Hc as [->|[->|[->|[->|[->|[->|[->|[->|[->| ->]]]]]]]]]; done.
Qed.

Lemma pretty_go_app x s t : pretty_N_go x s +:+ t = pretty_N_go x (s +:+ t).
Proof.
  revert s. induction (N.lt_wf_0 x) as [x _ IH]. intros s.
  destruct (decide (0 < x)%N) as [Hx|Hx]; [|by replace x with 0%N by lia].
  rewrite !(pretty_N_go_step x) by done. rewrite IH by (apply N.div_lt; lia). done.
Qed.

Lemma pretty_go_colon x s : str_has ":" (pretty_N_go x s) = str_has ":" s.
Proof.
  revert s. induction (N.lt_wf_0 x) as [x _ IH]. intros s.
  destruct (decide (0 < x)%N) as [Hx|Hx]; [|by replace x with 0%N by lia].
  rewrite pretty_N_go_step by done. rewrite IH by (apply N.div_lt; lia).
  unfold pretty_N_char. simpl. by repeat case_match.
Qed.

Lemma pretty_N_app x t :
  pretty x +:+ t = if decide (x = 0%N) then "0" +:+ t else pretty_N_go x t.
Proof. unfold pretty, pretty_N. case_decide; [done|]. by rewrite pretty_go_app. Qed.

Lemma pad_colon w n : 0 <= n -> str_has ":" (pad w n) = false.
Proof.
  intros Hn. unfold pad. rewrite str_has_app. apply orb_false_iff. split.
  - induction (w - String.length (pretty n))%nat; done.
  - destruct n as [|p|p]; [done| |lia].
    change (str_has ":" (pretty_N_go (N.pos p) "") = false). by rewrite pretty_go_colon.
Qed.

Lemma plain_ParseFloat_epoch t : 0 <= t -> plain_ParseFloat (epoch_text t) = Ok (unix_seconds t).
Proof.
  intros Ht. unfold plain_ParseFloat, epoch_text. rewrite (proj2 (Z.ltb_ge t 0)) by done.
  change ("" +:+ ?s) with s. set (frac := pad 6 (Z.abs t mod 1000000)).
  change ("." +:+ frac) with (String "." frac).
  assert (str_has ":" frac = false) as Hf by (apply pad_colon, Z.mod_pos_bound; lia).
  rewrite pretty_N_app. case_decide as Hz.
  - simpl. rewrite Hf. f_equal. unfold unix_seconds. apply (f_equal Z.of_N) in Hz.
    rewrite N2Z.inj_div, N2Z.inj_abs_N in Hz. rewrite Z.abs_eq in Hz by done. symmetry. exact Hz.
  - rewrite pretty_go_colon. simpl. rewrite Hf, digits_pretty. simpl.
    rewrite N2Z.inj_div, N2Z.inj_abs_N, Z.abs_eq by done. done.
Qed.

Definition plain_strconv : Strconv :=
  {| ParseFloat := plain_ParseFloat;
     ParseFloat_colon := fun s Hs => ex_intro _ _ (f_equal (fun b : bool =>
       if b then Err (EMsg "strconv.ParseFloat: invalid syntax") else digits 0 s) Hs);
     ParseFloat_epoch := fun t Ht => plain_ParseFloat_epoch t (proj1 Ht) |}.
