(* ===== verification/Timestamps.v ===== *)
(** * Timestamps as text (store/postgresql/common.go)

    [GetCurrentTimeFormat] writes the clock of Asia/Shanghai as a text, and
    [TimestampToInt64] reads such a text back.  The reader follows
    [time.Parse] on the layout "2006-01-02 15:04:05.999999", field by field;
    reading is proved to invert writing, and to take the clock it reads for
    that of Greenwich. *)
From stdpp Require Import base list strings pretty.
From Stdlib Require Import ZArith Lia Ascii.
From S2P Require Import Prelude Driver Rows Schema Sql Common.
Open Scope Z_scope.
Open Scope store_scope.

(** ** Writing *)

(** The layout "2006-01-02 15:04:05" of a wall clock. *)
Definition time_text (t : Z) : string :=
  let s := unix_seconds t in
  let '(y, m, d) := civil_from_days (s / 86400) in
  let sod := s mod 86400 in
  pad 4 y +:+ "-" +:+ pad 2 m +:+ "-" +:+ pad 2 d +:+ " " +:+
  pad 2 (sod / 3600) +:+ ":" +:+ pad 2 (sod / 60 mod 60) +:+ ":" +:+ pad 2 (sod mod 60).

(** The string [GetCurrentTimeFormat] returns. *)
Definition GetCurrentTimeFormat_text (now : Z) : string := time_text (GetCurrentTimeFormat now).

(** The layout with the fraction ".999999". *)
Definition timestamp_text (t : Z) : string := time_text t +:+ drop_zeros 6 (t mod 1000000) 6.

(** ** Reading: the steps of [time.Parse] *)

Definition digit (c : ascii) : option Z :=
  let n := Z.of_nat (nat_of_ascii c) in if (48 <=? n) && (n <=? 57) then Some (n - 48) else None.

(** [getnum]: two digits, or one when the layout does not fix the width. *)
Definition getnum (fixed : bool) (value : string) : option (Z * string) :=
  match value with
  | String c1 rest =>
      match digit c1 with
      | None => None
      | Some d1 =>
          match rest with
          | String c2 rest' =>
              match digit c2 with
              | Some d2 => Some (d1 * 10 + d2, rest')
              | None => if fixed then None else Some (d1, rest)
              end
          | EmptyString => if fixed then None else Some (d1, rest)
          end
      end
  | EmptyString => None
  end.

(** The year: four digits. *)
Definition getyear (value : string) : option (Z * string) :=
  match value with
  | String c1 (String c2 (String c3 (String c4 rest))) =>
      match digit c1, digit c2, digit c3, digit c4 with
      | Some d1, Some d2, Some d3, Some d4 => Some (((d1 * 10 + d2) * 10 + d3) * 10 + d4, rest)
      | _, _, _, _ => None
      end
  | _ => None
  end.

Fixpoint cutspace (value : string) : string :=
  match value with
  | String c rest => if Ascii.eqb c " " then cutspace rest else value
  | EmptyString => value
  end.

(** [skip] of a one-character prefix of the layout; a space stands for a run
    of spaces, and for none at the end. *)
Definition skip (p : ascii) (value : string) : option string :=
  match value with
  | String c rest =>
      if Ascii.eqb c p then Some (if Ascii.eqb p " " then cutspace rest else rest) else None
  | EmptyString => if Ascii.eqb p " " then Some value else None
  end.

Fixpoint skip_digits (value : string) : string :=
  match value with
  | String c rest => match digit c with Some _ => skip_digits rest | None => value end
  | EmptyString => value
  end.

(** The optional fraction: a point or comma and any number of digits. *)
Definition skip_fraction (value : string) : string :=
  match value with
  | String p (String c rest) =>
      if (Ascii.eqb p "." || Ascii.eqb p ",") && match digit c with Some _ => true | None => false end
      then skip_digits rest else value
  | _ => value
  end.

Definition is_leap (y : Z) : bool := (y mod 4 =? 0) && (negb (y mod 100 =? 0) || (y mod 400 =? 0)).

(** Days of the year before a month, and days of a month. *)
Definition days_before (y m : Z) : Z :=
  nth (Z.to_nat (m - 1)) [0; 31; 59; 90; 120; 151; 181; 212; 243; 273; 304; 334] 365 +
  (if (3 <=? m) && is_leap y then 1 else 0).
Definition days_in (y m : Z) : Z :=
  nth (Z.to_nat (m - 1)) [31; 28; 31; 30; 31; 30; 31; 31; 30; 31; 30; 31] 0 +
  (if (m =? 2) && is_leap y then 1 else 0).

(** Days since 1970-01-01 of a date. *)
Definition days_from_civil (y m d : Z) : Z :=
  let p := y - 1 in
  365 * p + p / 4 - p / 100 + p / 400 - 719162 + days_before y m + (d - 1).

Definition within (lo hi : Z) (r : option (Z * string)) : option (Z * string) :=
  '(n, rest) ← r; if (lo <=? n) && (n <=? hi) then Some (n, rest) else None.

(** [time.Parse("2006-01-02 15:04:05.999999", value)], and the second it
    stands for in UTC. *)
Definition time_Parse (value : string) : option Z :=
  '(year, value) ← getyear value;
  value ← skip "-" value;
  '(month, value) ← within 1 12 (getnum true value);
  value ← skip "-" value;
  '(day, value) ← getnum true value;
  value ← skip " " value;
  '(hour, value) ← within 0 23 (getnum false value);
  value ← skip ":" value;
  '(min, value) ← within 0 59 (getnum true value);
  value ← skip ":" value;
  '(sec, value) ← within 0 59 (getnum true value);
  if str_empty (skip_fraction value) && (1 <=? day) && (day <=? days_in year month)
  then Some (days_from_civil year month day * 86400 + hour * 3600 + min * 60 + sec)
  else None.

(** [TimestampToInt64]: a text that does not parse counts as 0. *)
Definition TimestampToInt64 (timeStr : string) : Z :=
  match time_Parse timeStr with Some unix => unix | None => 0 end.

(** ** The calendar *)

(** The year of an era a day belongs to, and the day of that year counted
    from March. *)
Lemma year_of_era doe yoe :
  0 <= doe < 146097 -> yoe = (doe - doe / 1460 + doe / 36524 - doe / 146096) / 365 ->
  let doy := doe - (365 * yoe + yoe / 4 - yoe / 100) in
  0 <= yoe < 400 /\ 0 <= doy <= 365 /\
  (doy = 365 -> (yoe + 1) mod 4 = 0 /\ ((yoe + 1) mod 100 <> 0 \/ (yoe + 1) mod 400 = 0)).
Proof.
  intros H E doy. subst doy.
  assert (doe = 146096 \/ doe < 146096) as [->|Hl] by lia.
  { vm_compute in E. subst. vm_compute. intuition discriminate. }
  rewrite (Z.div_small doe 146096) in E by lia.
  assert (exists c r, 0 <= c <= 3 /\ doe = 36524 * c + r /\ 0 <= r < 36524) as (c & r & Hc & -> & Hr).
  { exists (doe / 36524), (doe mod 36524). Z.to_euclidean_division_equations; lia. }
  replace ((36524 * c + r) / 36524) with c in E by (Z.to_euclidean_division_equations; lia).
  assert (c = 0 \/ c = 1 \/ c = 2 \/ c = 3) as Hcc by lia.
  destruct Hcc as [->|[->|[->| ->]]]; Z.to_euclidean_division_equations; lia.
Qed.

Lemma is_leap_spec y : is_leap y = true <-> y mod 4 = 0 /\ (y mod 100 <> 0 \/ y mod 400 = 0).
Proof.
  unfold is_leap. rewrite andb_true_iff, orb_true_iff, negb_true_iff, !Z.eqb_eq, Z.eqb_neq. done.
Qed.

(** A leap year adds a day to the count of the years before it. *)
Lemma leap_step y :
  (y - 1) / 4 - (y - 1) / 100 + (y - 1) / 400 + (if is_leap y then 1 else 0) = y / 4 - y / 100 + y / 400.
Proof.
  destruct (is_leap y) eqn:E.
  - apply is_leap_spec in E. Z.to_euclidean_division_equations; lia.
  - assert (~ (y mod 4 = 0 /\ (y mod 100 <> 0 \/ y mod 400 = 0))) as F
      by (intros F%is_leap_spec; congruence).
    Z.to_euclidean_division_equations; lia.
Qed.

(** A year counted from March, checked day by day against the lengths of its
    months. *)
Fixpoint upto (n : nat) (z : Z) (p : Z -> bool) : bool :=
  match n with O => true | S n' => p z && upto n' (z + 1) p end.

Lemma upto_spec n z p : upto n z p = true -> forall k, z <= k < z + Z.of_nat n -> p k = true.
Proof.
  revert z. induction n as [|n IH]; intros z H k Hk; [lia|].
  simpl in H. apply andb_true_iff in H as [H1 H2].
  destruct (decide (k = z)) as [->|]; [done|]. apply (IH (z + 1)); [done|lia].
Qed.

Definition month_ok (doy : Z) : bool :=
  let mp := (5 * doy + 2) / 153 in
  let d := doy - (153 * mp + 2) / 5 + 1 in
  let m := if mp <? 10 then mp + 3 else mp - 9 in
  (1 <=? m) && (m <=? 12) && (1 <=? d) && ((d <=? days_in 1 m) || ((doy =? 365) && (m =? 2) && (d =? 29))) &&
  (days_before 1 m + d - 1 =? doy + (if m <=? 2 then -306 else 59)).

Lemma month_of_year doy : 0 <= doy <= 365 -> month_ok doy = true.
Proof. intros H. apply (upto_spec 366 0); [reflexivity|lia]. Qed.

Lemma days_before_leap y m :
  days_before y m = days_before 1 m + (if (3 <=? m) && is_leap y then 1 else 0).
Proof. unfold days_before. rewrite (andb_comm _ (is_leap 1)). simpl. lia. Qed.

Lemma days_in_leap y m : days_in y m = days_in 1 m + (if (m =? 2) && is_leap y then 1 else 0).
Proof. unfold days_in. rewrite (andb_comm _ (is_leap 1)). simpl. lia. Qed.

(** One era of 400 years. *)
Lemma date_of_year yoe doy m d :
  0 <= yoe < 400 -> 0 <= doy <= 365 -> (doy = 365 -> is_leap (yoe + 1) = true) ->
  m = (if (5 * doy + 2) / 153 <? 10 then (5 * doy + 2) / 153 + 3 else (5 * doy + 2) / 153 - 9) ->
  d = doy - (153 * ((5 * doy + 2) / 153) + 2) / 5 + 1 ->
  let y := yoe + (if m <=? 2 then 1 else 0) in
  days_from_civil y m d = 365 * yoe + yoe / 4 - yoe / 100 + doy - 719468 /\
  1 <= m <= 12 /\ 1 <= d <= days_in y m.
Proof.
  intros Hy Hd Hl Em Ed y. pose proof (month_of_year doy Hd) as Hm. unfold month_ok in Hm.
  cbv zeta in Hm. rewrite <- Em, <- Ed in Hm.
  rewrite !andb_true_iff, orb_true_iff, !andb_true_iff, !Z.eqb_eq, !Z.leb_le in Hm.
  destruct Hm as [[[[Hm1 Hm2] Hd1] Hd2] Hb].
  pose proof (Z.div_small yoe 400 Hy) as H400.
  unfold days_from_civil. rewrite (days_before_leap y), (days_in_leap y). subst y.
  destruct (m <=? 2) eqn:E2; [apply Z.leb_le in E2|apply Z.leb_gt in E2].
  - replace (3 <=? m) with false by (symmetry; apply Z.leb_gt; lia).
    replace (yoe + 1 - 1) with yoe by lia. simpl. split; [lia|split; [lia|]].
    destruct Hd2 as [Hd2|[[-> ->] ->]]; [|rewrite Hl by done; done].
    destruct (_ && _); lia.
  - replace (3 <=? m) with true by (symmetry; apply Z.leb_le; lia).
    replace (m =? 2) with false by (symmetry; apply Z.eqb_neq; lia).
    rewrite Z.add_0_r. pose proof (leap_step yoe) as Hs. simpl. split; [|lia].
    destruct (is_leap yoe); lia.
Qed.

Lemma era_ok k y m d : 0 <= k + 719468 < 146097 -> civil_from_days k = (y, m, d) ->
  days_from_civil y m d = k /\ 1 <= m <= 12 /\ 1 <= d <= days_in y m.
Proof.
  intros Hk. unfold civil_from_days. rewrite (Z.div_small (k + 719468)) by done.
  replace (k + 719468 - 0 * 146097) with (k + 719468) by lia.
  set (yoe := (_ / 365)). destruct (year_of_era _ yoe Hk eq_refl) as (Hy & Hd & Hl).
  rewrite <- is_leap_spec in Hl. injection 1 as <- <- <-.
  rewrite Z.mul_0_l, Z.add_0_r.
  eapply date_of_year in Hl as (E & Hm & Hr); [|done|done|reflexivity|reflexivity].
  split; [rewrite E; lia|done].
Qed.

Lemma is_leap_era y e : is_leap (y + e * 400) = is_leap y.
Proof.
  unfold is_leap.
  replace (y + e * 400) with (y + (e * 100) * 4) at 1 by lia. rewrite Z.mod_add by done.
  replace (y + e * 400) with (y + (e * 4) * 100) at 1 by lia. rewrite Z.mod_add by done.
  by rewrite Z.mod_add.
Qed.

Lemma days_in_era y m e : days_in (y + e * 400) m = days_in y m.
Proof. unfold days_in. by rewrite is_leap_era. Qed.

Lemma days_from_civil_era y m d e :
  days_from_civil (y + e * 400) m d = days_from_civil y m d + e * 146097.
Proof.
  unfold days_from_civil, days_before. rewrite is_leap_era.
  replace ((y + e * 400 - 1) / 4) with ((y - 1) / 4 + e * 100)
    by (rewrite <- Z.div_add by done; f_equal; lia).
  replace ((y + e * 400 - 1) / 100) with ((y - 1) / 100 + e * 4)
    by (rewrite <- Z.div_add by done; f_equal; lia).
  replace ((y + e * 400 - 1) / 400) with ((y - 1) / 400 + e)
    by (rewrite <- Z.div_add by done; f_equal; lia).
  lia.
Qed.

Lemma civil_from_days_era n e :
  civil_from_days (n + e * 146097) =
  let '(y, m, d) := civil_from_days n in (y + e * 400, m, d).
Proof.
  unfold civil_from_days.
  replace ((n + e * 146097 + 719468) / 146097) with ((n + 719468) / 146097 + e)
    by (rewrite <- Z.div_add by done; f_equal; lia).
  replace (n + e * 146097 + 719468 - ((n + 719468) / 146097 + e) * 146097)
    with (n + 719468 - (n + 719468) / 146097 * 146097) by lia.
  f_equal. f_equal. lia.
Qed.

Lemma civil_days_era k e y m d :
  0 <= k + 719468 < 146097 -> civil_from_days (k + e * 146097) = (y, m, d) ->
  days_from_civil y m d = k + e * 146097 /\ 1 <= m <= 12 /\ 1 <= d <= days_in y m.
Proof.
  intros Hk E. rewrite civil_from_days_era in E.
  destruct (civil_from_days k) as [[y0 m0] d0] eqn:E0.
  destruct (era_ok k y0 m0 d0 Hk E0) as [H1 [H2 H3]]. clear E0 Hk.
  injection E as <- <- <-. rewrite days_from_civil_era, days_in_era, H1.
  split; [reflexivity|split; assumption].
Qed.

(** The date of a day is a valid one, and stands for that day. *)
Lemma civil_days n y m d : civil_from_days n = (y, m, d) ->
  days_from_civil y m d = n /\ 1 <= m <= 12 /\ 1 <= d <= days_in y m.
Proof.
  pose proof (Z_div_mod_eq_full (n + 719468) 146097) as H1.
  pose proof (Z.mod_pos_bound (n + 719468) 146097 ltac:(done)) as H2.
  generalize dependent ((n + 719468) / 146097). intros e.
  generalize dependent ((n + 719468) mod 146097). intros k Hk H.
  replace n with ((k - 719468) + e * 146097) by lia. apply civil_days_era. lia.
Qed.

Lemma days_in_bound y m : 1 <= m <= 12 -> days_in y m <= 31.
Proof.
  intros Hm. unfold days_in.
  assert (exists i, (i < 12)%nat /\ m = Z.of_nat (S i)) as (i & Hi & ->) by (exists (Z.to_nat (m - 1)); lia).
  do 12 (destruct i as [|i]; [destruct (is_leap y); done|]). lia.
Qed.

(** ** Digits *)

Definition dig (n : Z) : string := String (pretty_N_char (Z.to_N n)) "".

Lemma digit_char n : 0 <= n < 10 -> digit (pretty_N_char (Z.to_N n)) = Some n.
Proof.
  intros Hn.
  pose proof (upto_spec 10 0 (fun n => bool_decide (digit (pretty_N_char (Z.to_N n)) = Some n)) eq_refl n Hn) as H.
  by apply bool_decide_eq_true in H.
Qed.

Lemma pretty_dig n : 0 <= n < 10 -> pretty n = dig n.
Proof.
  intros Hn.
  pose proof (upto_spec 10 0 (fun n => bool_decide (pretty n = dig n)) eq_refl n Hn) as H.
  by apply bool_decide_eq_true in H.
Qed.

Lemma pretty_N_step x : (10 <= x)%N -> pretty x = pretty (x `div` 10)%N +:+ dig (Z.of_N (x `mod` 10)).
Proof.
  intros Hx. unfold pretty, pretty_N, dig. rewrite N2Z.id.
  assert (0 < x `div` 10)%N by (apply N.div_str_pos; lia).
  rewrite !decide_False by lia. rewrite pretty_N_go_step by lia. by rewrite pretty_go_app.
Qed.

Lemma pretty_Z_N n : 0 <= n -> pretty n = pretty (Z.to_N n).
Proof. by destruct n as [|p|p]. Qed.

Lemma pretty_step n : 10 <= n -> pretty n = pretty (n / 10) +:+ dig (n mod 10).
Proof.
  intros Hn. rewrite (pretty_Z_N n), (pretty_Z_N (n / 10)) by (try apply Z.div_pos; lia).
  rewrite pretty_N_step by lia. f_equal; [f_equal|f_equal].
  - by rewrite Z2N.inj_div by lia.
  - rewrite N2Z.inj_mod, Z2N.id by lia. done.
Qed.

Lemma string_length_app s t : String.length (s +:+ t) = (String.length s + String.length t)%nat.
Proof. induction s as [|c s IH]; [done|]. simpl. by rewrite IH. Qed.

Lemma string_app_assoc s t u : (s +:+ t) +:+ u = s +:+ (t +:+ u).
Proof. induction s as [|c s IH]; [done|]. by apply (f_equal (String c)). Qed.

Lemma string_app_nil s : s +:+ "" = s.
Proof. induction s as [|c s IH]; [done|]. by apply (f_equal (String c)). Qed.

Lemma zeros_S n : zeros (S n) = zeros n +:+ "0".
Proof. induction n as [|n IH]; [done|]. change (String "0" (zeros (S n)) = String "0" (zeros n +:+ "0")). by rewrite IH. Qed.

(** A padded number, digit by digit from the right. *)
Lemma pad_1 n : 0 <= n < 10 -> pad 1 n = dig n.
Proof. intros Hn. unfold pad. by rewrite pretty_dig. Qed.

Lemma pad_S w n : (0 < w)%nat -> 0 <= n -> pad (S w) n = pad w (n / 10) +:+ dig (n mod 10).
Proof.
  intros Hw Hn. unfold pad. destruct (decide (n < 10)) as [Hl|Hl].
  - rewrite (Z.div_small n), (Z.mod_small n), pretty_dig by lia. simpl.
    destruct w as [|w]; [lia|]. rewrite Nat.sub_0_r. simpl. by rewrite Nat.sub_0_r, <- zeros_S.
  - rewrite (pretty_step n) by lia. rewrite string_length_app, <- string_app_assoc. simpl.
    do 3 f_equal. lia.
Qed.

Lemma getnum_pad fixed n s : 0 <= n < 100 -> getnum fixed (pad 2 n +:+ s) = Some (n, s).
Proof.
  intros Hn. rewrite pad_S by lia.
  assert (0 <= n / 10 < 10) as Hq by (split; [apply Z.div_pos|apply Z.div_lt_upper_bound]; lia).
  pose proof (Z.mod_pos_bound n 10 ltac:(done)) as Hr. rewrite pad_1 by done.
  simpl. rewrite !digit_char by done. do 2 f_equal. pose proof (Z_div_mod_eq_full n 10). lia.
Qed.

Lemma getyear_pad n s : 0 <= n < 10000 -> getyear (pad 4 n +:+ s) = Some (n, s).
Proof.
  intros Hn.
  assert (0 <= n / 10 < 1000) as H1 by (Z.to_euclidean_division_equations; lia).
  assert (0 <= n / 10 / 10 < 100) as H2 by (Z.to_euclidean_division_equations; lia).
  assert (0 <= n / 10 / 10 / 10 < 10) as H3 by (Z.to_euclidean_division_equations; lia).
  rewrite !pad_S, pad_1 by lia. simpl.
  rewrite !digit_char by (done || apply Z.mod_pos_bound; lia).
  do 2 f_equal. Z.to_euclidean_division_equations; lia.
Qed.

Lemma skip_digits_app s t : skip_digits s = "" -> skip_digits (s +:+ t) = skip_digits t.
Proof. induction s as [|c s IH]; [done|]. simpl. destruct (digit c); [done|discriminate]. Qed.

Lemma skip_pad w n : 0 <= n -> skip_digits (pad w n) = "".
Proof.
  intros Hn. unfold pad. rewrite skip_digits_app by (induction (w - _)%nat; done). clear w.
  revert Hn. induction (Z.lt_wf 0 n) as [n _ IH]. intros Hn.
  assert (skip_digits (dig (n mod 10)) = "") as Hd.
  { unfold dig. simpl. by rewrite digit_char by (apply Z.mod_pos_bound; lia). }
  destruct (decide (n < 10)) as [Hl|Hl]; [rewrite pretty_dig, <- (Z.mod_small n 10) by lia; done|].
  rewrite pretty_step by lia. rewrite skip_digits_app; [done|].
  apply IH; Z.to_euclidean_division_equations; lia.
Qed.

Lemma pretty_length n : 0 <= n -> (0 < String.length (pretty n))%nat.
Proof.
  intros Hn. destruct (decide (n < 10)); [rewrite pretty_dig by lia; simpl; lia|].
  rewrite pretty_step by lia. rewrite string_length_app. simpl. lia.
Qed.

Lemma skip_fraction_text fuel n width : 0 <= n -> skip_fraction (drop_zeros fuel n width) = "".
Proof.
  revert n width. induction fuel as [|fuel IH]; intros n width Hn; [done|]. simpl.
  destruct (n =? 0) eqn:E0; [done|]. destruct (n mod 10 =? 0); [apply IH; apply Z.div_pos; lia|].
  pose proof (skip_pad width n Hn) as Hs. apply Z.eqb_neq in E0.
  destruct (pad width n) as [|c rest] eqn:Ep.
  - exfalso. apply (f_equal String.length) in Ep. unfold pad in Ep.
    rewrite string_length_app in Ep. pose proof (pretty_length n Hn). simpl in Ep. lia.
  - simpl in Hs |- *. destruct (digit c); [done|discriminate].
Qed.

(** ** Reading inverts writing *)

Lemma cutspace_pad n s : 0 <= n < 100 -> cutspace (pad 2 n +:+ s) = pad 2 n +:+ s.
Proof.
  intros Hn. rewrite pad_S by lia.
  assert (0 <= n / 10 < 10) as Hq by (split; [apply Z.div_pos|apply Z.div_lt_upper_bound]; lia).
  rewrite pad_1 by done. rewrite string_app_assoc. unfold dig at 1 3.
  generalize (digit_char _ Hq). generalize (pretty_N_char (Z.to_N (n / 10))). intros c Hc.
  generalize (dig (n mod 10) +:+ s). intros rest.
  change (cutspace (String c "" +:+ rest)) with (if Ascii.eqb c " " then cutspace rest else String c rest).
  destruct (Ascii.eqb_spec c " ") as [->|]; [discriminate|done].
Qed.

Lemma skip_char p s : Ascii.eqb p " " = false -> skip p (String p s) = Some s.
Proof. intros Hp. unfold skip. by rewrite Ascii.eqb_refl, Hp. Qed.

Definition first_second : Z := -62167219200.   (* 0000-01-01 00:00:00 *)
Definition last_second : Z := 253402300799.    (* 9999-12-31 23:59:59 *)

Lemma days_before_nonneg y m : 0 <= days_before y m.
Proof.
  unfold days_before. assert (forall k, 0 <= nth k [0; 31; 59; 90; 120; 151; 181; 212; 243; 273; 304; 334] 365) as H.
  { intros k. do 12 (destruct k as [|k]; [done|]). by destruct k. }
  specialize (H (Z.to_nat (m - 1))). destruct (_ && _); lia.
Qed.

Lemma days_before_bound y m : 1 <= m <= 12 -> days_before y m + days_in y m <= 365 + (if is_leap y then 1 else 0).
Proof.
  intros Hm. rewrite days_before_leap, days_in_leap.
  assert (exists i, (i < 12)%nat /\ m = Z.of_nat (S i)) as (i & Hi & ->) by (exists (Z.to_nat (m - 1)); lia).
  do 12 (destruct i as [|i]; [destruct (is_leap y); done|]). lia.
Qed.

Lemma year_bounds s y m d : first_second <= s <= last_second ->
  civil_from_days (s / 86400) = (y, m, d) -> 0 <= y < 10000.
Proof.
  unfold first_second, last_second. intros Hs [E [Hm Hd]]%civil_days.
  assert (-719528 <= s / 86400 < 2932897) as Hr by (Z.to_euclidean_division_equations; lia).
  rewrite <- E in Hr. clear E Hs. unfold days_from_civil in Hr.
  pose proof (days_before_nonneg y m). pose proof (days_before_bound y m Hm).
  pose proof (leap_step y) as Hs. destruct (is_leap y); Z.to_euclidean_division_equations; lia.
Qed.

(** The fields of a written text, one by one. *)
Lemma time_Parse_text t : first_second <= unix_seconds t <= last_second ->
  time_Parse (timestamp_text t) = Some (unix_seconds t).
Proof.
  intros Hb. unfold timestamp_text, time_text.
  destruct (civil_from_days (unix_seconds t / 86400)) as [[y m] d] eqn:E.
  pose proof (year_bounds _ _ _ _ Hb E) as Hy.
  destruct (civil_days _ _ _ _ E) as (Hdays & Hm & Hd). pose proof (days_in_bound y m Hm) as Hd31.
  set (sod := unix_seconds t mod 86400).
  assert (0 <= sod < 86400) as Hs by (by apply Z.mod_pos_bound).
  assert (0 <= sod / 3600 <= 23) as Hh by (Z.to_euclidean_division_equations; lia).
  assert (0 <= sod / 60 mod 60 <= 59) as Hmin by (Z.to_euclidean_division_equations; lia).
  assert (0 <= sod mod 60 <= 59) as Hsec by (Z.to_euclidean_division_equations; lia).
  assert (forall lo hi n s, lo <= n <= hi -> within lo hi (Some (n, s)) = Some (n, s)) as Hw.
  { intros lo hi n s Hn. unfold within. simpl. rewrite (proj2 (Z.leb_le lo n)), (proj2 (Z.leb_le n hi)) by lia. done. }
  rewrite !string_app_assoc. unfold time_Parse.
  rewrite getyear_pad by done. cbn [mbind option_bind].
  change (skip "-" ("-" +:+ ?s)) with (Some s). cbn [mbind option_bind].
  rewrite getnum_pad, Hw by lia. cbn [mbind option_bind].
  change (skip "-" ("-" +:+ ?s)) with (Some s). cbn [mbind option_bind].
  rewrite getnum_pad by lia. cbn [mbind option_bind].
  change (skip " " (" " +:+ ?s)) with (Some (cutspace s)). cbn [mbind option_bind].
  rewrite cutspace_pad, getnum_pad, Hw by lia. cbn [mbind option_bind].
  change (skip ":" (":" +:+ ?s)) with (Some s). cbn [mbind option_bind].
  rewrite getnum_pad, Hw by lia. cbn [mbind option_bind].
  change (skip ":" (":" +:+ ?s)) with (Some s). cbn [mbind option_bind].
  rewrite getnum_pad, Hw by lia. cbn [mbind option_bind].
  rewrite skip_fraction_text by (by apply Z.mod_pos_bound).
  rewrite (proj2 (Z.leb_le 1 d)), (proj2 (Z.leb_le d (days_in y m))) by lia.
  simpl. f_equal. rewrite Hdays. subst sod. clear.
  Z.to_euclidean_division_equations; lia.
Qed.

Lemma timestamp_text_whole s : timestamp_text (s * 1000000) = time_text (s * 1000000).
Proof.
  unfold timestamp_text. rewrite Z.mod_mul by done. apply string_app_nil.
Qed.

(** C39: a timestamp with a year of four digits, written with its microseconds,
    is read back by [TimestampToInt64] as its second; the text
    [GetCurrentTimeFormat] makes of the current time is read as the second
    eight hours later, because the reader takes the clock of Asia/Shanghai for
    that of Greenwich. *)
Theorem TimestampToInt64_reads (t now : Z) :
  first_second <= unix_seconds t <= last_second ->
  first_second <= unix_seconds now + GetLocation <= last_second ->
  TimestampToInt64 (timestamp_text t) = unix_seconds t /\
  TimestampToInt64 (GetCurrentTimeFormat_text now) = unix_seconds now + GetLocation.
Proof.
  intros Ht Hn. unfold TimestampToInt64, GetCurrentTimeFormat_text, GetCurrentTimeFormat.
  rewrite time_Parse_text by done. split; [done|].
  assert (unix_seconds ((unix_seconds now + GetLocation) * 1000000) = unix_seconds now + GetLocation) as Hu
    by (by apply Z.div_mul).
  rewrite <- timestamp_text_whole, time_Parse_text; rewrite Hu; done.
Qed.

(** What does not parse counts as 0, like the first second of 1970. *)
Example TimestampToInt64_errors :
  map TimestampToInt64 ["2024-02-29 12:00"; "2023-02-29 00:00:00"; "2024-2-09 00:00:00"; "1970-01-01 00:00:00"]%string
  = [0; 0; 0; 0] /\
  map TimestampToInt64 ["2024-02-29 12:00:01"; "2024-02-29 7:00:01,5"; "1970-01-01 00:00:01.000000"]%string
  = [1709208001; 1709190001; 1].
Proof. split; reflexivity. Qed.
