(* ===== verification/Guards.v ===== *)
(** * Invariants of the content, through the text of the operations

    [GuardsAt Q U I m] says that the call [m] keeps [I] of the committed content
    and of the content of the open transaction, whatever faults occur, when the
    server's clock satisfies [Q] and the program's clock [U].  The instances
    follow the text of the operations, so that an operation is shown to keep an
    invariant by resolution, from what its statements do ([PreservesAt]).
    [Runs] likewise says that a statement never panics, [Settled] that an
    outcome is none. *)
From stdpp Require Import base list strings gmap relations.
From Stdlib Require Import ZArith Lia.
From S2P Require Import Prelude Driver Rows Schema Sql Common.
Open Scope Z_scope.
Open Scope store_scope.

(** What holds of every time the server and the program see. *)
Class Clock `{Env} (Q U : Z -> Prop) : Prop := {
  server_clock : forall n, Q (utc n + session_tz);
  program_clock : forall n, U (utc n)
}.
#[export] Hint Mode Clock - ! ! : typeclass_instances.

(** Any time. *)
Definition anytime (_ : Z) : Prop := True.

#[export] Instance clock_anytime `{Env} : Clock anytime anytime.
Proof. by split. Qed.

(** The statement [p] keeps [I] at the times [Q]. *)
Class PreservesAt (Q : Z -> Prop) (I : database -> Prop) {A} (p : P database A) : Prop :=
  preserves_at : forall now d a d', Q now -> I d -> p now d = Ok (a, d') -> I d'.
#[export] Hint Mode PreservesAt ! ! ! ! : typeclass_instances.

#[export] Instance preserves_always Q I {A} (p : P database A) : Preserves I p -> PreservesAt Q I p | 10.
Proof. intros Hp now d a d' _. apply Hp. Qed.

(** What the calls keep of the connection. *)
Definition guarded (Q : Z -> Prop) (I : database -> Prop) (c : conn database) : Prop :=
  I (committed c) /\ (txst c = TxOpen -> I (work c) /\ Q (tx_now c)).

Class GuardsAt `{Env} {A} (Q U : Z -> Prop) (I : database -> Prop) (m : M database A) : Prop :=
  guards : forall c r c', m c = (r, c') -> guarded Q I c -> guarded Q I c'.
#[export] Hint Mode GuardsAt - - ! ! ! ! : typeclass_instances.

(** At any time. *)
Abbreviation Guards I m := (GuardsAt anytime anytime I m).

Section preserves_at.
Context (Q : Z -> Prop) (I : database -> Prop).

#[export] Instance preserves_at_bind {A B} (p : P database A) (f : A -> P database B) :
  PreservesAt Q I p -> (forall a, PreservesAt Q I (f a)) -> PreservesAt Q I (p_bind p f).
Proof.
  intros Hp Hf now d b d' Hq Hd (a & d1 & H1 & H2)%p_bind_Ok. eapply Hf; [done| |exact H2]. by eapply Hp.
Qed.

#[export] Instance preserves_at_void {A} (p : P database A) : PreservesAt Q I p -> PreservesAt Q I (p_void p).
Proof. intros. unfold p_void. apply _. Qed.

#[export] Instance preserves_at_map_err {A} f (p : P database A) :
  PreservesAt Q I p -> PreservesAt Q I (p_map_err f p).
Proof. intros Hp now d a d' Hq Hd Hr%p_map_err_Ok. by eapply Hp. Qed.

#[export] Instance preserves_at_view_if {A} (b : Z -> database -> bool) (p q : P database A) :
  PreservesAt Q I p -> PreservesAt Q I q -> PreservesAt Q I (fun now d => if b now d then p now d else q now d).
Proof. intros Hp Hq now d a d' Ht Hd. destruct (b now d); [by eapply Hp|by eapply Hq]. Qed.

#[export] Instance preserves_at_err {A} (e : error) : PreservesAt (A:=A) Q I (fun _ _ => Err e).
Proof. done. Qed.

#[export] Instance preserves_at_res_bind {A X} (x : res X) (p : X -> P database A) :
  (forall a, PreservesAt Q I (p a)) -> PreservesAt Q I (fun now d => res_bind x (fun a => p a now d)).
Proof. intros Hp now d a d' Ht Hd (y & _ & Hy)%res_bind_Ok. by eapply Hp. Qed.

(** A statement whose text depends on what it finds. *)
Lemma preserves_at_view {A} (p : Z -> database -> P database A) :
  (forall n d, PreservesAt Q I (p n d)) -> PreservesAt Q I (fun now d => p now d now d).
Proof. intros Hp now d. apply Hp. Qed.
End preserves_at.

#[export] Hint Extern 3 (PreservesAt ?Q ?I (fun now d => ?p now d)) => change (PreservesAt Q I p) : typeclass_instances.
#[export] Hint Extern 4 (PreservesAt _ _ (fun now d => sql_update (@?w now d) (@?s now d) now d)) =>
  apply (preserves_at_view _ _ (fun n e => sql_update (w n e) (s n e))); intros : typeclass_instances.
#[export] Hint Extern 4 (PreservesAt _ _ (fun now d => sql_delete (@?w now d) now d)) =>
  apply (preserves_at_view _ _ (fun n e => sql_delete (w n e))); intros : typeclass_instances.
#[export] Hint Extern 6 (PreservesAt _ _ (match ?x with _ => _ end)) => destruct x : typeclass_instances.

Section guards.
Context `{Env} `{PolarisApi} (Q U : Z -> Prop) (I : database -> Prop).
Implicit Types c : conn database.

#[export] Instance guards_ret {A} (a : A) : GuardsAt Q U I (Ret a).
Proof. by intros c r c' [= _ <-]. Qed.
#[export] Instance guards_fail {A} e : GuardsAt (A:=A) Q U I (Fail e).
Proof. by intros c r c' [= _ <-]. Qed.
#[export] Instance guards_lift {A} (x : res A) : GuardsAt Q U I (lift x).
Proof. by intros c r c' [= _ <-]. Qed.
#[export] Instance guards_time_Now : GuardsAt Q U I time_Now.
Proof. by intros c r c' [= _ <-]. Qed.

#[export] Instance guards_bind {A B} (m : M database A) (f : A -> M database B) :
  GuardsAt Q U I m -> (forall a, GuardsAt Q U I (f a)) -> GuardsAt Q U I (Bind m f) | 5.
Proof.
  intros Hm Hf c r c'. unfold Bind. destruct (m c) as [[a|e|w] c1] eqn:E; intros Hr Hc;
    pose proof (Hm _ _ _ E Hc); simplify_eq; [by eapply Hf|done..].
Qed.

(** What follows a look at the clock may rely on the clock. *)
#[export] Instance guards_now {B} (f : Z -> M database B) :
  Clock Q U -> (forall t, U t -> GuardsAt Q U I (f t)) -> GuardsAt Q U I (Bind time_Now f) | 1.
Proof. intros Hk Hf c r c' Hr. eapply (Hf (utc (calls c))); [apply Hk|exact Hr]. Qed.

#[export] Instance guards_void {A} (m : M database A) : GuardsAt Q U I m -> GuardsAt Q U I (void m) | 0.
Proof. intros. unfold void. apply _. Qed.

#[export] Instance guards_map_err {A} f (m : M database A) : GuardsAt Q U I m -> GuardsAt Q U I (map_err f m).
Proof.
  intros Hm c r c'. unfold map_err. destruct (m c) as [[a|e|w] c1] eqn:E; intros; simplify_eq; by eapply Hm.
Qed.

#[export] Instance guards_or_nil_stmt (m : M database unit) : GuardsAt Q U I m -> GuardsAt Q U I (or_nil_stmt m).
Proof.
  intros Hm c r c'. unfold or_nil_stmt. destruct (m c) as [[a|e|w] c1] eqn:E; intros; simplify_eq; by eapply Hm.
Qed.

#[export] Instance guards_ignore_error {A} (m : M database A) : GuardsAt Q U I m -> GuardsAt Q U I (ignore_error m).
Proof.
  intros Hm c r c'. unfold ignore_error. destruct (m c) as [[a|e|w] c1] eqn:E; intros; simplify_eq; by eapply Hm.
Qed.

#[export] Instance guards_tx_Exec {A} (p : P database A) : PreservesAt Q I p -> GuardsAt Q U I (tx_Exec p).
Proof.
  intros Hp c r c' Hr Hc. unfold tx_Exec in Hr. destruct (txst c) eqn:Es.
  2-3: simplify_eq; destruct Hc as [Hc Ht]; split; [exact Hc|]; simpl; intros; simplify_eq/=; congruence.
  destruct Hc as [Hc Ht]. destruct (Ht Es) as [Hw Hq].
  destruct (fault_at (calls c)) as [[e|e|n e]|]; [by simplify_eq..| |];
    destruct (p (tx_now c) (work c)) as [[a d']|e'|w] eqn:E; simplify_eq; split; simpl; eauto; done.
Qed.

#[export] Instance guards_tx_Prepare : GuardsAt Q U I tx_Prepare.
Proof. unfold tx_Prepare. apply _. Qed.

#[export] Instance guards_stmt_Exec {A} (p : P database A) : PreservesAt Q I p -> GuardsAt Q U I (stmt_Exec p).
Proof. intros. unfold stmt_Exec. apply _. Qed.

#[export] Instance guards_tx_Query {R} (sel : Z -> database -> res (list R)) : GuardsAt Q U I (tx_Query sel).
Proof.
  intros c r c' Hr [Hc Ht]. unfold tx_Query, tx_Exec in Hr. destruct (txst c) eqn:Es.
  2-3: simplify_eq; split; [exact Hc|]; simpl; intros; simplify_eq/=; congruence.
  destruct (Ht eq_refl) as [Hw Hq]. destruct (fault_at (calls c)) as [[e|e|n e]|];
    [by simplify_eq..| |]; destruct (sel (tx_now c) (work c)); simplify_eq/=; split; simpl; eauto; done.
Qed.

#[export] Instance guards_tx_QueryRow {R} (sel : Z -> database -> res (list R)) : GuardsAt Q U I (tx_QueryRow sel).
Proof. unfold tx_QueryRow. apply _. Qed.

#[export] Instance guards_Retry {A} (m : M database A) : GuardsAt Q U I m -> GuardsAt Q U I (Retry m).
Proof.
  intros Hm c r c' Hr Hc.
  assert (PreOrder (fun c c' : conn database => guarded Q I c -> guarded Q I c')) as Hpre.
  { split; [by intros x|]. intros x y z Hxy Hyz Hi. auto. }
  refine (Retry_rel (PreOrder0:=Hpre) _ m _ _ c r c' Hr Hc); [|by intros x ms].
  intros x rx x' Hx Hi. by eapply Hm.
Qed.

#[export] Instance guards_Begin : Clock Q U -> GuardsAt Q U I Begin.
Proof.
  intros Hk. unfold Begin. apply guards_Retry. intros c r c' Hr [Hc Ht]. unfold BeginTx in Hr.
  destruct (fault_at (calls c)); simplify_eq; split; simpl; try done. intros _. split; [done|apply Hk].
Qed.

#[export] Instance guards_Commit : GuardsAt Q U I Commit.
Proof.
  intros c r c' Hr [Hc Ht]. unfold Commit in Hr. destruct (txst c) eqn:Es; [destruct (Ht eq_refl) as [Hw _]|..];
    repeat case_match; simplify_eq; split; simpl; first [done|congruence].
Qed.

Lemma guards_Rollback c : guarded Q I c -> guarded Q I (snd (Rollback c)).
Proof.
  intros [Hc Ht]. unfold Rollback, guarded. destruct (txst c) eqn:E; simpl; split; first [done|congruence].
Qed.

#[export] Instance guards_rollback_call : GuardsAt Q U I Rollback.
Proof. intros c r c' Hr Hc. pose proof (guards_Rollback c Hc) as Hg. by rewrite Hr in Hg. Qed.

#[export] Instance guards_defer_rollback {A} (m : M database A) : GuardsAt Q U I m -> GuardsAt Q U I (defer_rollback m).
Proof.
  intros Hm c r c'. unfold defer_rollback. destruct (m c) as [r1 c1] eqn:E. intros [= <- <-] Hc.
  apply guards_Rollback. by eapply Hm.
Qed.

#[export] Instance guards_rolls_back {A} (m : M database A) : GuardsAt Q U I m -> GuardsAt Q U I (rolls_back m).
Proof.
  intros Hm c r c'. unfold rolls_back. destruct (m c) as [[a|e|w] c1] eqn:E; intros [= <- <-] Hc;
    [by eapply Hm|apply guards_Rollback; by eapply Hm..].
Qed.

#[export] Instance guards_process {A} (m : M database A) :
  Clock Q U -> GuardsAt Q U I m -> GuardsAt Q U I (processWithTransaction m).
Proof. intros. unfold processWithTransaction. apply _. Qed.

#[export] Instance guards_then_commit {A} (m : M database A) : GuardsAt Q U I m -> GuardsAt Q U I (then_commit m).
Proof. intros. unfold then_commit. apply _. Qed.

#[export] Instance guards_commit_with {A} f (m : M database A) : GuardsAt Q U I m -> GuardsAt Q U I (commit_with f m).
Proof. intros. unfold commit_with. apply _. Qed.

#[export] Instance guards_RetryTransaction {A} (m : M database A) :
  GuardsAt Q U I m -> GuardsAt Q U I (RetryTransaction m).
Proof. intros. unfold RetryTransaction. apply _. Qed.

#[export] Instance guards_commit_tx : GuardsAt Q U I commit_tx.
Proof. unfold commit_tx. apply _. Qed.

#[export] Instance guards_with_tx {A} tx (m : M database A) : GuardsAt Q U I m -> GuardsAt Q U I (with_tx tx m).
Proof. intros. unfold with_tx. destruct tx; apply _. Qed.

#[export] Instance guards_DB_Prepare : GuardsAt Q U I DB_Prepare.
Proof. intros c r c' Hr. unfold DB_Prepare in Hr. case_match; by simplify_eq. Qed.

#[export] Instance guards_DB_Exec {A} (p : P database A) :
  Clock Q U -> PreservesAt Q I p -> GuardsAt Q U I (DB_Exec p).
Proof.
  intros Hk Hp c r c' Hr [Hc Ht]. unfold DB_Exec in Hr.
  assert (Q (current_timestamp c)) as Hq by apply Hk.
  destruct (fault_at (calls c)) as [[e|e|n e]|]; [by simplify_eq| |by simplify_eq|];
    destruct (p (current_timestamp c) (committed c)) as [[a d']|e'|w] eqn:E; simplify_eq; split; simpl; eauto.
Qed.

#[export] Instance guards_Exec {A} (p : P database A) : Clock Q U -> PreservesAt Q I p -> GuardsAt Q U I (Exec p).
Proof. intros. unfold Exec. apply _. Qed.

#[export] Instance guards_Query {R} view (sel : Z -> database -> res (list R)) : GuardsAt Q U I (Query view sel).
Proof.
  unfold Query. apply guards_Retry. intros c r c' Hr. by destruct (fault_at (calls c)) as [[e|e|n e]|]; simplify_eq.
Qed.

#[export] Instance guards_QueryRow {R} view (sel : Z -> database -> res (list R)) : GuardsAt Q U I (QueryRow view sel).
Proof. unfold QueryRow. apply _. Qed.

(** An error turned into a value. *)
Lemma guards_recover {A} (m : M database A) (k : error -> res A) :
  GuardsAt Q U I m -> GuardsAt Q U I (fun c => match m c with (Err e, c') => (k e, c') | rc => rc end).
Proof. intros Hm c r c'. destruct (m c) as [[a|e|w] c1] eqn:E; intros; simplify_eq; by eapply Hm. Qed.

#[export] Instance guards_each {X} (handler : X -> M database unit) l :
  (forall x, GuardsAt Q U I (handler x)) -> GuardsAt Q U I (each handler l).
Proof. intros Hh. induction l; simpl; apply _. Qed.

#[export] Instance guards_BatchOperation {X} (data : list X) (handler : list X -> M database unit) :
  (forall x, GuardsAt Q U I (handler x)) -> GuardsAt Q U I (BatchOperation data handler).
Proof.
  intros Hh c r c'. unfold BatchOperation. rewrite BatchOperation_loop_eq by lia. by apply guards_each.
Qed.
End guards.

(** Choices in the text. *)
#[export] Hint Extern 6 (GuardsAt _ _ _ (match ?x with _ => _ end)) => destruct x : typeclass_instances.

(** Operations one after the other, whatever each returns. *)
Section sequences.
Context `{Env} {Op : Type} (perform : Op -> M database unit).

Fixpoint perform_each (ops : list Op) (c : conn database) : conn database :=
  match ops with
  | [] => c
  | op :: ops' => perform_each ops' (snd (perform op c))
  end.

Lemma perform_each_guarded Q U I `{!forall op, GuardsAt Q U I (perform op)} ops c :
  guarded Q I c -> guarded Q I (perform_each ops c).
Proof.
  revert c. induction ops as [|op ops IH]; intros c Hc; [done|]. simpl. apply IH.
  destruct (perform op c) as [r c'] eqn:E. simpl.
  by eapply (guards (Q:=Q) (U:=U) (m:=perform op)).
Qed.

End sequences.

(** Without an open transaction the committed content is all there is. *)
Lemma guarded_idle Q I (c : conn database) : txst c <> TxOpen -> I (committed c) -> guarded Q I c.
Proof. intros Ht Hc. by split. Qed.

(** ** No panic *)

(** Outcomes and statements that are no panic. *)
Class Settled {A} (x : res A) : Prop := settled : forall w, x <> Panic w.
#[export] Hint Mode Settled - ! : typeclass_instances.
Class Runs {A} (p : P database A) : Prop := runs : forall now d, Settled (p now d).
#[export] Hint Mode Runs - ! : typeclass_instances.

Section settled.
#[export] Instance settled_Ok {A} (a : A) : Settled (Ok a).
Proof. done. Qed.
#[export] Instance settled_Err {A} e : Settled (Err (A:=A) e).
Proof. done. Qed.
#[export] Instance settled_bind {A B} (x : res A) (f : A -> res B) :
  Settled x -> (forall a, Settled (f a)) -> Settled (res_bind x f).
Proof. intros Hx Hf. destruct x as [a|e|w]; [apply Hf|done|by destruct (Hx w)]. Qed.
#[export] Instance settled_map {A B} (f : A -> B) x : Settled x -> Settled (res_map f x).
Proof. intros Hx. destruct x as [a|e|w]; [done..|by destruct (Hx w)]. Qed.
#[export] Instance settled_scan_all {R A} (scan : R -> res A) l :
  (forall r, Settled (scan r)) -> Settled (scan_all scan l).
Proof. intros Hs. induction l; simpl; apply _. Qed.
#[export] Instance settled_fetch_rows {R A} (scan : R -> res A) rs :
  (forall r, Settled (scan r)) -> Settled (fetch_rows scan rs).
Proof. intros Hs. unfold fetch_rows. apply settled_bind; [apply _|]. intros l. by destruct (r_err rs). Qed.
#[export] Instance settled_first_row {R} (rs : rows R) : Settled (first_row rs).
Proof. unfold first_row. by destruct (r_err rs), (r_data rs). Qed.
#[export] Instance settled_scan_string o : Settled (scan_string o).
Proof. by destruct o. Qed.
End settled.
#[export] Hint Extern 6 (Settled (match ?x with _ => _ end)) => destruct x : typeclass_instances.

Section runs.
#[export] Instance runs_ret {A} (a : A) : Runs (p_ret a).
Proof. done. Qed.
#[export] Instance runs_bind {A B} (p : P database A) (f : A -> P database B) :
  Runs p -> (forall a, Runs (f a)) -> Runs (p_bind p f).
Proof. intros Hp Hf now d. unfold p_bind. apply settled_bind; [apply Hp|]. intros [a d']. apply Hf. Qed.
#[export] Instance runs_void {A} (p : P database A) : Runs p -> Runs (p_void p).
Proof. intros. unfold p_void. apply _. Qed.
#[export] Instance runs_map_err {A} f (p : P database A) : Runs p -> Runs (p_map_err f p).
Proof. intros Hp now d w. unfold p_map_err. pose proof (Hp now d) as H1. destruct (p now d); [done..|by destruct (H1 why)]. Qed.
#[export] Instance runs_sql_insert {R} `{Table R} (mk : Z -> list R) : Runs (sql_insert mk).
Proof. intros now d w. unfold sql_insert. by destruct (distinct _ _). Qed.
#[export] Instance runs_sql_update {R} `{Table R} (w : R -> bool) (set : Z -> R -> R) : Runs (sql_update w set).
Proof. intros now d x. unfold sql_update. by destruct (distinct _ _). Qed.
#[export] Instance runs_sql_delete {R} `{Table R} (w : R -> bool) : Runs (sql_delete w).
Proof. done. Qed.
End runs.

#[export] Hint Extern 3 (Runs (fun now d => ?p now d)) => change (Runs p) : typeclass_instances.
#[export] Hint Extern 6 (Runs (match ?x with _ => _ end)) => destruct x : typeclass_instances.
#[export] Hint Extern 8 (Runs (fun now d => _)) => (let now := fresh in let d := fresh in intros now d; cbv beta) : typeclass_instances.
#[export] Hint Extern 7 (Settled (?p ?now ?d)) => refine (runs (p:=p) now d) : typeclass_instances.
