(* ===== verification/Where.v ===== *)
(** * WHERE clauses of generated queries

    Several stores turn a filter into conditions on the columns of one table,
    numbering the placeholders as they go.  [cond] is such a condition with
    its placeholders, [bcond] the same with the arguments filled in;
    [cond_pred] is what the server makes of it on a row: LIKE needs a text
    column, a comparison with an integer column needs the text of an integer,
    and an unknown column is refused.  [where_select] puts this together with
    the numbering rule of Sql, and the section at the end shows that a
    generator that numbers its placeholders in order asks exactly the
    conditions it means to. *)
From stdpp Require Import base list strings pretty gmap sorting.
From Stdlib Require Import ZArith Lia Ascii.
From S2P Require Import Prelude Driver Rows Schema Sql Common.
Open Scope Z_scope.
Open Scope store_scope.

(** The LIKE operator: [%] stands for any text, [_] for any character and a
    backslash for the character after it. *)
Fixpoint like (p : string) : string -> bool :=
  match p with
  | EmptyString => fun s => match s with EmptyString => true | _ => false end
  | String c p' =>
      if Ascii.eqb c "%" then
        fix go (s : string) : bool :=
          like p' s || match s with EmptyString => false | String _ s' => go s' end
      else if Ascii.eqb c "_" then
        fun s => match s with EmptyString => false | String _ s' => like p' s' end
      else if Ascii.eqb c "\" then
        match p' with
        | EmptyString => fun _ => false
        | String c' p'' =>
            fun s => match s with EmptyString => false | String x s' => Ascii.eqb c' x && like p'' s' end
        end
      else
        fun s => match s with EmptyString => false | String x s' => Ascii.eqb c x && like p' s' end
  end.

(** The input functions of the server's types. *)
Class PgInput := {
  pg_int : string -> res Z;
  pg_timestamp : string -> res Z;
  pg_int_pretty : forall n, - 2 ^ 31 <= n < 2 ^ 31 -> pg_int (pretty n) = Ok n;
  pg_int_bool : forall b : bool, is_Ok (pg_int (if b then "true" else "false")%string) = false
}.

(** ** Conditions *)

Inductive cond :=
| CLike (col : string) (ph : Z)        (* col like $n *)
| CEq (col : string) (ph : Z)          (* col = $n *)
| CNeq (col : string) (ph : Z)         (* col != $n *)
| CIn (col : string) (phs : list Z)    (* col in ($n,...) *)
| CEqOrStar (col : string) (ph : Z)    (* (col = $n or col = '*') *)
(* (col = $n OR col' = $n'), or (col = $n OR (col' = $n' AND k = v)) *)
| CEither (col : string) (ph : Z) (col' : string) (ph' : Z) (also : option (string * string)).

Definition cond_phs (c : cond) : list Z :=
  match c with
  | CLike _ n | CEq _ n | CNeq _ n | CEqOrStar _ n => [n]
  | CEither _ n _ n' _ => [n; n']
  | CIn _ ns => ns
  end.

Definition cond_sql (c : cond) : sql :=
  match c with
  | CLike col n => [T col; T " like "; Ph n]
  | CEq col n => [T col; T " = "; Ph n]
  | CNeq col n => [T col; T " != "; Ph n]
  | CIn col ns => T col :: T " in (" :: placeholders_sql ns ++ [T ")"]
  | CEqOrStar col n => [T "("; T col; T " = "; Ph n; T " or "; T col; T " = '*')"]
  | CEither col n col' n' None => [T "("; T col; T " = "; Ph n; T " OR "; T col'; T " = "; Ph n'; T ")"]
  | CEither col n col' n' (Some (k, v)) =>
      [T "("; T col; T " = "; Ph n; T " OR ("; T col'; T " = "; Ph n'; T " AND "; T k; T " = "; T v; T "))"]
  end.

(** Every condition preceded by [sep], and the conditions joined by it. *)
Definition conds_sql (sep : string) (cs : list cond) : sql :=
  concat (map (fun c => T sep :: cond_sql c) cs).

Lemma cond_sql_phs c : phs (cond_sql c) = cond_phs c.
Proof.
  destruct c as [| | | | |? ? ? ? [[? ?]|]]; try done. simpl. by rewrite phs_app, placeholders_sql_phs, app_nil_r.
Qed.

Lemma conds_sql_phs sep cs : phs (conds_sql sep cs) = concat (map cond_phs cs).
Proof.
  induction cs as [|c cs IH]; [done|]. unfold conds_sql in *. simpl. by rewrite phs_app, cond_sql_phs, IH.
Qed.

(** ** Their meaning *)

Inductive bcond :=
| BLike (col v : string)
| BEq (col v : string)
| BNeq (col v : string)
| BIn (col : string) (vs : list string)
| BEqOrStar (col v : string)
| BEither (col v col' v' : string) (also : option (string * string)).

(** The text in which an argument reaches the server. *)
Definition arg_text (a : arg) : string :=
  match a with AStr s => s | AInt z => pretty z | ATime t => RFC3339Nano t end.

Definition fill (args : list arg) (c : cond) : bcond :=
  match c with
  | CLike col n => BLike col (arg_text (arg_at args n))
  | CEq col n => BEq col (arg_text (arg_at args n))
  | CNeq col n => BNeq col (arg_text (arg_at args n))
  | CIn col ns => BIn col (map (fun n => arg_text (arg_at args n)) ns)
  | CEqOrStar col n => BEqOrStar col (arg_text (arg_at args n))
  | CEither col n col' n' also => BEither col (arg_text (arg_at args n)) col' (arg_text (arg_at args n')) also
  end.

(** The columns of a table by name. *)
Inductive column (R : Type) :=
| CText (f : R -> option string)
| CInt (f : R -> option Z)
| CTime (f : R -> Z).
Arguments CText {R} f. Arguments CInt {R} f. Arguments CTime {R} f.

Definition no_operator : error := EDriver "pq: operator does not exist".
Definition no_column : error := EDriver "pq: column does not exist".

Section meaning.
Context `{PgInput} {R : Type} (cols : string -> option (column R)).

(** A test on a value that may be NULL, which satisfies nothing. *)
Definition on_value {A} (f : R -> option A) (test : A -> bool) (r : R) : bool :=
  match f r with Some x => test x | None => false end.

Fixpoint all_ok {A B} (f : A -> res B) (l : list A) : res (list B) :=
  match l with
  | [] => Ok []
  | x :: l' => b <-? f x ;; bs <-? all_ok f l' ;; Ok (b :: bs)
  end.

(** Comparison of a column with texts. *)
Definition cmp (col : string) (vs : list string) (ok : bool -> bool) : res (R -> bool) :=
  match cols col with
  | None => Err no_column
  | Some (CText f) => Ok (on_value f (fun x => ok (existsb (str_eq x) vs)))
  | Some (CInt f) =>
      ns <-? all_ok pg_int vs ;; Ok (on_value f (fun x => ok (existsb (Z.eqb x) ns)))
  | Some (CTime f) =>
      ns <-? all_ok pg_timestamp vs ;; Ok (fun r => ok (existsb (Z.eqb (f r)) ns))
  end.

Definition cond_pred (b : bcond) : res (R -> bool) :=
  match b with
  | BLike col v =>
      match cols col with
      | None => Err no_column
      | Some (CText f) => Ok (on_value f (like v))
      | Some _ => Err no_operator
      end
  | BEq col v => cmp col [v] id
  | BNeq col v => cmp col [v] negb
  | BIn col vs => cmp col vs id
  | BEqOrStar col v => cmp col [v; "*"%string] id
  | BEither col v col' v' also =>
      p <-? cmp col [v] id ;;
      q <-? cmp col' [v'] id ;;
      a <-? match also with None => Ok (fun _ => true) | Some (k, w) => cmp k [w] id end ;;
      Ok (fun r => p r || (q r && a r))
  end.

(** The rows that satisfy all conditions. *)
Definition where_rows (bs : list bcond) (l : list R) : res (list R) :=
  ps <-? all_ok cond_pred bs ;;
  Ok (keep (fun r => forallb (fun p => p r) ps) l).
End meaning.

(** The rows of a list, or of the rows of a table that satisfy [base], for
    which the generated conditions hold; [tail] are the placeholders of LIMIT
    and OFFSET. *)
Definition where_list `{PgInput} {R} (cols : string -> option (column R))
    (cs : list cond) (tail : list Z) (args : list arg) (l : list R) : res (list R) :=
  if negb (params_ok (conds_sql "" cs ++ placeholders_sql tail) (length args)) then Err param_error
  else where_rows cols (map (fill args) cs) l.

Definition where_select `{PgInput} {R} `{Table R} (cols : string -> option (column R))
    (base : R -> bool) (cs : list cond) (tail : list Z) (args : list arg) (d : database) : res (list R) :=
  where_list cols cs tail args (sql_select base d).

(** ORDER BY key DESC LIMIT limit OFFSET offset *)
Section page.
Context {R : Type} (key : R -> Z).

Definition desc (a b : R) : Prop := key b <= key a.
#[export] Instance desc_dec : RelDecision desc.
Proof. intros a b. unfold desc. apply _. Defined.

Definition page (offset limit : Z) (l : list R) : list R :=
  take (Z.to_nat limit) (drop (Z.to_nat offset) (merge_sort desc l)).

Lemma Forall_page (Q : R -> Prop) offset limit l : Forall Q l -> Forall Q (page offset limit l).
Proof. intros Hq. unfold page. apply Forall_take, Forall_drop. by rewrite merge_sort_Permutation. Qed.

Lemma elem_of_page offset limit l x : x ∈ page offset limit l -> x ∈ l.
Proof.
  assert (Forall (fun y => y ∈ l) (page offset limit l)) as Hp by (by apply Forall_page, Forall_forall).
  rewrite Forall_forall in Hp. apply Hp.
Qed.
End page.

(** ** Generators that number in order *)

(** The conditions use the next placeholders in order, one per argument. *)
Definition in_order (from : Z) (g : list cond * list arg * Z) : Prop :=
  let '(cs, args, next) := g in
  concat (map cond_phs cs) = seqZ from (Z.of_nat (length args)) /\ next = from + Z.of_nat (length args).

Lemma in_order_nil from : in_order from ([], [], from).
Proof. split; [done|simpl; lia]. Qed.

Lemma in_order_app from cs args next cs' args' next' :
  in_order from (cs, args, next) -> in_order next (cs', args', next') ->
  in_order from (cs ++ cs', args ++ args', next').
Proof.
  intros [Hc ->] [Hc' ->]. split; [|rewrite length_app; lia].
  rewrite map_app, concat_app, Hc, Hc', length_app. symmetry. apply seqZ_nat_app.
Qed.

(** Such conditions are acceptable to the server, alone or with LIMIT and
    OFFSET as the last two placeholders. *)
Lemma in_order_accepted cs args next : in_order 1 (cs, args, next) ->
  params_ok (conds_sql "" cs ++ placeholders_sql []) (length args) = true.
Proof.
  intros [Hc ->]. apply params_ok_seqZ. by rewrite phs_app, conds_sql_phs, placeholders_sql_phs, app_nil_r.
Qed.

Lemma in_order_paged cs args next a b : in_order 1 (cs, args, next) ->
  params_ok (conds_sql "" cs ++ placeholders_sql [next; next + 1]) (length (args ++ [a; b])) = true.
Proof.
  intros [Hc ->]. apply params_ok_seqZ. rewrite phs_app, conds_sql_phs, placeholders_sql_phs, Hc, length_app.
  rewrite seqZ_nat_app. f_equal. symmetry. apply (seqZ_two (1 + Z.of_nat (length args))).
Qed.

(** Later arguments do not change what earlier placeholders stand for. *)
Lemma arg_at_app args args' n : 1 <= n <= Z.of_nat (length args) -> arg_at (args ++ args') n = arg_at args n.
Proof. intros Hn. unfold arg_at. rewrite app_nth1; [done|lia]. Qed.

Lemma fill_app args args' c : Forall (fun n => 1 <= n <= Z.of_nat (length args)) (cond_phs c) ->
  fill (args ++ args') c = fill args c.
Proof.
  destruct c as [col n|col n|col n|col ns|col n|col n col' n' also]; simpl; intros Hn;
    try (inversion Hn; by rewrite arg_at_app).
  2:{ apply Forall_cons in Hn as [Hn [Hn' _]%Forall_cons]. by rewrite !arg_at_app. }
  f_equal. apply map_ext_in. intros n Hi%list_elem_of_In. rewrite Forall_forall in Hn. by rewrite arg_at_app by auto.
Qed.

Lemma in_order_bound cs args next c : in_order 1 (cs, args, next) -> c ∈ cs ->
  Forall (fun n => 1 <= n <= Z.of_nat (length args)) (cond_phs c).
Proof.
  intros [Hc _] Hin. apply Forall_forall. intros n Hn.
  assert (n ∈ concat (map cond_phs cs)) as Hs.
  { apply list_elem_of_In, in_concat. exists (cond_phs c). split; [|by apply list_elem_of_In].
    apply in_map, list_elem_of_In, Hin. }
  rewrite Hc in Hs. apply elem_of_seqZ in Hs. lia.
Qed.

Lemma fill_all_app cs args args' next : in_order 1 (cs, args, next) ->
  map (fill (args ++ args')) cs = map (fill args) cs.
Proof.
  intros Ho. apply map_ext_in. intros c Hc%list_elem_of_In. by eapply fill_app, in_order_bound.
Qed.

(** What a generated query selects. *)
Section selects.
Context `{PgInput} {R : Type} (cols : string -> option (column R)).

Lemma where_list_count cs args next l : in_order 1 (cs, args, next) ->
  where_list cols cs [] args l = where_rows cols (map (fill args) cs) l.
Proof. intros Ho. unfold where_list. by rewrite (in_order_accepted _ _ _ Ho). Qed.

Lemma where_list_paged cs args next a b l : in_order 1 (cs, args, next) ->
  where_list cols cs [next; next + 1] (args ++ [a; b]) l = where_rows cols (map (fill args) cs) l.
Proof.
  intros Ho. unfold where_list. rewrite (in_order_paged _ _ _ _ _ Ho). simpl. by erewrite fill_all_app.
Qed.

Context `{Table R} (base : R -> bool).

Lemma where_select_count cs args next d : in_order 1 (cs, args, next) ->
  where_select cols base cs [] args d = where_rows cols (map (fill args) cs) (sql_select base d).
Proof. by apply where_list_count. Qed.

Lemma where_select_paged cs args next a b d : in_order 1 (cs, args, next) ->
  where_select cols base cs [next; next + 1] (args ++ [a; b]) d =
  where_rows cols (map (fill args) cs) (sql_select base d).
Proof. by apply where_list_paged. Qed.
End selects.

(** The placeholders of the arguments added last. *)
Lemma arg_at_new args vs next : next = 1 + Z.of_nat (length args) ->
  map (arg_at (args ++ vs)) (seqZ next (Z.of_nat (length vs))) = vs.
Proof.
  intros ->. pose proof (seqZ_map_nth args vs []) as Hs. rewrite app_nil_r in Hs. etrans; [|exact Hs].
  do 2 f_equal; lia.
Qed.

Lemma arg_at_last args a next : next = 1 + Z.of_nat (length args) -> arg_at (args ++ [a]) next = a.
Proof. intros Hn. pose proof (arg_at_new args [a] next Hn) as Hs. by injection Hs. Qed.

(** ** Loops over a filter *)

(** A step adds one condition with the next placeholders, whose arguments
    make it the condition meant. *)
Definition step_means (step : string -> string -> Z -> cond * list arg * Z) (entry : string -> string -> bcond) : Prop :=
  forall key value (args : list arg) next, next = 1 + Z.of_nat (length args) ->
    let '(c, a, next') := step key value next in
    in_order next ([c], a, next') /\ fill (args ++ a) c = entry key value.

Lemma one_cond next (c : cond) a : cond_phs c = [next] -> in_order next ([c], [a], next + 1).
Proof.
  intros Hc. split; [|done]. simpl. rewrite Hc. change (Z.of_nat 1) with (0 + 1).
  by rewrite seqZ_snoc, Z.add_0_r.
Qed.

Lemma in_order_fill_snoc str args idx c a idx' :
  in_order 1 (str, args, idx) -> in_order idx ([c], a, idx') ->
  in_order 1 (str ++ [c], args ++ a, idx') /\
  map (fill (args ++ a)) (str ++ [c]) = map (fill args) str ++ [fill (args ++ a) c].
Proof.
  intros Ho Hc. split; [by eapply in_order_app|]. rewrite map_app. f_equal. by eapply fill_all_app.
Qed.

(** A loop that adds the condition of every key. *)
Section filter_loop.
Context (step : string -> string -> Z -> cond * list arg * Z) (entry : string -> string -> bcond).

Fixpoint filter_loop (filters : list (string * string)) (cs : list cond) (args : list arg) (idx : Z) :
    list cond * list arg * Z :=
  match filters with
  | [] => (cs, args, idx)
  | (k, v) :: filters' =>
      let '(c, a, idx) := step k v idx in filter_loop filters' (cs ++ [c]) (args ++ a) idx
  end.

Lemma filter_loop_means filters cs args idx : step_means step entry -> in_order 1 (cs, args, idx) ->
  let '(cs', args', idx') := filter_loop filters cs args idx in
  in_order 1 (cs', args', idx') /\
  map (fill args') cs' = map (fill args) cs ++ map (fun kv => entry kv.1 kv.2) filters.
Proof.
  intros Hstep. revert cs args idx. induction filters as [|[k v] filters IH]; intros cs args idx Ho; cbn [filter_loop].
  { by rewrite app_nil_r. }
  pose proof (Hstep k v args idx (proj2 Ho)) as Hs. destruct (step k v idx) as [[c a] idx'].
  destruct Hs as [Hc He]. destruct (in_order_fill_snoc _ _ _ _ _ _ Ho Hc) as [Ho' Hf].
  specialize (IH _ _ _ Ho'). destruct (filter_loop filters _ _ _) as [[cs' args'] idx''].
  destruct IH as [G1 G2]. split; [done|]. by rewrite G2, Hf, He, <- app_assoc.
Qed.
End filter_loop.

(** A condition with two placeholders for the same value. *)
Lemma two_conds next (c : cond) v : cond_phs c = [next; next + 1] ->
  in_order next ([c], [AStr v; AStr v], next + 2).
Proof. intros Hc. split; [|done]. simpl. rewrite Hc. symmetry. apply seqZ_two. Qed.

Lemma arg_at_two args a b next : next = 1 + Z.of_nat (length args) ->
  arg_at (args ++ [a; b]) next = a /\ arg_at (args ++ [a; b]) (next + 1) = b.
Proof.
  intros Hn. pose proof (arg_at_new args [a; b] next Hn) as Hs.
  change (Z.of_nat (length [a; b])) with (0 + 2) in Hs. rewrite seqZ_two in Hs. by injection Hs.
Qed.

(** ** Input functions, for examples *)

Definition plain_pg_int (s : string) : res Z :=
  match s with
  | EmptyString => Err (EDriver "pq: invalid input syntax for type integer")
  | String c s' => if Ascii.eqb c "-" then res_map Z.opp (digits 0 s') else digits 0 s
  end.

Lemma digits_pretty_N (n : N) : digits 0 (pretty n) = Ok (Z.of_N n).
Proof. unfold pretty, pretty_N. case_decide as Hz; [by subst|]. by rewrite digits_pretty. Qed.

Lemma pretty_N_head (n : N) : exists c s, pretty n = String c s /\ Ascii.eqb c "-" = false.
Proof.
  destruct (pretty n) as [|c s] eqn:E; [|exists c, s; split; [done|]].
  - pose proof (digits_pretty_N n) as Hd. rewrite E in Hd. injection Hd as Hd.
    replace n with 0%N in E by lia. done.
  - destruct (Ascii.eqb c "-") eqn:Hc; [|done]. apply Ascii.eqb_eq in Hc as ->. exfalso.
    pose proof (digits_pretty_N n) as Hd. by rewrite E in Hd.
Qed.

Lemma plain_pg_int_pretty n : - 2 ^ 31 <= n < 2 ^ 31 -> plain_pg_int (pretty n) = Ok n.
Proof.
  intros _. destruct n as [|p|p]; [done| |].
  - change (pretty (Zpos p)) with (pretty (Npos p)). unfold plain_pg_int.
    destruct (pretty_N_head (Npos p)) as (c & s & He & Hc). rewrite He, Hc, <- He. apply digits_pretty_N.
  - change (pretty (Zneg p)) with ("-" +:+ pretty (Npos p)).
    change (res_map Z.opp (digits 0 (pretty (Npos p))) = Ok (Zneg p)). by rewrite digits_pretty_N.
Qed.

Definition plain_pg_input : PgInput.
Proof.
  refine {| pg_int := plain_pg_int; pg_timestamp := fun _ => Err (EDriver "pq: invalid input syntax for type timestamp");
            pg_int_pretty := plain_pg_int_pretty |}.
  by intros [].
Defined.
