(* ===== verification/RuleFilter.v ===== *)
(** * Queries on rules (circuitbreaker_config_v2.go, fault_detect_config.go)

    The stores of circuit breaker and of fault detection rules share the shape
    of their queries: [genCircuitBreakerRuleSQL] and [genFaultDetectRuleSQL]
    walk over the filter with a running placeholder index and leave the keys
    [service] and [serviceNamespace] for the end; a count and a page ordered
    by mtime are selected with the result.  [gen_rule] is that walk, with the
    treatment of one key as a parameter; [rule_matches] is what a filter is
    meant to select. *)
From stdpp Require Import base list strings pretty gmap sorting.
From Stdlib Require Import ZArith Lia Ascii.
From S2P Require Import Prelude Driver Rows Schema Sql Common Where.
Open Scope Z_scope.
Open Scope store_scope.

(** [blurQueryKeys] *)
Definition blurQueryKeys : list string :=
  ["name"; "description"; "srcService"; "srcNamespace"; "dstService"; "dstNamespace"; "dstMethod"]%string.

Definition svcSpecificQueryKeyService : string := "service".
Definition svcSpecificQueryKeyNamespace : string := "serviceNamespace".
Definition exactName : string := "exactName".
Definition excludeId : string := "excludeId".
Definition briefSearch : string := "brief".

(** [strings.ToLower] on ASCII text. *)
Fixpoint lower (s : string) : string :=
  match s with EmptyString => "" | String c s' => String (to_lower c) (lower s') end.

(** [placeholders]: the indexes of "$i,...,$j" and the next index. *)
Fixpoint placeholders_upto (n : nat) (idx : Z) : list Z * Z :=
  match n with
  | O => ([], idx)
  | S n' => let '(l, idx') := placeholders_upto n' (idx + 1) in (idx :: l, idx')
  end.

Definition placeholders (n : nat) (idx : Z) : list Z * Z :=
  let '(l, idx) := placeholders_upto (n - 1) idx in
  if (0 <? n)%nat then (l ++ [idx], idx + 1) else (l, idx).

(** One key of the loop of [genCircuitBreakerRuleSQL]: the condition, its
    arguments and the next index. *)
Definition cb_step (key value : string) (idx : Z) : cond * list arg * Z :=
  let storeKey := toUnderscoreName key in
  if bool_decide (key ∈ blurQueryKeys) then
    (CLike storeKey idx, [AStr ("%" +:+ value +:+ "%")], idx + 1)
  else if bool_decide (key = "enable"%string) then
    (CEq storeKey idx, [AStr (if parse_bool value then "true" else "false")], idx + 1)
  else if bool_decide (key = "level"%string) then
    let tokens := split_on "," value in
    let '(placeholder, idx1) := placeholders (length tokens) idx in
    let idx' := if idx <? idx1 then idx1 - 1 else idx1 in
    (CIn storeKey placeholder, map AStr tokens, idx' + 1)
  else if bool_decide (key = exactName) then (CEq "name" idx, [AStr value], idx + 1)
  else if bool_decide (key = excludeId) then (CNeq "id" idx, [AStr value], idx + 1)
  else (CEq storeKey idx, [AStr value], idx + 1).

(** The same for [genFaultDetectRuleSQL]. *)
Definition fd_step (key value : string) (idx : Z) : cond * list arg * Z :=
  let storeKey := toUnderscoreName key in
  if bool_decide (key ∈ blurQueryKeys) then
    (CLike storeKey idx, [AStr ("%" +:+ value +:+ "%")], idx + 1)
  else if bool_decide (key = exactName) then (CEq "name" idx, [AStr value], idx + 1)
  else if bool_decide (key = excludeId) then (CNeq "id" idx, [AStr value], idx + 1)
  else (CEq storeKey idx, [AStr value], idx + 1).

Section generator.
Context (step : string -> string -> Z -> cond * list arg * Z).

(** The loop over the filter; [svc] and [ns] are the values kept for last. *)
Fixpoint gen_loop (query : list (string * string)) (str : list cond) (args : list arg) (idx : Z)
    (svc ns : string) : list cond * list arg * Z * string * string :=
  match query with
  | [] => (str, args, idx, svc, ns)
  | (key, value) :: query' =>
      if str_empty value then gen_loop query' str args idx svc ns
      else if str_eq key svcSpecificQueryKeyService then gen_loop query' str args idx value ns
      else if str_eq key svcSpecificQueryKeyNamespace then gen_loop query' str args idx svc value
      else let '(c, a, idx') := step key value idx in
           gen_loop query' (str ++ [c]) (args ++ a) idx' svc ns
  end.

(** The condition on the service or on its namespace. *)
Definition or_star (col value : string) (g : list cond * list arg * Z) : list cond * list arg * Z :=
  let '(str, args, idx) := g in
  if str_empty value then (str, args, idx)
  else (str ++ [CEqOrStar col idx], args ++ [AStr value], idx + 1).

Definition gen_rule (query : list (string * string)) : list cond * list arg * Z :=
  let '(str, args, idx, svc, ns) := gen_loop query [] [] 1 "" "" in
  or_star "dst_namespace" ns (or_star "dst_service" svc (str, args, idx)).
End generator.

Definition genCircuitBreakerRuleSQL := gen_rule cb_step.
Definition genFaultDetectRuleSQL := gen_rule fd_step.

(** ** Queries *)

Section queries.
Context `{Env} `{PolarisApi} `{PgInput} `{MapRange} {R A : Type} `{!Table R}.
Context (gen : list (string * string) -> list cond * list arg * Z).
Context (cols : string -> option (column R)) (live : R -> bool) (mtime : R -> Z).

(** [err == sql.ErrNoRows] counts as zero. *)
Definition no_rows_is_zero (m : M database Z) : M database Z := fun c =>
  match m c with (Err ENoRows, c') => (Ok 0, c') | rc => rc end.

(** [getCircuitBreakerRulesCount], [getFaultDetectRulesCount] *)
Definition count_rules (filter : gmap string string) : M database Z :=
  let '(queryStr, args, _) := gen (range_map filter) in
  no_rows_is_zero (QueryRow committed (fun _ d =>
    l <-? where_select cols live queryStr [] args d ;; Ok [Z.of_nat (length l)])).

(** [getFullCircuitBreakerRules] and the like, with [fetch] for the columns
    selected. *)
Definition page_rules (fetch : rows R -> res (list A)) (filter : gmap string string) (offset limit : Z) :
    M database (list A) :=
  let '(queryStr, args, idx) := gen (range_map filter) in
  rs <- Query committed (fun _ d =>
    l <-? where_select cols live queryStr [idx; idx + 1] (args ++ [AInt limit; AInt offset]) d ;;
    Ok (page mtime offset limit l)) ;;
  lift (fetch rs).

(** [GetCircuitBreakerRules], [GetFaultDetectRules] *)
Definition get_rules (brief full : rows R -> res (list A)) (filter : gmap string string) (offset limit : Z) :
    M database (Z * list A) :=
  let isBrief := match filter !! briefSearch with Some b => str_eq (lower b) "true" | None => false end in
  let filter := delete briefSearch filter in
  out <- (if isBrief then page_rules brief filter offset limit else page_rules full filter offset limit) ;;
  num <- count_rules filter ;;
  Ret (num, out).

(** [HasCircuitBreakerRule] and the like *)
Definition has_rule (queryParams : gmap string string) : M database bool :=
  count <- count_rules queryParams ;;
  Ret (0 <? count).
End queries.

(** ** What the filters mean *)

(** The conditions a key stands for, without placeholders. *)
Definition cb_entry (key value : string) : bcond :=
  let col := toUnderscoreName key in
  if bool_decide (key ∈ blurQueryKeys) then BLike col ("%" +:+ value +:+ "%")
  else if bool_decide (key = "enable"%string) then BEq col (if parse_bool value then "true" else "false")
  else if bool_decide (key = "level"%string) then BIn col (split_on "," value)
  else if bool_decide (key = exactName) then BEq "name" value
  else if bool_decide (key = excludeId) then BNeq "id" value
  else BEq col value.

Definition fd_entry (key value : string) : bcond :=
  let col := toUnderscoreName key in
  if bool_decide (key ∈ blurQueryKeys) then BLike col ("%" +:+ value +:+ "%")
  else if bool_decide (key = exactName) then BEq "name" value
  else if bool_decide (key = excludeId) then BNeq "id" value
  else BEq col value.

Definition is_special (key : string) : bool :=
  str_eq key svcSpecificQueryKeyService || str_eq key svcSpecificQueryKeyNamespace.

(** The last non-empty value of a key. *)
Definition special_value (key : string) (query : list (string * string)) : string :=
  match last (keep (fun kv => negb (str_empty (snd kv)) && str_eq (fst kv) key) query) with
  | Some kv => snd kv
  | None => ""
  end.

Definition star_entry (col value : string) : list bcond :=
  if str_empty value then [] else [BEqOrStar col value].

(** The conditions of a filter: empty values are ignored. *)
Definition meant (entry : string -> string -> bcond) (query : list (string * string)) : list bcond :=
  map (fun kv => entry (fst kv) (snd kv))
    (keep (fun kv => negb (str_empty (snd kv)) && negb (is_special (fst kv))) query) ++
  star_entry "dst_service" (special_value svcSpecificQueryKeyService query) ++
  star_entry "dst_namespace" (special_value svcSpecificQueryKeyNamespace query).

(** ** The generators ask what is meant *)

Lemma placeholders_upto_seqZ n idx :
  placeholders_upto n idx = (seqZ idx (Z.of_nat n), idx + Z.of_nat n).
Proof.
  revert idx. induction n as [|n IH]; intros idx; simpl placeholders_upto.
  { by rewrite Z.add_0_r. }
  rewrite IH. rewrite (seqZ_cons idx) by lia. f_equal; [|lia]. f_equal. f_equal; lia.
Qed.

Lemma placeholders_seqZ n idx : placeholders n idx = (seqZ idx (Z.of_nat n), idx + Z.of_nat n).
Proof.
  unfold placeholders. rewrite placeholders_upto_seqZ. destruct n as [|n]; simpl.
  { by rewrite Z.add_0_r. }
  rewrite Nat.sub_0_r. f_equal; [|lia]. rewrite <- seqZ_snoc by lia. f_equal. lia.
Qed.

Lemma fd_step_means : step_means fd_step fd_entry.
Proof.
  intros key value args next Hn. unfold fd_step, fd_entry.
  repeat case_bool_decide; (split; [by apply one_cond|]); simpl; by rewrite arg_at_last.
Qed.

Lemma split_on_length sep s : (0 < length (split_on sep s))%nat.
Proof. destruct s as [|c s]; simpl; [lia|]. destruct (Ascii.eqb c sep); [simpl; lia|]. destruct (split_on sep s); simpl; lia. Qed.

Lemma cb_step_means : step_means cb_step cb_entry.
Proof.
  intros key value args next Hn. unfold cb_step, cb_entry.
  repeat case_bool_decide; try (split; [by apply one_cond|]; simpl; by rewrite arg_at_last).
  rewrite placeholders_seqZ. pose proof (split_on_length "," value) as Hl.
  rewrite (proj2 (Z.ltb_lt next _)) by lia. split.
  - split; [|rewrite length_map; lia]. simpl. by rewrite app_nil_r, length_map.
  - simpl. f_equal. pose proof (arg_at_new args (map AStr (split_on "," value)) next Hn) as Ha.
    rewrite length_map in Ha. rewrite <- (map_map (arg_at _) arg_text), Ha, map_map. apply map_id.
Qed.

(** A generator whose placeholders are in order and whose conditions, with
    the arguments filled in, are the ones meant. *)
Definition gen_means (gen : list (string * string) -> list cond * list arg * Z)
    (meaning : list (string * string) -> list bcond) : Prop :=
  forall query, let '(str, args, idx) := gen query in
    in_order 1 (str, args, idx) /\ map (fill args) str = meaning query.

Section means.
Context (step : string -> string -> Z -> cond * list arg * Z) (entry : string -> string -> bcond).
Context (Hstep : step_means step entry).

Definition value_from (dflt key : string) (query : list (string * string)) : string :=
  match last (keep (fun kv => negb (str_empty (snd kv)) && str_eq (fst kv) key) query) with
  | Some kv => snd kv
  | None => dflt
  end.

Lemma value_from_cons dflt key k v query :
  value_from dflt key ((k, v) :: query) =
    value_from (if negb (str_empty v) && str_eq k key then v else dflt) key query.
Proof.
  unfold value_from. simpl. destruct (negb (str_empty v) && str_eq k key); [|done].
  destruct (keep _ query) as [|p l] eqn:E; [done|]. rewrite last_cons. by destruct (last (p :: l)) eqn:El.
Qed.

Lemma gen_loop_means query : forall str args idx svc ns, in_order 1 (str, args, idx) ->
  let '(str', args', idx', svc', ns') := gen_loop step query str args idx svc ns in
  in_order 1 (str', args', idx') /\
  map (fill args') str' = map (fill args) str ++ map (fun kv => entry (fst kv) (snd kv))
    (keep (fun kv => negb (str_empty (snd kv)) && negb (is_special (fst kv))) query) /\
  svc' = value_from svc svcSpecificQueryKeyService query /\
  ns' = value_from ns svcSpecificQueryKeyNamespace query.
Proof.
  induction query as [|[key value] query IH]; intros str args idx svc ns Ho; simpl gen_loop.
  { simpl. by rewrite app_nil_r. }
  rewrite !value_from_cons. simpl keep. unfold is_special at 1. cbn [fst snd].
  destruct (str_empty value); [by apply IH|].
  destruct (str_eq key svcSpecificQueryKeyService) eqn:E1.
  { apply str_eq_true in E1 as ->. by apply IH. }
  destruct (str_eq key svcSpecificQueryKeyNamespace) eqn:E2; [by apply IH|]. simpl.
  pose proof (Hstep key value args idx (proj2 Ho)) as Hs.
  destruct (step key value idx) as [[c a] idx']. destruct Hs as [Hc He].
  destruct (in_order_fill_snoc _ _ _ _ _ _ Ho Hc) as [Ho' Hf].
  specialize (IH (str ++ [c]) (args ++ a) idx' svc ns Ho').
  destruct (gen_loop step query _ _ _ _ _) as [[[[str' args'] idx''] svc'] ns'].
  destruct IH as (H1 & H2 & H3 & H4). split; [done|]. split; [|done]. by rewrite H2, Hf, He, <- app_assoc.
Qed.

Lemma or_star_means col value str args idx : in_order 1 (str, args, idx) ->
  let '(str', args', idx') := or_star col value (str, args, idx) in
  in_order 1 (str', args', idx') /\ map (fill args') str' = map (fill args) str ++ star_entry col value.
Proof.
  intros Ho. unfold or_star, star_entry. destruct (str_empty value); [by rewrite app_nil_r|].
  destruct (in_order_fill_snoc str args idx (CEqOrStar col idx) [AStr value] (idx + 1) Ho) as [Ho' Hf];
    [by apply one_cond|].
  split; [done|]. rewrite Hf. simpl. by rewrite arg_at_last by apply Ho.
Qed.

(** Any filter gives placeholders the server accepts and the conditions meant
    by its keys, in whatever order the keys are visited. *)
Lemma gen_rule_means : gen_means (gen_rule step) (meant entry).
Proof.
  intros query. unfold gen_rule, meant. pose proof (gen_loop_means query [] [] 1 "" "" (in_order_nil 1)) as Hl.
  destruct (gen_loop step query [] [] 1 "" "") as [[[[str args] idx] svc] ns].
  destruct Hl as (Ho & Hf & -> & ->).
  pose proof (or_star_means "dst_service" (value_from "" svcSpecificQueryKeyService query) _ _ _ Ho) as H1.
  destruct (or_star "dst_service" _ _) as [[str1 args1] idx1]. destruct H1 as [Ho1 Hf1].
  pose proof (or_star_means "dst_namespace" (value_from "" svcSpecificQueryKeyNamespace query) _ _ _ Ho1) as H2.
  destruct (or_star "dst_namespace" _ _) as [[str2 args2] idx2]. destruct H2 as [Ho2 Hf2].
  split; [done|]. rewrite Hf2, Hf1, Hf, <- app_assoc. done.
Qed.
End means.

(** ** What the queries return *)

Section results.
Context `{Env} `{PolarisApi} `{PgInput} `{MapRange} {R A : Type} `{!Table R}.
Context (gen : list (string * string) -> list cond * list arg * Z) (meaning : list (string * string) -> list bcond).
Context (Hgen : gen_means gen meaning).
Context (cols : string -> option (column R)) (live : R -> bool) (mtime : R -> Z).
Implicit Types c : conn database.

(** The rows a filter selects. *)
Definition matching (filter : gmap string string) (d : database) : res (list R) :=
  where_rows cols (meaning (range_map filter)) (sql_select live d).

#[export] Instance read_count filter : ReadOnly (count_rules gen cols live filter).
Proof.
  unfold count_rules. destruct (gen _) as [[str args] idx]. intros c r c'. unfold no_rows_is_zero.
  destruct (QueryRow _ _ c) as [[x|e|w] c1] eqn:E; intros; simplify_eq; [..|destruct e; simplify_eq| ];
    by eapply QueryRow_frame.
Qed.

#[export] Instance read_page (fetch : rows R -> res (list A)) filter offset limit :
  ReadOnly (page_rules gen cols live mtime fetch filter offset limit).
Proof. unfold page_rules. destruct (gen _) as [[str args] idx]. apply _. Qed.

(** Without faults. *)
Lemma count_rules_reliable filter c l : reliable -> matching filter (committed c) = Ok l ->
  count_rules gen cols live filter c = (Ok (Z.of_nat (length l)), tick c).
Proof.
  unfold count_rules, matching. intros Hrel. pose proof (Hgen (range_map filter)) as Hg.
  destruct (gen _) as [[str args] idx]. destruct Hg as [Ho <-]. intros Hm.
  unfold no_rows_is_zero, QueryRow.
  rewrite (Query_then _ _ _ c [Z.of_nat (length l)]); [done|done|].
  erewrite where_select_count by done. by rewrite Hm.
Qed.

Lemma page_rules_reliable (fetch : rows R -> res (list A)) filter offset limit c l out : reliable ->
  matching filter (committed c) = Ok l -> fetch (Rows (page mtime offset limit l) None) = Ok out ->
  page_rules gen cols live mtime fetch filter offset limit c = (Ok out, tick c).
Proof.
  unfold page_rules, matching. intros Hrel. pose proof (Hgen (range_map filter)) as Hg.
  destruct (gen _) as [[str args] idx]. destruct Hg as [Ho <-]. intros Hm Hf.
  rewrite (Query_then _ _ _ c (page mtime offset limit l)); [unfold lift; by rewrite Hf|done|].
  erewrite where_select_paged by done. by rewrite Hm.
Qed.

(** A page that was delivered is complete, whatever faults occurred. *)
Lemma page_rules_Ok (fetch : rows R -> res (list A)) filter offset limit c out c' : err_checking fetch ->
  page_rules gen cols live mtime fetch filter offset limit c = (Ok out, c') ->
  exists l, matching filter (committed c) = Ok l /\ fetch (Rows (page mtime offset limit l) None) = Ok out.
Proof.
  unfold page_rules, matching. intros He. pose proof (Hgen (range_map filter)) as Hg.
  destruct (gen _) as [[str args] idx]. destruct Hg as [Ho <-]. intros Hr.
  apply Query_fetch_Ok in Hr as (_ & now & l & Hl & Hf); [|apply _|done].
  erewrite where_select_paged in Hl by done. res_steps. simplify_eq. eauto.
Qed.

(** A count that was delivered is right, or no row came. *)
Lemma count_rules_Ok filter c l n c' : matching filter (committed c) = Ok l ->
  count_rules gen cols live filter c = (Ok n, c') -> n = Z.of_nat (length l) \/ n = 0.
Proof.
  unfold count_rules, matching. pose proof (Hgen (range_map filter)) as Hg.
  destruct (gen _) as [[str args] idx]. destruct Hg as [Ho <-]. intros Hm. unfold no_rows_is_zero.
  destruct (QueryRow _ _ c) as [[k|e|w] c1] eqn:E; [|destruct e; intros; simplify_eq; auto|done].
  intros [= <- _]. left. unfold QueryRow in E.
  apply Query_fetch_Ok in E as (_ & now & rs & Hs & Hf); [|apply _|done].
  erewrite where_select_count in Hs by done. rewrite Hm in Hs. simpl in Hs. injection Hs as <-. unfold first_row in Hf. simpl in Hf. by injection Hf.
Qed.

(** Whether only the brief columns are asked for. *)
Definition asks_brief (filter : gmap string string) : bool :=
  match filter !! briefSearch with Some b => str_eq (lower b) "true" | None => false end.

Definition fetch_asked (brief full : rows R -> res (list A)) (filter : gmap string string) :=
  if asks_brief filter then brief else full.

(** What [get_rules] delivers, whatever faults occurred. *)
Lemma get_rules_Ok (brief full : rows R -> res (list A)) filter offset limit c n out c' :
  err_checking brief -> err_checking full ->
  get_rules gen cols live mtime brief full filter offset limit c = (Ok (n, out), c') ->
  exists l, matching (delete briefSearch filter) (committed c) = Ok l /\ (n = Z.of_nat (length l) \/ n = 0) /\
    fetch_asked brief full filter (Rows (page mtime offset limit l) None) = Ok out.
Proof.
  intros Hb Hf Hr. unfold get_rules in Hr. apply Bind_Ok in Hr as (out' & c1 & Hp & Hr).
  apply Bind_Ok in Hr as (num & c2 & Hc & [= <- <- <-]). unfold fetch_asked.
  change (match filter !! briefSearch with Some b => str_eq (lower b) "true" | None => false end)
    with (asks_brief filter) in Hp.
  assert (committed c1 = committed c) as Hcc by (destruct (asks_brief filter); by apply read_page in Hp as [? _]).
  destruct (asks_brief filter); apply page_rules_Ok in Hp as (l & Hm & Hfe); try done; exists l;
    (split; [done|]; split; [|done]); (eapply count_rules_Ok; [|exact Hc]; by rewrite Hcc).
Qed.

(** [get_rules] without faults. *)
Lemma get_rules_runs (brief full : rows R -> res (list A)) filter offset limit c l out : reliable ->
  matching (delete briefSearch filter) (committed c) = Ok l ->
  fetch_asked brief full filter (Rows (page mtime offset limit l) None) = Ok out ->
  fst (get_rules gen cols live mtime brief full filter offset limit c) = Ok (Z.of_nat (length l), out).
Proof.
  intros Hrel Hm Hf. unfold get_rules.
  change (match filter !! briefSearch with Some b => str_eq (lower b) "true" | None => false end)
    with (asks_brief filter). unfold fetch_asked in Hf.
  destruct (asks_brief filter); (erewrite Bind_run by (by eapply page_rules_reliable));
    (erewrite Bind_run; [done|]; by apply count_rules_reliable).
Qed.

Lemma get_rules_reliable (brief full : rows R -> res (list A)) filter offset limit c l out : reliable ->
  filter !! briefSearch = None -> matching filter (committed c) = Ok l ->
  full (Rows (page mtime offset limit l) None) = Ok out ->
  fst (get_rules gen cols live mtime brief full filter offset limit c) = Ok (Z.of_nat (length l), out).
Proof.
  intros Hrel Hb Hm Hf. apply get_rules_runs; [done|by rewrite delete_id|].
  unfold fetch_asked, asks_brief. by rewrite Hb.
Qed.

#[export] Instance read_rules (brief full : rows R -> res (list A)) filter offset limit :
  ReadOnly (get_rules gen cols live mtime brief full filter offset limit).
Proof.
  unfold get_rules.
  change (match filter !! briefSearch with Some b => str_eq (lower b) "true" | None => false end)
    with (asks_brief filter). destruct (asks_brief filter); apply _.
Qed.

Lemma has_rule_reliable filter c l : reliable -> matching filter (committed c) = Ok l ->
  has_rule gen cols live filter c = (Ok (0 <? Z.of_nat (length l)), tick c).
Proof. intros Hrel Hm. unfold has_rule. erewrite Bind_run by (by apply count_rules_reliable). done. Qed.
End results.

(** A condition the server refuses spoils the whole query. *)
Lemma all_ok_elem {A B} (f : A -> res B) l k x : all_ok f l = Ok k -> x ∈ l -> is_Ok (f x) = true.
Proof.
  revert k. induction l as [|y l IH]; intros k Hk Hx; [by apply elem_of_nil in Hx|]. simpl in Hk. res_steps.
  apply elem_of_cons in Hx as [->|Hx]; [by rewrite H|by eapply IH].
Qed.

(** ** Filters read as predicates *)

Lemma forallb_perm {A} (P : A -> bool) l k : l ≡ₚ k -> forallb P l = forallb P k.
Proof.
  induction 1 as [|x l k _ IH|x y l|l1 l2 l3 _ IH1 _ IH2]; simpl; [done|by rewrite IH| |congruence].
  by rewrite !andb_assoc, (andb_comm (P y)).
Qed.

Lemma range_map_empty `{MapRange} : range_map ∅ = [].
Proof. apply Permutation_nil. rewrite <- map_to_list_empty. symmetry. apply range_map_perm. Qed.

Lemma forallb_range `{MapRange} (P : string * string -> bool) m k v : m !! k = None ->
  forallb P (range_map (<[k := v]> m)) = P (k, v) && forallb P (range_map m).
Proof.
  intros Hk. rewrite (forallb_perm P _ _ (range_map_perm (<[k := v]> m))).
  rewrite (forallb_perm P _ _ (map_to_list_insert m k v Hk)). simpl. f_equal.
  symmetry. apply forallb_perm, range_map_perm.
Qed.

Lemma forallb_range_singleton `{MapRange} (P : string * string -> bool) k v :
  forallb P (range_map {[k := v]}) = P (k, v).
Proof.
  rewrite <- insert_empty, forallb_range by apply lookup_empty. by rewrite range_map_empty, andb_true_r.
Qed.

Lemma elem_of_range `{MapRange} (m : gmap string string) k v : (k, v) ∈ range_map m <-> m !! k = Some v.
Proof. rewrite (range_map_perm m). apply elem_of_map_to_list. Qed.

Lemma all_ok_map {A B} (f : A -> res B) (g : A -> B) l :
  (forall x, x ∈ l -> f x = Ok (g x)) -> all_ok f l = Ok (map g l).
Proof.
  induction l as [|x l IH]; intros Hf; [done|]. simpl. rewrite Hf by (by left). simpl.
  rewrite IH; [done|]. intros y Hy. apply Hf. by right.
Qed.

Lemma length_keep_existsb {A} (p : A -> bool) l : (0 <? Z.of_nat (length (keep p l))) = existsb p l.
Proof.
  induction l as [|x l IH]; [done|]. simpl. destruct (p x); [|done]. cbn [length orb]. apply Z.ltb_lt. lia.
Qed.

Lemma existsb_none {A} (p : A -> bool) l : (forall x, x ∈ l -> p x = false) -> existsb p l = false.
Proof.
  induction l as [|x l IH]; intros Hp; [done|]. simpl. rewrite Hp by (by left). apply IH. intros y Hy.
  apply Hp. by right.
Qed.

Lemma matching_refused `{PgInput} `{MapRange} {R} `{!Table R} entry (cols : string -> option (column R)) live
    (filter : gmap string string) k v d :
  filter !! k = Some v -> v <> ""%string -> is_special k = false ->
  is_Ok (cond_pred cols (entry k v)) = false -> is_Ok (matching (meant entry) cols live filter d) = false.
Proof.
  intros Hk Hv Hs Hp. unfold matching, where_rows, meant.
  destruct (all_ok _ _) as [ps|e|w] eqn:E; [|done..]. exfalso. eapply all_ok_elem in E; [by rewrite Hp in E|].
  apply elem_of_app. left. apply list_elem_of_In, in_map_iff. exists (k, v). split; [done|].
  apply list_elem_of_In, elem_of_keep. split; [by apply elem_of_range|]. simpl. by rewrite str_empty_false, Hs.
Qed.

Section plain_filters.
Context `{Env} `{PolarisApi} `{PgInput} `{MapRange} {R : Type} `{!Table R}.
Context (step : string -> string -> Z -> cond * list arg * Z) (entry : string -> string -> bcond).
Context (Hstep : step_means step entry) (cols : string -> option (column R)) (live : R -> bool).

Definition entry_pred (k v : string) (r : R) : bool :=
  match cond_pred cols (entry k v) with Ok p => p r | _ => false end.

(** A filter without empty values, unknown columns and the keys kept for
    last. *)
Definition plain_filter (filter : gmap string string) : Prop :=
  map_Forall (fun k v => v <> ""%string /\ is_special k = false /\ is_Ok (cond_pred cols (entry k v)) = true) filter.

(** It selects the rows that satisfy every entry. *)
Lemma matching_plain (filter : gmap string string) d : plain_filter filter ->
  matching (meant entry) cols live filter d =
    Ok (keep (fun r => live r && forallb (fun kv => entry_pred (fst kv) (snd kv) r) (range_map filter)) (tbl d)).
Proof.
  intros Hf. unfold matching, meant.
  assert (forall key, is_special key = true -> special_value key (range_map filter) = ""%string) as Hs.
  { intros key Hk. unfold special_value. replace (keep _ _) with (@nil (string * string)); [done|].
    symmetry. apply keep_nil_iff. intros [k v] Hkv%elem_of_range. simpl.
    destruct (Hf k v Hkv) as (_ & Hsp & _). destruct (str_eq k key) eqn:E; [|by rewrite andb_false_r].
    apply str_eq_true in E as ->. congruence. }
  rewrite !Hs by done. simpl. rewrite app_nil_r, keep_all.
  2:{ intros [k v] Hkv%elem_of_range. simpl. destruct (Hf k v Hkv) as (Hv & Hsp & _).
      by rewrite Hsp, str_empty_false. }
  unfold where_rows.
  assert (forall l, (forall k v, (k, v) ∈ l -> is_Ok (cond_pred cols (entry k v)) = true) ->
    exists ps, all_ok (cond_pred cols) (map (fun kv => entry kv.1 kv.2) l) = Ok ps /\
      forall r, forallb (fun p => p r) ps = forallb (fun kv => entry_pred kv.1 kv.2 r) l) as Ha.
  { clear. induction l as [|[k v] l IH]; intros Hl; [by exists []|].
    destruct IH as (ps & Hps & Heq); [intros; apply Hl; by right|]. specialize (Hl k v ltac:(by left)).
    simpl. destruct (cond_pred cols (entry k v)) as [q| |] eqn:E; [|done..]. simpl. rewrite Hps. simpl.
    eexists. split; [done|]. intros r. simpl. rewrite Heq. unfold entry_pred at 2. by rewrite E. }
  destruct (Ha (range_map filter)) as (ps & -> & Heq); [intros k v Hkv%elem_of_range; by apply Hf|].
  cbn [res_bind]. f_equal. unfold sql_select. rewrite keep_keep. apply keep_ext. intros r _. by rewrite Heq.
Qed.

Lemma has_rule_plain (filter : gmap string string) (q : R -> bool) c : reliable -> plain_filter filter ->
  (forall r, live r && forallb (fun kv => entry_pred (fst kv) (snd kv) r) (range_map filter) = q r) ->
  fst (has_rule (gen_rule step) cols live filter c) = Ok (existsb q (tbl (committed c))).
Proof.
  intros Hrel Hf Hq. erewrite has_rule_reliable; [|by apply gen_rule_means|done|by apply matching_plain].
  cbn [fst]. rewrite length_keep_existsb. f_equal.
  generalize (tbl (R:=R) (committed c)). intros l. induction l as [|r l IH]; [done|]. simpl. by rewrite Hq, IH.
Qed.
End plain_filters.
