(* ===== verification/FaultDetect.v ===== *)
(** * Fault detection rules (store/postgresql/fault_detect_config.go)

    [faultDetectRuleStore]: rules are inserted, updated and marked deleted by
    id, each in a retried transaction; they are listed with the filters of
    RuleFilter, and read by the cache from the replica. *)
From stdpp Require Import base list strings pretty gmap sorting.
From Stdlib Require Import ZArith Lia.
From S2P Require Import Prelude Driver Rows Schema Sql Common Where RuleFilter.
Open Scope Z_scope.
Open Scope store_scope.

(** [model.FaultDetectRule], the fields the store touches; times in
    microseconds. *)
Record FaultDetectRule := mkFaultDetectRule {
  ID : string; Name : string; Namespace : string; Revision : string; Description : string;
  DstService : string; DstNamespace : string; DstMethod : string; Rule : string;
  Valid : bool; CreateTime : Z; ModifyTime : Z }.

(** The columns by the names the filters use. *)
Definition fd_cols (col : string) : option (column fault_detect_rule_row) :=
  if str_eq col "id" then Some (CText (fun r => Some (fd_id r)))
  else if str_eq col "name" then Some (CText (fun r => Some (fd_name r)))
  else if str_eq col "namespace" then Some (CText (fun r => Some (fd_namespace r)))
  else if str_eq col "revision" then Some (CText (fun r => Some (fd_revision r)))
  else if str_eq col "description" then Some (CText (fun r => Some (fd_description r)))
  else if str_eq col "dst_service" then Some (CText (fun r => Some (fd_dst_service r)))
  else if str_eq col "dst_namespace" then Some (CText (fun r => Some (fd_dst_namespace r)))
  else if str_eq col "dst_method" then Some (CText (fun r => Some (fd_dst_method r)))
  else if str_eq col "config" then Some (CText fd_config)
  else if str_eq col "metadata" then Some (CText (fun _ => None))
  else if str_eq col "flag" then Some (CInt (fun r => Some (fd_flag r)))
  else if str_eq col "ctime" then Some (CTime fd_ctime)
  else if str_eq col "mtime" then Some (CTime fd_mtime)
  else None.

Definition fd_live (r : fault_detect_rule_row) : bool := fd_flag r =? 0.

Section fault_detect.
Context `{Env} `{PolarisApi} `{PgInput} `{MapRange}.
Abbreviation M := (M database).
Abbreviation P := (P database).

(** ** Writing *)

(** [insertFaultDetectSql], [updateFaultDetectSql], [deleteFaultDetectSql] *)
Definition new_fault_detect_row (f : FaultDetectRule) (now : Z) : fault_detect_rule_row :=
  FaultDetectRuleRow (ID f) (Name f) (Namespace f) (Revision f) (Description f) (DstService f)
    (DstNamespace f) (DstMethod f) (Some (Rule f)) 0 now now.

Definition with_id (id : string) (r : fault_detect_rule_row) : bool := str_eq (fd_id r) id.

Definition set_fault_detect (f : FaultDetectRule) (now : Z) (r : fault_detect_rule_row) : fault_detect_rule_row :=
  FaultDetectRuleRow (fd_id r) (Name f) (Namespace f) (Revision f) (Description f) (DstService f)
    (DstNamespace f) (DstMethod f) (Some (Rule f)) (fd_flag r) (fd_ctime r) now.

Definition set_deleted (now : Z) (r : fault_detect_rule_row) : fault_detect_rule_row :=
  FaultDetectRuleRow (fd_id r) (fd_name r) (fd_namespace r) (fd_revision r) (fd_description r)
    (fd_dst_service r) (fd_dst_namespace r) (fd_dst_method r) (fd_config r) 1 (fd_ctime r) now.

Definition createFaultDetectRule (f : FaultDetectRule) : M unit :=
  processWithTransaction (then_commit (void (stmt_Exec (sql_insert (fun now => [new_fault_detect_row f now]))))).
Definition CreateFaultDetectRule (f : FaultDetectRule) : M unit :=
  map_err store_Error (RetryTransaction (createFaultDetectRule f)).

Definition updateFaultDetectRule (f : FaultDetectRule) : M unit :=
  processWithTransaction (then_commit (void (stmt_Exec (sql_update (with_id (ID f)) (set_fault_detect f))))).
Definition UpdateFaultDetectRule (f : FaultDetectRule) : M unit :=
  map_err store_Error (RetryTransaction (updateFaultDetectRule f)).

Definition deleteFaultDetectRule (id : string) : M unit :=
  processWithTransaction (then_commit (void (stmt_Exec (sql_update (with_id id) set_deleted)))).
Definition DeleteFaultDetectRule (id : string) : M unit :=
  map_err store_Error (RetryTransaction (deleteFaultDetectRule id)).

(** ** Reading *)

Definition getFaultDetectRulesCount : gmap string string -> M Z :=
  count_rules genFaultDetectRuleSQL fd_cols fd_live.

Definition HasFaultDetectRule (id : string) : M bool :=
  has_rule genFaultDetectRuleSQL fd_cols fd_live {["id" := id]}%string.
Definition HasFaultDetectRuleByName (name namespace : string) : M bool :=
  has_rule genFaultDetectRuleSQL fd_cols fd_live {[exactName := name; "namespace" := namespace]}%string.
Definition HasFaultDetectRuleByNameExcludeId (name namespace id : string) : M bool :=
  has_rule genFaultDetectRuleSQL fd_cols fd_live
    {[exactName := name; "namespace" := namespace; excludeId := id]}%string.

Definition fetchBriefFaultDetectRules (rs : rows fault_detect_rule_row) : res (list FaultDetectRule) :=
  fetch_rows (fun r => Ok (mkFaultDetectRule (fd_id r) (fd_name r) (fd_namespace r) (fd_revision r)
    (fd_description r) (fd_dst_service r) (fd_dst_namespace r) (fd_dst_method r) "" false
    (fd_ctime r) (fd_mtime r))) rs.

Definition fetchFullFaultDetectRules (rs : rows fault_detect_rule_row) : res (list FaultDetectRule) :=
  fetch_rows (fun r => config <-? scan_string (fd_config r) ;;
    Ok (mkFaultDetectRule (fd_id r) (fd_name r) (fd_namespace r) (fd_revision r)
    (fd_description r) (fd_dst_service r) (fd_dst_namespace r) (fd_dst_method r) config false
    (fd_ctime r) (fd_mtime r))) rs.

Definition fetchFaultDetectRulesRows (rs : rows fault_detect_rule_row) : res (list FaultDetectRule) :=
  fetch_rows (fun r => config <-? scan_string (fd_config r) ;;
    Ok (mkFaultDetectRule (fd_id r) (fd_name r) (fd_namespace r) (fd_revision r)
    (fd_description r) (fd_dst_service r) (fd_dst_namespace r) (fd_dst_method r) config
    (negb (fd_flag r =? 1)) (fd_ctime r) (fd_mtime r))) rs.

Definition getBriefFaultDetectRules : gmap string string -> Z -> Z -> M (list FaultDetectRule) :=
  page_rules genFaultDetectRuleSQL fd_cols fd_live fd_mtime fetchBriefFaultDetectRules.
Definition getFullFaultDetectRules : gmap string string -> Z -> Z -> M (list FaultDetectRule) :=
  page_rules genFaultDetectRuleSQL fd_cols fd_live fd_mtime fetchFullFaultDetectRules.

Definition GetFaultDetectRules (filter : gmap string string) (offset limit : Z) : M (Z * list FaultDetectRule) :=
  get_rules genFaultDetectRuleSQL fd_cols fd_live fd_mtime fetchBriefFaultDetectRules
    fetchFullFaultDetectRules filter offset limit.

Definition GetFaultDetectRulesForCache (mtime : Z) (firstUpdate : bool) : M (list FaultDetectRule) :=
  rs <- Query replica (fun _ d => Ok (sql_select (fun r =>
    (mtime <? fd_mtime r) && (negb firstUpdate || negb (fd_flag r =? 1))) d)) ;;
  lift (fetchFaultDetectRulesRows rs).
End fault_detect.

(** ** Properties *)

Section fault_detect_properties.
Context `{Env} `{PolarisApi} `{PgInput} `{MapRange}.
Implicit Types c : conn database.

(** [CreateFaultDetectRule] adds the row of the rule, once, however often
    the transaction is repeated and whichever reply is lost: success means the
    committed content has the new row, stamped with the transaction's time,
    and an error that nothing changed or only the reply was lost.  An id in
    use, live or marked deleted, is refused. *)
Theorem CreateFaultDetectRule_correct f c r c' :
  db_wf (committed c) -> CreateFaultDetectRule f c = (r, c') ->
  db_wf (committed c') /\ replica c' = replica c /\
  (r = Ok tt -> inserted (new_fault_detect_row f) (committed c) (committed c')) /\
  (committed c' = committed c \/ inserted (new_fault_detect_row f) (committed c) (committed c')) /\
  ((exists x, x ∈ tbl (committed c) /\ fd_id x = ID f) -> committed c' = committed c /\ is_Ok r = false).
Proof.
  intros Hd Hr. eapply (refines_map_err store_Error) in Hr as [Ho Hre]; [|apply _].
  apply insert_row_outcome in Ho as (Hd' & Hok & Hor & Hc); [|intros; apply str_eq_refl|done].
  split_and!; auto. intros (x & Hx & Hid). apply Hc. exists x. split; [done|].
  intros now. apply str_eq_true. done.
Qed.

(** [UpdateFaultDetectRule] and [DeleteFaultDetectRule] change the row of the
    id and nothing else; repetitions do not show. *)
Theorem UpdateFaultDetectRule_correct f c r c' :
  db_wf (committed c) -> UpdateFaultDetectRule f c = (r, c') ->
  db_wf (committed c') /\ replica c' = replica c /\
  (r = Ok tt -> updated (with_id (ID f)) (set_fault_detect f) (committed c) (committed c')) /\
  (committed c' = committed c \/ updated (with_id (ID f)) (set_fault_detect f) (committed c) (committed c')).
Proof.
  intros Hd Hr. eapply (refines_map_err store_Error) in Hr as [Ho Hre]; [|apply _].
  apply update_row_outcome in Ho as (Hd' & Hok & Hor); auto.
Qed.

Theorem DeleteFaultDetectRule_correct id c r c' :
  db_wf (committed c) -> DeleteFaultDetectRule id c = (r, c') ->
  db_wf (committed c') /\ replica c' = replica c /\
  (r = Ok tt -> updated (with_id id) set_deleted (committed c) (committed c')) /\
  (committed c' = committed c \/ updated (with_id id) set_deleted (committed c) (committed c')).
Proof.
  intros Hd Hr. eapply (refines_map_err store_Error) in Hr as [Ho Hre]; [|apply _].
  apply update_row_outcome in Ho as (Hd' & Hok & Hor); auto.
Qed.

(** *** Queries *)

Definition full_of (r : fault_detect_rule_row) : FaultDetectRule :=
  mkFaultDetectRule (fd_id r) (fd_name r) (fd_namespace r) (fd_revision r) (fd_description r)
    (fd_dst_service r) (fd_dst_namespace r) (fd_dst_method r) (default "" (fd_config r)) false
    (fd_ctime r) (fd_mtime r).

Lemma fetchFull_Ok l : Forall (fun r => fd_config r <> None) l ->
  fetchFullFaultDetectRules (Rows l None) = Ok (map full_of l).
Proof.
  intros Hl. apply fetch_rows_map. intros r Hr. rewrite Forall_forall in Hl. specialize (Hl r Hr).
  unfold full_of. destruct (fd_config r); [done|congruence].
Qed.

Lemma fetchFull_inv l out : fetchFullFaultDetectRules (Rows l None) = Ok out ->
  Forall (fun r => fd_config r <> None) l /\ out = map full_of l.
Proof.
  intros Hf. assert (Forall (fun r => fd_config r <> None) l) as Hl.
  { apply res_bind_Ok in Hf as (xs0 & Hs%scan_all_Ok & _). clear out.
    simpl in Hs. induction Hs as [|r x l1 xs Hr _ IH]; [constructor|]. constructor; [|exact IH]. intros E. by rewrite E in Hr. }
  rewrite fetchFull_Ok in Hf by done. by injection Hf as <-.
Qed.

Definition brief_of (r : fault_detect_rule_row) : FaultDetectRule :=
  mkFaultDetectRule (fd_id r) (fd_name r) (fd_namespace r) (fd_revision r) (fd_description r)
    (fd_dst_service r) (fd_dst_namespace r) (fd_dst_method r) "" false (fd_ctime r) (fd_mtime r).

Lemma fetchBrief_Ok l : fetchBriefFaultDetectRules (Rows l None) = Ok (map brief_of l).
Proof. by apply fetch_rows_map. Qed.

(** The rules a filter selects, among those that are not marked deleted: the
    key [brief] only chooses the columns. *)
Definition fd_wanted (filter : gmap string string) (d : database) : res (list fault_detect_rule_row) :=
  matching (meant fd_entry) fd_cols (fun r => fd_flag r =? 0) (delete briefSearch filter) d.

(** How a page of them is shown, and when the columns asked for can be read. *)
Definition fd_shown (filter : gmap string string) : list fault_detect_rule_row -> list FaultDetectRule :=
  map (if asks_brief filter then brief_of else full_of).
Definition fd_readable (filter : gmap string string) (l : list fault_detect_rule_row) : Prop :=
  asks_brief filter = true \/ Forall (fun r => fd_config r <> None) l.

Lemma fetch_shown filter l out : fetch_asked fetchBriefFaultDetectRules fetchFullFaultDetectRules filter (Rows l None) =
  Ok out <-> fd_readable filter l /\ out = fd_shown filter l.
Proof.
  unfold fetch_asked, fd_readable, fd_shown. destruct (asks_brief filter).
  - rewrite fetchBrief_Ok. naive_solver.
  - split; [intros [? ->]%fetchFull_inv; auto|]. intros [[|Hl] ->]; [done|]. by apply fetchFull_Ok.
Qed.

Lemma rules_listed filter offset limit c l : reliable -> fd_wanted filter (committed c) = Ok l ->
  fd_readable filter (page fd_mtime offset limit l) ->
  fst (GetFaultDetectRules filter offset limit c) =
    Ok (Z.of_nat (length l), fd_shown filter (page fd_mtime offset limit l)).
Proof.
  intros Hrel Hm Hl. eapply get_rules_runs; [apply gen_rule_means, fd_step_means|done..|]. by apply fetch_shown.
Qed.

(** C30: [GetFaultDetectRules] changes nothing.  Whatever faults occur, a page
    it returns is the requested page, newest first, of the live rules its
    filter is meant to select: partial matches for the names, the exact name,
    the excluded id, the service and its namespace with the star, the other
    keys by equality, in whatever order the filter is walked; in brief form
    when the key [brief] asks for it, and otherwise in full, which needs a
    config in every rule of the page.  The count is the number of rules
    selected (or 0 should the driver report [sql.ErrNoRows] for it).  Without
    faults the page and the count are returned whenever the server accepts
    the filter and the page can be read. *)
Theorem GetFaultDetectRules_correct filter offset limit c r c' :
  GetFaultDetectRules filter offset limit c = (r, c') ->
  same_dbs c c' /\
  (forall n out, r = Ok (n, out) -> exists l, fd_wanted filter (committed c) = Ok l /\
     (n = Z.of_nat (length l) \/ n = 0) /\ fd_readable filter (page fd_mtime offset limit l) /\
     out = fd_shown filter (page fd_mtime offset limit l)) /\
  (reliable -> forall l, fd_wanted filter (committed c) = Ok l -> fd_readable filter (page fd_mtime offset limit l) ->
     r = Ok (Z.of_nat (length l), fd_shown filter (page fd_mtime offset limit l))).
Proof.
  intros Hr. split; [by eapply read_rules|]. split.
  - intros n out ->. eapply get_rules_Ok in Hr as (l & Hm & Hn & Hf);
      [|apply gen_rule_means, fd_step_means|apply fetch_rows_err_checking..].
    exists l. by rewrite fetch_shown in Hf.
  - intros Hrel l Hm Hl. pose proof (rules_listed _ offset limit c l Hrel Hm Hl) as E. by rewrite Hr in E.
Qed.

(** What the checks for a name answer: whether another live rule has it. *)
Theorem HasFaultDetectRuleByNameExcludeId_correct name namespace id c : reliable ->
  name <> ""%string -> namespace <> ""%string -> id <> ""%string ->
  fst (HasFaultDetectRuleByNameExcludeId name namespace id c) =
    Ok (existsb (fun r => fd_live r && str_eq (fd_name r) name && str_eq (fd_namespace r) namespace &&
          negb (str_eq (fd_id r) id)) (tbl (committed c))).
Proof.
  intros Hrel Hn Hns Hid. unfold HasFaultDetectRuleByNameExcludeId.
  apply (has_rule_plain fd_step fd_entry fd_step_means); [done| |].
  - repeat (apply map_Forall_insert_2; [by split_and!|]). apply map_Forall_empty.
  - intros r. rewrite !forallb_range, forallb_range_singleton by (by simplify_map_eq).
    change (fd_live r && ((str_eq (fd_name r) name || false) && ((str_eq (fd_namespace r) namespace || false) &&
      negb (str_eq (fd_id r) id || false))) = fd_live r && str_eq (fd_name r) name &&
      str_eq (fd_namespace r) namespace && negb (str_eq (fd_id r) id)).
    by rewrite !orb_false_r, !andb_assoc.
Qed.

Theorem HasFaultDetectRuleByName_correct name namespace c : reliable ->
  name <> ""%string -> namespace <> ""%string ->
  fst (HasFaultDetectRuleByName name namespace c) =
    Ok (existsb (fun r => fd_live r && str_eq (fd_name r) name && str_eq (fd_namespace r) namespace)
          (tbl (committed c))).
Proof.
  intros Hrel Hn Hns. unfold HasFaultDetectRuleByName.
  apply (has_rule_plain fd_step fd_entry fd_step_means); [done| |].
  - repeat (apply map_Forall_insert_2; [by split_and!|]). apply map_Forall_empty.
  - intros r. rewrite !forallb_range, forallb_range_singleton by (by simplify_map_eq).
    change (fd_live r && ((str_eq (fd_name r) name || false) && (str_eq (fd_namespace r) namespace || false)) =
      fd_live r && str_eq (fd_name r) name && str_eq (fd_namespace r) namespace).
    by rewrite !orb_false_r, !andb_assoc.
Qed.

Theorem HasFaultDetectRule_correct id c : reliable -> id <> ""%string ->
  fst (HasFaultDetectRule id c) =
    Ok (existsb (fun r => fd_live r && str_eq (fd_id r) id) (tbl (committed c))).
Proof.
  intros Hrel Hid. unfold HasFaultDetectRule.
  apply (has_rule_plain fd_step fd_entry fd_step_means); [done| |].
  - repeat (apply map_Forall_insert_2; [by split_and!|]). apply map_Forall_empty.
  - intros r. rewrite forallb_range_singleton.
    change (fd_live r && (str_eq (fd_id r) id || false) = fd_live r && str_eq (fd_id r) id).
    by rewrite orb_false_r.
Qed.

(** An empty id is no condition: the answer is whether there is any rule. *)
Theorem HasFaultDetectRule_empty c : reliable ->
  fst (HasFaultDetectRule "" c) = Ok (existsb fd_live (tbl (committed c))).
Proof.
  intros Hrel. unfold HasFaultDetectRule.
  erewrite (has_rule_reliable _ _ (gen_rule_means fd_step fd_entry fd_step_means) _ _ _ c (sql_select fd_live (committed c)));
    [cbn [fst]; f_equal; apply length_keep_existsb|done|].
  unfold matching, meant. replace (range_map {["id" := ""]})%string with [("id", "")]%string.
  - unfold special_value. simpl. unfold where_rows. simpl. by rewrite keep_all.
  - symmetry. apply Permutation_singleton_r. rewrite <- (map_to_list_singleton "id" "")%string.
    apply range_map_perm.
Qed.

(** What was created is found and listed as it was given, until it is
    deleted: without faults the new rule is the newest match of its id, and
    after [DeleteFaultDetectRule] no rule has the id. *)
Theorem FaultDetectRule_roundtrip f c c1 c2 : reliable -> db_wf (committed c) -> ID f <> ""%string ->
  CreateFaultDetectRule f c = (Ok tt, c1) -> DeleteFaultDetectRule (ID f) c1 = (Ok tt, c2) ->
  fst (HasFaultDetectRule (ID f) c1) = Ok true /\
  (exists now, fst (GetFaultDetectRules {["id" := ID f]}%string 0 1 c1) =
    Ok (1, [mkFaultDetectRule (ID f) (Name f) (Namespace f) (Revision f) (Description f) (DstService f)
             (DstNamespace f) (DstMethod f) (Rule f) false now now])) /\
  fst (HasFaultDetectRule (ID f) c2) = Ok false.
Proof.
  intros Hrel Hd Hid Hc Hdel.
  destruct (CreateFaultDetectRule_correct f c _ c1 Hd Hc) as (Hd1 & _ & Hok & _ & Hno).
  destruct (Hok eq_refl) as [now Hc1].
  assert (forall x, x ∈ tbl (committed c) -> str_eq (fd_id x) (ID f) = false) as Hnew.
  { intros x Hx. apply str_eq_false. intros Hx2. by destruct Hno as [_ ?]; [exists x|]. }
  destruct (DeleteFaultDetectRule_correct (ID f) c1 _ c2 Hd1 Hdel) as (_ & _ & Hok2 & _).
  destruct (Hok2 eq_refl) as [now2 Hc2].
  assert (sql_select (fun r => fd_live r && (str_eq (fd_id r) (ID f) || false)) (committed c1) =
    [new_fault_detect_row f now]) as Hsel.
  { unfold sql_select. rewrite Hc1, tbl_set, keep_app. simpl. rewrite str_eq_refl. simpl.
    replace (keep _ _) with (@nil fault_detect_rule_row); [done|]. symmetry. apply keep_nil_iff.
    intros x Hx. by rewrite Hnew, andb_false_r. }
  split_and!.
  - rewrite HasFaultDetectRule_correct by done. rewrite Hc1, tbl_set, existsb_app. simpl.
    by rewrite str_eq_refl, orb_true_r.
  - exists now. erewrite rules_listed with (l:=[new_fault_detect_row f now]); [done|done| |right; by repeat constructor].
    unfold fd_wanted. rewrite delete_id by (by simplify_map_eq). rewrite matching_plain.
    + f_equal. rewrite <- Hsel. apply keep_ext. intros r _. by rewrite forallb_range_singleton.
    + apply map_Forall_insert_2; [by split_and!|apply map_Forall_empty].
  - rewrite HasFaultDetectRule_correct by done. f_equal. rewrite Hc2, tbl_set.
    apply existsb_none. intros x (y & Hy & ->)%elem_of_change.
    destruct (with_id (ID f) y) eqn:E; [done|]. unfold with_id in E. by rewrite E, andb_false_r.
Qed.
End fault_detect_properties.
