(* ===== verification/Namespace.v ===== *)
(** * Namespaces (store/postgresql/namespace.go)

    [namespaceStore]: every exported operation, the queries behind them and
    [namespaceFetchRows].  Deletion is in Transaction.v. *)
From stdpp Require Import base list strings pretty gmap sorting.
From Stdlib Require Import ZArith Lia Ascii.
From S2P Require Import Prelude Driver Rows Schema Sql Common Where.
Open Scope Z_scope.
Open Scope store_scope.

(** [model.Namespace], the fields the store touches. *)
Record Namespace := mkNamespace {
  Name : string; Comment : string; Token : string; Owner : string;
  ServiceExportTo : gset string; Valid : bool; CreateTime : Z; ModifyTime : Z }.

Section namespace.
Context `{Env} `{PolarisApi}.
Abbreviation M := (M database).
Abbreviation P := (P database).

(** [namespaceFetchRows] *)
Definition scan_namespace (r : namespace_row) : res Namespace :=
  comment <-? scan_string (ns_comment r) ;;
  serviceExportTo <-? scan_string (ns_service_export_to r) ;;
  Ok (mkNamespace (ns_name r) comment (ns_token r) (ns_owner r)
        (Unmarshal_set serviceExportTo) (negb (ns_flag r =? 1)) (ns_ctime r) (ns_mtime r)).

Definition namespaceFetchRows (rs : rows namespace_row) : res (list Namespace) :=
  fetch_rows scan_namespace rs.

(** [cleanNamespace] *)
Definition clean_where (name : string) (r : namespace_row) : bool :=
  str_eq (ns_name r) name && (ns_flag r =? 1).

Definition cleanNamespace (name : string) : M unit :=
  void (stmt_Exec (sql_delete (clean_where name))).

Definition new_namespace_row (now : Z) (n : Namespace) : namespace_row :=
  NamespaceRow (Name n) (Some (Comment n)) (Token n) (Owner n) 0 now now
    (Some (MustJson_set (ServiceExportTo n))).

Definition addNamespace_body (n : Namespace) : M unit :=
  cleanNamespace (Name n) ;;;
  void (map_err store_Error (tx_Exec (sql_insert (fun now => [new_namespace_row now n])))).

(** [AddNamespace] *)
Definition AddNamespace (n : Namespace) : M unit :=
  if str_empty (Name n) then Fail (EMsg "store add namespace name is empty")
  else RetryTransaction (processWithTransaction (then_commit (addNamespace_body n))).

Definition set_namespace (n : Namespace) (now : Z) (r : namespace_row) : namespace_row :=
  NamespaceRow (ns_name r) (Some (Comment n)) (ns_token r) (Owner n) (ns_flag r) (ns_ctime r)
    now (Some (MustJson_set (ServiceExportTo n))).

Definition updateNamespace_body (n : Namespace) : M unit :=
  map_err store_Error
    (tx_Exec (sql_update (fun r => str_eq (ns_name r) (Name n)) (set_namespace n))) ;;;
  Ret tt.

(** [UpdateNamespace] *)
Definition UpdateNamespace (n : Namespace) : M unit :=
  if str_empty (Name n) then Fail (EMsg "store update namespace name is empty")
  else RetryTransaction (processWithTransaction (then_commit (updateNamespace_body n))).

Definition set_namespace_token (token : string) (now : Z) (r : namespace_row) : namespace_row :=
  NamespaceRow (ns_name r) (ns_comment r) token (ns_owner r) (ns_flag r) (ns_ctime r)
    now (ns_service_export_to r).

Definition updateNamespaceToken_body (name token : string) : M unit :=
  map_err store_Error
    (tx_Exec (sql_update (fun r => str_eq (ns_name r) name) (set_namespace_token token))) ;;;
  Ret tt.

(** [UpdateNamespaceToken] *)
Definition UpdateNamespaceToken (name token : string) : M unit :=
  if str_empty name || str_empty token then
    Fail (EMsg ("store update namespace token some param are empty, name is " +:+ name
                +:+ ", token is " +:+ token))
  else RetryTransaction (processWithTransaction (then_commit (updateNamespaceToken_body name token))).

(** [getNamespace] *)
Definition getNamespace (name : string) : M (option Namespace) :=
  if str_empty name then Fail (EMsg "store get namespace name is empty")
  else
    rs <- Query committed (fun _ d => Ok (sql_select (fun r => str_eq (ns_name r) name) d)) ;;
    out <- lift (namespaceFetchRows rs) ;;
    Ret (head out).

(** [GetNamespace]: only a valid one is returned. *)
Definition GetNamespace (name : string) : M (option Namespace) :=
  namespace <- getNamespace name ;;
  match namespace with
  | Some n => if negb (Valid n) then Ret None else Ret (Some n)
  | None => Ret None
  end.

(** [GetMoreNamespaces] reads the replica. *)
Definition GetMoreNamespaces (mtime : Z) : M (list Namespace) :=
  rs <- Query replica (fun _ d => Ok (sql_select (fun r => mtime <=? ns_mtime r) d)) ;;
  lift (namespaceFetchRows rs).

(** *** Queries with a filter *)

(** The text a column shows in a comparison with a parameter. *)
Definition ns_column (key : string) : option (namespace_row -> option string) :=
  if str_eq key "name" then Some (fun r => Some (ns_name r))
  else if str_eq key "owner" then Some (fun r => Some (ns_owner r))
  else if str_eq key "comment" then Some ns_comment
  else if str_eq key "token" then Some (fun r => Some (ns_token r))
  else if str_eq key "flag" then Some (fun r => Some (pretty (ns_flag r)))
  else if str_eq key "service_export_to" then Some ns_service_export_to
  else None.

(** One condition of the WHERE clause: [owner] is matched with LIKE, [name]
    too when the value has a wild card, other columns by equality. *)
Definition ns_item (key item : string) (r : namespace_row) : bool :=
  match ns_column key with
  | None => false
  | Some col =>
      match col r with
      | None => false
      | Some v =>
          if str_eq key OwnerAttribute then like ("%" +:+ item +:+ "%") v
          else if str_eq key NameAttribute && IsWildName item
               then like (ParseWildNameForSql item) v
               else str_eq v item
      end
  end.

Definition ns_matches (filter : list (string * list string)) (r : namespace_row) : bool :=
  forallb (fun kv => existsb (fun item => ns_item (fst kv) item r) (snd kv)) filter.

(** What the server does with the generated WHERE clause: a clause with an
    empty disjunction or an unknown column is refused. *)
Definition ns_where (q : sql) (args : list arg) (filter : list (string * list string))
    (d : database) : res (list namespace_row) :=
  if negb (params_ok q (length args)) then Err param_error
  else if existsb (fun kv => bool_decide (snd kv = []) ||
                             bool_decide (ns_column (fst kv) = None)) filter
       then Err syntax_error
       else Ok (keep (ns_matches filter) (tbl d)).

Definition count_sql : sql := [T "select count(*) from namespace "].
Definition select_sql : sql :=
  [T "SELECT name, comment, token, owner, flag, ctime, mtime, service_export_to FROM namespace "].

Definition mtime_desc (a b : namespace_row) : Prop := ns_mtime b <= ns_mtime a.
#[export] Instance mtime_desc_dec : RelDecision mtime_desc.
Proof. intros a b. unfold mtime_desc. apply _. Defined.

(** ORDER BY mtime DESC LIMIT limit OFFSET offset *)
Definition page_of (offset limit : Z) (l : list namespace_row) : list namespace_row :=
  take (Z.to_nat limit) (drop (Z.to_nat offset) (merge_sort mtime_desc l)).

(** [getNamespacesCount]: the count query too ends with LIMIT 1 OFFSET 0. *)
Definition getNamespacesCount (filter : list (string * list string)) : M Z :=
  let '(str, args) := genNamespaceWhereSQLAndArgs count_sql filter None 0 1 in
  QueryRow committed (fun _ d =>
    l <-? ns_where str args filter d ;; Ok [Z.of_nat (length l)]).

(** [getNamespaces] *)
Definition getNamespaces (filter : list (string * list string)) (offset limit : Z) :
    M (list Namespace) :=
  let order := mkOrder "mtime" "desc" in
  let '(str, args) := genNamespaceWhereSQLAndArgs select_sql filter (Some order) offset limit in
  rs <- Query committed (fun _ d =>
    l <-? ns_where str args filter d ;;
    if (limit <? 0) || (offset <? 0) then Err (EDriver "pq: LIMIT must not be negative")
    else Ok (page_of offset limit l)) ;;
  lift (namespaceFetchRows rs).

(** [filter["flag"] = []string{"0"}] *)
Definition set_flag_filter (filter : list (string * list string)) : list (string * list string) :=
  keep (fun kv => negb (str_eq (fst kv) "flag")) filter ++ [("flag", ["0"])]%string.

(** [GetNamespaces] *)
Definition GetNamespaces (filter : list (string * list string)) (offset limit : Z) :
    M (list Namespace * Z) :=
  let filter := set_flag_filter filter in
  num <- getNamespacesCount filter ;;
  out <- getNamespaces filter offset limit ;;
  Ret (out, num).

(** [rlockNamespace] with the transaction's [QueryRow]. *)
Definition rlockNamespace (namespace : string) : M string := fun c =>
  match tx_QueryRow (fun _ d => Ok (map ns_name (sql_select (fun r : namespace_row =>
          str_eq (ns_name r) namespace && negb (ns_flag r =? 1)) d))) c with
  | (Err ENoRows, c') => (Ok ""%string, c')
  | rc => rc
  end.
End namespace.

(** ** What the operations do to the content *)

Section namespace_programs.
Context `{Env} `{PolarisApi}.
Abbreviation P := (P database).

Definition p_addNamespace (n : Namespace) : P unit := fun now d =>
  let kept := keep (fun r => negb (clean_where (Name n) r)) (tbl d) in
  if distinct clash (kept ++ [new_namespace_row now n])
  then Ok (tt, set_tbl (kept ++ [new_namespace_row now n]) d)
  else Err (store_Error unique_violation).

#[export] Instance impl_addNamespace n : Implements (addNamespace_body n) (p_addNamespace n).
Proof.
  unfold addNamespace_body, cleanNamespace. implement.
  unfold p_void, p_bind, p_map_err, p_ret, sql_delete, sql_insert, p_addNamespace. simpl.
  rewrite tbl_set, set_set.
  by destruct (distinct _ _).
Qed.


(** The keyed update both update operations run. *)
Definition p_set (name : string) (set : Z -> namespace_row -> namespace_row) : P unit :=
  p_bind (p_map_err store_Error (sql_update (fun r => str_eq (ns_name r) name) set)) (fun _ => p_ret tt).

#[export] Instance impl_updateNamespace n :
  Implements (updateNamespace_body n) (p_set (Name n) (set_namespace n)).
Proof. unfold updateNamespace_body, p_set. apply _. Qed.

#[export] Instance impl_updateNamespaceToken name token :
  Implements (updateNamespaceToken_body name token) (p_set name (set_namespace_token token)).
Proof. unfold updateNamespaceToken_body, p_set. apply _. Qed.

#[export] Instance set_wf name set : Preserves db_wf (p_set name set).
Proof. unfold p_set. apply _. Qed.

#[export] Instance addNamespace_wf n : Preserves db_wf (p_addNamespace n).
Proof.
  intros now d a d' Hd. unfold p_addNamespace. destruct (distinct _ _) eqn:E; intros; simplify_eq.
  by apply set_tbl_wf.
Qed.
End namespace_programs.

(** The rows of a name, and the other rows. *)
Definition named (name : string) (d : database) : list namespace_row :=
  keep (fun r => str_eq (ns_name r) name) (tbl d).
Definition not_named (name : string) (d : database) : list namespace_row :=
  keep (fun r => negb (str_eq (ns_name r) name)) (tbl d).

(** [d'] differs from [d] at most in the namespaces of that name. *)
Definition only_namespace (name : string) (d d' : database) : Prop :=
  only_table namespace_row d d' /\ not_named name d' = not_named name d.

#[export] Instance only_namespace_preorder name : PreOrder (only_namespace name).
Proof.
  split; [by intros d|]. intros a b c [H1 H2] [H3 H4]. split; [by etrans|congruence].
Qed.

Section namespace_facts.
Context `{Env} `{PolarisApi}.

Lemma keep_clean name d :
  keep (fun r => negb (str_eq (ns_name r) name))
    (keep (fun r => negb (clean_where name r)) (tbl d)) = not_named name d.
Proof.
  rewrite keep_keep. apply keep_ext. intros r _. unfold clean_where.
  destruct (str_eq (ns_name r) name); simpl; [by rewrite andb_false_r|done].
Qed.

Lemma p_addNamespace_Ok n now d a d' :
  p_addNamespace n now d = Ok (a, d') ->
  only_namespace (Name n) d d' /\ named (Name n) d' = [new_namespace_row now n].
Proof.
  unfold p_addNamespace. set (kept := keep _ (tbl d)).
  destruct (distinct _ _) eqn:E; intros; simplify_eq.
  apply distinct_app in E as (_ & _ & Hc).
  assert (keep (fun r => str_eq (ns_name r) (Name n)) kept = []) as Hk.
  { apply keep_nil_iff. intros r Hr.
    apply (Hc r (new_namespace_row now n)); [done|by apply list_elem_of_singleton]. }
  unfold only_namespace, named, not_named. rewrite tbl_set, !keep_app, Hk. simpl.
  rewrite str_eq_refl. simpl. rewrite app_nil_r. split; [|done].
  split; [apply only_table_set|]. apply keep_clean.
Qed.

(** A live namespace of that name makes the insertion fail. *)
Lemma p_addNamespace_live n now d x :
  x ∈ named (Name n) d -> ns_flag x <> 1 -> is_Ok (p_addNamespace n now d) = false.
Proof.
  intros [Hx Hn]%elem_of_keep Hf. unfold p_addNamespace.
  destruct (distinct _ _) eqn:E; [|done]. exfalso.
  apply distinct_app in E as (_ & _ & Hc).
  specialize (Hc x (new_namespace_row now n)).
  unfold clash in Hc. unfold namespace_table, clash_namespace in Hc. simpl in Hc. rewrite Hn in Hc.
  discriminate Hc; [|by apply list_elem_of_singleton].
  apply elem_of_keep. split; [done|]. unfold clean_where. rewrite Hn.
  apply negb_true_iff. apply andb_false_iff. right. by apply Z.eqb_neq.
Qed.

Lemma change_not_named name (set : Z -> namespace_row -> namespace_row) d :
  (forall now r, ns_name (set now r) = ns_name r) ->
  forall now, keep (fun r => negb (str_eq (ns_name r) name))
    (change (fun r => str_eq (ns_name r) name) (set now) (tbl d)) = not_named name d.
Proof.
  intros Hs now. unfold not_named. induction (tbl d) as [|r l IH]; [done|].
  simpl. destruct (str_eq (ns_name r) name) eqn:E; simpl; rewrite ?Hs, ?E; simpl; congruence.
Qed.

Lemma change_named name (set : Z -> namespace_row -> namespace_row) d :
  (forall now r, ns_name (set now r) = ns_name r) ->
  forall now, keep (fun r => str_eq (ns_name r) name)
    (change (fun r => str_eq (ns_name r) name) (set now) (tbl d)) = map (set now) (named name d).
Proof.
  intros Hs now. unfold named. induction (tbl d) as [|r l IH]; [done|].
  simpl. destruct (str_eq (ns_name r) name) eqn:E; simpl; rewrite ?Hs, ?E; simpl; congruence.
Qed.

Lemma p_set_Ok name set now d a d' :
  (forall now r, ns_name (set now r) = ns_name r) ->
  p_set name set now d = Ok (a, d') ->
  only_namespace name d d' /\ named name d' = map (set now) (named name d).
Proof.
  intros Hs. unfold p_set, p_bind, p_map_err, p_ret.
  destruct (sql_update _ set now d) as [[k d1]|e|w] eqn:E; [|done..].
  apply update_Ok_inv in E as [-> ->]. simpl. intros; simplify_eq.
  unfold only_namespace, not_named, named. rewrite tbl_set.
  split; [split; [apply only_table_set|by apply change_not_named]|by apply change_named].
Qed.

(** In a database whose keys are unique the update cannot be refused. *)
Lemma p_set_ok name set now d :
  (forall now r, ns_name (set now r) = ns_name r) -> db_wf d ->
  p_set name set now d =
    Ok (tt, set_tbl (change (fun r => str_eq (ns_name r) name) (set now) (tbl d)) d).
Proof.
  intros Hs Hd. unfold p_set, p_bind, p_map_err, p_ret. rewrite update_ok; [done|done|..];
    intros; unfold clash; simpl; unfold clash_namespace; by rewrite ?Hs.
Qed.

(** Fetching delivers what the row shows. *)
Definition shows (n : Namespace) (r : namespace_row) : Prop :=
  scan_namespace r = Ok n.

Lemma shows_valid n r : shows n r -> Name n = ns_name r /\ (Valid n = true <-> ns_flag r <> 1).
Proof.
  unfold shows, scan_namespace. rewrite res_bind_Ok. intros (cm & _ & Hx).
  apply res_bind_Ok in Hx as (ex & _ & Hx). simplify_eq/=.
  rewrite negb_true_iff, Z.eqb_neq. done.
Qed.
End namespace_facts.

(** ** Properties *)

Section namespace_properties.
Context `{Env} `{PolarisApi}.
Implicit Types c : conn database.

(** [AddNamespace], whatever faults occur, touches no other namespace
    and no other table; success leaves exactly the new row under the name;
    after an error the name shows its old rows or the new one (a lost commit
    reply); and a live namespace of that name is never replaced. *)
Theorem AddNamespace_correct n c r c' :
  AddNamespace n c = (r, c') ->
  replica c' = replica c /\
  only_namespace (Name n) (committed c) (committed c') /\
  (r = Ok tt -> Name n <> ""%string /\
     exists now, named (Name n) (committed c') = [new_namespace_row now n]) /\
  (named (Name n) (committed c') = named (Name n) (committed c) \/
     exists now, named (Name n) (committed c') = [new_namespace_row now n]) /\
  ((exists x, x ∈ named (Name n) (committed c) /\ ns_flag x <> 1) ->
     committed c' = committed c /\ r <> Ok tt).
Proof.
  unfold AddNamespace. destruct (str_empty (Name n)) eqn:Ee.
  { unfold Fail. intros. simplify_eq. by split_and!; auto. }
  intros [Ho Hre]%(retry_process_spec (addNamespace_body n) (p_addNamespace n)).
  split; [done|]. split.
  { eapply retried_outcome_rel; [apply _| |exact Ho]. intros. by eapply p_addNamespace_Ok. }
  split; [|split].
  - intros ->. split; [by intros E%str_empty_spec; rewrite E in Ee|].
    apply retried_outcome_Ok in Ho as (d1 & now & _ & Hp).
    exists now. by eapply p_addNamespace_Ok.
  - eapply (retried_outcome_inv (fun d => named (Name n) d = named (Name n) (committed c) \/
      exists now, named (Name n) d = [new_namespace_row now n])); [|by left|exact Ho].
    intros now x a y _ Hp. right. exists now. by eapply p_addNamespace_Ok.
  - intros (x & Hx & Hf). apply retried_outcome_stuck in Ho as [Hc Hr].
    + split; [done|]. by intros ->.
    + intros now. by eapply p_addNamespace_live.
Qed.

(** [GetNamespace] returns only live namespaces: the one it returns
    shows the first row of that name in the master, and that row is not
    marked deleted; the databases are left alone. *)
Theorem GetNamespace_live name c n c' :
  GetNamespace name c = (Ok (Some n), c') ->
  committed c' = committed c /\ replica c' = replica c /\
  exists row rest, named name (committed c) = row :: rest /\ ns_flag row <> 1 /\
    Name n = name /\ shows n row.
Proof.
  unfold GetNamespace, getNamespace. destruct (str_empty name); [done|].
  intros (o & c1 & H1 & H2)%Bind_Ok.
  apply Query_fetch_then_Ok in H1 as (out & c2 & [Hs1 Hs2] & Hk & now & l & Hsel & Hl);
    [|apply _|apply fetch_rows_err_checking].
  unfold Ret in *. simplify_eq/=. destruct out as [|n0 out]; simpl in H2; [done|].
  destruct (Valid n0) eqn:Hv; simplify_eq/=.
  unfold namespaceFetchRows, fetch_rows in Hl. simpl in Hl.
  apply res_bind_Ok in Hl as (out' & Hf%scan_all_Ok & [= ->]).
  inversion Hf as [|row ? rest ? Hrow Hrest E1 E2]; simplify_eq.
  assert (shows n row) as Hshow by done. destruct (shows_valid _ _ Hshow) as [Hn Hval].
  repeat split; [done..|]. exists row, rest. repeat split; [done|by apply Hval| |done].
  assert (row ∈ named name (committed c)) as [_ Hk]%elem_of_keep.
  { unfold named, sql_select in *. rewrite <- E1. by left. }
  apply str_eq_true in Hk. congruence.
Qed.

(** A retried keyed update whose setter overwrites itself. *)
Lemma update_by_name name set (body : M database unit) c r c' `{!Implements body (p_set name set)} :
  (forall now r, ns_name (set now r) = ns_name r) ->
  (forall now now' r, set now (set now' r) = set now r) ->
  RetryTransaction (processWithTransaction (then_commit body)) c = (r, c') ->
  replica c' = replica c /\
  only_namespace name (committed c) (committed c') /\
  (r = Ok tt -> exists now, named name (committed c') = map (set now) (named name (committed c))) /\
  (named name (committed c') = named name (committed c) \/
     exists now, named name (committed c') = map (set now) (named name (committed c))).
Proof.
  intros Hn Hi [Ho Hre]%(retry_process_spec body (p_set name set)).
  set (I := fun d => named name d = named name (committed c) \/
    exists now, named name d = map (set now) (named name (committed c))).
  assert (forall now d a d', I d -> p_set name set now d = Ok (a, d') ->
    named name d' = map (set now) (named name (committed c))) as Hstep.
  { intros now d a d' HI [_ ->]%p_set_Ok; [|done]. destruct HI as [->|[now' ->]]; [done|].
    rewrite map_map. apply map_ext. auto. }
  split; [done|]. split.
  { eapply retried_outcome_rel; [apply _| |exact Ho]. intros. by eapply p_set_Ok. }
  assert (forall now d a d', I d -> p_set name set now d = Ok (a, d') -> I d') as HI
    by (intros; right; eauto).
  split.
  - intros ->. apply retried_outcome_Ok in Ho as (d1 & now & Hs & Hp).
    exists now. eapply Hstep; [|exact Hp]. by eapply rtc_commits_inv; [exact HI|left|].
  - eapply (retried_outcome_inv I); [exact HI|by left|exact Ho].
Qed.

(** [UpdateNamespace] rewrites owner, comment, export list and mtime of
    the rows of that name and nothing else; an error leaves the old rows or
    (lost reply) the updated ones.  A missing name is not an error. *)
Theorem UpdateNamespace_correct n c r c' :
  UpdateNamespace n c = (r, c') ->
  replica c' = replica c /\
  only_namespace (Name n) (committed c) (committed c') /\
  (r = Ok tt -> exists now,
     named (Name n) (committed c') = map (set_namespace n now) (named (Name n) (committed c))) /\
  (named (Name n) (committed c') = named (Name n) (committed c) \/ exists now,
     named (Name n) (committed c') = map (set_namespace n now) (named (Name n) (committed c))).
Proof.
  unfold UpdateNamespace. destruct (str_empty (Name n)).
  { unfold Fail. intros. simplify_eq. by split_and!; auto. }
  apply update_by_name; [apply _|done..].
Qed.

(** Likewise [UpdateNamespaceToken], which rewrites token and mtime. *)
Theorem UpdateNamespaceToken_correct name token c r c' :
  UpdateNamespaceToken name token c = (r, c') ->
  replica c' = replica c /\
  only_namespace name (committed c) (committed c') /\
  (r = Ok tt -> exists now,
     named name (committed c') = map (set_namespace_token token now) (named name (committed c))) /\
  (named name (committed c') = named name (committed c) \/ exists now,
     named name (committed c') = map (set_namespace_token token now) (named name (committed c))).
Proof.
  unfold UpdateNamespaceToken. destruct (str_empty name || str_empty token).
  { unfold Fail. intros. simplify_eq. by split_and!; auto. }
  apply update_by_name; [apply _|done..].
Qed.

Lemma ns_matches_flag filter r :
  ns_matches (set_flag_filter filter) r = true -> ns_flag r <> 1.
Proof.
  unfold ns_matches, set_flag_filter. rewrite forallb_forall. intros Hf E.
  specialize (Hf ("flag", ["0"])%string). simpl in Hf. rewrite orb_false_r in Hf.
  unfold ns_item in Hf. simpl in Hf. rewrite E in Hf. discriminate Hf.
  apply list_elem_of_In, elem_of_app. right. by left.
Qed.

Lemma page_of_elem offset limit l x : x ∈ page_of offset limit l -> x ∈ l.
Proof.
  unfold page_of. intros Hx. rewrite <- (merge_sort_Permutation mtime_desc l).
  by eapply subseteq_drop, subseteq_take.
Qed.

Lemma ns_where_Ok q args filter d l :
  ns_where q args filter d = Ok l -> l = keep (ns_matches filter) (tbl d).
Proof. unfold ns_where. repeat case_match; intros; by simplify_eq. Qed.

(** [GetNamespaces] reports the number of live namespaces that match the
    filter and returns the requested page of them, newest first; all of them
    are valid. *)
Theorem GetNamespaces_correct filter offset limit c out num c' :
  GetNamespaces filter offset limit c = (Ok (out, num), c') ->
  let matched := keep (ns_matches (set_flag_filter filter)) (tbl (committed c)) in
  committed c' = committed c /\ replica c' = replica c /\
  num = Z.of_nat (length matched) /\
  Forall2 (fun row n => shows n row) (page_of offset limit matched) out /\
  Forall (fun n => Valid n = true) out /\
  Z.of_nat (length out) <= limit.
Proof.
  intros Hr matched. unfold GetNamespaces in Hr. cbv zeta in Hr.
  apply Bind_Ok in Hr as (k & c1 & H1 & H2).
  unfold getNamespacesCount in H1. destruct (genNamespaceWhereSQLAndArgs count_sql _ _ _ _) as [q1 a1].
  apply QueryRow_Ok in H1 as ([Hs1 Hs2] & now & l & Hl); [|apply _].
  apply res_bind_Ok in Hl as (l1 & Hl1%ns_where_Ok & [= <- <-]).
  apply Bind_Ok in H2 as (out' & c2 & H2 & Hr). unfold Ret in Hr. simplify_eq.
  unfold getNamespaces in H2. destruct (genNamespaceWhereSQLAndArgs select_sql _ _ _ _) as [q2 a2].
  apply Query_fetch_Ok in H2 as ([Hs3 Hs4] & now' & l2 & Hl2 & Hf); [|apply _|apply fetch_rows_err_checking].
  apply res_bind_Ok in Hl2 as (l3 & ->%ns_where_Ok & Hl2).
  destruct ((limit <? 0) || (offset <? 0)) eqn:El; [done|]. booleans. simplify_eq.
  unfold namespaceFetchRows, fetch_rows in Hf. simpl in Hf.
  apply res_bind_Ok in Hf as (out1 & Hf%scan_all_Ok & [= ->]).
  rewrite Hs1 in Hf. fold matched in Hf.
  do 2 (split; [congruence|]). split; [by subst matched|]. split; [exact Hf|]. split.
  - apply Forall_forall. intros n Hn.
    destruct (Forall2_elem_r _ _ _ _ Hf Hn) as (row & Hrow & Hshow).
    apply (shows_valid _ _ Hshow). apply page_of_elem, elem_of_keep in Hrow as [_ Hm].
    by eapply ns_matches_flag.
  - rewrite <- (Forall2_length _ _ _ Hf). unfold page_of. rewrite length_take. lia.
Qed.

(** What [AddNamespace] stored is what [GetNamespace] returns, valid and
    stamped with the transaction's time, when the JSON functions round-trip
    on its export list. *)
Theorem AddNamespace_GetNamespace n c c1 :
  reliable -> Unmarshal_set (MustJson_set (ServiceExportTo n)) = ServiceExportTo n ->
  AddNamespace n c = (Ok tt, c1) ->
  exists now, fst (GetNamespace (Name n) c1) =
    Ok (Some (mkNamespace (Name n) (Comment n) (Token n) (Owner n) (ServiceExportTo n) true now now)).
Proof.
  intros Hrel Hj Ha. unfold AddNamespace in Ha. destruct (str_empty (Name n)) eqn:Ee; [done|].
  apply (retry_process_spec (addNamespace_body n) (p_addNamespace n)) in Ha as [Ho _].
  apply retried_outcome_Ok in Ho as (d1 & now & _ & Hp).
  apply p_addNamespace_Ok in Hp as [_ Hn]. exists now.
  unfold GetNamespace, getNamespace. rewrite Ee. unfold Bind at 1 2.
  erewrite Query_reliable; [|done|done]. fold (named (Name n) (committed c1)).
  unfold sql_select. fold (named (Name n) (committed c1)). rewrite Hn.
  unfold Bind, lift, namespaceFetchRows, fetch_rows, scan_namespace. simpl. by rewrite Hj.
Qed.
End namespace_properties.
