(* ===== verification/Service.v ===== *)
(** * Services (store/postgresql/service.go)

    [serviceStore]: services, their metadata, the owner map and aliases.  The
    two inserts with a generated VALUES list ([addServiceMeta],
    [addOwnerServiceMap]) go through the placeholders the code numbers. *)
From stdpp Require Import base list strings gmap.
From Stdlib Require Import ZArith Lia Ascii.
From S2P Require Import Prelude Driver Rows Schema Sql Common.
Open Scope Z_scope.
Open Scope store_scope.

(** [model.Service], the fields the store touches.  A nil [Meta] is [None]. *)
Record Service := mkService {
  ID : string; Name : string; Namespace : string; Business : string; Ports : string;
  Meta : option (gmap string string); Comment : string; Department : string;
  CmdbMod1 : string; CmdbMod2 : string; CmdbMod3 : string; Token : string; Owner : string;
  Revision : string; Reference : string; ReferFilter : string; PlatformID : string;
  Valid : bool; CreateTime : Z; ModifyTime : Z }.

Definition set_Meta (m : option (gmap string string)) (s : Service) : Service :=
  mkService (ID s) (Name s) (Namespace s) (Business s) (Ports s) m (Comment s) (Department s)
    (CmdbMod1 s) (CmdbMod2 s) (CmdbMod3 s) (Token s) (Owner s) (Revision s) (Reference s)
    (ReferFilter s) (PlatformID s) (Valid s) (CreateTime s) (ModifyTime s).

(** [model.ServiceAlias] *)
Record ServiceAlias := mkServiceAlias {
  sa_ID : string; sa_Alias : string; sa_AliasNamespace : string; sa_ServiceID : string;
  sa_Service : string; sa_Namespace : string; sa_Owner : string; sa_Comment : string;
  sa_CreateTime : Z; sa_ModifyTime : Z }.

(** [store.InstanceArgs] *)
Record InstanceArgs := mkInstanceArgs { Hosts : list string; iPorts : list Z }.

(** [strings.FieldsFunc(owner, r == ';' || r == ',')] *)
Definition is_separator (c : ascii) : bool := Ascii.eqb c ";" || Ascii.eqb c ",".

Fixpoint fields_loop (s cur : string) : list string :=
  match s with
  | EmptyString => if str_empty cur then [] else [cur]
  | String c s' =>
      if is_separator c then
        if str_empty cur then fields_loop s' "" else cur :: fields_loop s' ""
      else fields_loop s' (cur +:+ String c "")
  end.

Definition split_owners (owner : string) : list string := fields_loop owner "".

Section service.
Context `{Env} `{PolarisApi} `{MapRange} `{Uuid} `{PgServer}.
Abbreviation M := (M database).
Abbreviation P := (P database).

(** ** Rows into values *)

(** [rows.Scan] of the columns of [genServiceSelectSQL]. *)
Definition scan_service (r : service_row) : res Service :=
  business <-? scan_string (svc_business r) ;;
  comment <-? scan_string (svc_comment r) ;;
  ports <-? scan_string (svc_ports r) ;;
  department <-? scan_string (svc_department r) ;;
  cmdbMod1 <-? scan_string (svc_cmdb_mod1 r) ;;
  cmdbMod2 <-? scan_string (svc_cmdb_mod2 r) ;;
  cmdbMod3 <-? scan_string (svc_cmdb_mod3 r) ;;
  reference <-? scan_string (svc_reference r) ;;
  platformID <-? scan_string (svc_platform_id r) ;;
  Ok (mkService (svc_id r) (svc_name r) (svc_namespace r) business ports None comment department
        cmdbMod1 cmdbMod2 cmdbMod3 (svc_token r) (svc_owner r) (svc_revision r) reference
        (default "" (svc_refer_filter r)) platformID (negb (svc_flag r =? 1))
        (svc_ctime r) (svc_mtime r)).

(** [fetchServiceRows], through [callFetchServiceRows] *)
Definition fetchServiceRows (rs : rows service_row) : res (list Service) :=
  fetch_rows scan_service rs.

(** The columns of [service_metadata] are not null. *)
Definition put_meta (m : gmap string string) (r : service_metadata_row) : gmap string string :=
  <[smd_mkey r := smd_mvalue r]> m.

(** [fetchServiceMeta] *)
Definition fetchServiceMeta (rs : rows service_metadata_row) : res (gmap string string) :=
  match r_err rs with
  | Some e => Err e
  | None => Ok (fold_left put_meta (r_data rs) ∅)
  end.

(** [callFetchServiceMetaRows] with a handler that never stops. *)
Definition callFetchServiceMetaRows {A} (rs : rows service_metadata_row)
    (handler : A -> service_metadata_row -> A) (a : A) : res A :=
  match r_err rs with
  | Some e => Err e
  | None => Ok (fold_left handler (r_data rs) a)
  end.

(** ** Statements of the transactions *)

(** [cleanService] *)
Definition clean_where (name namespace : string) (r : service_row) : bool :=
  str_eq (svc_name r) name && str_eq (svc_namespace r) namespace && (svc_flag r =? 1).

Definition cleanService (name namespace : string) : M unit :=
  void (stmt_Exec (sql_delete (clean_where name namespace))).

(** [addServiceMain] *)
Definition new_service_row (now : Z) (s : Service) : service_row :=
  ServiceRow (ID s) (Name s) (Namespace s) (Some (Ports s)) (Some (Business s))
    (Some (Department s)) (Some (CmdbMod1 s)) (Some (CmdbMod2 s)) (Some (CmdbMod3 s))
    (Some (Comment s)) (Token s) (Revision s) (Owner s) 0 (Some (Reference s)) None
    (Some (PlatformID s)) now now.

Definition addServiceMain (s : Service) : M unit :=
  void (stmt_Exec (sql_insert (fun now => [new_service_row now s]))).

(** [addServiceMeta]: three placeholders per entry, the index advances by 3. *)
Definition meta_args (id : string) (entry : string * string) : list arg :=
  [AStr id; AStr (fst entry); AStr (snd entry)].

Definition meta_row (now : Z) (r : list arg) : service_metadata_row :=
  ServiceMetadataRow (arg_str (nth 0 r (AStr ""))) (arg_str (nth 1 r (AStr "")))
    (arg_str (nth 2 r (AStr ""))) now now.

Definition insert_service_meta (id : string) (entries : list (string * string)) : P Z :=
  let '(groups, args) := values_loop 3 3 (map (meta_args id) entries) 1 in
  let str := T "insert into service_metadata(id, mkey, mvalue, ctime, mtime) values "
             :: values_sql ", current_timestamp, current_timestamp" groups in
  if params_ok str (length args)
  then sql_insert (fun now => map (fun g => meta_row now (map (arg_at args) g)) groups)
  else fun _ _ => Err param_error.

Definition addServiceMeta (id : string) (meta : gmap string string) : M unit :=
  match range_map meta with
  | [] => Ret tt
  | entries => void (tx_Exec (insert_service_meta id entries))
  end.

(** [addOwnerServiceMap]: four placeholders per owner, yet the index advances
    by 3. *)
Fixpoint owner_args (now : Z) (i : nat) (owners : list string) (service namespace : string) :
    list (list arg) :=
  match owners with
  | [] => []
  | o :: owners' =>
      [AStr (NewUUID now i); AStr o; AStr service; AStr namespace]
      :: owner_args now (S i) owners' service namespace
  end.

Definition owner_row (r : list arg) : owner_service_map_row :=
  OwnerServiceMapRow (arg_str (nth 0 r (AStr ""))) (arg_str (nth 1 r (AStr "")))
    (arg_str (nth 2 r (AStr ""))) (arg_str (nth 3 r (AStr ""))).

Definition insert_owners (owners : list string) (service namespace : string) : P Z := fun now d =>
  let '(groups, args) := values_loop 4 3 (owner_args now 0 owners service namespace) 1 in
  let str := T "insert into owner_service_map(id,owner,service,namespace) values"
             :: values_sql "" groups in
  if params_ok str (length args)
  then sql_insert (fun _ => map (fun g => owner_row (map (arg_at args) g)) groups) now d
  else Err param_error.

Definition addOwnerServiceMap (service namespace owner : string) : M unit :=
  match split_owners owner with
  | [] => Ret tt
  | owners => void (stmt_Exec (insert_owners owners service namespace))
  end.

(** [deleteOwnerServiceMap] *)
Definition owned (service namespace : string) (r : owner_service_map_row) : bool :=
  str_eq (osm_service r) service && str_eq (osm_namespace r) namespace.

Definition deleteOwnerServiceMap (service namespace : string) : M unit :=
  void (stmt_Exec (sql_delete (owned service namespace))).

(** [updateOwnerServiceMap]: first delete, then fill. *)
Definition updateOwnerServiceMap (service namespace owner : string) : M unit :=
  deleteOwnerServiceMap service namespace ;;;
  addOwnerServiceMap service namespace owner.

(** [deleteServiceByID] *)
Definition with_id (id : string) (r : service_row) : bool := str_eq (svc_id r) id.

Definition mark_deleted (now : Z) (r : service_row) : service_row :=
  ServiceRow (svc_id r) (svc_name r) (svc_namespace r) (svc_ports r) (svc_business r)
    (svc_department r) (svc_cmdb_mod1 r) (svc_cmdb_mod2 r) (svc_cmdb_mod3 r) (svc_comment r)
    (svc_token r) (svc_revision r) (svc_owner r) 1 (svc_reference r) (svc_refer_filter r)
    (svc_platform_id r) (svc_ctime r) now.

Definition deleteServiceByID (id : string) : M unit :=
  void (stmt_Exec (sql_update (with_id id) mark_deleted)).

(** [updateServiceMain] *)
Definition set_service (s : Service) (now : Z) (r : service_row) : service_row :=
  ServiceRow (svc_id r) (Name s) (Namespace s) (Some (Ports s)) (Some (Business s))
    (Some (Department s)) (Some (CmdbMod1 s)) (Some (CmdbMod2 s)) (Some (CmdbMod3 s))
    (Some (Comment s)) (Token s) (Revision s) (Owner s) (svc_flag r) (svc_reference r)
    (svc_refer_filter r) (Some (PlatformID s)) (svc_ctime r) now.

Definition updateServiceMain (s : Service) : M unit :=
  void (stmt_Exec (sql_update (with_id (ID s)) (set_service s))).

(** [updateServiceMeta]: nil leaves the metadata alone, an empty map deletes
    it. *)
Definition has_meta (id : string) (r : service_metadata_row) : bool := str_eq (smd_id r) id.

Definition updateServiceMeta (id : string) (meta : option (gmap string string)) : M unit :=
  match meta with
  | None => Ret tt
  | Some meta =>
      void (stmt_Exec (sql_delete (has_meta id))) ;;;
      addServiceMeta id meta
  end.

(** ** Operations that write *)

(** [addService] *)
Definition addService_body (s : Service) : M unit :=
  cleanService (Name s) (Namespace s) ;;;
  addServiceMain s ;;;
  addServiceMeta (ID s) (default ∅ (Meta s)) ;;;
  addOwnerServiceMap (Name s) (Namespace s) (Owner s).

(** [AddService] *)
Definition AddService (s : Service) : M unit :=
  if str_empty (ID s) || str_empty (Name s) || str_empty (Namespace s) then
    Fail (EStatus EmptyParamsErr ("add service missing some params, id is " +:+ ID s +:+
            ", name is " +:+ Name s +:+ ", namespace is " +:+ Namespace s))
  else map_err store_Error
         (RetryTransaction (processWithTransaction (then_commit (addService_body s)))).

(** [deleteService] *)
Definition deleteService_body (id serviceName namespaceName : string) : M unit :=
  deleteServiceByID id ;;;
  deleteOwnerServiceMap serviceName namespaceName.

(** [DeleteService] *)
Definition DeleteService (id serviceName namespaceName : string) : M unit :=
  map_err store_Error
    (RetryTransaction (processWithTransaction
       (then_commit (deleteService_body id serviceName namespaceName)))).

(** [DeleteServiceAlias] *)
Definition DeleteServiceAlias (name namespace : string) : M unit :=
  processWithTransaction (then_commit (map_err store_Error
    (void (stmt_Exec (sql_update
       (fun r => str_eq (svc_name r) name && str_eq (svc_namespace r) namespace) mark_deleted))))).

(** [updateService] *)
Definition updateService_body (s : Service) (needUpdateOwner : bool) : M unit :=
  updateServiceMain s ;;;
  updateServiceMeta (ID s) (Meta s) ;;;
  if needUpdateOwner then updateOwnerServiceMap (Name s) (Namespace s) (Owner s) else Ret tt.

(** What [UpdateService] makes of an error. *)
Definition update_error (err : error) : error :=
  let serr := store_Error err in
  if decide (store_Code serr = DuplicateEntryErr) then EStatus DataConflictErr (Error err) else serr.

(** [UpdateService] *)
Definition UpdateService (s : Service) (needUpdateOwner : bool) : M unit :=
  if str_empty (ID s) || str_empty (Name s) || str_empty (Namespace s) || str_empty (Revision s) then
    Fail (EStatus EmptyParamsErr "Update Service missing some params")
  else map_err update_error
         (RetryTransaction (processWithTransaction (then_commit (updateService_body s needUpdateOwner)))).

(** [UpdateServiceToken] *)
Definition set_service_token (token revision : string) (now : Z) (r : service_row) : service_row :=
  ServiceRow (svc_id r) (svc_name r) (svc_namespace r) (svc_ports r) (svc_business r)
    (svc_department r) (svc_cmdb_mod1 r) (svc_cmdb_mod2 r) (svc_cmdb_mod3 r) (svc_comment r)
    token revision (svc_owner r) (svc_flag r) (svc_reference r) (svc_refer_filter r)
    (svc_platform_id r) (svc_ctime r) now.

Definition UpdateServiceToken (id token revision : string) : M unit :=
  processWithTransaction (then_commit (map_err store_Error
    (void (stmt_Exec (sql_update (with_id id) (set_service_token token revision)))))).

(** [updateServiceAlias]: the alias is only updated while the service it
    refers to is live; the subquery is evaluated on the same content. *)
Definition set_alias (s : Service) (now : Z) (r : service_row) : service_row :=
  ServiceRow (svc_id r) (Name s) (Namespace s) (svc_ports r) (svc_business r)
    (svc_department r) (svc_cmdb_mod1 r) (svc_cmdb_mod2 r) (svc_cmdb_mod3 r) (Some (Comment s))
    (Token s) (Revision s) (Owner s) (svc_flag r) (Some (Reference s)) (svc_refer_filter r)
    (svc_platform_id r) (svc_ctime r) now.

Definition source_live (id : string) (d : database) : bool :=
  existsb (fun r => with_id id r && (svc_flag r =? 0)) (tbl d).

Definition update_alias (s : Service) : P Z := fun now d =>
  sql_update (fun r => with_id (ID s) r && source_live (Reference s) d) (set_alias s) now d.

Definition updateServiceAlias_body (s : Service) (needUpdateOwner : bool) : M Z :=
  result <- stmt_Exec (update_alias s) ;;
  (if needUpdateOwner then updateOwnerServiceMap (Name s) (Namespace s) (Owner s) else Ret tt) ;;;
  Ret result.

(** [checkServiceAffectedRows] *)
Definition checkServiceAffectedRows (n count : Z) : res unit :=
  if n =? count then Ok tt else Err (EStatus AffectedRowsNotMatch "affected rows not match").

(** The check after the commit: other errors are dropped. *)
Definition alias_check (result : Z) : res unit :=
  match checkServiceAffectedRows result 1 with
  | Err e => if decide (store_Code e = AffectedRowsNotMatch)
             then Err (EStatus NotFoundService "not found service") else Ok tt
  | _ => Ok tt
  end.

Definition updateServiceAlias (s : Service) (needUpdateOwner : bool) : M unit :=
  processWithTransaction (Bind (then_commit (updateServiceAlias_body s needUpdateOwner))
                               (fun result => lift (alias_check result))).

(** [UpdateServiceAlias] *)
Definition UpdateServiceAlias (alias : Service) (needUpdateOwner : bool) : M unit :=
  if str_empty (ID alias) || str_empty (Name alias) || str_empty (Namespace alias)
     || str_empty (Revision alias) || str_empty (Reference alias)
     || (needUpdateOwner && str_empty (Owner alias)) then
    Fail (EStatus EmptyParamsErr "update Service Alias missing some params")
  else map_err store_Error (updateServiceAlias alias needUpdateOwner).
(** ** Reads *)

(** [getServiceMeta] *)
Definition getServiceMeta (id : string) : M (option (gmap string string)) :=
  if str_empty id then Ret None
  else
    rs <- Query committed (fun _ d => Ok (sql_select (has_meta id) d)) ;;
    meta <- lift (fetchServiceMeta rs) ;;
    Ret (Some meta).

(** [getServiceMain] *)
Definition is_named (name namespace : string) (r : service_row) : bool :=
  str_eq (svc_name r) name && str_eq (svc_namespace r) namespace.

Definition getServiceMain (name namespace : string) : M (option Service) :=
  rs <- Query committed (fun _ d => Ok (sql_select (is_named name namespace) d)) ;;
  out <- lift (fetchServiceRows rs) ;;
  Ret (head out).

(** [getService] *)
Definition getService (name namespace : string) : M (option Service) :=
  if str_empty name || str_empty namespace then
    Fail (EMsg ("missing params, name: " +:+ name +:+ ", namespace: " +:+ namespace))
  else
    out <- getServiceMain name namespace ;;
    match out with
    | None => Ret None
    | Some s => meta <- getServiceMeta (ID s) ;; Ret (Some (set_Meta meta s))
    end.

(** Only valid services leave the store. *)
Definition if_valid (service : option Service) : option Service :=
  match service with
  | Some s => if Valid s then Some s else None
  | None => None
  end.

(** [GetService] *)
Definition GetService (name namespace : string) : M (option Service) :=
  service <- map_err (fun err => EMsg ("getService err: " +:+ Error err)) (getService name namespace) ;;
  Ret (if_valid service).

(** [getServiceByID] *)
Definition getServiceByID (serviceID : string) : M (option Service) :=
  rs <- Query committed (fun _ d => Ok (sql_select (with_id serviceID) d)) ;;
  out <- lift (fetchServiceRows rs) ;;
  match out with
  | [] => Ret None
  | s :: _ => meta <- getServiceMeta (ID s) ;; Ret (Some (set_Meta meta s))
  end.

(** [GetServiceByID] *)
Definition GetServiceByID (id : string) : M (option Service) :=
  service <- getServiceByID id ;;
  Ret (if_valid service).

(** [GetSourceServiceToken]: an alias is not a source. *)
Definition no_reference (r : service_row) : bool :=
  match svc_reference r with None => true | Some s => str_empty s end.

Definition GetSourceServiceToken (name namespace : string) : M (option Service) := fun c =>
  match QueryRow committed (fun _ d => Ok (sql_select
          (fun r => is_named name namespace r && (svc_flag r =? 0) && no_reference r) d)) c with
  | (Err ENoRows, c') => (Ok None, c')
  | (r, c') =>
      (row <-? r ;;
       platformID <-? scan_string (svc_platform_id row) ;;
       Ok (Some (mkService (svc_id row) name namespace "" "" None "" "" "" "" "" (svc_token row)
                   "" "" "" "" platformID false zero_time zero_time)), c')
  end.

(** [GetServicesCount] *)
Definition GetServicesCount : M Z :=
  queryEntryCount committed (fun _ d =>
    Ok (Z.of_nat (count (fun r : service_row => svc_flag r =? 0) (tbl d)))).

(** [GetServicesBatch]: identifiers of the live services among those named. *)
Definition batch_args (s : Service) : list arg := [AStr (Name s); AStr (Namespace s)].

Definition batch_sql (services : list Service) : sql * list (list arg) * list arg :=
  let '(groups, args) := values_loop 2 2 (map batch_args services) 1 in
  (T "select id, name, namespace,owner from service where flag = 0 and (name, namespace) in ("
     :: values_sql "" groups ++ [T ")"], map (map (arg_at args)) groups, args).

Definition in_pairs (pairs : list (list arg)) (r : service_row) : bool :=
  existsb (fun p => str_eq (svc_name r) (arg_str (nth 0 p (AStr ""))) &&
                    str_eq (svc_namespace r) (arg_str (nth 1 p (AStr "")))) pairs.

Definition brief_service (r : service_row) : res Service :=
  Ok (mkService (svc_id r) (svc_name r) (svc_namespace r) "" "" None "" "" "" "" "" "" (svc_owner r)
        "" "" "" "" false zero_time zero_time).

Definition GetServicesBatch (services : list Service) : M (list Service) :=
  match services with
  | [] => Ret []
  | _ =>
      let '(str, pairs, args) := batch_sql services in
      rs <- Query committed (fun _ d =>
        if params_ok str (length args)
        then Ok (sql_select (fun r => (svc_flag r =? 0) && in_pairs pairs r) d)
        else Err param_error) ;;
      lift (fetch_rows brief_service rs)
  end.

(** *** Incremental reads for the cache *)

(** [getMoreServiceMain] *)
Definition by_id (l : list Service) : gmap string Service :=
  fold_left (fun out entry => <[ID entry := entry]> out) l ∅.

Definition more_where (mtime : Z) (firstUpdate disableBusiness : bool) (r : service_row) : bool :=
  (mtime <=? svc_mtime r) &&
  (negb disableBusiness || str_eq (svc_namespace r) SystemNamespace) &&
  (negb firstUpdate || negb (svc_flag r =? 1)).

Definition getMoreServiceMain (mtime : Z) (firstUpdate disableBusiness : bool) :
    M (gmap string Service) :=
  rs <- Query replica (fun _ d => Ok (sql_select (more_where mtime firstUpdate disableBusiness) d)) ;;
  l <- lift (fetchServiceRows rs) ;;
  Ret (by_id l).

(** [fetchMoreServiceMeta] *)
Definition add_meta (key value : string) (s : Service) : Service :=
  set_Meta (Some (<[key := value]> (default ∅ (Meta s)))) s.

Definition more_meta (services : gmap string Service) (r : service_metadata_row) :
    gmap string Service :=
  match services !! smd_id r with
  | None => services
  | Some s => <[smd_id r := add_meta (smd_mkey r) (smd_mvalue r) s]> services
  end.

Definition fetchMoreServiceMeta (services : gmap string Service) (rs : rows service_metadata_row) :
    res (gmap string Service) :=
  callFetchServiceMetaRows rs more_meta services.

(** service LEFT JOIN service_metadata *)
Definition with_meta_rows (d : database) (r : service_row) :
    list (service_row * option service_metadata_row) :=
  match sql_select (has_meta (svc_id r)) d with
  | [] => [(r, None)]
  | l => map (fun m => (r, Some m)) l
  end.

(** One row of [fetchServiceWithMetaRows]: the columns of the metadata are
    scanned into strings, so a service without metadata cannot be read. *)
Definition scan_service_meta (x : service_row * option service_metadata_row) :
    res (Service * (string * string * string)) :=
  item <-? scan_service (fst x) ;;
  id <-? scan_string (option_map smd_id (snd x)) ;;
  mKey <-? scan_string (option_map smd_mkey (snd x)) ;;
  mValue <-? scan_string (option_map smd_mvalue (snd x)) ;;
  Ok (item, (id, mKey, mValue)).

Definition put_service_meta (out : gmap string Service) (x : Service * (string * string * string)) :
    gmap string Service :=
  let '(item, (id, mKey, mValue)) := x in
  let s := default item (out !! ID item) in
  let out := <[ID item := s]> out in
  if str_empty id then out else <[ID item := add_meta mKey mValue s]> out.

Definition fetchServiceWithMetaRows (rs : rows (service_row * option service_metadata_row)) :
    res (gmap string Service) :=
  l <-? fetch_rows scan_service_meta rs ;;
  Ok (fold_left put_service_meta l ∅).

(** [getMoreServiceWithMeta] *)
Definition getMoreServiceWithMeta (mtime : Z) (firstUpdate disableBusiness : bool) :
    M (gmap string Service) :=
  if firstUpdate then
    services <- getMoreServiceMain mtime firstUpdate disableBusiness ;;
    rs <- Query replica (fun _ d => Ok (sql_select (fun _ => true) d)) ;;
    lift (fetchMoreServiceMeta services rs)
  else
    rs <- Query replica (fun _ d => Ok (concat (map (with_meta_rows d)
            (sql_select (more_where mtime false disableBusiness) d)))) ;;
    lift (fetchServiceWithMetaRows rs).

(** [GetMoreServices] *)
Definition GetMoreServices (mtime : Z) (firstUpdate disableBusiness needMeta : bool) :
    M (gmap string Service) :=
  if needMeta then getMoreServiceWithMeta mtime firstUpdate disableBusiness
  else getMoreServiceMain mtime firstUpdate disableBusiness.

(** *** Services with their metadata *)

(** [batchQueryServiceMeta] *)
Definition batchQueryServiceMeta (ids : list string) : M (rows service_metadata_row) :=
  match ids with
  | [] => Ret (Rows [] None)
  | _ => Query committed (fun _ d => Ok (sql_select (fun r => bool_decide (smd_id r ∈ ids)) d))
  end.

(** The map of maps the rows are collected in. *)
Definition collect_meta (metas : gmap string (gmap string string)) (r : service_metadata_row) :
    gmap string (gmap string string) :=
  <[smd_id r := put_meta (default ∅ (metas !! smd_id r)) r]> metas.

(** Give [meta] to the first of the objects (indexes into the services) that
    has the identifier. *)
Fixpoint assign_first (id : string) (meta : gmap string string) (objects : list nat)
    (services : list Service) : list Service :=
  match objects with
  | [] => services
  | i :: objects' =>
      match services !! i with
      | Some s =>
          if str_eq (ID s) id then <[i := set_Meta (Some meta) s]> services
          else assign_first id meta objects' services
      | None => assign_first id meta objects' services
      end
  end.

Definition assign_all (metas : gmap string (gmap string string)) (objects : list nat)
    (services : list Service) : list Service :=
  fold_left (fun ss im => assign_first (fst im) (snd im) objects ss) (map_to_list metas) services.

(** [fetchRowServices]: the fetched services are shared objects, kept here as
    a list the handler updates by index. *)
Definition service_ids (objects : list nat) (services : list Service) : list string :=
  omap (fun i => ID <$> services !! i) objects.

Definition meta_handler (objects : list nat) (services : list Service) : M (list Service) :=
  rs <- batchQueryServiceMeta (service_ids objects services) ;;
  metas <- lift (callFetchServiceMetaRows rs collect_meta ∅) ;;
  Ret (assign_all metas objects services).

Definition valid_indexes (services : list Service) : list nat :=
  keep (fun i => match services !! i with Some s => Valid s | None => false end)
       (seq 0 (length services)).

Definition fetchRowServices (rs : rows service_row) : M (list Service) :=
  services <- lift (fetchServiceRows rs) ;;
  BatchQuery (valid_indexes services) meta_handler services.

(** [GetSystemServices] *)
Definition GetSystemServices : M (list Service) :=
  rs <- Query committed (fun _ d => Ok (sql_select
          (fun r => (svc_flag r =? 0) && str_eq (svc_namespace r) SystemNamespace) d)) ;;
  fetchRowServices rs.

(** *** Filtered queries *)

(** [filterMetadata]: always four placeholders, from the index after the
    current one. *)
Definition filterMetadata (metas : gmap string string) (indexSort : Z) : sql * list arg * Z :=
  ([T "(select id from service_metadata where "; Ph (indexSort + 1); T " = "; Ph (indexSort + 2);
    T " and "; Ph (indexSort + 3); T " = "; Ph (indexSort + 4); T ")"],
   concat (map (fun kv => [AStr (fst kv); AStr (snd kv)]) (range_map metas)), indexSort + 5).

(** [filterInstance] *)
Definition filterInstance (filters : InstanceArgs) (indexSort : Z) : sql * list arg * Z :=
  let '(filtersHosts, indexSort) := PlaceholdersNI (Z.of_nat (length (Hosts filters))) indexSort in
  let str := T "(select service_id from instance where instance.flag != 1 and host in ("
             :: filtersHosts ++ [T ")"] in
  let '(str, indexSort) :=
    match iPorts filters with
    | [] => (str, indexSort)
    | _ => let '(filtersPorts, indexSort) :=
             PlaceholdersNI (Z.of_nat (length (iPorts filters))) indexSort in
           (str ++ T " and port in (" :: filtersPorts ++ [T ")"], indexSort)
    end in
  (str ++ [T " group by service_id)"], map AStr (Hosts filters) ++ map AInt (iPorts filters), indexSort).

(** The part [getServices] and [getServicesCount] share: the conditions are
    added to [str] from index 0. *)
Definition services_where (str : sql) (sFilters : list (string * string)) (sMetas : gmap string string)
    (iFilters : option InstanceArgs) : sql * list arg * Z :=
  let '(str, args, indexSort) :=
    match range_map sMetas with
    | [] => (str, [], 0)
    | _ => let '(subStr, subArgs, indexSort) := filterMetadata sMetas 0 in
           (str ++ T " and service.id in " :: subStr, subArgs, indexSort)
    end in
  let '(str, args, indexSort) :=
    match iFilters with
    | None => (str, args, indexSort)
    | Some f => let '(subStr, subArgs, indexSort) := filterInstance f indexSort in
                (str ++ T " and service.id in " :: subStr, args ++ subArgs, indexSort)
    end in
  let '(filterStr, filterArgs, indexSort) := genServiceFilterSQL sFilters indexSort in
  match filterStr with
  | [] => (str, args, indexSort)
  | _ => (str ++ T " and " :: filterStr, args ++ filterArgs, indexSort)
  end.

Definition services_select : sql :=
  [T "select service.id, name, namespace, business, comment, token, ";
   T "service.revision, owner, service.flag, service.ctime, service.mtime, ";
   T "ports, department, cmdb_mod1, cmdb_mod2, cmdb_mod3, reference, ";
   T "COALESCE(refer_filter, '') refer_filter, platform_id ";
   T " from service where (reference is null or reference = '') "].

Definition services_sql (sFilters : list (string * string)) (sMetas : gmap string string)
    (iFilters : option InstanceArgs) (offset limit : Z) : sql * list arg :=
  let '(str, args, indexSort) := services_where services_select sFilters sMetas iFilters in
  let '(opStr, opArgs, _) :=
    genOrderAndPage (Some (mkOrder "service.mtime" "desc")) (Some (mkPage offset limit)) indexSort in
  (str ++ opStr, args ++ opArgs).

(** [getServices] *)
Definition getServices (sFilters : list (string * string)) (sMetas : gmap string string)
    (iFilters : option InstanceArgs) (offset limit : Z) : M (list Service) :=
  if limit =? 0 then Ret []
  else
    let '(str, args) := services_sql sFilters sMetas iFilters offset limit in
    rs <- Query committed (fun _ d => pg_services str args d) ;;
    fetchRowServices rs.

(** [getServicesCount] *)
Definition services_count_sql (sFilters : list (string * string)) (sMetas : gmap string string)
    (iFilters : option InstanceArgs) : sql * list arg :=
  let '(str, args, _) := services_where
    [T "select count(*) from service  where (reference is null or reference = '')"]
    sFilters sMetas iFilters in (str, args).

Definition getServicesCount (sFilters : list (string * string)) (sMetas : gmap string string)
    (iFilters : option InstanceArgs) : M Z :=
  let '(str, args) := services_count_sql sFilters sMetas iFilters in
  queryEntryCount committed (fun _ d => pg_count str args d).

(** [GetServices]; [filters] are the entries of the filter in range order,
    once [service.flag] is set. *)
Definition set_flag (filters : list (string * string)) : list (string * string) :=
  keep (fun kv => negb (str_eq (fst kv) "service.flag")) filters ++ [("service.flag", "0")]%string.

Definition GetServices (serviceFilters : list (string * string)) (serviceMetas : gmap string string)
    (instanceFilters : option InstanceArgs) (offset limit : Z) : M (Z * list Service) :=
  let filters := set_flag serviceFilters in
  out <- getServices filters serviceMetas instanceFilters offset limit ;;
  num <- getServicesCount filters serviceMetas instanceFilters ;;
  Ret (num, out).

(** *** Aliases *)

Definition alias_from : string :=
  "service as alias inner join service as source on alias.reference = source.id and alias.flag != 1 ".

(** [getServiceAliasesCount] *)
Definition getServiceAliasesCount (filter : list (string * string)) : M Z :=
  let '(str, args) := genServiceAliasWhereSQLAndArgs
    [T "select count(*) from "; T alias_from] filter None 0 1 1 in
  queryEntryCount committed (fun _ d => pg_count str args d).

(** [getServiceAliasesInfo]: [rows.Err()] is not looked at. *)
Definition scan_alias (x : service_row * service_row) : res ServiceAlias :=
  let '(alias, source) := x in
  comment <-? scan_string (svc_comment alias) ;;
  Ok (mkServiceAlias (svc_id alias) (svc_name alias) (svc_namespace alias) (svc_id source)
        (svc_name source) (svc_namespace source) (svc_owner alias) comment (svc_ctime alias)
        (svc_mtime alias)).

Definition getServiceAliasesInfo (filter : list (string * string)) (offset limit : Z) :
    M (list ServiceAlias) :=
  if limit =? 0 then Ret []
  else
    let '(str, args) := genServiceAliasWhereSQLAndArgs
      [T "select alias.id, alias.name, alias.namespace, alias.ctime, alias.mtime, ";
       T "alias.comment, source.id as sourceID, source.name as sourceName, source.namespace, ";
       T "alias.owner from "; T alias_from]
      filter (Some (mkOrder "alias.mtime" "desc")) offset limit 1 in
    rs <- Query committed (fun _ d => pg_aliases str args d) ;;
    lift (scan_all scan_alias (r_data rs)).

(** [GetServiceAliases] *)
Definition GetServiceAliases (filter : list (string * string)) (offset limit : Z) :
    M (Z * list ServiceAlias) :=
  let whereFilter := range_map (serviceAliasFilter2Where filter) in
  count <- getServiceAliasesCount whereFilter ;;
  items <- getServiceAliasesInfo whereFilter offset limit ;;
  Ret (count, items).
End service.

(** ** What the transactions do to the content *)

Section service_programs.
Context `{Env} `{PolarisApi} `{MapRange} `{Uuid} `{PgServer}.
Abbreviation P := (P database).

Definition new_meta (now : Z) (id : string) (kv : string * string) : service_metadata_row :=
  ServiceMetadataRow id (fst kv) (snd kv) now now.

Definition p_insert_meta (id : string) (meta : gmap string string) : P unit :=
  match range_map meta with
  | [] => p_ret tt
  | entries => p_void (sql_insert (fun now => map (new_meta now id) entries))
  end.

Definition p_insert_owners (service namespace owner : string) : P unit :=
  match split_owners owner with
  | [] => p_ret tt
  | owners => p_void (insert_owners owners service namespace)
  end.

Definition p_update_owners (service namespace owner : string) : P unit :=
  p_bind (p_void (sql_delete (owned service namespace)))
    (fun _ => p_insert_owners service namespace owner).

Definition p_addService (s : Service) : P unit :=
  p_bind (p_void (sql_delete (clean_where (Name s) (Namespace s)))) (fun _ =>
  p_bind (p_void (sql_insert (fun now => [new_service_row now s]))) (fun _ =>
  p_bind (p_insert_meta (ID s) (default ∅ (Meta s))) (fun _ =>
  p_insert_owners (Name s) (Namespace s) (Owner s)))).

Definition p_updateServiceMeta (id : string) (meta : option (gmap string string)) : P unit :=
  match meta with
  | None => p_ret tt
  | Some meta => p_bind (p_void (sql_delete (has_meta id))) (fun _ => p_insert_meta id meta)
  end.

Definition p_updateService (s : Service) (needUpdateOwner : bool) : P unit :=
  p_bind (p_void (sql_update (with_id (ID s)) (set_service s))) (fun _ =>
  p_bind (p_updateServiceMeta (ID s) (Meta s)) (fun _ =>
  if needUpdateOwner then p_update_owners (Name s) (Namespace s) (Owner s) else p_ret tt)).

Definition p_deleteService (id service namespace : string) : P unit :=
  p_bind (p_void (sql_update (with_id id) mark_deleted)) (fun _ =>
  p_void (sql_delete (owned service namespace))).

Definition p_updateAlias (s : Service) (needUpdateOwner : bool) : P Z :=
  p_bind (update_alias s) (fun result =>
  p_bind (if needUpdateOwner then p_update_owners (Name s) (Namespace s) (Owner s) else p_ret tt)
    (fun _ => p_ret result)).

(** The placeholders of [addServiceMeta] stand for what it means to insert. *)
Lemma insert_service_meta_eq id entries :
  insert_service_meta id entries ≡p sql_insert (fun now => map (new_meta now id) entries).
Proof.
  unfold insert_service_meta.
  pose proof (values_ok 3 (map (meta_args id) entries) ", current_timestamp, current_timestamp"
    [T "insert into service_metadata(id, mkey, mvalue, ctime, mtime) values "] eq_refl) as Hv.
  change (Z.of_nat 3) with 3 in Hv.
  destruct (values_loop 3 3 (map (meta_args id) entries) 1) as [groups args].
  destruct Hv as [Hok Hrows]; [by apply Forall_map, Forall_true|].
  simpl app in Hok. rewrite Hok. intros now d. unfold sql_insert.
  assert (map (fun g => meta_row now (map (arg_at args) g)) groups = map (new_meta now id) entries) as ->.
  { rewrite <- (map_map (map (arg_at args)) (meta_row now)), Hrows, map_map. done. }
  done.
Qed.

#[export] Instance impl_addServiceMeta id meta : Implements (addServiceMeta id meta) (p_insert_meta id meta).
Proof.
  unfold addServiceMeta, p_insert_meta. destruct (range_map meta) as [|kv l]; [apply _|].
  eapply impl_equiv; [apply _|]. unfold p_void. by rewrite insert_service_meta_eq.
Qed.

#[export] Instance impl_addOwnerServiceMap service namespace owner :
  Implements (addOwnerServiceMap service namespace owner) (p_insert_owners service namespace owner).
Proof.
  unfold addOwnerServiceMap, p_insert_owners. destruct (split_owners owner); apply _.
Qed.

#[export] Instance impl_updateOwnerServiceMap service namespace owner :
  Implements (updateOwnerServiceMap service namespace owner) (p_update_owners service namespace owner).
Proof. unfold updateOwnerServiceMap, deleteOwnerServiceMap, p_update_owners. apply _. Qed.

#[export] Instance impl_addService s : Implements (addService_body s) (p_addService s).
Proof. unfold addService_body, cleanService, addServiceMain, p_addService. apply _. Qed.

#[export] Instance impl_updateServiceMeta id meta :
  Implements (updateServiceMeta id meta) (p_updateServiceMeta id meta).
Proof. unfold updateServiceMeta, p_updateServiceMeta. destruct meta; apply _. Qed.

#[export] Instance impl_updateService s need : Implements (updateService_body s need) (p_updateService s need).
Proof. unfold updateService_body, updateServiceMain, p_updateService. apply _. Qed.

#[export] Instance impl_deleteService id service namespace :
  Implements (deleteService_body id service namespace) (p_deleteService id service namespace).
Proof. unfold deleteService_body, deleteServiceByID, deleteOwnerServiceMap, p_deleteService. apply _. Qed.

#[export] Instance impl_updateAlias s need :
  Implements (updateServiceAlias_body s need) (p_updateAlias s need).
Proof. unfold updateServiceAlias_body, p_updateAlias. apply _. Qed.

#[export] Instance insert_meta_wf id meta : Preserves db_wf (p_insert_meta id meta).
Proof. unfold p_insert_meta. destruct (range_map meta); apply _. Qed.

#[export] Instance insert_owners_wf service namespace owner :
  Preserves db_wf (p_insert_owners service namespace owner).
Proof.
  unfold p_insert_owners. destruct (split_owners owner) as [|o l]; [apply _|]. apply void_preserves.
  intros now d a d' Hd. unfold insert_owners.
  destruct (values_loop 4 3 _ 1) as [groups args]. destruct (params_ok _ _); [|done].
  by apply insert_wf.
Qed.

#[export] Instance update_owners_wf service namespace owner :
  Preserves db_wf (p_update_owners service namespace owner).
Proof. unfold p_update_owners. apply _. Qed.

#[export] Instance addService_wf s : Preserves db_wf (p_addService s).
Proof. unfold p_addService. apply _. Qed.
#[export] Instance updateService_wf s need : Preserves db_wf (p_updateService s need).
Proof. unfold p_updateService, p_updateServiceMeta. apply _. Qed.
#[export] Instance deleteService_wf id service namespace :
  Preserves db_wf (p_deleteService id service namespace).
Proof. unfold p_deleteService. apply _. Qed.
#[export] Instance updateAlias_wf s need : Preserves db_wf (p_updateAlias s need).
Proof.
  unfold p_updateAlias, update_alias. apply preserves_bind; [|apply _].
  intros now d a d' Hd. by apply update_wf.
Qed.

(** *** Effects *)

(** The rows the owner list adds: with two owners or more, none. *)
Definition owner_rows (now : Z) (service namespace owner : string) : list owner_service_map_row :=
  match split_owners owner with
  | [o] => [OwnerServiceMapRow (NewUUID now 0) o service namespace]
  | _ => []
  end.

Lemma owner_args_length now i owners service namespace :
  length (owner_args now i owners service namespace) = length owners /\
  Forall (fun r => length r = 4%nat) (owner_args now i owners service namespace).
Proof.
  revert i. induction owners as [|o owners IH]; intros i; [by split|].
  destruct (IH (S i)) as [H4 H5]. simpl. split; [lia|by constructor].
Qed.

Lemma insert_owners_many owners service namespace now d :
  (2 <= length owners)%nat -> insert_owners owners service namespace now d = Err param_error.
Proof.
  intros Hl. unfold insert_owners. destruct (owner_args_length now 0 owners service namespace) as [H4 H5].
  pose proof (values_short 4 3 (owner_args now 0 owners service namespace) ""
    [T "insert into owner_service_map(id,owner,service,namespace) values"] eq_refl) as Hv.
  change (Z.of_nat 4) with 4 in Hv. change (Z.of_nat 3) with 3 in Hv.
  destruct (values_loop 4 3 (owner_args now 0 owners service namespace) 1) as [groups args].
  simpl app in Hv. rewrite Hv; [done|lia|lia|done].
Qed.

Lemma p_insert_owners_Ok service namespace owner now d u d' :
  p_insert_owners service namespace owner now d = Ok (u, d') ->
  (length (split_owners owner) <= 1)%nat /\
  d' = set_tbl (tbl d ++ owner_rows now service namespace owner) d.
Proof.
  unfold p_insert_owners, owner_rows. destruct (split_owners owner) as [|o [|o' l]].
  - unfold p_ret. intros. simplify_eq. rewrite app_nil_r, set_tbl_id. split; [simpl; lia|done].
  - rewrite p_void_Ok. intros (a & Ho). split; [simpl; lia|].
    unfold insert_owners in Ho. simpl in Ho. by apply insert_Ok_inv in Ho as [-> _].
  - rewrite p_void_Ok. intros (a & Ho). rewrite insert_owners_many in Ho by (simpl; lia). done.
Qed.

Lemma p_insert_owners_many service namespace owner now d :
  (2 <= length (split_owners owner))%nat ->
  p_insert_owners service namespace owner now d = Err param_error.
Proof.
  intros Hl. unfold p_insert_owners. destruct (split_owners owner) as [|o l]; [simpl in Hl; lia|].
  unfold p_void, p_bind. by rewrite insert_owners_many.
Qed.

Lemma p_insert_service_meta_Ok id meta now d u d' :
  p_insert_meta id meta now d = Ok (u, d') ->
  d' = set_tbl (tbl d ++ map (new_meta now id) (range_map meta)) d.
Proof.
  unfold p_insert_meta. destruct (range_map meta) as [|kv l].
  - unfold p_ret. intros. simplify_eq. by rewrite app_nil_r, set_tbl_id.
  - rewrite p_void_Ok. by intros (a & [-> _]%insert_Ok_inv).
Qed.
End service_programs.

(** [d'] differs from [d] in the three tables of services only. *)
Definition only_services (d d' : database) : Prop :=
  d' = set_tbl (R:=service_row) (tbl d') (set_tbl (R:=service_metadata_row) (tbl d')
         (set_tbl (R:=owner_service_map_row) (tbl d') d)).

#[export] Instance only_services_preorder : PreOrder only_services.
Proof.
  split; [by intros []|]. unfold only_services. intros a b c H1 H2. rewrite H2, H1. by destruct a, b, c.
Qed.

Lemma only_services_svc (l : list service_row) d : only_services d (set_tbl l d).
Proof. by destruct d. Qed.
Lemma only_services_meta (l : list service_metadata_row) d : only_services d (set_tbl l d).
Proof. by destruct d. Qed.
Lemma only_services_owner (l : list owner_service_map_row) d : only_services d (set_tbl l d).
Proof. by destruct d. Qed.
#[export] Hint Resolve only_services_svc only_services_meta only_services_owner : store.

(** The three tables of [d'], which is [d] elsewhere. *)
Definition service_tables (d d' : database) (svc : list service_row) (meta : list service_metadata_row)
    (owners : list owner_service_map_row) : Prop :=
  only_services d d' /\ tbl d' = svc /\ tbl d' = meta /\ tbl d' = owners.

Section service_facts.
Context `{Env} `{PolarisApi} `{MapRange} `{Uuid} `{PgServer}.

(** What a successful [addService] leaves. *)
Definition added (now : Z) (s : Service) (d d' : database) : Prop :=
  service_tables d d'
    (keep (fun r => negb (clean_where (Name s) (Namespace s) r)) (tbl d) ++ [new_service_row now s])
    (tbl d ++ map (new_meta now (ID s)) (range_map (default ∅ (Meta s))))
    (tbl d ++ owner_rows now (Name s) (Namespace s) (Owner s)).

Lemma p_addService_Ok s now d u d' :
  p_addService s now d = Ok (u, d') ->
  added now s d d' /\ (length (split_owners (Owner s)) <= 1)%nat /\
  (forall r, r ∈ tbl d -> clean_where (Name s) (Namespace s) r = false ->
     clash r (new_service_row now s) = false).
Proof.
  unfold p_addService. rewrite p_bind_Ok. intros (u1 & d1 & (k1 & [= _ <-])%p_void_Ok & Hp).
  apply p_bind_Ok in Hp as (u2 & d2 & (k2 & [-> Hd]%insert_Ok_inv)%p_void_Ok & Hp).
  apply p_bind_Ok in Hp as (u3 & d3 & ->%p_insert_service_meta_Ok & [Hl ->]%p_insert_owners_Ok).
  split; [|split; [done|]].
  - unfold added, service_tables. autorewrite with tables. split; [by destruct d|done].
  - rewrite tbl_set in Hd. apply distinct_app in Hd as (_ & _ & Hd). intros r Hr Hc.
    apply Hd; [|by left]. apply elem_of_keep. by rewrite Hc.
Qed.

Lemma clash_new_service r now s :
  clash r (new_service_row now s) =
    with_id (ID s) r || is_named (Name s) (Namespace s) r.
Proof. done. Qed.

Lemma p_addService_once s : once (p_addService s).
Proof.
  intros now now' d u d1 [Ha _]%p_addService_Ok.
  destruct (p_addService s now' d1) as [[u' d2]|e|w] eqn:E; [|done..].
  apply p_addService_Ok in E as (_ & _ & E).
  specialize (E (new_service_row now s)). rewrite clash_new_service in E. unfold with_id in E.
  simpl in E. rewrite str_eq_refl in E. discriminate E.
  - destruct Ha as (_ & -> & _). apply elem_of_app. right. by left.
  - unfold clean_where. simpl. by rewrite andb_false_r.
Qed.

(** The rows of the three tables that belong to a service. *)
Definition metas_of (id : string) (d : database) : list service_metadata_row :=
  sql_select (has_meta id) d.

Lemma p_updateServiceMeta_Ok id meta now d u d' :
  p_updateServiceMeta id meta now d = Ok (u, d') ->
  d' = set_tbl (match meta with
                | None => tbl d
                | Some m => keep (fun r => negb (has_meta id r)) (tbl d)
                            ++ map (new_meta now id) (range_map m)
                end) d.
Proof.
  unfold p_updateServiceMeta. destruct meta as [m|].
  - rewrite p_bind_Ok. intros (u1 & d1 & (k & [= _ <-])%p_void_Ok & ->%p_insert_service_meta_Ok).
    by autorewrite with tables.
  - unfold p_ret. intros. simplify_eq. by rewrite set_tbl_id.
Qed.

Lemma p_update_owners_Ok service namespace owner now d u d' :
  p_update_owners service namespace owner now d = Ok (u, d') ->
  (length (split_owners owner) <= 1)%nat /\
  d' = set_tbl (keep (fun r => negb (owned service namespace r)) (tbl d)
                ++ owner_rows now service namespace owner) d.
Proof.
  unfold p_update_owners. rewrite p_bind_Ok.
  intros (u1 & d1 & (k & [= _ <-])%p_void_Ok & [Hl ->]%p_insert_owners_Ok).
  split; [done|]. by autorewrite with tables.
Qed.

(** What a successful [updateService] leaves. *)
Definition updated (now : Z) (s : Service) (needUpdateOwner : bool) (d d' : database) : Prop :=
  service_tables d d'
    (change (with_id (ID s)) (set_service s now) (tbl d))
    (match Meta s with
     | None => tbl d
     | Some m => keep (fun r => negb (has_meta (ID s) r)) (tbl d)
                 ++ map (new_meta now (ID s)) (range_map m)
     end)
    (if needUpdateOwner
     then keep (fun r => negb (owned (Name s) (Namespace s) r)) (tbl d)
          ++ owner_rows now (Name s) (Namespace s) (Owner s)
     else tbl d).

Lemma p_updateService_Ok s need now d u d' :
  p_updateService s need now d = Ok (u, d') -> updated now s need d d'.
Proof.
  unfold p_updateService. rewrite p_bind_Ok.
  intros (u1 & d1 & (k1 & [-> _]%update_Ok_inv)%p_void_Ok & Hp).
  apply p_bind_Ok in Hp as (u2 & d2 & ->%p_updateServiceMeta_Ok & Hp).
  unfold updated, service_tables. destruct need.
  - apply p_update_owners_Ok in Hp as [_ ->]. autorewrite with tables.
    split; [by destruct d|]. done.
  - unfold p_ret in Hp. simplify_eq. autorewrite with tables. split; [by destruct d|]. done.
Qed.

(** *** Metadata read back *)

Lemma fold_put_meta now id kvs m :
  fold_left put_meta (map (new_meta now id) kvs) m =
  fold_left (fun m kv => <[fst kv := snd kv]> m) kvs m.
Proof. revert m. induction kvs as [|kv kvs IH]; intros m; simpl; [done|]. apply IH. Qed.

(** Rows already there for the id are read with the new ones. *)
Lemma meta_round_trip_over now id m acc :
  fold_left put_meta (map (new_meta now id) (range_map m)) acc = m ∪ acc.
Proof. by rewrite fold_put_meta, range_map_fold_over. Qed.

(** Whatever order the entries were inserted in, reading them gives the map. *)
Lemma meta_round_trip now id m :
  fold_left put_meta (map (new_meta now id) (range_map m)) ∅ = m.
Proof. by rewrite fold_put_meta, range_map_fold. Qed.

Lemma keep_new_meta now id kvs : keep (has_meta id) (map (new_meta now id) kvs) = map (new_meta now id) kvs.
Proof.
  apply keep_all. intros r Hr. apply list_elem_of_fmap in Hr as (kv & -> & _).
  unfold has_meta. simpl. apply str_eq_refl.
Qed.
End service_facts.

Section service_properties.
Context `{Env} `{PolarisApi} `{MapRange} `{Uuid} `{PgServer}.
Implicit Types c : conn database.

Lemma res_cases {A} (r : res A) (P : Prop) : is_Ok r = false \/ P -> (exists a, r = Ok a) -> P.
Proof. intros [Hr|Hp] [a ->]; done. Qed.

#[export] Instance refines_AddService s : Refines (AddService s) (p_addService s).
Proof. unfold AddService. apply _. Qed.
#[export] Instance refines_UpdateService s need : Refines (UpdateService s need) (p_updateService s need).
Proof. unfold UpdateService. apply _. Qed.
#[export] Instance refines_DeleteService id n ns : Refines (DeleteService id n ns) (p_deleteService id n ns).
Proof. unfold DeleteService. apply _. Qed.

(** C12: [AddService], whatever faults occur, takes effect at most once and as a
    whole: after success, and possibly after an error (a lost commit reply),
    the dead service of that name is gone and the service row, one metadata
    row per entry and the owner row are there; otherwise nothing changed.
    A live service of that name, or a service of that id, is never replaced. *)
Theorem AddService_correct s c r c' :
  AddService s c = (r, c') ->
  replica c' = replica c /\
  (r = Ok tt -> exists now, added now s (committed c) (committed c')) /\
  (committed c' = committed c \/ exists now, added now s (committed c) (committed c')) /\
  ((exists x, x ∈ tbl (committed c) /\ clean_where (Name s) (Namespace s) x = false /\
      (svc_id x = ID s \/ svc_name x = Name s /\ svc_namespace x = Namespace s)) ->
     committed c' = committed c /\ r <> Ok tt).
Proof.
  intros Hr. destruct (refines_AddService s _ _ _ Hr) as [Ho Hre].
  pose proof (retried_once _ _ _ _ (p_addService_once s) Ho) as Hb.
  split; [done|]. split; [|split].
  - intros ->. destruct Hb as (now & Hp). exists now. by eapply p_addService_Ok.
  - destruct r as [u|e|w]; [right|..].
    + destruct Hb as (now & Hp). exists now. by eapply p_addService_Ok.
    + destruct Hb as [|(now & a & Hp)]; [by left|right]. exists now. by eapply p_addService_Ok.
    + destruct Hb as [|(now & a & Hp)]; [by left|right]. exists now. by eapply p_addService_Ok.
  - intros (x & Hx & Hc & Hk).
    destruct (retried_outcome_stuck (p_addService s) (committed c) r (committed c')) as [Hd Hf]; [|done|].
    + intros now. destruct (p_addService s now (committed c)) as [[u d]|e|w] eqn:E; [|done..].
      apply p_addService_Ok in E as (_ & _ & E). specialize (E x Hx Hc).
      rewrite clash_new_service in E. apply orb_false_iff in E as [E1 E2].
      apply str_eq_false in E1. unfold is_named in E2. apply andb_false_iff in E2.
      rewrite !str_eq_false in E2. destruct Hk as [|[??]]; [done|]. by destruct E2.
    + split; [done|]. by intros ->.
Qed.

(** [AddService] can never add a service with two or more owners: the
    placeholders of the owner insert advance by 3 for 4 columns, the server
    refuses them, and the whole transaction is undone. *)
Theorem AddService_two_owners s c r c' :
  AddService s c = (r, c') -> (2 <= length (split_owners (Owner s)))%nat ->
  r <> Ok tt /\ committed c' = committed c.
Proof.
  intros [Ho _]%refines_AddService Hl. apply retried_outcome_stuck in Ho as [Hd Hr].
  - split; [by intros ->|done].
  - intros now. destruct (p_addService s now (committed c)) as [[u d]|e|w] eqn:E; [|done..].
    apply p_addService_Ok in E as (_ & E & _). lia.
Qed.

(** Reads without faults. *)
Lemma getServiceMeta_reliable id c : reliable -> id <> ""%string ->
  getServiceMeta id c = (Ok (Some (fold_left put_meta (metas_of id (committed c)) ∅)), tick c).
Proof.
  intros Hr Hid. unfold getServiceMeta. rewrite str_empty_false by done.
  by erewrite Query_then.
Qed.

Lemma scan_service_id r s : scan_service r = Ok s -> ID s = svc_id r /\ Meta s = None /\
  Valid s = negb (svc_flag r =? 1).
Proof.
  unfold scan_service. intros Hs. repeat (apply res_bind_Ok in Hs as (? & _ & Hs)). by simplify_eq.
Qed.

Lemma getService_reliable name namespace c row rest s out : reliable ->
  name <> ""%string -> namespace <> ""%string -> svc_id row <> ""%string ->
  sql_select (is_named name namespace) (committed c) = row :: rest ->
  Forall2 (fun r s => scan_service r = Ok s) (row :: rest) (s :: out) ->
  fst (getService name namespace c) =
    Ok (Some (set_Meta (Some (fold_left put_meta (metas_of (svc_id row) (committed c)) ∅)) s)).
Proof.
  intros Hr Hn Hns Hid Hrow Hs. unfold getService.
  rewrite !str_empty_false by done. simpl. erewrite (Bind_run _ _ c (Some s) (tick c)).
  - inversion Hs as [|? ? ? ? [Hs0 _]%scan_service_id _]; subst. rewrite Hs0.
    erewrite Bind_run; [|by apply getServiceMeta_reliable]. done.
  - unfold getServiceMain. erewrite Query_then; [|done|done]. rewrite Hrow. unfold Bind, lift, fetchServiceRows.
    by rewrite (fetch_rows_Ok _ _ _ Hs).
Qed.

Lemma AddService_params s c c1 :
  AddService s c = (Ok tt, c1) -> ID s <> ""%string /\ Name s <> ""%string /\ Namespace s <> ""%string.
Proof.
  unfold AddService. destruct (str_empty (ID s) || _ || _) eqn:E; [done|]. intros _.
  booleans. rewrite <- !str_empty_spec. by rewrite !not_true_iff_false.
Qed.

(** The metadata the table holds for an id. *)
Definition metadata_of (id : string) (d : database) : gmap string string :=
  fold_left put_meta (keep (fun r => str_eq (smd_id r) id) (tbl d)) ∅.

(** C13: without faults, what [AddService] stored is what [GetService] returns:
    every field, valid and stamped with the transaction's time.  The metadata
    returned is the new map, whatever order it was inserted in, together with
    any the table still held for the id: [DeleteService] leaves the metadata of
    a service behind, so that a service made again under its id is returned
    with the old keys added. *)
Theorem AddService_GetService s c c1 :
  reliable -> AddService s c = (Ok tt, c1) ->
  exists now, fst (GetService (Name s) (Namespace s) c1) =
    Ok (Some (mkService (ID s) (Name s) (Namespace s) (Business s) (Ports s)
      (Some (default ∅ (Meta s) ∪ metadata_of (ID s) (committed c))) (Comment s) (Department s) (CmdbMod1 s) (CmdbMod2 s) (CmdbMod3 s)
      (Token s) (Owner s) (Revision s) (Reference s) "" (PlatformID s) true now now)).
Proof.
  intros Hrel Ha. destruct (AddService_params _ _ _ Ha) as (Hid & Hn & Hns).
  apply refines_AddService in Ha as [Ho _].
  apply (retried_once _ _ _ _ (p_addService_once s)) in Ho as (now & Hp). exists now.
  apply p_addService_Ok in Hp as ((_ & Hsvc & Hmeta & _) & _ & Hclash).
  assert (sql_select (is_named (Name s) (Namespace s)) (committed c1) = [new_service_row now s]) as Hrow.
  { unfold sql_select. rewrite Hsvc, keep_app, keep_keep. simpl.
    unfold is_named at 2. simpl. rewrite !str_eq_refl. simpl.
    replace (keep _ (tbl (committed c))) with (@nil service_row); [done|].
    symmetry. apply keep_nil_iff. intros r Hr. apply andb_false_iff.
    destruct (clean_where (Name s) (Namespace s) r) eqn:E; [by left|right].
    specialize (Hclash r Hr E). rewrite clash_new_service in Hclash. by booleans. }
  assert (metas_of (ID s) (committed c1) =
    metas_of (ID s) (committed c) ++ map (new_meta now (ID s)) (range_map (default ∅ (Meta s)))) as Hmd.
  { unfold metas_of, sql_select. by rewrite Hmeta, keep_app, keep_new_meta. }
  unfold GetService, Bind, map_err.
  pose proof (getService_reliable (Name s) (Namespace s) c1 (new_service_row now s) []
    (mkService (ID s) (Name s) (Namespace s) (Business s) (Ports s) None (Comment s) (Department s)
      (CmdbMod1 s) (CmdbMod2 s) (CmdbMod3 s) (Token s) (Owner s) (Revision s) (Reference s) ""
      (PlatformID s) true now now) [] Hrel Hn Hns Hid Hrow) as Hg.
  destruct (getService (Name s) (Namespace s) c1) as [g c2]. simpl in Hg.
  rewrite Hg by (by repeat constructor). simpl. by rewrite Hmd, fold_left_app, meta_round_trip_over.
Qed.

(** What [GetServiceByID] found. *)
Lemma getServiceByID_Ok id c o c' :
  getServiceByID id c = (Ok o, c') ->
  same_dbs c c' /\ exists out, Forall2 (fun r s => scan_service r = Ok s)
                             (sql_select (with_id id) (committed c)) out /\
    match o, out with
    | None, [] => True
    | Some s, s0 :: _ => exists meta, s = set_Meta meta s0 /\
        (ID s0 <> ""%string -> meta = Some (fold_left put_meta (metas_of (ID s0) (committed c)) ∅))
    | _, _ => False
    end.
Proof.
  unfold getServiceByID. intros Hr. apply Query_fetch_then_Ok in Hr as (out & c1 & Hs & Hk & now & l & Hl & Hf);
    [|apply _|apply fetch_rows_err_checking].
  simplify_eq/=. unfold fetchServiceRows, fetch_rows in Hf. simpl in Hf.
  apply res_bind_Ok in Hf as (out1 & Hf%scan_all_Ok & [= ->]).
  destruct out as [|s0 out]; simpl in Hk.
  { unfold Ret in Hk. simplify_eq. split; [done|]. by exists []. }
  apply Bind_Ok in Hk as (meta & c2 & Hm & Hk). unfold Ret in Hk. simplify_eq.
  assert (ReadOnly (getServiceMeta (ID s0))) as Hro by (unfold getServiceMeta; apply _).
  split; [etrans; [done|by eapply Hro]|]. exists (s0 :: out). split; [done|]. exists meta. split; [done|].
  intros Hid. unfold getServiceMeta in Hm. rewrite str_empty_false in Hm by done.
  apply Query_fetch_then_Ok in Hm as (m & c3 & Hs3 & Hk & now' & l & Hl & Hf'); [|apply _|by intros l e].
  unfold Ret in Hk. simplify_eq/=. unfold fetchServiceMeta in Hf'. simplify_eq/=.
  by destruct Hs as [-> _].
Qed.

Lemma getServiceByID_reliable id c row rest s out : reliable -> id <> ""%string ->
  sql_select (with_id id) (committed c) = row :: rest ->
  Forall2 (fun r s => scan_service r = Ok s) (row :: rest) (s :: out) ->
  fst (getServiceByID id c) =
    Ok (Some (set_Meta (Some (fold_left put_meta (metas_of id (committed c)) ∅)) s)).
Proof.
  intros Hr Hid Hrow Hs. unfold getServiceByID.
  assert (ID s = id) as Hs0.
  { inversion Hs as [|? ? ? ? Hs0 _]; subst. destruct (scan_service_id _ _ Hs0) as [-> _].
    assert (row ∈ sql_select (with_id id) (committed c)) as [_ Hk]%elem_of_keep
      by (rewrite Hrow; by left).
    by apply str_eq_true in Hk. }
  erewrite Query_then; [|done|done]. rewrite Hrow. unfold fetchServiceRows.
  erewrite Bind_run; [|unfold lift; by rewrite (fetch_rows_Ok _ _ _ Hs)].
  cbn. rewrite Hs0. erewrite Bind_run; [|by apply getServiceMeta_reliable]. done.
Qed.

Lemma scan_set_service s now row old :
  scan_service row = Ok old ->
  scan_service (set_service s now row) =
    Ok (mkService (svc_id row) (Name s) (Namespace s) (Business s) (Ports s) None (Comment s)
      (Department s) (CmdbMod1 s) (CmdbMod2 s) (CmdbMod3 s) (Token s) (Owner s) (Revision s)
      (Reference old) (ReferFilter old) (PlatformID s) (Valid old) (CreateTime old) now).
Proof.
  unfold scan_service. intros Hs. do 7 apply res_bind_Ok in Hs as (? & _ & Hs).
  apply res_bind_Ok in Hs as (rf & Hrf & Hs). apply res_bind_Ok in Hs as (? & _ & Hs). simplify_eq.
  simpl. by rewrite Hrf.
Qed.

(** A service id names at most one row. *)
Lemma one_service id d : db_wf d -> (length (sql_select (R:=service_row) (with_id id) d) <= 1)%nat.
Proof.
  intros Hd. apply (distinct_unique clash_service); [apply Hd|].
  intros x y Hx%str_eq_true Hy%str_eq_true. unfold clash_service.
  rewrite Hx, Hy, str_eq_refl. done.
Qed.

Lemma change_with_id id (set : service_row -> service_row) l :
  (forall r, svc_id (set r) = svc_id r) ->
  keep (with_id id) (change (with_id id) set l) = map set (keep (with_id id) l).
Proof.
  intros Hs. induction l as [|r l IH]; [done|]. simpl. unfold with_id in *.
  destruct (str_eq (svc_id r) id) eqn:E; simpl; rewrite ?Hs, ?E; [f_equal|]; done.
Qed.

(** After [UpdateService] on an existing service, [GetServiceByID] returns
    the new values of the updated columns with the reference, refer filter and
    creation time it had; a nil metadata map leaves the metadata as it was and
    any other map (an empty one too) replaces it. *)
Theorem UpdateService_GetServiceByID s need c c0 old c1 :
  reliable -> db_wf (committed c) -> GetServiceByID (ID s) c = (Ok (Some old), c0) ->
  UpdateService s need c = (Ok tt, c1) ->
  exists now, fst (GetServiceByID (ID s) c1) =
    Ok (Some (mkService (ID s) (Name s) (Namespace s) (Business s) (Ports s)
      (match Meta s with None => Meta old | Some m => Some m end) (Comment s) (Department s)
      (CmdbMod1 s) (CmdbMod2 s) (CmdbMod3 s) (Token s) (Owner s) (Revision s) (Reference old)
      (ReferFilter old) (PlatformID s) true (CreateTime old) now)).
Proof.
  intros Hrel Hwf Hg Hu.
  assert (ID s <> ""%string) as Hid.
  { unfold UpdateService in Hu. intros E. by rewrite E in Hu. }
  assert (exists now, updated now s need (committed c) (committed c1)) as (now & _ & Hsvc & Hmeta & _).
  { unfold UpdateService in Hu. destruct (_ || str_empty (Revision s)); [done|].
    unfold map_err in Hu. destruct (RetryTransaction _ c) as [[u|e|w] c2] eqn:E; simplify_eq.
    apply (retry_process_reliable _ (p_updateService s need)) in E as (now & Hp); [|done].
    exists now. by eapply p_updateService_Ok. }
  exists now. unfold GetServiceByID in Hg. apply Bind_Ok in Hg as (o & c2 & Hg & Hv).
  injection Hv as Hv _.
  apply getServiceByID_Ok in Hg as (_ & out & Hf & Ho). pose proof (one_service (ID s) _ Hwf) as Hone.
  destruct o as [s1|]; [|done]. destruct out as [|s0 out]; [done|]. destruct Ho as (meta & -> & Hm).
  inversion Hf as [|row ? rest ? Hrow Hrest E1 E2]; subst.
  rewrite <- E1 in Hone. destruct rest; [|simpl in Hone; lia]. inversion Hrest; subst.
  simpl in Hv. destruct (Valid s0) eqn:Hv0; [|done]. injection Hv as <-. simpl.
  assert (svc_id row = ID s) as Hrid.
  { assert (row ∈ sql_select (with_id (ID s)) (committed c)) as [_ Hk]%elem_of_keep
      by (rewrite <- E1; by left). by apply str_eq_true in Hk. }
  destruct (scan_service_id _ _ Hrow) as (Hi0 & _ & _). rewrite Hi0, Hrid in Hm.
  unfold GetServiceByID, Bind.
  pose proof (getServiceByID_reliable (ID s) c1 (set_service s now row) []
    (mkService (svc_id row) (Name s) (Namespace s) (Business s) (Ports s) None (Comment s)
      (Department s) (CmdbMod1 s) (CmdbMod2 s) (CmdbMod3 s) (Token s) (Owner s) (Revision s)
      (Reference s0) (ReferFilter s0) (PlatformID s) (Valid s0) (CreateTime s0) now) [] Hrel Hid) as Hn.
  destruct (getServiceByID (ID s) c1) as [g c3]. simpl in Hn. rewrite Hn.
  - simpl. rewrite Hv0. unfold set_Meta. simpl. rewrite Hrid. do 3 f_equal.
    unfold metas_of, sql_select in *. rewrite Hmeta. destruct (Meta s) as [m|].
    + rewrite keep_app, keep_new_meta, keep_keep.
      replace (keep _ (tbl (committed c))) with (@nil service_metadata_row).
      * simpl. by rewrite meta_round_trip.
      * symmetry. apply keep_nil_iff. intros x _. by destruct (has_meta (ID s) x).
    + by rewrite Hm.
  - unfold sql_select in *. by rewrite Hsvc, change_with_id, <- E1.
  - constructor; [|done]. by apply scan_set_service.
Qed.

(** *** Deletion *)

Lemma p_deleteService_Ok id n ns now d u d' :
  p_deleteService id n ns now d = Ok (u, d') ->
  service_tables d d' (change (with_id id) (mark_deleted now) (tbl d)) (tbl d)
    (keep (fun r => negb (owned n ns r)) (tbl d)).
Proof.
  unfold p_deleteService. rewrite p_bind_Ok.
  intros (u1 & d1 & (k1 & [-> _]%update_Ok_inv)%p_void_Ok & (k & [= _ <-])%p_void_Ok).
  unfold service_tables. autorewrite with tables. split; [by destruct d|done].
Qed.

Lemma change_not p q (set : service_row -> service_row) l :
  (forall r, q r = true -> p r = false) -> (forall r, p r = true -> q (set r) = false) ->
  keep q (change p set l) = keep q l.
Proof.
  intros Hq Hp. induction l as [|r l IH]; [done|]. simpl. destruct (p r) eqn:E.
  - rewrite Hp by done. destruct (q r) eqn:Eq; [|done]. by rewrite Hq in E.
  - by rewrite IH.
Qed.

(** C14: a successful [DeleteService] marks exactly the service of that id as
    deleted, removes the owner entries of the name and leaves the metadata and
    everything else; [GetServiceByID] no longer finds it. *)
Theorem DeleteService_hides id n ns c r c1 :
  DeleteService id n ns c = (r, c1) ->
  only_services (committed c) (committed c1) /\ replica c1 = replica c /\
  keep (fun x => negb (with_id id x)) (tbl (committed c1)) =
    keep (fun x => negb (with_id id x)) (tbl (committed c)) /\
  metas_of id (committed c1) = metas_of id (committed c) /\
  (r = Ok tt ->
     (forall x, x ∈ tbl (committed c1) -> with_id id x = true -> svc_flag x = 1) /\
     (forall x, x ∈ tbl (committed c1) -> owned n ns x = false) /\
     forall c2 o c3, committed c2 = committed c1 -> GetServiceByID id c2 = (Ok o, c3) -> o = None).
Proof.
  intros Hd. destruct (refines_DeleteService _ _ _ _ _ _ Hd) as [Ho Hre].
  set (J := fun d => only_services (committed c) d /\
    keep (fun x => negb (with_id id x)) (tbl d) = keep (fun x => negb (with_id id x)) (tbl (committed c)) /\
    metas_of id d = metas_of id (committed c)).
  assert (forall now x u y, J x -> p_deleteService id n ns now x = Ok (u, y) -> J y) as HJ.
  { intros now x u y (J1 & J2 & J3) (Hs & Hv & Hm & _)%p_deleteService_Ok. split; [by etrans|]. split.
    - rewrite Hv, <- J2. apply change_not; intros z; unfold with_id; simpl; intros Hz; [|by rewrite Hz].
      by apply negb_true_iff.
    - unfold metas_of, sql_select in *. by rewrite Hm. }
  assert (J (committed c1)) as (J1 & J2 & J3) by (eapply retried_outcome_inv; [exact HJ|done|exact Ho]).
  split; [done|]. split; [done|]. split; [done|]. split; [done|]. intros ->.
  apply retried_outcome_Ok in Ho as (d1 & now & _ & (_ & Hv & _ & Hown)%p_deleteService_Ok).
  assert (forall x, x ∈ tbl (committed c1) -> with_id id x = true -> svc_flag x = 1) as Hflag.
  { intros x Hx Hi. rewrite Hv in Hx. apply elem_of_change in Hx as (y & _ & ->).
    by destruct (with_id id y) eqn:E; [|rewrite E in Hi]. }
  split; [done|]. split.
  { intros x Hx. rewrite Hown in Hx. apply elem_of_keep in Hx as [_ Hx]. by apply negb_true_iff. }
  intros c2 o c3 Hc Hg. unfold GetServiceByID in Hg. apply Bind_Ok in Hg as (o' & c4 & Hg & Hv').
  injection Hv' as <- _. apply getServiceByID_Ok in Hg as (_ & out & Hf & Ho').
  destruct o' as [s|]; [|done]. destruct out as [|s0 out]; [done|]. destruct Ho' as (meta & -> & _).
  inversion Hf as [|row ? rest ? Hrow _ E1 E2]; subst. simpl.
  destruct (scan_service_id _ _ Hrow) as (_ & _ & ->).
  assert (row ∈ sql_select (with_id id) (committed c2)) as [Hx Hk]%elem_of_keep by (rewrite <- E1; by left).
  rewrite Hc in Hx. by rewrite (Hflag row Hx Hk).
Qed.

(** *** Aliases *)

Definition aliased (now : Z) (s : Service) (need : bool) (d d' : database) : Prop :=
  service_tables d d'
    (change (fun r => with_id (ID s) r && source_live (Reference s) d) (set_alias s now) (tbl d)) (tbl d)
    (if need
     then keep (fun r => negb (owned (Name s) (Namespace s) r)) (tbl d)
          ++ owner_rows now (Name s) (Namespace s) (Owner s)
     else tbl d).

Lemma p_updateAlias_Ok s need now d n d' :
  p_updateAlias s need now d = Ok (n, d') ->
  aliased now s need d d' /\
  n = Z.of_nat (count (fun r => with_id (ID s) r && source_live (Reference s) d) (tbl d)).
Proof.
  unfold p_updateAlias. rewrite p_bind_Ok. intros (k & d1 & [-> ->]%update_Ok_inv & Hp).
  apply p_bind_Ok in Hp as (u & d2 & Hp & Hr). unfold p_ret in Hr. simplify_eq. split; [|done].
  unfold aliased, service_tables. destruct need.
  - apply p_update_owners_Ok in Hp as [_ ->]. autorewrite with tables. split; [by destruct d|done].
  - unfold p_ret in Hp. simplify_eq. autorewrite with tables. split; [by destruct d|done].
Qed.

(** [UpdateServiceAlias] succeeds only by updating exactly the one row of
    the alias's id, while the service it refers to is live.  The count is
    checked after the commit: an error does not mean that nothing changed,
    but the transaction is done as a whole or not at all. *)
Theorem UpdateServiceAlias_correct s need c r c' :
  (forall code msg, store_Code (EStatus code msg) = code) ->
  UpdateServiceAlias s need c = (r, c') ->
  replica c' = replica c /\
  (committed c' = committed c \/ exists now, aliased now s need (committed c) (committed c')) /\
  (r = Ok tt ->
     (exists now, aliased now s need (committed c) (committed c')) /\
     source_live (Reference s) (committed c) = true /\
     count (with_id (ID s)) (tbl (committed c)) = 1%nat).
Proof.
  intros Hcode. unfold UpdateServiceAlias.
  match goal with |- context [if ?b then _ else _] => destruct b end.
  { intros [= <- <-]. split; [done|]. split; [by left|done]. }
  unfold map_err, updateServiceAlias. rewrite process_then. unfold Bind, lift.
  destruct (processWithTransaction _ c) as [[n|e|w] c1] eqn:E; intros Hr;
    apply (process_spec _ (p_updateAlias s need)) in E as [Ho Hre]; simpl in Ho.
  - destruct Ho as (now & [Ha ->]%p_updateAlias_Ok).
    assert (c' = c1 /\ (r = Ok tt -> alias_check (Z.of_nat (count (fun x => with_id (ID s) x
      && source_live (Reference s) (committed c)) (tbl (committed c)))) = Ok tt)) as [-> Hck].
    { destruct (alias_check _) as [[]|e|w]; by simplify_eq. }
    split; [done|]. split; [right; eauto|]. intros Hok. specialize (Hck Hok). split; [eauto|].
    unfold alias_check, checkServiceAffectedRows in Hck.
    destruct (Z.eqb_spec (Z.of_nat (count (fun x => with_id (ID s) x
      && source_live (Reference s) (committed c)) (tbl (committed c)))) 1) as [E|E].
    + destruct (source_live (Reference s) (committed c)) eqn:Es.
      * split; [done|]. unfold count in *. rewrite (keep_ext _ (with_id (ID s))) in E; [lia|].
        intros x _. by rewrite andb_true_r.
      * exfalso. unfold count in E. rewrite (proj2 (keep_nil_iff _ _)) in E; [done|].
        intros x _. by rewrite andb_false_r.
    + rewrite Hcode in Hck. by rewrite decide_True in Hck.
  - simplify_eq. split; [done|]. split; [|done].
    destruct Ho as [->|(now & a & [Ha _]%p_updateAlias_Ok)]; [by left|right; eauto].
  - simplify_eq. split; [done|]. split; [by left|done].
Qed.

(** *** Filtered queries *)

Lemma filterInstance_numbered f i : numbered i (filterInstance f i).
Proof.
  unfold filterInstance. destruct (PlaceholdersNI (Z.of_nat (length (Hosts f))) i) as [p1 i1] eqn:E1.
  destruct (PlaceholdersNI_phs (Z.of_nat (length (Hosts f))) i ltac:(lia)) as [Hp1 Hi1].
  rewrite E1 in Hp1, Hi1. simpl in Hp1, Hi1. subst i1.
  destruct (iPorts f) as [|z l] eqn:Ez.
  - split; simpl; phs_simpl; simpl; rewrite ?phs_app, ?Hp1; simpl; by rewrite ?app_nil_r, ?Nat.add_0_r.
  - destruct (PlaceholdersNI (Z.of_nat (length (z :: l))) (i + Z.of_nat (length (Hosts f)))) as [p2 i2] eqn:E2.
    destruct (PlaceholdersNI_phs (Z.of_nat (length (z :: l))) (i + Z.of_nat (length (Hosts f))) ltac:(lia))
      as [Hp2 Hi2]. rewrite E2 in Hp2, Hi2. cbn [fst snd] in Hp2, Hi2.
    split; [|rewrite Hi2; phs_simpl; simpl; lia]. simpl; phs_simpl; simpl; rewrite ?phs_app; simpl; rewrite ?phs_app; simpl; rewrite Hp1, Hp2.
    rewrite app_nil_r, length_map. change (S (length l)) with (length (z :: l)).
    by rewrite <- seqZ_nat_app.
Qed.

(** Placeholders and arguments of the shared part. *)
Lemma services_where_phs str sF sM iF : phs str = [] ->
  let m := Z.of_nat (length (range_map sM)) in
  let '(q, args, next) := services_where str sF sM iF in
  exists k, Z.of_nat (length sF) <= k /\ Z.of_nat (length args) = 2 * m + k /\
    next = (if m =? 0 then 0 else 5) + k /\
    phs q = (if m =? 0 then [] else seqZ 1 4) ++ seqZ (if m =? 0 then 0 else 5) k.
Proof.
  intros Hstr m. unfold services_where.
  set (first := match range_map sM with [] => (str, [], 0) | _ => _ end).
  assert (exists q1 a1, first = (q1, a1, if m =? 0 then 0 else 5) /\
    Z.of_nat (length a1) = 2 * m /\ phs q1 = if m =? 0 then [] else seqZ 1 4) as (q1 & a1 & -> & Ha1 & Hq1).
  { unfold first, m, filterMetadata. destruct (range_map sM) as [|kv l] eqn:E.
    - exists str, []. done.
    - eexists _, _. split; [done|]. split.
      + clear. induction (kv :: l) as [|x y IH]; [done|]. simpl in *. lia.
      + phs_simpl. by rewrite Hstr. }
  set (base := if m =? 0 then 0 else 5) in *.
  set (second := match iF with
    | None => (q1, a1, base)
    | Some f => let '(subStr, subArgs, i) := filterInstance f base in
                (q1 ++ T " and service.id in " :: subStr, a1 ++ subArgs, i) end).
  assert (exists q2 a2, second = (q1 ++ q2, a1 ++ a2, base + Z.of_nat (length a2)) /\
    phs q2 = seqZ base (Z.of_nat (length a2))) as (q2 & a2 & -> & Hq2).
  { unfold second. destruct iF as [f|].
    - pose proof (filterInstance_numbered f base) as Hf.
      destruct (filterInstance f base) as [[q a] i]. destruct Hf as [Hf ->].
      exists (T " and service.id in " :: q), a. done.
    - exists [], []. rewrite !app_nil_r, Z.add_0_r. done. }
  pose proof (genServiceFilterSQL_numbered sF (base + Z.of_nat (length a2))) as Hf.
  pose proof (genServiceFilterSQL_length sF (base + Z.of_nat (length a2))) as Hlen.
  destruct (genServiceFilterSQL sF (base + Z.of_nat (length a2))) as [[q3 a3] i3].
  destruct Hf as [Hq3 ->].
  assert (phs (match q3 with [] => q1 ++ q2 | _ => (q1 ++ q2) ++ T " and " :: q3 end) =
    phs q1 ++ seqZ base (Z.of_nat (length a2 + length a3))) as Hq.
  { rewrite seqZ_nat_app, <- Hq2, <- Hq3. destruct q3; phs_simpl; [done|]. by rewrite <- app_assoc. }
  assert (q3 = [] -> a3 = []) as Hnil.
  { intros ->. simpl in Hq3. destruct a3; [done|]. by rewrite seqZ_cons in Hq3 by (simpl; lia). }
  cbn [fst snd] in Hlen.
  destruct q3 as [|t q3]; exists (Z.of_nat (length a2 + length a3)).
  - rewrite (Hnil eq_refl) in *. cbn [length] in *. rewrite Hq, Hq1, length_app. repeat split; lia || done.
  - rewrite Hq, Hq1, !length_app. repeat split; lia || done.
Qed.

(** [k] more parameters than the shared part, numbered on from it. *)
Lemma services_refused str extra sF sM iF : phs str = [] -> (1 <= length sF)%nat ->
  size sM <> 2%nat ->
  let '(q, args, next) := services_where str sF sM iF in
  forall q' args', phs q' = seqZ next (Z.of_nat extra) -> length args' = extra ->
    params_ok (q ++ q') (length (args ++ args')) = false.
Proof.
  intros Hstr Hl Hm. pose proof (services_where_phs str sF sM iF Hstr) as Hw. cbv zeta in Hw.
  rewrite (Permutation_length (range_map_perm sM)), length_map_to_list in Hw.
  destruct (services_where str sF sM iF) as [[q args] next]. destruct Hw as (k & Hk & Ha & Hn & Hq).
  intros q' args' Hq' Ha'. destruct (params_ok _ _) eqn:E; [exfalso|done].
  assert (phs (q ++ q') = (if Z.of_nat (size sM) =? 0 then [] else seqZ 1 4) ++
    seqZ (if Z.of_nat (size sM) =? 0 then 0 else 5) (k + Z.of_nat extra)) as Hp.
  { rewrite phs_app, Hq, Hq', <- app_assoc. f_equal. rewrite Hn, (seqZ_app _ k) by lia. done. }
  destruct (Z.eqb_spec (Z.of_nat (size sM)) 0) as [E0|E0].
  - assert (1 <= 0) as Hb; [|lia]. eapply (params_ok_bound _ _ 0); [exact E|].
    rewrite Hp. apply elem_of_seqZ. lia.
  - rewrite length_app, Ha' in E.
    assert (4 + k + Z.of_nat extra <= Z.of_nat (length args + extra)) as Hb.
    { eapply (params_ok_bound _ _ (4 + k + Z.of_nat extra)); [exact E|].
      rewrite Hp, elem_of_app. right. apply elem_of_seqZ. lia. }
    assert (Z.of_nat (length args + extra) ∈ phs (q ++ q')) as Hi
      by (eapply (params_ok_all _ (length args + extra)); [exact E|lia]).
    rewrite Hp, elem_of_app, !elem_of_seqZ in Hi. lia.
Qed.

Lemma set_flag_length filters : (1 <= length (set_flag filters))%nat.
Proof. unfold set_flag. rewrite length_app. simpl. lia. Qed.

(** [GetServices] numbers its placeholders from 0, or always four of them
    for the metadata: unless exactly two metadata entries are given, the
    server refuses its queries, so it never returns a result. *)
Theorem GetServices_refused filters metas iFilters offset limit c r c' :
  size metas <> 2%nat -> GetServices filters metas iFilters offset limit c = (r, c') ->
  same_dbs c c' /\ is_Ok r = false.
Proof.
  intros Hm Hr. split.
  { assert (ReadOnly (GetServices filters metas iFilters offset limit)) as Hro; [|by eapply Hro].
    unfold GetServices, getServices, getServicesCount, fetchRowServices, meta_handler, batchQueryServiceMeta.
    destruct (services_sql _ _ _ _ _) as [q1 a1], (services_count_sql _ _ _) as [q2 a2]. cbv zeta.
    apply read_bind; [|apply _]. apply read_if; [apply _|]. apply read_bind; [apply _|]. intros rs.
    apply read_bind; [apply _|]. intros ss. apply read_BatchQuery. intros x s0.
    apply read_bind; [|apply _]. destruct (service_ids x s0); apply _. }
  destruct r as [[num out]|e|w]; [exfalso|done..].
  unfold GetServices in Hr. cbv zeta in Hr. apply Bind_Ok in Hr as (out' & c1 & _ & Hr).
  apply Bind_Ok in Hr as (n & c2 & Hr & _). unfold getServicesCount, services_count_sql in Hr.
  pose proof (services_refused [T "select count(*) from service  where (reference is null or reference = '')"]
    0 (set_flag filters) metas iFilters eq_refl (set_flag_length filters) Hm) as Hp.
  destruct (services_where _ _ _ _) as [[q args] next].
  specialize (Hp [] [] eq_refl eq_refl). rewrite !app_nil_r in Hp.
  apply queryEntryCount_Ok in Hr as (now & d & Hc); [|apply _]. by rewrite pg_count_params in Hc.
Qed.

(** *** Incremental reads *)

Lemma by_id_lookup l (m : gmap string Service) id :
  NoDup (map ID l) ->
  fold_left (fun out entry => <[ID entry := entry]> out) l m !! id =
    match list_find (fun s => ID s = id) l with Some (_, s) => Some s | None => m !! id end.
Proof.
  revert m. induction l as [|s l IH]; intros m; simpl; [done|].
  intros [Hs Hn]%list.NoDup_cons. rewrite IH by done.
  destruct (decide (ID s = id)) as [<-|Hne].
  - destruct (list_find (fun s0 => ID s0 = ID s) l) as [[i x]|] eqn:E; [|by rewrite lookup_insert_eq].
    apply list_find_Some in E as (Hx & Hi & _). destruct Hs. apply list_elem_of_In, in_map_iff.
    exists x. split; [done|]. apply list_elem_of_In. by eapply list_elem_of_lookup_2.
  - rewrite lookup_insert_ne by done.
    by destruct (list_find (fun s0 => ID s0 = id) l) as [[i x]|].
Qed.

Lemma by_id_Some l id s :
  NoDup (map ID l) -> by_id l !! id = Some s <-> s ∈ l /\ ID s = id.
Proof.
  intros Hn. unfold by_id. rewrite by_id_lookup, lookup_empty by done.
  destruct (list_find (fun s0 => ID s0 = id) l) as [[i x]|] eqn:E.
  - apply list_find_Some in E as (Hi & Hx & _). split.
    + intros [= <-]. split; [|done]. by eapply list_elem_of_lookup_2.
    + intros [Hs His]. f_equal.
      apply list_elem_of_lookup in Hs as [j Hj].
      assert (map ID l !! i = Some id /\ map ID l !! j = Some id) as [Hmi Hmj].
      { change (map ID l) with (ID <$> l). split; [rewrite list_lookup_fmap, Hi|rewrite list_lookup_fmap, Hj];
          simpl; congruence. }
      pose proof (NoDup_lookup _ _ _ _ Hn Hmi Hmj) as ->. congruence.
  - split; [done|]. intros [Hs His]. apply list_find_None in E.
    by destruct (proj1 (Forall_forall _ _) E s Hs).
Qed.

Lemma set_Meta_id m s : ID (set_Meta m s) = ID s.
Proof. done. Qed.

(** Metadata rows added one by one to the services of the map. *)
Lemma fold_more_meta rs services id :
  fold_left more_meta rs services !! id =
    (fun s => fold_left (fun s r => add_meta (smd_mkey r) (smd_mvalue r) s) (keep (has_meta id) rs) s)
    <$> (services !! id).
Proof.
  revert services. induction rs as [|r rs IH]; intros services; simpl; [by destruct (services !! id)|].
  rewrite IH. unfold more_meta, has_meta. destruct (str_eq (smd_id r) id) eqn:E.
  - apply str_eq_true in E as <-. destruct (services !! smd_id r) as [s|] eqn:Es.
    + by rewrite lookup_insert_eq.
    + by rewrite Es.
  - apply str_eq_false in E. destruct (services !! smd_id r) as [s|]; [|done].
    by rewrite lookup_insert_ne.
Qed.

Lemma fold_add_meta rs s :
  fold_left (fun s r => add_meta (smd_mkey r) (smd_mvalue r) s) rs s =
    match rs with [] => s | _ => set_Meta (Some (fold_left put_meta rs (default ∅ (Meta s)))) s end.
Proof.
  destruct rs as [|r rs]; [done|]. revert r s. induction rs as [|r' rs IH]; intros r s; [done|].
  change (fold_left (fun s r => add_meta (smd_mkey r) (smd_mvalue r) s) (r' :: rs)
            (add_meta (smd_mkey r) (smd_mvalue r) s) =
          set_Meta (Some (fold_left put_meta (r :: r' :: rs) (default ∅ (Meta s)))) s).
  by rewrite IH.
Qed.

Lemma service_ids_NoDup (l : list service_row) :
  distinct clash_service l = true -> NoDup (map svc_id l).
Proof.
  apply distinct_NoDup. intros x y Hxy. unfold clash_service. by rewrite Hxy, str_eq_refl.
Qed.

Lemma scanned_ids l out :
  Forall2 (fun r s => scan_service r = Ok s) l out -> map ID out = map svc_id l.
Proof.
  induction 1 as [|r s l out Hs _ IH]; [done|]. simpl. f_equal; [|done]. by apply scan_service_id.
Qed.

Lemma getMoreServiceMain_Ok mtime first dis c m c' :
  db_wf (replica c) -> getMoreServiceMain mtime first dis c = (Ok m, c') ->
  same_dbs c c' /\ forall id s, m !! id = Some s <->
    exists row, row ∈ tbl (replica c) /\ more_where mtime first dis row = true /\
      svc_id row = id /\ scan_service row = Ok s.
Proof.
  intros Hwf Hr. unfold getMoreServiceMain in Hr.
  apply Query_fetch_then_Ok in Hr as (out & c1 & Hs & Hk & now & l & Hl & Hf);
    [|apply _|apply fetch_rows_err_checking].
  unfold Ret in Hk. simplify_eq/=. split; [done|]. intros id s.
  unfold fetchServiceRows, fetch_rows in Hf. simpl in Hf.
  apply res_bind_Ok in Hf as (out1 & Hf%scan_all_Ok & [= ->]).
  assert (NoDup (map ID out)) as Hn.
  { rewrite (scanned_ids _ _ Hf). apply service_ids_NoDup, distinct_keep. apply Hwf. }
  rewrite by_id_Some by done. split.
  - intros [Hin Hid]. destruct (Forall2_elem_r _ _ _ _ Hf Hin) as (row & Hrow & Hsc).
    apply elem_of_keep in Hrow as [Hrow Hm]. exists row. repeat split; try done.
    destruct (scan_service_id _ _ Hsc) as [<- _]. done.
  - intros (row & Hrow & Hm & <- & Hsc).
    assert (row ∈ sql_select (more_where mtime first dis) (replica c)) as Hin by (by apply elem_of_keep).
    apply list_elem_of_lookup in Hin as [i Hi].
    destruct (Forall2_lookup_l _ _ _ _ _ Hf Hi) as (s1 & Hi1 & Hs1). simpl in Hs1.
    assert (s1 = s) as -> by congruence. split; [by eapply list_elem_of_lookup_2|].
    by destruct (scan_service_id _ _ Hsc).
Qed.

(** A service with the metadata its rows give. *)
Definition with_metas (rs : list service_metadata_row) (s : Service) : Service :=
  match rs with [] => s | _ => set_Meta (Some (fold_left put_meta rs ∅)) s end.

(** The first [GetMoreServices] of the cache returns exactly the live
    services of the replica that changed since [mtime] (of the system
    namespace only, when business services are disabled), each under its id,
    with the metadata of its rows when metadata is asked for. *)
Theorem GetMoreServices_first mtime dis need c m c' :
  db_wf (replica c) -> GetMoreServices mtime true dis need c = (Ok m, c') ->
  same_dbs c c' /\ forall id s, m !! id = Some s <->
    exists row s0, row ∈ tbl (replica c) /\ more_where mtime true dis row = true /\
      svc_id row = id /\ scan_service row = Ok s0 /\
      s = if need then with_metas (metas_of id (replica c)) s0 else s0.
Proof.
  intros Hwf Hr. unfold GetMoreServices in Hr. destruct need.
  - unfold getMoreServiceWithMeta in Hr. apply Bind_Ok in Hr as (services & c1 & Hmain & Hr).
    destruct (getMoreServiceMain_Ok _ _ _ _ _ _ Hwf Hmain) as [Hs1 Hlook].
    apply Query_fetch_Ok in Hr as (Hs2 & now & l & Hl & Hf); [|apply _|by intros rows e].
    split; [by etrans|]. intros id s. unfold fetchMoreServiceMeta, callFetchServiceMetaRows in Hf.
    simplify_eq/=. destruct Hs1 as [_ Hrep]. rewrite Hrep.
    rewrite fold_more_meta, fmap_Some. unfold sql_select at 1.
    rewrite (keep_all (fun _ => true)) by done. fold (sql_select (has_meta id) (replica c)).
    fold (metas_of id (replica c)). setoid_rewrite Hlook. split.
    + intros (s0 & (row & Hrow & Hm & Hid & Hsc) & ->). exists row, s0. repeat split; try done.
      rewrite fold_add_meta. destruct (scan_service_id _ _ Hsc) as (_ & -> & _). done.
    + intros (row & s0 & Hrow & Hm & Hid & Hsc & ->). exists s0. split; [by exists row|].
      rewrite fold_add_meta. destruct (scan_service_id _ _ Hsc) as (_ & -> & _). done.
  - destruct (getMoreServiceMain_Ok _ _ _ _ _ _ Hwf Hr) as [Hs Hlook]. split; [done|].
    intros id s. rewrite Hlook. split; [intros (row & ?); exists row, s; tauto|].
    intros (row & s0 & ? & ? & ? & ? & ->). by exists row.
Qed.

(** A later [GetMoreServices] with metadata fails as soon as one changed
    service has no metadata at all: the left join yields NULLs there, which
    cannot be scanned into strings. *)
Theorem GetMoreServices_needs_metadata mtime dis c m c' :
  GetMoreServices mtime false dis true c = (Ok m, c') ->
  forall row, row ∈ tbl (replica c) -> more_where mtime false dis row = true ->
    metas_of (svc_id row) (replica c) <> [].
Proof.
  intros Hr row Hrow Hm Hmd. unfold GetMoreServices, getMoreServiceWithMeta in Hr.
  apply Query_fetch_Ok in Hr as (_ & now & l & Hl & Hf); [|apply _|].
  - injection Hl as <-. unfold fetchServiceWithMetaRows, fetch_rows in Hf. simpl in Hf.
    apply res_bind_Ok in Hf as (l2 & Hf & _). apply res_bind_Ok in Hf as (l3 & Hf%scan_all_Ok & _).
    assert ((row, None) ∈ concat (map (with_meta_rows (replica c))
      (sql_select (more_where mtime false dis) (replica c)))) as Hin.
    { apply list_elem_of_In, in_concat. exists (with_meta_rows (replica c) row). split.
      - apply in_map, list_elem_of_In. by apply elem_of_keep.
      - unfold with_meta_rows. fold (metas_of (svc_id row) (replica c)). rewrite Hmd. by left. }
    apply list_elem_of_lookup in Hin as [i Hi].
    destruct (Forall2_lookup_l _ _ _ _ _ Hf Hi) as (x & _ & Hx). simpl in Hx. unfold scan_service_meta in Hx.
    apply res_bind_Ok in Hx as (item & _ & Hx). simpl in Hx. done.
  - intros rows e. unfold fetchServiceWithMetaRows, fetch_rows. simpl.
    by destruct (scan_all scan_service_meta rows).
Qed.
End service_properties.
