(* ===== verification/Transaction.v ===== *)
(** * Transactions handed to the caller (store/postgresql/transaction.go, tx.go)

    [transaction] wraps an open database transaction with two flags.  Its
    methods run on the flags and on the connection; [run] applies a sequence
    of them, which is how the service layer uses the object.  [Tx] is the thin
    wrapper of tx.go. *)
From stdpp Require Import base list strings gmap relations.
From Stdlib Require Import ZArith Lia.
From S2P Require Import Prelude Driver Rows Schema Sql Common Namespace Service.
Open Scope Z_scope.
Open Scope store_scope.

(** The flags of [transaction]; its [tx] is the connection. *)
Record transaction := mkTransaction { failed : bool; commit : bool }.

Definition set_failed (b : bool) (t : transaction) : transaction := mkTransaction b (commit t).

Section transaction.
Context `{Env} `{PolarisApi}.
Abbreviation M := (M database).
Abbreviation P := (P database).

(** A method: outcome, new flags, new connection. *)
Definition TM (A : Type) : Type :=
  transaction -> conn database -> res A * transaction * conn database.

(** [finish] *)
Definition finish (t : transaction) : res unit :=
  if failed t || commit t then Err (EMsg "transaction has failed") else Ok tt.

(** Run calls on the connection; [on_error] is what an error does to the flags. *)
Definition call {A} (on_error : transaction -> transaction) (m : M A) : TM A := fun t c =>
  match m c with
  | (Err e, c') => (Err e, on_error t, c')
  | (r, c') => (r, t, c')
  end.

Definition then_ {A B} (m : TM A) (f : A -> TM B) : TM B := fun t c =>
  match m t c with
  | (Ok a, t', c') => f a t' c'
  | (Err e, t', c') => (Err e, t', c')
  | (Panic w, t', c') => (Panic w, t', c')
  end.

Definition value {A} (r : res A) : TM A := fun t c => (r, t, c).
Definition keep_flags : transaction -> transaction := fun t => t.

(** The check at the start of most methods. *)
Definition unless_finished {A} (m : TM A) : TM A := fun t c =>
  match finish t with
  | Err e => (Err e, t, c)
  | _ => m t c
  end.

(** [transaction.Commit] *)
Definition transaction_Commit : TM unit := fun t c =>
  if commit t then (Ok tt, t, c)
  else
    let t' := mkTransaction (failed t) true in
    let '(r, c') := if failed t then Rollback c else Commit c in
    (r, t', c').

(** [LockBootstrap]; [bid] is the outcome of [rand.Int(rand.Reader, 1024)]. *)
Definition locks (key : string) (r : start_lock_row) : bool := str_eq (slk_lock_key r) key.

Definition take_lock (server : string) (r : start_lock_row) : start_lock_row :=
  StartLockRow (slk_lock_id r) (slk_lock_key r) server (slk_mtime r).

Definition lock_id (bid count : Z) : res Z :=
  if count =? 0 then Panic "runtime error: integer divide by zero" else Ok (Z.rem bid count + 1).

Definition LockBootstrap (bid : res Z) (key server : string) : TM unit :=
  then_ (call (set_failed true) (tx_QueryRow (fun _ d => Ok [Z.of_nat (Schema.count_rows (locks key) d)])))
  (fun count =>
  then_ (value bid) (fun bid =>
  then_ (value (lock_id bid count)) (fun id =>
  then_ (call keep_flags tx_Prepare) (fun _ =>
  call (set_failed true) (void (tx_Exec (sql_update
    (fun r => (slk_lock_id r =? id) && locks key r) (fun _ => take_lock server)))))))).

(** [getValidNamespace] *)
Definition getValidNamespace (name : string) : TM (option Namespace.Namespace) :=
  unless_finished (call (set_failed true) (
    rs <- tx_Query (fun _ d => Ok (sql_select
            (fun r => str_eq (ns_name r) name && negb (ns_flag r =? 1)) d)) ;;
    out <- lift (namespaceFetchRows rs) ;;
    Ret (head out))).

(** [LockNamespace] and [RLockNamespace] issue the same plain SELECT. *)
Definition LockNamespace (name : string) : TM (option Namespace.Namespace) := getValidNamespace name.
Definition RLockNamespace (name : string) : TM (option Namespace.Namespace) := getValidNamespace name.

(** [DeleteNamespace]: an error of the statement only sets the flag, and the
    result is that of [Commit]. *)
Definition mark_namespace (now : Z) (r : namespace_row) : namespace_row :=
  NamespaceRow (ns_name r) (ns_comment r) (ns_token r) (ns_owner r) 1 (ns_ctime r) now
    (ns_service_export_to r).

Definition delete_namespace (name : string) : P unit :=
  p_void (sql_update (fun r => str_eq (ns_name r) name) mark_namespace).

Definition DeleteNamespace (name : string) : TM unit :=
  unless_finished (
    then_ (call keep_flags tx_Prepare) (fun _ t c =>
    match call (set_failed true) (tx_Exec (delete_namespace name)) t c with
    | (Panic w, t', c') => (Panic w, t', c')
    | (_, t', c') => transaction_Commit t' c'
    end)).

(** [getValidService] *)
Definition getValidService (name namespace : string) : TM (option Service) :=
  unless_finished (call (set_failed true) (
    rs <- tx_Query (fun _ d => Ok (sql_select
            (fun r => is_named name namespace r && negb (svc_flag r =? 1)) d)) ;;
    out <- lift (fetchServiceRows rs) ;;
    Ret (head out))).

(** [LockService] and [RLockService] *)
Definition LockService (name namespace : string) : TM (option Service) := getValidService name namespace.
Definition RLockService (name namespace : string) : TM (option Service) := getValidService name namespace.

(** [BatchRLockServices]; [ids] are the keys of the map in range order. *)
Definition rlock_row (out : gmap string bool) (r : service_row) : gmap string bool :=
  <[svc_id r := (svc_flag r =? 0)]> out.

Definition BatchRLockServices (ids : list string) : TM (gmap string bool) :=
  call keep_flags (
    rs <- tx_Query (fun _ d =>
      match ids with
      | [] => Err syntax_error
      | _ => Ok (sql_select (fun r => bool_decide (svc_id r ∈ ids) && negb (svc_flag r =? 1)) d)
      end) ;;
    match r_err rs with
    | Some e => Fail e
    | None => Ret (fold_left rlock_row (r_data rs) ∅)
    end).

(** [DeleteService] *)
Definition delete_service (name namespace : string) : P unit :=
  p_void (sql_update (is_named name namespace) mark_deleted).

Definition transaction_DeleteService (name namespace : string) : TM unit :=
  unless_finished (
    then_ (call keep_flags tx_Prepare) (fun _ =>
    call (set_failed true) (tx_Exec (delete_service name namespace)))).

(** [DeleteAliasWithSourceID]: an error clears the flag. *)
Definition refers_to (id : string) (r : service_row) : bool :=
  match svc_reference r with Some s => str_eq s id | None => false end.

Definition delete_aliases (id : string) : P unit := p_void (sql_update (refers_to id) mark_deleted).

Definition DeleteAliasWithSourceID (sourceServiceID : string) : TM unit :=
  unless_finished (
    then_ (call keep_flags tx_Prepare) (fun _ =>
    call (set_failed false) (tx_Exec (delete_aliases sourceServiceID)))).

(** [CreateTransaction] (default.go): the outcome of [Ping] is ignored. *)
Definition Ping : M unit := fun c =>
  (match fault_at (calls c) with Some f => Err (fault_error f) | None => Ok tt end, Driver.tick c).

Definition CreateTransaction : M transaction :=
  ignore_error Ping ;;; Begin ;;; Ret (mkTransaction false false).

(** ** tx.go *)

Definition Tx_Commit : M unit := Commit.
Definition Tx_Rollback : M unit := Rollback.

(** [CreateReadView] issues a statement of MySQL. *)
Definition CreateReadView : M unit := tx_Exec (fun _ _ => Err syntax_error).

(** ** Sequences of methods *)

Inductive method :=
| MCommit
| MLockBootstrap (bid : res Z) (key server : string)
| MLockNamespace (name : string)
| MRLockNamespace (name : string)
| MDeleteNamespace (name : string)
| MLockService (name namespace : string)
| MRLockService (name namespace : string)
| MBatchRLockServices (ids : list string)
| MDeleteService (name namespace : string)
| MDeleteAliasWithSourceID (id : string).

Definition quiet {A} (m : TM A) : TM unit := then_ m (fun _ => value (Ok tt)).

Definition step (m : method) : TM unit :=
  match m with
  | MCommit => transaction_Commit
  | MLockBootstrap bid key server => LockBootstrap bid key server
  | MLockNamespace name => quiet (LockNamespace name)
  | MRLockNamespace name => quiet (RLockNamespace name)
  | MDeleteNamespace name => DeleteNamespace name
  | MLockService name namespace => quiet (LockService name namespace)
  | MRLockService name namespace => quiet (RLockService name namespace)
  | MBatchRLockServices ids => quiet (BatchRLockServices ids)
  | MDeleteService name namespace => transaction_DeleteService name namespace
  | MDeleteAliasWithSourceID id => DeleteAliasWithSourceID id
  end.

(** The caller goes on whatever the results are. *)
Fixpoint run (ms : list method) (t : transaction) (c : conn database) :
    transaction * conn database :=
  match ms with
  | [] => (t, c)
  | m :: ms' => let '(_, t', c') := step m t c in run ms' t' c'
  end.

(** What the calls of such a sequence return. *)
Fixpoint results (ms : list method) (t : transaction) (c : conn database) : list (res unit) :=
  match ms with
  | [] => []
  | m :: ms' => let '(r, t', c') := step m t c in r :: results ms' t' c'
  end.
End transaction.

(** ** What the methods are for *)

(** A deleted service keeps every column but the flag and the time. *)
Definition service_gone (now : Z) (r : service_row) : service_row :=
  ServiceRow (svc_id r) (svc_name r) (svc_namespace r) (svc_ports r) (svc_business r)
    (svc_department r) (svc_cmdb_mod1 r) (svc_cmdb_mod2 r) (svc_cmdb_mod3 r) (svc_comment r)
    (svc_token r) (svc_revision r) (svc_owner r) 1 (svc_reference r) (svc_refer_filter r)
    (svc_platform_id r) (svc_ctime r) now.

Definition namespace_gone (now : Z) (r : namespace_row) : namespace_row :=
  NamespaceRow (ns_name r) (ns_comment r) (ns_token r) (ns_owner r) 1 (ns_ctime r) now
    (ns_service_export_to r).

(** The change a method is to make to the content, in a transaction that began
    at [now]: the namespace of that name is deleted, the service of that name
    in that namespace, the services that refer to that id; the server is
    written into one of the lock rows of the key.  The others only read. *)
Definition meant (now : Z) (m : method) (d : database) : database :=
  match m with
  | MDeleteNamespace name =>
      set_tbl (map (fun r => if bool_decide (ns_name r = name) then namespace_gone now r else r) (tbl d)) d
  | MDeleteService name namespace =>
      set_tbl (map (fun r => if bool_decide (svc_name r = name /\ svc_namespace r = namespace)
                             then service_gone now r else r) (tbl d)) d
  | MDeleteAliasWithSourceID id =>
      set_tbl (map (fun r => if bool_decide (svc_reference r = Some id) then service_gone now r else r) (tbl d)) d
  | MLockBootstrap (Ok bid) key server =>
      let n := Z.of_nat (count (fun r => str_eq (slk_lock_key r) key) (tbl d)) in
      if n =? 0 then d
      else set_tbl (map (fun r => if bool_decide (slk_lock_id r = Z.rem bid n + 1 /\ slk_lock_key r = key)
                                  then StartLockRow (slk_lock_id r) (slk_lock_key r) server (slk_mtime r)
                                  else r) (tbl d)) d
  | _ => d
  end.

Definition meant_all (now : Z) (ms : list method) (d : database) : database :=
  foldl (fun d m => meant now m d) d ms.

(** The methods that end the transaction, and the one error that does not
    doom it: [rand.Int] failed before anything was written. *)
Definition commits_by (m : method) : bool :=
  match m with MCommit | MDeleteNamespace _ => true | _ => false end.
Definition rand_failed (m : method) : bool :=
  match m with MLockBootstrap (Err _) _ _ => true | _ => false end.

(** No statement of the method has failed. *)
Definition clean (m : method) (r : res unit) : bool :=
  match r with Err _ => rand_failed m | _ => true end.

(** ** Facts *)

(** From a connection to a later one with the same transaction still pending. *)
Definition pending (c c' : conn database) : Prop :=
  committed c' = committed c /\ replica c' = replica c /\ tx_now c' = tx_now c /\
  (txst c' = txst c \/ txst c = TxOpen /\ txst c' = TxAborted).

#[export] Instance pending_preorder : PreOrder pending.
Proof.
  split.
  - intros c. repeat split. by left.
  - intros a b c (A1 & A2 & A3 & A4) (B1 & B2 & B3 & B4).
    repeat split; [congruence..|].
    destruct A4 as [A4|[A4 A4']], B4 as [B4|[B4 B4']]; rewrite ?A4, ?A4' in *; auto; congruence.
Qed.

(** Calls that only work in the transaction. *)
Class Inside `{Env} {A} (m : M database A) : Prop :=
  inside : forall c r c', m c = (r, c') -> pending c c'.
#[export] Hint Mode Inside - - ! : typeclass_instances.

(** Calls whose errors abort the transaction. *)
Class Aborting `{Env} {A} (m : M database A) : Prop :=
  aborting : forall c e c', txst c = TxOpen -> m c = (Err e, c') -> txst c' = TxAborted.
#[export] Hint Mode Aborting - - ! : typeclass_instances.

Section transaction_facts.
Context `{Env} `{PolarisApi}.
Abbreviation M := (M database).
Abbreviation P := (P database).

#[export] Instance inside_tx_Exec {A} (p : P A) : Inside (tx_Exec p).
Proof.
  intros c r c'. unfold tx_Exec. destruct (txst c) eqn:Et.
  - destruct (fault_at (calls c)) as [[e|e|n e]|];
      try (destruct (p (tx_now c) (work c)) as [[a d]|e'|w]);
      intros; simplify_eq; repeat split; simpl; auto.
  - intros; simplify_eq. repeat split. by left.
  - intros; simplify_eq. reflexivity.
Qed.

#[export] Instance inside_ret {A} (a : A) : Inside (Ret a).
Proof. intros c r c' [= _ <-]. reflexivity. Qed.
#[export] Instance inside_fail {A} e : Inside (A:=A) (Fail e).
Proof. intros c r c' [= _ <-]. reflexivity. Qed.
#[export] Instance inside_lift {A} (x : res A) : Inside (lift x).
Proof. intros c r c' [= _ <-]. reflexivity. Qed.

#[export] Instance inside_bind {A B} (m : M A) (f : A -> M B) :
  Inside m -> (forall a, Inside (f a)) -> Inside (Bind m f).
Proof.
  intros Hm Hf c r c'. unfold Bind. destruct (m c) as [[a|e|w] c1] eqn:E; intros Hr; simplify_eq.
  - etrans; [by eapply Hm|by eapply Hf].
  - by eapply Hm.
  - by eapply Hm.
Qed.

#[export] Instance inside_tx_Query {R} (sel : Z -> database -> res (list R)) : Inside (tx_Query sel).
Proof.
  intros c r c'. unfold tx_Query.
  destruct (txst c) eqn:Et; [destruct (fault_at (calls c)) as [[e|e|n e]|]|..]; try (apply inside_tx_Exec).
  intros; simplify_eq. repeat split; simpl. by right.
Qed.

#[export] Instance inside_tx_Prepare : Inside tx_Prepare.
Proof. apply inside_tx_Exec. Qed.

#[export] Instance inside_tx_QueryRow {R} (sel : Z -> database -> res (list R)) : Inside (tx_QueryRow sel).
Proof. unfold tx_QueryRow. apply inside_bind; [apply _|]. intros rs. by destruct (r_err rs), (r_data rs); apply _. Qed.

#[export] Instance aborting_tx_Exec {A} (p : P A) : Aborting (tx_Exec p).
Proof.
  intros c e c' Ho. unfold tx_Exec. rewrite Ho.
  destruct (fault_at (calls c)) as [[e'|e'|n e']|];
    try (destruct (p (tx_now c) (work c)) as [[a d]|e''|w]); intros; by simplify_eq.
Qed.
#[export] Instance aborting_tx_Prepare : Aborting tx_Prepare.
Proof. apply aborting_tx_Exec. Qed.

(** *** Methods *)

(** A method that leaves the transaction pending, and how it fails. *)
Definition proceeds {A} (m : TM A) : Prop := forall t c r t' c',
  m t c = (r, t', c') ->
  pending c c' /\ commit t' = commit t /\ (failed t = true -> failed t' = true) /\
  (txst c = TxOpen -> forall e, r = Err e -> failed t' = true \/ txst c' = TxAborted).

Lemma proceeds_call_failed {A} (m : M A) : Inside m -> proceeds (call (set_failed true) m).
Proof.
  intros Hm t c r t' c'. unfold call. destruct (m c) as [[a|e|w] c1] eqn:E; intros; simplify_eq;
    apply Hm in E; split_and!; try done; by left.
Qed.

Lemma proceeds_call_abort {A} f (m : M A) : Inside m -> Aborting m ->
  (forall t, commit (f t) = commit t) -> (forall t, failed t = true -> failed (f t) = true) ->
  proceeds (call f m).
Proof.
  intros Hm Ha Hf Hft t c r t' c'. unfold call. destruct (m c) as [[a|e|w] c1] eqn:E; intros; simplify_eq;
    pose proof (Hm _ _ _ E); split_and!; try done; auto.
  intros Ho e' [= <-]. right. by eapply Ha.
Qed.

Lemma proceeds_then {A B} (m : TM A) (f : A -> TM B) :
  proceeds m -> (forall a, proceeds (f a)) -> proceeds (then_ m f).
Proof.
  intros Hm Hf t c r t' c'. unfold then_. destruct (m t c) as [[[a|e|w] t1] c1] eqn:E; intros Hr; simplify_eq.
  - destruct (Hm _ _ _ _ _ E) as (Hp & Hc & Hfl & _), (Hf _ _ _ _ _ _ Hr) as (Hp' & Hc' & Hfl' & He).
    split; [by etrans|]. split; [congruence|]. split; [auto|]. intros Ho e ->.
    destruct Hp as (_ & _ & _ & [Ht|[_ Ht]]).
    + apply (He ltac:(congruence) e). done.
    + right. destruct Hp' as (_ & _ & _ & [Ht'|[Ht' _]]); congruence.
  - destruct (Hm _ _ _ _ _ E) as (Hp & Hc & Hfl & He). split_and!; try done.
    intros Ho e' [= <-]. by apply (He Ho e).
  - destruct (Hm _ _ _ _ _ E) as (Hp & Hc & Hfl & He). split_and!; done.
Qed.

Lemma proceeds_value {A} (x : res A) : (forall e, x <> Err e) -> proceeds (value x).
Proof. intros Hx t c r t' c' [= <- <- <-]. split_and!; [reflexivity|done|done|]. intros _ e He. by destruct (Hx e). Qed.

Lemma lock_id_no_err bid count e : lock_id bid count <> Err e.
Proof. unfold lock_id. by destruct (count =? 0). Qed.

Lemma proceeds_unless_finished {A} (m : TM A) :
  proceeds m -> forall t c r t' c', unless_finished m t c = (r, t', c') ->
  (finish t = Ok tt /\ m t c = (r, t', c')) \/ (is_Ok r = false /\ t' = t /\ c' = c /\ (failed t || commit t) = true).
Proof.
  intros Hm t c r t' c'. unfold unless_finished, finish. destruct (failed t || commit t) eqn:E; [|by left].
  intros. simplify_eq. by right.
Qed.

Lemma tx_Query_err {R} (sel : Z -> database -> res (list R)) c rs c' :
  txst c = TxOpen -> tx_Query sel c = (Ok rs, c') -> forall e, r_err rs = Some e -> txst c' = TxAborted.
Proof.
  intros Ho. unfold tx_Query, tx_Exec. rewrite Ho. intros Hr e He.
  destruct (fault_at (calls c)) as [[e'|e'|n e']|]; simpl in Hr; [done|done| |];
    destruct (sel (tx_now c) (work c)); by simplify_eq/=.
Qed.

Lemma tx_Query_abort {R} (sel : Z -> database -> res (list R)) c e c' :
  txst c = TxOpen -> tx_Query sel c = (Err e, c') -> txst c' = TxAborted.
Proof.
  intros Ho. unfold tx_Query, tx_Exec. rewrite Ho.
  destruct (fault_at (calls c)) as [[e'|e'|n e']|]; simpl; intros Hr; [by simplify_eq|by simplify_eq|..];
    destruct (sel (tx_now c) (work c)); by simplify_eq/=.
Qed.

(** [DeleteAliasWithSourceID] clears the flag only when it was clear. *)
Lemma alias_proceeds id t c r t' c' :
  DeleteAliasWithSourceID id t c = (r, t', c') ->
  pending c c' /\ commit t' = commit t /\ (failed t = true -> failed t' = true) /\
  (txst c = TxOpen -> commit t = false -> forall e, r = Err e -> failed t' = true \/ txst c' = TxAborted).
Proof.
  unfold DeleteAliasWithSourceID, unless_finished, finish.
  destruct (failed t || commit t) eqn:Ef.
  { intros. simplify_eq. split_and!; [reflexivity|done|done|]. intros _ Hc e _.
    rewrite Hc, orb_false_r in Ef. by left. }
  apply orb_false_iff in Ef as [Ef _]. rewrite Ef. unfold then_, call, keep_flags.
  destruct (tx_Prepare c) as [[a|e|w] c1] eqn:E1; intros Hr; simplify_eq.
  - pose proof (inside_tx_Prepare _ _ _ E1) as Hp.
    destruct (tx_Exec (delete_aliases id) c1) as [[a'|e|w] c2] eqn:E2; simplify_eq;
      pose proof (inside_tx_Exec _ _ _ _ E2) as Hp2;
      (split_and!; [by etrans|done|done|]); [done| |done].
    intros Ho _ e' [= <-]. right. destruct Hp as (_ & _ & _ & [Ht|[_ Ht]]).
    + eapply (aborting_tx_Exec _ c1); [congruence|done].
    + destruct Hp2 as (_ & _ & _ & [Ht'|[Ht' _]]); congruence.
  - pose proof (inside_tx_Prepare _ _ _ E1) as Hp. split_and!; [done|done|done|].
    intros Ho _ e' [= <-]. right. by eapply (aborting_tx_Prepare c).
  - pose proof (inside_tx_Prepare _ _ _ E1) as Hp. split_and!; done.
Qed.

Lemma proceeds_LockBootstrap bid key server :
  (forall e, bid <> Err e) -> proceeds (LockBootstrap bid key server).
Proof.
  intros Hb. unfold LockBootstrap. apply proceeds_then; [apply proceeds_call_failed, _|].
  intros count. apply proceeds_then; [by apply proceeds_value|]. intros b'.
  apply proceeds_then; [apply proceeds_value; intros; apply lock_id_no_err|]. intros id.
  apply proceeds_then; [apply proceeds_call_abort; try apply _; done|].
  intros _. apply proceeds_call_failed, _.
Qed.

Lemma proceeds_finished {A} (m : TM A) : proceeds m ->
  forall t c r t' c', unless_finished m t c = (r, t', c') ->
  pending c c' /\ commit t' = commit t /\ (failed t = true -> failed t' = true) /\
  (txst c = TxOpen -> commit t = false -> forall e, r = Err e -> failed t' = true \/ txst c' = TxAborted).
Proof.
  intros Hm t c r t' c' Hr. destruct (proceeds_unless_finished m Hm _ _ _ _ _ Hr) as [[_ H']|(Hn & -> & -> & Hf)].
  - destruct (Hm _ _ _ _ _ H') as (?&?&?&Hx). split_and!; [done..|]. intros Ho _. by apply Hx.
  - split_and!; [reflexivity|done|done|]. intros _ Hc e ->. rewrite Hc, orb_false_r in Hf. by left.
Qed.

Lemma quiet_eq {A} (m : TM A) t c r t' c' :
  quiet m t c = (r, t', c') -> exists r', m t c = (r', t', c') /\ (forall e, r = Err e -> r' = Err e).
Proof.
  unfold quiet, then_, value. destruct (m t c) as [[[a|e|w] t1] c1]; intros; simplify_eq;
    eexists; (split; [done|]); congruence.
Qed.

Lemma step_pending m t c r t' c' :
  commits_by m = false -> step m t c = (r, t', c') ->
  pending c c' /\ commit t' = commit t /\ (failed t = true -> failed t' = true) /\
  (txst c = TxOpen -> commit t = false -> rand_failed m = false ->
     forall e, r = Err e -> failed t' = true \/ txst c' = TxAborted).
Proof.
  intros Hm Hr.
  assert (forall A (k : TM A), proceeds k -> forall r', k t c = (r', t', c') ->
    (forall e, r = Err e -> r' = Err e) ->
    pending c c' /\ commit t' = commit t /\ (failed t = true -> failed t' = true) /\
    (txst c = TxOpen -> commit t = false -> rand_failed m = false ->
       forall e, r = Err e -> failed t' = true \/ txst c' = TxAborted)) as Hk.
  { intros A k Hk r' Hr' He. destruct (Hk _ _ _ _ _ Hr') as (?&?&?&Hx). split_and!; eauto. }
  assert (forall A (k : TM A), proceeds k -> forall r', unless_finished k t c = (r', t', c') ->
    (forall e, r = Err e -> r' = Err e) ->
    pending c c' /\ commit t' = commit t /\ (failed t = true -> failed t' = true) /\
    (txst c = TxOpen -> commit t = false -> rand_failed m = false ->
       forall e, r = Err e -> failed t' = true \/ txst c' = TxAborted)) as Hu.
  { intros A k Hp r' Hr' He. destruct (proceeds_finished k Hp _ _ _ _ _ Hr') as (?&?&?&Hx). split_and!; eauto. }
  destruct m as [|bid key server|name|name|name|name ns|name ns|ids|name ns|id]; try discriminate Hm; simpl in Hr.
  - destruct bid as [b|e|w].
    + eapply Hk; [|exact Hr|done]. by apply proceeds_LockBootstrap.
    + unfold LockBootstrap, then_ in Hr. destruct (call _ _ t c) as [[r1 t1] c1] eqn:E.
      apply (proceeds_call_failed _ _) in E as (Hp & Hc & Hf & _).
      destruct r1; unfold value in Hr; simplify_eq; split_and!; done.
    + eapply Hk; [|exact Hr|done]. by apply proceeds_LockBootstrap.
  - apply quiet_eq in Hr as (r' & Hr & He). eapply Hu; [|exact Hr|done]. apply proceeds_call_failed, _.
  - apply quiet_eq in Hr as (r' & Hr & He). eapply Hu; [|exact Hr|done]. apply proceeds_call_failed, _.
  - apply quiet_eq in Hr as (r' & Hr & He). eapply Hu; [|exact Hr|done]. apply proceeds_call_failed, _.
  - apply quiet_eq in Hr as (r' & Hr & He). eapply Hu; [|exact Hr|done]. apply proceeds_call_failed, _.
  - apply quiet_eq in Hr as (r' & Hr & He). eapply Hk; [|exact Hr|done].
    apply proceeds_call_abort; [| |done|done].
    + apply inside_bind; [apply _|]. intros rs. destruct (r_err rs); apply _.
    + intros c0 e c0' Ho. unfold Bind. destruct (tx_Query _ c0) as [[rs|e'|w] c1] eqn:E.
      * pose proof (tx_Query_err _ _ _ _ Ho E) as Hx. destruct (r_err rs); intros [= -> <-]. by apply (Hx e).
      * intros [= -> <-]. by eapply tx_Query_abort.
      * done.
  - eapply Hu; [|exact Hr|done]. apply proceeds_then; [apply proceeds_call_abort; try apply _; done|].
    intros _. apply proceeds_call_abort; try apply _; done.
  - destruct (alias_proceeds id _ _ _ _ _ Hr) as (?&?&Hx&Hy). split_and!; [done..|]. intros Ho Hc _. by apply Hy.
Qed.

(** What [Commit] does. *)
Lemma commit_step t c r t' c' :
  transaction_Commit t c = (r, t', c') ->
  replica c' = replica c /\ tx_now c' = tx_now c /\ commit t' = true /\ failed t' = failed t /\
  (commit t = true -> c' = c) /\
  (commit t = false -> txst c' = TxDone /\
     (committed c' = committed c \/
      failed t = false /\ txst c = TxOpen /\ committed c' = work c)).
Proof.
  unfold transaction_Commit. destruct (commit t) eqn:Ec; [intros; by simplify_eq|].
  destruct (failed t) eqn:Ef.
  - destruct (Rollback_frame c) as (H1 & H2 & H3 & H4 & H5).
    destruct (Rollback c) as [r1 c1]. simpl in *. intros. simplify_eq. split_and!; try done. by split; [|left].
  - unfold Commit. destruct (txst c) eqn:Et; [destruct (fault_at (calls c)) as [[e|e|n e]|]|..];
      intros; simplify_eq; split_and!; try done; simpl; (split; [done|]); auto.
Qed.

Lemma delete_namespace_step name t c r t' c' :
  DeleteNamespace name t c = (r, t', c') ->
  (pending c c' /\ commit t' = commit t /\ (failed t = true -> failed t' = true) /\
     (txst c = TxOpen -> commit t = false -> forall e, r = Err e -> failed t' = true \/ txst c' = TxAborted)) \/
  (exists t1 c1, pending c c1 /\ commit t = false /\ failed t = false /\ commit t1 = false /\
     transaction_Commit t1 c1 = (r, t', c')).
Proof.
  unfold DeleteNamespace, unless_finished, finish. destruct (failed t || commit t) eqn:Ef.
  { intros. simplify_eq. left. split_and!; [reflexivity|done|done|]. intros _ Hc e _.
    rewrite Hc, orb_false_r in Ef. by left. }
  apply orb_false_iff in Ef as [Ef Ec]. unfold then_ at 1. unfold call at 1, keep_flags.
  destruct (tx_Prepare c) as [[a|e|w] c1] eqn:E1; intros Hr; simplify_eq;
    pose proof (inside_tx_Prepare _ _ _ E1) as Hp.
  - unfold call in Hr. destruct (tx_Exec (delete_namespace name) c1) as [[a'|e|w] c2] eqn:E2;
      pose proof (inside_tx_Exec _ _ _ _ E2) as Hp2.
    + right. exists t, c2. split_and!; try done. by etrans.
    + right. exists (set_failed true t), c2. split_and!; try done. by etrans.
    + simplify_eq. left. split_and!; [by etrans|done|done|done].
  - left. split_and!; [done|done|done|]. intros Ho _ e' [= <-]. right. by eapply (aborting_tx_Prepare c).
  - left. split_and!; done.
Qed.

(** Once this holds nothing is committed any more. *)
Definition doomed (t : transaction) (c : conn database) : Prop :=
  failed t = true \/ txst c <> TxOpen.

Lemma doomed_step m t c r t' c' :
  doomed t c -> step m t c = (r, t', c') -> committed c' = committed c /\ doomed t' c'.
Proof.
  intros Hd Hr.
  assert (forall t1 c1, doomed t1 c1 -> transaction_Commit t1 c1 = (r, t', c') ->
    committed c' = committed c1 /\ doomed t' c') as Hcommit.
  { intros t1 c1 Hd1 (C1 & C2 & C3 & C4 & C5 & C6)%commit_step. unfold doomed. rewrite C4.
    destruct (commit t1); [rewrite (C5 eq_refl); done|].
    destruct (C6 eq_refl) as [Hdone [Hc|(Hf & Ho & _)]].
    - split; [done|right]. congruence.
    - destruct Hd1; congruence. }
  assert (forall t1 c1, pending c c1 -> (failed t = true -> failed t1 = true) -> doomed t1 c1) as Hpend.
  { intros t1 c1 (_ & _ & _ & P4) Hf. destruct Hd as [Hd|Hd]; [left; auto|right].
    destruct P4 as [P4|[_ P4]]; congruence. }
  destruct (commits_by m) eqn:Em.
  - destruct m; try discriminate Em.
    + by apply (Hcommit t c).
    + apply delete_namespace_step in Hr as [(Hp & Hc & Hf & _)|(t1 & c1 & Hp & Hc & Hf & Hc1 & Hr)].
      * split; [apply Hp|by apply Hpend].
      * apply Hcommit in Hr; [destruct Hr as [-> ?]; split; [apply Hp|done]|].
        apply Hpend; [done|]. congruence.
  - apply step_pending in Hr as (Hp & Hc & Hf & _); [|done]. split; [apply Hp|by apply Hpend].
Qed.

Lemma doomed_run ms t c t' c' : doomed t c -> run ms t c = (t', c') -> committed c' = committed c.
Proof.
  revert t c. induction ms as [|m ms IH]; intros t c Hd; simpl; [by intros [= _ <-]|].
  destruct (step m t c) as [[r t1] c1] eqn:E. intros Hr.
  destruct (doomed_step _ _ _ _ _ _ Hd E) as [<- Hd1]. by eapply IH.
Qed.

(** *** What the methods do while nothing has failed *)

Lemma tx_Exec_exact {A} (p : P A) c r c' : txst c = TxOpen -> tx_Exec p c = (r, c') ->
  match r with
  | Ok a => txst c' = TxOpen /\ tx_now c' = tx_now c /\ p (tx_now c) (work c) = Ok (a, work c')
  | Err _ => txst c' = TxAborted
  | Panic w => txst c' = TxOpen /\ work c' = work c /\ p (tx_now c) (work c) = Panic w
  end.
Proof.
  intros Ho. unfold tx_Exec. rewrite Ho.
  destruct (fault_at (calls c)) as [[e|e|n e]|]; try (destruct (p (tx_now c) (work c)) as [[a d]|e'|w] eqn:E);
    intros; simplify_eq; simpl; auto.
Qed.

Lemma tx_Query_exact {R} (sel : Z -> database -> res (list R)) c r c' : txst c = TxOpen ->
  tx_Query sel c = (r, c') -> work c' = work c /\
  match r with
  | Ok rs => txst c' = TxOpen \/ exists e, r_err rs = Some e
  | Err _ => txst c' = TxAborted
  | Panic w => sel (tx_now c) (work c) = Panic w
  end.
Proof.
  intros Ho. unfold tx_Query, tx_Exec, p_read, res_map. rewrite Ho.
  destruct (fault_at (calls c)) as [[e|e|n e]|]; try (destruct (sel (tx_now c) (work c)) as [l|e'|w] eqn:E);
    intros; simplify_eq/=; rewrite ?E; simpl; eauto.
Qed.

Definition is_Err {A} (r : res A) : bool := match r with Err _ => true | _ => false end.

(** Begun with nothing failed, [m] does [w] to the content, or fails for good. *)
Definition exact {A} (m : TM A) (w : Z -> database -> database) : Prop := forall t c r t' c',
  failed t = false -> commit t = false -> txst c = TxOpen -> m t c = (r, t', c') ->
  (is_Err r = true /\ doomed t' c') \/
  (is_Err r = false /\ t' = t /\ txst c' = TxOpen /\ tx_now c' = tx_now c /\ work c' = w (tx_now c) (work c)).

Lemma exact_unless_finished {A} (m : TM A) w : exact m w -> exact (unless_finished m) w.
Proof.
  intros Hm t c r t' c' Hf Hc Ho. unfold unless_finished, finish. rewrite Hf, Hc. by apply Hm.
Qed.

Lemma exact_quiet {A} (m : TM A) w : exact m w -> exact (quiet m) w.
Proof.
  intros Hm t c r t' c' Hf Hc Ho. unfold quiet, then_, value. destruct (m t c) as [[r0 t0] c0] eqn:E.
  pose proof (Hm _ _ _ _ _ Hf Hc Ho E) as Hx. destruct r0; intros; simplify_eq; exact Hx.
Qed.

(** A statement after its Prepare. *)
Lemma exact_statement f (p : P unit) w : (forall now d u d', p now d = Ok (u, d') -> d' = w now d) ->
  (forall now d x, p now d <> Panic x) ->
  exact (then_ (call keep_flags tx_Prepare) (fun _ => call f (tx_Exec p))) w.
Proof.
  intros Hp Hn t c r t' c' Hf Hc Ho. unfold then_, call. destruct (tx_Prepare c) as [r1 c1] eqn:E1.
  pose proof (inside_tx_Prepare _ _ _ E1) as (_ & _ & Hnow1 & _).
  apply tx_Exec_exact in E1; [|done]. destruct r1 as [u|e|x]; [|intros; simplify_eq; left; split; [done|right; congruence]|].
  2:{ destruct E1 as (_ & _ & E1). discriminate E1. }
  destruct E1 as (Ho1 & _ & [= _ Hw1]). destruct (tx_Exec p c1) as [r2 c2] eqn:E2.
  apply tx_Exec_exact in E2; [|done]. destruct r2 as [u2|e|x]; intros; simplify_eq.
  - right. destruct E2 as (Ho2 & Hnow2 & E2). apply Hp in E2.
    split_and!; [done..|congruence|]. rewrite E2. congruence.
  - left. split; [done|right; congruence].
  - destruct E2 as (_ & _ & E2). by destruct (Hn _ _ _ E2).
Qed.

(** A SELECT whose broken result set is an error. *)
Lemma exact_select {R A} f (sel : Z -> database -> res (list R)) (k : rows R -> res A) :
  (forall rs e, r_err rs = Some e -> is_Err (k rs) = true) -> (forall now d x, sel now d <> Panic x) ->
  (forall t, failed t = false -> failed (f t) = true \/ forall rs e, k rs = Err e -> r_err rs <> None) ->
  exact (call f (rs <- tx_Query sel ;; lift (k rs))) (fun _ d => d).
Proof.
  intros Hk Hsel Hf t c r t' c' Ht Hc Ho. unfold call, Bind. destruct (tx_Query sel c) as [r1 c1] eqn:E1.
  pose proof (inside_tx_Query _ _ _ _ E1) as (_ & _ & Hnow & _).
  pose proof (fun rs => tx_Query_err sel c rs c1 Ho) as Hab.
  pose proof E1 as Eq1. apply tx_Query_exact in E1 as [Hw E1]; [|done].
  destruct r1 as [rs|e|x]; [|intros; simplify_eq; left; split; [done|right; congruence]|by destruct (Hsel _ _ _ E1)].
  unfold lift. destruct (k rs) as [a|e|x] eqn:Ek; intros; simplify_eq.
  - right. destruct E1 as [E1|[e E1]]; [done|]. apply Hk in E1. by rewrite Ek in E1.
  - left. split; [done|]. destruct (Hf t Ht) as [Hft|Hft]; [by left|right].
    destruct (r_err rs) as [e'|] eqn:Er; [|by destruct (Hft rs e Ek)].
    by rewrite (Hab rs Eq1 e' Er).
  - right. destruct E1 as [E1|[e E1]]; [done|]. apply Hk in E1. by rewrite Ek in E1.
Qed.

Lemma fetch_rows_broken {R A} (scan : R -> res A) rs e : (forall r x, scan r <> Panic x) ->
  r_err rs = Some e -> is_Err (fetch_rows scan rs) = true.
Proof.
  intros Hs Hr. unfold fetch_rows. rewrite Hr.
  assert (forall l x, scan_all scan l <> Panic x) as Ha.
  { induction l as [|r l IH]; intros x; simpl; [done|]. destruct (scan r) as [a|e'|x'] eqn:E; simpl; [|done|by destruct (Hs r x')].
    destruct (scan_all scan l) as [l'|e'|x'] eqn:E'; simpl; [done..|by destruct (IH x')]. }
  destruct (scan_all scan (r_data rs)) as [l|e'|x] eqn:E; simpl; [done..|by destruct (Ha _ _ E)].
Qed.
Lemma change_as_map {R} (w : R -> bool) (Q : R -> Prop) `{!forall r, Decision (Q r)} (f g : R -> R) l :
  (forall r, w r = true <-> Q r) -> (forall r, f r = g r) ->
  change w f l = map (fun r => if bool_decide (Q r) then g r else r) l.
Proof.
  intros Hw Hf. unfold change. apply map_ext. intros r. rewrite Hf. destruct (w r) eqn:E.
  - by rewrite bool_decide_true by by apply Hw.
  - rewrite bool_decide_false; [done|]. rewrite <- Hw. congruence.
Qed.

Lemma update_panics_not {R} `{!Table R} w (f : Z -> R -> R) now (d : database) x : p_void (sql_update w f) now d <> Panic x.
Proof. unfold p_void, p_bind, sql_update. by case_match. Qed.

(** An UPDATE after its Prepare, in the words of the specification. *)
Lemma exact_update {R} `{!Table R} g (w : R -> bool) (Q : R -> Prop) `{!forall r, Decision (Q r)} (f f' : Z -> R -> R) :
  (forall r, w r = true <-> Q r) -> (forall now r, f now r = f' now r) ->
  exact (then_ (call keep_flags tx_Prepare) (fun _ => call g (tx_Exec (p_void (sql_update w f)))))
    (fun now d => set_tbl (map (fun r => if bool_decide (Q r) then f' now r else r) (tbl d)) d).
Proof.
  intros Hw Hf. apply exact_statement; [|apply update_panics_not].
  intros now d u d' (n & [-> _]%update_Ok_inv)%p_void_Ok. by rewrite (change_as_map w Q _ (f' now)).
Qed.

Lemma refers_to_iff id r : refers_to id r = true <-> svc_reference r = Some id.
Proof. unfold refers_to. destruct (svc_reference r) as [x|]; [rewrite str_eq_true|]; split; congruence. Qed.
Lemma is_named_iff name namespace r : is_named name namespace r = true <-> svc_name r = name /\ svc_namespace r = namespace.
Proof. unfold is_named. by rewrite andb_true_iff, !str_eq_true. Qed.

Lemma scan_string_safe o x : scan_string o <> Panic x.
Proof. by destruct o. Qed.
Lemma res_bind_safe {A B} (x : res A) (f : A -> res B) w :
  (forall w, x <> Panic w) -> (forall a, f a <> Panic w) -> res_bind x f <> Panic w.
Proof. intros Hx Hf. destruct x as [a|e|w']; simpl; [done..|by destruct (Hx w')]. Qed.

Lemma scan_namespace_safe r x : scan_namespace r <> Panic x.
Proof. unfold scan_namespace. repeat (apply res_bind_safe; [apply scan_string_safe|intros ?]). done. Qed.
Lemma scan_service_safe r x : scan_service r <> Panic x.
Proof. unfold scan_service. repeat (apply res_bind_safe; [apply scan_string_safe|intros ?]). done. Qed.

(** The methods that read. *)
Lemma exact_valid {R A} (sel : database -> list R) (scan : R -> res A) : (forall r x, scan r <> Panic x) ->
  exact (quiet (unless_finished (call (set_failed true) (
    rs <- tx_Query (fun _ d => Ok (sel d)) ;; out <- lift (fetch_rows scan rs) ;; Ret (head out))))) (fun _ d => d).
Proof.
  intros Hs. apply exact_quiet, exact_unless_finished.
  intros t c r t' c' Hf Hc Ho Hr.
  refine (exact_select (set_failed true) (fun _ d => Ok (sel d))
    (fun rs => res_bind (fetch_rows scan rs) (fun out => Ok (head out))) _ _ _ t c r t' c' Hf Hc Ho _); try done.
  - intros rs e He. pose proof (fetch_rows_broken scan rs e Hs He) as Hb. by destruct (fetch_rows scan rs).
  - intros t1 _. by left.
  - rewrite <- Hr. unfold call, Bind, lift, Ret. destruct (tx_Query _ c) as [[rs|e|x] c1]; [|done..].
    by destruct (fetch_rows scan rs).
Qed.

Lemma exact_BatchRLockServices ids : exact (quiet (BatchRLockServices ids)) (fun _ d => d).
Proof.
  apply exact_quiet. intros t c r t' c' Hf Hc Ho Hr.
  refine (exact_select keep_flags (fun _ d => match ids with [] => Err syntax_error
      | _ => Ok (sql_select (fun r => bool_decide (svc_id r ∈ ids) && negb (svc_flag r =? 1)) d) end)
    (fun rs => match r_err rs with Some e => Err e | None => Ok (fold_left rlock_row (r_data rs) ∅) end)
    _ _ _ t c r t' c' Hf Hc Ho _); try done.
  - intros rs e He. by rewrite He.
  - intros _ d x. by destruct ids.
  - intros t1 _. right. intros rs e. by destruct (r_err rs).
  - rewrite <- Hr. unfold BatchRLockServices, call, Bind, lift. destruct (tx_Query _ c) as [[rs|e|x] c1]; [|done..].
    by destruct (r_err rs).
Qed.

Lemma void_tx_Exec {A} (p : P A) (c : conn database) : void (tx_Exec p) c = tx_Exec (p_void p) c.
Proof.
  unfold void, Bind, tx_Exec, p_void, p_bind, Ret. destruct (txst c); [|done..].
  destruct (fault_at (calls c)) as [[]|]; try done; by destruct (p (tx_now c) (work c)) as [[]| |].
Qed.

(** [LockBootstrap]; an error of the random source changes nothing. *)
Lemma exact_LockBootstrap bid key server : is_Err bid = false ->
  exact (LockBootstrap bid key server) (fun now => meant now (MLockBootstrap bid key server)).
Proof.
  intros Hb t c r t' c' Hf Hc Ho. unfold LockBootstrap, then_ at 1, call at 1.
  destruct (tx_QueryRow _ c) as [r1 c1] eqn:E1. unfold tx_QueryRow, Bind in E1.
  destruct (tx_Query _ c) as [r2 c2] eqn:E2. pose proof (inside_tx_Query _ _ _ _ E2) as (_ & _ & Hnow & _).
  assert (E2' := E2). apply tx_Query_exact in E2 as [Hw E2]; [|done].
  destruct r2 as [rs|e|x]; [|simplify_eq; intros; simplify_eq; left; split; [done|by left]|done].
  unfold lift in E1. injection E1 as <- <-.
  destruct E2 as [Hopen|[e He]].
  2:{ unfold first_row. rewrite He. intros; simplify_eq. left. split; [done|by left]. }
  assert (first_row rs = Ok (Z.of_nat (Schema.count_rows (locks key) (work c))) \/ exists e, first_row rs = Err e) as [Hrs|[e He]].
  { unfold tx_Query, tx_Exec in E2'. rewrite Ho in E2'. unfold first_row.
    destruct (fault_at (calls c)) as [[e|e|n e]|]; simplify_eq/=; eauto. }
  2:{ rewrite He. intros; simplify_eq. left. split; [done|by left]. }
  rewrite Hrs. unfold then_ at 1, value. destruct bid as [b|e|x]; [|done|].
  2:{ intros; simplify_eq. right. by split_and!. }
  unfold then_ at 1, lock_id. simpl meant. fold (locks key).
  change (count (locks key) (tbl (work c))) with (Schema.count_rows (locks key) (work c)).
  destruct (Z.eqb_spec (Z.of_nat (Schema.count_rows (locks key) (work c))) 0) as [E|E].
  { intros; simplify_eq. right. by split_and!. }
  intros Hr. set (id := Z.rem b (Z.of_nat (Schema.count_rows (locks key) (work c))) + 1) in *.
  pose proof (exact_update (set_failed true) (fun r => (slk_lock_id r =? id) && locks key r)
    (fun r => slk_lock_id r = id /\ slk_lock_key r = key) (fun _ => take_lock server) (fun _ => take_lock server)) as Hx.
  assert (forall r, (slk_lock_id r =? id) && locks key r = true <-> slk_lock_id r = id /\ slk_lock_key r = key) as Hi.
  { intros r0. unfold locks. by rewrite andb_true_iff, Z.eqb_eq, str_eq_true. }
  destruct (Hx Hi (fun _ _ => eq_refl) t c2 r t' c' Hf Hc Hopen) as [?|(Hr1 & Ht & Ho1 & Hn1 & Hw1)].
  - rewrite <- Hr. unfold then_, call. destruct (tx_Prepare c2) as [[u|e|x] c3]; [|done..].
    by rewrite void_tx_Exec.
  - by left.
  - right. split_and!; try done; [congruence|]. by rewrite Hw1, Hw.
Qed.

Lemma step_exact m : commits_by m = false -> rand_failed m = false -> exact (step m) (fun now => meant now m).
Proof.
  intros Hm Hrand. destruct m as [|bid key server|name|name|name|name ns|name ns|ids|name ns|id]; try discriminate Hm; simpl step.
  - apply exact_LockBootstrap. by destruct bid.
  - apply (exact_valid (sql_select _) scan_namespace), scan_namespace_safe.
  - apply (exact_valid (sql_select _) scan_namespace), scan_namespace_safe.
  - apply (exact_valid (sql_select _) scan_service), scan_service_safe.
  - apply (exact_valid (sql_select _) scan_service), scan_service_safe.
  - apply exact_BatchRLockServices.
  - apply exact_unless_finished, exact_update; [apply is_named_iff|done].
  - apply exact_unless_finished, exact_update; [apply refers_to_iff|done].
Qed.

Lemma step_clean m t c r t' c' : commits_by m = false ->
  failed t = false -> commit t = false -> txst c = TxOpen -> step m t c = (r, t', c') ->
  (is_Err r = true /\ doomed t' c') \/
  (clean m r = true /\ t' = t /\ txst c' = TxOpen /\ tx_now c' = tx_now c /\ work c' = meant (tx_now c) m (work c)).
Proof.
  intros Hm Hf Hc Ho Hr. destruct (rand_failed m) eqn:Hrand.
  - destruct m as [|[b|e|w] key server| | | | | | | |]; try discriminate Hrand. simpl in Hr.
    unfold LockBootstrap, then_ at 1 in Hr.
    pose proof (fun w => exact_LockBootstrap (Panic w) key server eq_refl t c) as Hx.
    unfold LockBootstrap, then_ at 1 in Hx. destruct (call _ _ t c) as [[r1 t1] c1] eqn:E.
    destruct r1 as [n|e1|w]; unfold then_, value in *; simplify_eq.
    + destruct (Hx ""%string _ _ _ Hf Hc Ho eq_refl) as [[Hbad _]|(_ & ? & ? & ? & ?)]; [done|]. by right.
    + destruct (Hx ""%string _ _ _ Hf Hc Ho eq_refl) as [[_ Hd]|[Hbad _]]; [by left|done].
    + destruct (Hx ""%string _ _ _ Hf Hc Ho eq_refl) as [[Hbad _]|(_ & ? & ? & ? & ?)]; [done|]. by right.
  - destruct (step_exact m Hm Hrand _ _ _ _ _ Hf Hc Ho Hr) as [?|(He & ?)]; [by left|right].
    split; [|done]. unfold clean. by destruct r.
Qed.

(** Calls that do not commit. *)
Lemma run_methods_app ms ms' t c : run (ms ++ ms') t c = let '(t', c') := run ms t c in run ms' t' c'.
Proof.
  revert t c. induction ms as [|m ms IH]; intros t c; simpl; [done|].
  destruct (step m t c) as [[r t1] c1]. apply IH.
Qed.

Lemma results_app ms ms' t c : results (ms ++ ms') t c =
  results ms t c ++ let '(t', c') := run ms t c in results ms' t' c'.
Proof.
  revert t c. induction ms as [|m ms IH]; intros t c; simpl; [done|].
  destruct (step m t c) as [[r t1] c1]. by rewrite IH.
Qed.

Lemma length_results ms t c : length (results ms t c) = length ms.
Proof. revert t c. induction ms as [|m ms IH]; intros t c; simpl; [done|]. destruct (step m t c) as [[r t1] c1]. simpl. by rewrite IH. Qed.

Lemma pending_run ms t c t' c' : forallb (fun m => negb (commits_by m)) ms = true -> run ms t c = (t', c') ->
  pending c c' /\ commit t' = commit t.
Proof.
  revert t c. induction ms as [|m ms IH]; intros t c Hm; simpl; [by intros [= <- <-]|].
  simpl in Hm. apply andb_true_iff in Hm as [Hm%negb_true_iff Hms].
  destruct (step m t c) as [[r t1] c1] eqn:E. intros Hr.
  apply step_pending in E as (Hp & Hc & _); [|done]. destruct (IH _ _ Hms Hr) as [Hp' Hc']. split; [by etrans|congruence].
Qed.

Lemma clean_run ms t c t' c' : forallb (fun m => negb (commits_by m)) ms = true ->
  failed t = false -> commit t = false -> txst c = TxOpen -> run ms t c = (t', c') ->
  (existsb is_Err (results ms t c) = true /\ doomed t' c') \/
  (Forall2 (fun m r => clean m r = true) ms (results ms t c) /\ t' = t /\ txst c' = TxOpen /\
   tx_now c' = tx_now c /\ work c' = meant_all (tx_now c) ms (work c)).
Proof.
  revert t c. induction ms as [|m ms IH]; intros t c Hm Hf Hc Ho; simpl.
  { intros [= <- <-]. right. split_and!; try done; constructor. }
  simpl in Hm. apply andb_true_iff in Hm as [Hm%negb_true_iff Hms].
  destruct (step m t c) as [[r t1] c1] eqn:E. intros Hr. simpl.
  destruct (step_clean m t c r t1 c1 Hm Hf Hc Ho E) as [[He Hd]|(Hcl & -> & Ho1 & Hn1 & Hw1)].
  - left. rewrite He. split; [done|]. clear -Hd Hr. revert t1 c1 Hd Hr.
    induction ms as [|m ms IH]; intros t1 c1 Hd; simpl; [by intros [= <- <-]|].
    destruct (step m t1 c1) as [[r2 t2] c2] eqn:E2. intros Hr. apply doomed_step in E2 as [_ Hd2]; [|done]. by eapply IH.
  - destruct (IH _ _ Hms Hf Hc Ho1 Hr) as [[He Hd]|(Hcls & Ht & Ho' & Hn' & Hw')].
    + left. rewrite He. by rewrite orb_true_r.
    + right. split_and!; [by constructor|done|done|congruence|]. by rewrite Hw', Hn1, Hw1.
Qed.

(** [DeleteNamespace] fails for good, or commits what it has written. *)
Lemma delete_namespace_exact name t c r t' c' :
  failed t = false -> commit t = false -> txst c = TxOpen -> DeleteNamespace name t c = (r, t', c') ->
  (doomed t' c' /\ committed c' = committed c) \/
  exists c2, txst c2 = TxOpen /\ committed c2 = committed c /\
    work c2 = meant (tx_now c) (MDeleteNamespace name) (work c) /\ transaction_Commit t c2 = (r, t', c').
Proof.
  intros Hf Hc Ho. unfold DeleteNamespace, unless_finished, finish. rewrite Hf, Hc. simpl.
  unfold then_, call. destruct (tx_Prepare c) as [r1 c1] eqn:E1.
  pose proof (inside_tx_Prepare _ _ _ E1) as (Hp1 & _ & Hn1 & _). apply tx_Exec_exact in E1; [|done].
  destruct r1 as [u|e|x]; [|intros; simplify_eq; left; split; [right; congruence|done]|by destruct E1 as (_ & _ & ?)].
  destruct E1 as (Ho1 & _ & [= _ Hw1]). destruct (tx_Exec (delete_namespace name) c1) as [r2 c2] eqn:E2.
  pose proof (inside_tx_Exec _ _ _ _ E2) as (Hp2 & _ & _ & _). apply tx_Exec_exact in E2; [|done].
  destruct r2 as [u2|e|x]; intros Hr.
  - right. exists c2. destruct E2 as (Ho2 & _ & (n & [Hw2 _]%update_Ok_inv)%p_void_Ok).
    split_and!; [done|congruence| |done]. rewrite Hw2, Hn1, <- Hw1.
    by rewrite (change_as_map _ (fun r => ns_name r = name) _ (namespace_gone (tx_now c)) _
      (fun r => str_eq_true _ _) (fun _ => eq_refl)).
  - left. destruct (doomed_step MCommit (set_failed true t) c2 r t' c') as [Hcm Hd]; [by left|exact Hr|].
    split; [done|congruence].
  - destruct E2 as (_ & _ & E2). by destruct (update_panics_not _ _ _ _ _ E2).
Qed.

(** The method that ends the transaction. *)
Lemma commit_method m t c r t' c' : commits_by m = true ->
  failed t = false -> commit t = false -> txst c = TxOpen -> step m t c = (r, t', c') ->
  doomed t' c' /\ (committed c' = committed c \/ committed c' = meant (tx_now c) m (work c)) /\
  (m = MCommit -> r = Ok tt -> committed c' = work c).
Proof.
  intros Hm Hf Hc Ho Hr.
  assert (forall c1, transaction_Commit t c1 = (r, t', c') ->
    doomed t' c' /\ (committed c' = committed c1 \/ committed c' = work c1)) as Hend.
  { intros c1 (_ & _ & _ & _ & _ & Hx)%commit_step. destruct (Hx Hc) as [Hd Hcm].
    split; [right; congruence|]. destruct Hcm as [?|(_ & _ & ?)]; auto. }
  destruct m as [| | | |name| | | | |]; try discriminate Hm; simpl in Hr.
  - destruct (Hend c Hr) as [Hd Hcm]. split_and!; [done|done|]. intros _ ->.
    unfold transaction_Commit, Commit in Hr. rewrite Hc, Hf, Ho in Hr.
    destruct (fault_at (calls c)) as [[]|]; by simplify_eq.
  - destruct (delete_namespace_exact _ _ _ _ _ _ Hf Hc Ho Hr) as [[Hd Hcm]|(c2 & _ & Hcm2 & Hw & Hr2)].
    + split_and!; [done|by left|done].
    + destruct (Hend c2 Hr2) as [Hd Hcm]. split_and!; [done| |done]. destruct Hcm as [->| ->]; auto.
Qed.

(** What [CreateTransaction] returns, and the replica afterwards. *)
Lemma CreateTransaction_begins (c0 c1 : conn database) t0 : CreateTransaction c0 = (Ok t0, c1) ->
  t0 = mkTransaction false false /\ txst c1 = TxOpen /\ work c1 = committed c0 /\
  committed c1 = committed c0 /\ replica c1 = replica c0.
Proof.
  intros Hc. unfold CreateTransaction in Hc. apply Bind_Ok in Hc as ([] & cp & Hp & Hc).
  apply Bind_Ok in Hc as ([] & c2 & Hb & Hc). unfold Ret in Hc. simplify_eq.
  apply Begin_spec in Hb as ([Hd Hre] & _ & Ho). destruct (Ho eq_refl) as [Hopen Hw].
  assert (committed cp = committed c0 /\ replica cp = replica c0) as [Hpc Hpr].
  { unfold ignore_error, Ping in Hp. destruct (fault_at (calls c0)); by simplify_eq. }
  split_and!; congruence.
Qed.

Lemma replica_run ms t c t' c' : run ms t c = (t', c') -> replica c' = replica c.
Proof.
  revert t c. induction ms as [|m ms IH]; intros t c; simpl; [by intros [= _ <-]|].
  destruct (step m t c) as [[r t1] c1] eqn:E. intros Hr. rewrite (IH _ _ Hr). destruct (commits_by m) eqn:Em.
  - destruct m; try discriminate Em.
    + by apply commit_step in E as [? _].
    + apply delete_namespace_step in E as [(Hp & _)|(t2 & c2 & Hp & _ & _ & _ & [E _]%commit_step)]; [apply Hp|].
      rewrite E. apply Hp.
  - apply step_pending in E as (Hp & _); [apply Hp|done].
Qed.

(** A sequence commits nothing, or has a first method that ends it. *)
Lemma first_commit ms : forallb (fun m => negb (commits_by m)) ms = true \/
  exists before m after, ms = before ++ m :: after /\ commits_by m = true /\
    forallb (fun m => negb (commits_by m)) before = true.
Proof.
  induction ms as [|m ms IH]; [by left|]. simpl. destruct (commits_by m) eqn:E; simpl.
  - right. by exists [], m, ms.
  - destruct IH as [IH|(before & m1 & after & -> & H1 & H2)]; [by left|right].
    exists (m :: before), m1, after. simpl. by rewrite E, H2.
Qed.
(** A sequence up to the method that ends it, and after. *)
Lemma run_to_commit before m after c1 t c : let t0 := mkTransaction false false in
  txst c1 = TxOpen -> commits_by m = true -> forallb (fun m => negb (commits_by m)) before = true ->
  run (before ++ m :: after) t0 c1 = (t, c) ->
  take (length before) (results (before ++ m :: after) t0 c1) = results before t0 c1 /\
  ((existsb is_Err (results before t0 c1) = true /\ committed c = committed c1) \/
   (Forall2 (fun m r => clean m r = true) before (results before t0 c1) /\
    (committed c = committed c1 \/ committed c = meant_all (tx_now c1) (before ++ [m]) (work c1)) /\
    (m = MCommit -> results (before ++ m :: after) t0 c1 !! length before = Some (Ok tt) ->
     committed c = meant_all (tx_now c1) before (work c1)))).
Proof.
  intros t0 Ho Hm Hb Hr. rewrite results_app.
  split; [by rewrite <- (length_results before t0 c1) at 1; rewrite take_app_length|].
  rewrite run_methods_app in Hr. destruct (run before t0 c1) as [t1 c2] eqn:E.
  destruct (pending_run _ _ _ _ _ Hb E) as [(Hp & _) _].
  destruct (clean_run before t0 c1 t1 c2 Hb eq_refl eq_refl Ho E) as [[He Hd]|(Hcl & -> & Ho2 & Hn2 & Hw2)].
  { left. split; [done|]. apply doomed_run in Hr; [congruence|done]. }
  right. split; [done|]. simpl in Hr. rewrite lookup_app_r, length_results, Nat.sub_diag by (by rewrite length_results).
  simpl. destruct (step m t0 c2) as [[r t2] c3] eqn:E3.
  destruct (commit_method m t0 c2 r t2 c3 Hm eq_refl eq_refl Ho2 E3) as (Hd & Hc3 & Hmc).
  apply doomed_run in Hr; [|done]. unfold meant_all at 1. rewrite foldl_app. simpl.
  fold (meant_all (tx_now c1) before (work c1)). rewrite Hr. split.
  - destruct Hc3 as [->| ->]; [left; congruence|right]. by rewrite Hn2, Hw2.
  - intros Hmm [= ->]. by rewrite (Hmc Hmm eq_refl).
Qed.
End transaction_facts.

(** ** Properties *)

Section transaction_properties.
Context `{Env} `{PolarisApi}.

(** C27: a transaction obtained from [CreateTransaction] is all or nothing,
    whatever methods are called in whatever order, with whatever faults.
    Either the master keeps the content the transaction began with, or that
    content has undergone exactly the changes of all methods up to the first
    that commits ([Commit] or [DeleteNamespace]), each as it is meant
    ([meant]) and stamped with the begin of the transaction; then none of the
    methods before has failed (a [LockBootstrap] that fails in the random
    source or panics for want of lock rows, before anything is written,
    aside), and whatever is called afterwards changes nothing.
    Conversely, when no call before [Commit] has returned an error and
    [Commit] succeeds, all of it is there. *)
Theorem transaction_all_or_nothing ms c0 t0 c1 t c :
  CreateTransaction c0 = (Ok t0, c1) -> run ms t0 c1 = (t, c) ->
  replica c = replica c0 /\
  (committed c = committed c0 \/
   exists before m after, ms = before ++ m :: after /\ commits_by m = true /\
     forallb (fun m => negb (commits_by m)) before = true /\
     Forall2 (fun m r => clean m r = true) before (take (length before) (results ms t0 c1)) /\
     committed c = meant_all (tx_now c1) (before ++ [m]) (committed c0)) /\
  (forall before after, ms = before ++ MCommit :: after ->
     forallb (fun m => negb (commits_by m)) before = true ->
     existsb is_Err (take (length before) (results ms t0 c1)) = false ->
     results ms t0 c1 !! length before = Some (Ok tt) ->
     committed c = meant_all (tx_now c1) before (committed c0)).
Proof.
  intros Hct Hr. destruct (CreateTransaction_begins _ _ _ Hct) as (-> & Ho & Hw & Hcm & Hrep).
  split; [by rewrite (replica_run _ _ _ _ _ Hr)|]. split.
  - destruct (first_commit ms) as [Hn|(before & m & after & -> & Hm & Hb)].
    + left. destruct (pending_run _ _ _ _ _ Hn Hr) as [(Hp & _) _]. congruence.
    + destruct (run_to_commit before m after c1 t c Ho Hm Hb Hr) as (Ht & [[_ E]|(Hcl & [E|E] & _)]); [left; congruence..|right].
      exists before, m, after. rewrite Ht. split_and!; try done. congruence.
  - intros before after -> Hb He Hok.
    destruct (run_to_commit before MCommit after c1 t c Ho eq_refl Hb Hr) as (Ht & [[Hbad _]|(_ & _ & Hx)]); [congruence|].
    rewrite (Hx eq_refl Hok). congruence.
Qed.

(** C28: once a statement of the transaction has failed nothing of it is ever
    committed, whatever is called afterwards; that holds for
    [DeleteAliasWithSourceID] too, which clears the failure flag, because the
    server refuses to commit. *)
Theorem transaction_error_is_final m t c e t1 c1 ms t2 c2 :
  txst c = TxOpen -> commit t = false -> rand_failed m = false ->
  step m t c = (Err e, t1, c1) -> commit t1 = false ->
  run ms t1 c1 = (t2, c2) -> committed c2 = committed c.
Proof.
  intros Ho Hc Hrand Hr Hc1 Hrun.
  assert (committed c1 = committed c /\ doomed t1 c1) as [<- Hd]; [|by eapply doomed_run].
  destruct (commits_by m) eqn:Em.
  - destruct m; try discriminate Em.
    + simpl in Hr. apply commit_step in Hr as (_ & _ & Hx & _). congruence.
    + apply delete_namespace_step in Hr as [(Hp & _ & _ & He)|(t3 & c3 & _ & _ & _ & _ & Hr)].
      * split; [apply Hp|]. destruct (He Ho Hc e eq_refl) as [Hf|Hf]; [by left|right; congruence].
      * apply commit_step in Hr as (_ & _ & Hx & _). congruence.
  - apply step_pending in Hr as (Hp & _ & _ & He); [|done]. split; [apply Hp|].
    destruct (He Ho Hc Hrand e eq_refl) as [Hf|Hf]; [by left|right; congruence].
Qed.

(** [DeleteNamespace] loses the error of its statement: when the update
    fails it rolls back and, if that works, reports success although the
    namespace is untouched. *)
Theorem DeleteNamespace_swallows name t c e :
  txst c = TxOpen -> failed t = false -> commit t = false ->
  fault_at (calls c) = None -> fault_at (S (calls c)) = Some (FailBefore e) ->
  fault_at (S (S (calls c))) = None ->
  exists t' c', DeleteNamespace name t c = (Ok tt, t', c') /\
    committed c' = committed c /\ txst c' = TxDone.
Proof.
  intros Ho Hf Hc F1 F2 F3. unfold DeleteNamespace, unless_finished, finish. rewrite Hf, Hc.
  unfold then_, call, tx_Prepare, tx_Exec. simpl. rewrite Ho, F1. simpl. rewrite F2. simpl.
  rewrite Ho. unfold transaction_Commit, Rollback. simpl. rewrite Hc. simpl. rewrite F3.
  by eexists _, _.
Qed.

(** [LockBootstrap] on a working connection: without a row for the key it
    panics (division by zero); otherwise it writes the server into the row
    whose id is one more than the random number modulo the number of rows,
    which lies between 1 and that number. *)
Theorem LockBootstrap_correct bid key server t c :
  reliable -> txst c = TxOpen -> 0 <= bid < 1024 -> db_wf (work c) ->
  let n := Z.of_nat (Schema.count_rows (locks key) (work c)) in
  let '(r, t', c') := LockBootstrap (Ok bid) key server t c in
  t' = t /\ committed c' = committed c /\
  (n = 0 -> exists w, r = Panic w) /\
  (n <> 0 -> r = Ok tt /\ 1 <= bid mod n + 1 <= n /\
     work c' = set_tbl (change (fun x => (slk_lock_id x =? bid mod n + 1) && locks key x)
                          (take_lock server) (tbl (work c))) (work c)).
Proof.
  intros Hr Ho Hb Hwf n. unfold LockBootstrap, then_ at 1. unfold call at 1.
  unfold tx_QueryRow, Bind, tx_Query, tx_Exec. rewrite Ho, (Hr (calls c)). simpl. fold n.
  unfold then_ at 1, value. unfold then_ at 1. unfold lock_id. destruct (Z.eqb_spec n 0) as [En|En].
  { split_and!; [done|done|eauto|done]. }
  unfold then_, call. unfold tx_Prepare at 1, tx_Exec at 1. simpl. rewrite Ho, (Hr _). simpl.
  unfold void, Bind, tx_Exec. simpl. rewrite Ho, (Hr _). simpl.
  rewrite Z.rem_mod_nonneg by lia. rewrite update_ok; [|done|by intros [] []..].
  unfold Ret. simpl. split_and!; [done|done|done|]. intros _.
  pose proof (Z.mod_pos_bound bid n ltac:(lia)). split; [done|]. split; [lia|done].
Qed.

(** [CreateReadView] sends MySQL's START TRANSACTION WITH CONSISTENT
    SNAPSHOT, which the server rejects: it always fails, and a transaction in
    which it was called cannot commit. *)
Theorem CreateReadView_fails c r c1 r2 c2 :
  CreateReadView c = (r, c1) -> Tx_Commit c1 = (r2, c2) ->
  is_Ok r = false /\ is_Ok r2 = false /\ committed c2 = committed c.
Proof.
  unfold CreateReadView, tx_Exec, Tx_Commit, Commit.
  destruct (txst c) eqn:Et; [destruct (fault_at (calls c)) as [[e|e|n e]|]|..];
    intros Hr; simplify_eq; simpl; rewrite ?Et; intros; by simplify_eq.
Qed.
End transaction_properties.
