(* ===== verification/LeaderElection.v ===== *)
(** * Leader election (store/postgresql/admin.go)

    [leaderElectionStore] on the table [leader_election], the state machine
    [leaderElectionStateMachine] that ticks every two seconds, and the registry
    of machines in [adminStore].  The machine is written against the interface
    [LeaderElectionStore] of the source, a class here, whose laws the
    PostgreSQL implementation discharges.  [election_step] interleaves the
    store calls of any number of servers. *)
From stdpp Require Import base list strings gmap relations sorting.
From Stdlib Require Import ZArith Lia.
From S2P Require Import Prelude Driver Rows Schema Common.
Open Scope Z_scope.
Open Scope store_scope.

Definition TickTime : Z := 2.
Definition LeaseTime : Z := 10.

(** [model.LeaderElection] *)
Record LeaderElection := mkLeaderElection {
  ElectKey : string; Host : string; Ctime : Z; Mtime : Z; LE_Valid : bool }.

(** Version and leader of a key. *)
Definition key_row (key : string) (r : leader_election_row) : bool := str_eq (lel_elect_key r) key.

Definition election (d : database) (key : string) : option (Z * string) :=
  (fun r => (lel_version r, lel_leader r)) <$> head (sql_select (key_row key) d).

(** ** The interface *)

(** What the state machine relies on: reads change nothing and report the
    row; a swap that succeeds found the expected version and left the new one
    with the caller as leader; a swap that reports false changed nothing; and
    after an error either nothing happened or the swap did. *)
Class LeaderElectionStore `{Env} := {
  CreateLeaderElection : string -> M database unit;
  GetVersion : string -> M database Z;
  CompareAndSwapVersion : string -> Z -> Z -> string -> M database bool;
  CheckMtimeExpired : string -> Z -> M database (string * bool);
  ListLeaderElections : M database (list LeaderElection);
  GetVersion_law : forall key c r c', GetVersion key c = (r, c') ->
    same_dbs c c' /\ forall v, r = Ok v -> exists l, election (committed c) key = Some (v, l);
  CheckMtimeExpired_law : forall key lease c r c', CheckMtimeExpired key lease c = (r, c') ->
    same_dbs c c' /\ forall l dead, r = Ok (l, dead) -> exists v, election (committed c) key = Some (v, l);
  CompareAndSwap_law : forall key cur new l c r c',
    CompareAndSwapVersion key cur new l c = (r, c') -> db_wf (committed c) ->
    db_wf (committed c') /\ replica c' = replica c /\
    (forall k, k <> key -> election (committed c') k = election (committed c) k) /\
    (committed c' = committed c \/
       exists l0, election (committed c) key = Some (cur, l0) /\ election (committed c') key = Some (new, l)) /\
    (r = Ok true -> exists l0, election (committed c) key = Some (cur, l0) /\
       election (committed c') key = Some (new, l)) /\
    (r = Ok false -> committed c' = committed c)
}.

(** ** leaderElectionStore *)

Section store.
Context `{Env} `{PolarisApi}.
Abbreviation M := (M database).
Abbreviation P := (P database).

(** [leaderElectionStore.CreateLeaderElection]: the error of the insert is
    only logged. *)
Definition new_election (key : string) (now : Z) : leader_election_row :=
  LeaderElectionRow key 0 "" now now.

Definition pg_CreateLeaderElection (key : string) : M unit :=
  processWithTransaction (
    tx_Prepare ;;;
    ignore_error (tx_Exec (sql_insert (fun now => [new_election key now]))) ;;;
    Commit).

(** [leaderElectionStore.GetVersion] *)
Definition pg_GetVersion (key : string) : M Z :=
  map_err store_Error (DB_QueryRow committed (fun _ d =>
    Ok (map lel_version (sql_select (key_row key) d)))).

(** [leaderElectionStore.CompareAndSwapVersion]: mtime is not in the SET list. *)
Definition at_version (key : string) (v : Z) (r : leader_election_row) : bool :=
  key_row key r && (lel_version r =? v).

Definition set_leader (leader : string) (v : Z) (r : leader_election_row) : leader_election_row :=
  LeaderElectionRow (lel_elect_key r) v leader (lel_ctime r) (lel_mtime r).

Definition swap (key : string) (cur new : Z) (leader : string) : P Z :=
  sql_update (at_version key cur) (fun _ => set_leader leader new).

Definition pg_CompareAndSwapVersion (key : string) (cur new : Z) (leader : string) : M bool :=
  rows <- processWithTransaction (then_commit (map_err store_Error
            (stmt_Exec (swap key cur new leader)))) ;;
  Ret (0 <? rows).

(** [leaderElectionStore.CheckMtimeExpired]: the difference is mtime minus the
    current time. *)
Definition pg_CheckMtimeExpired (key : string) (leaseTime : Z) : M (string * bool) :=
  map_err store_Error (
    lm <- DB_QueryRow committed (fun _ d =>
            Ok (map (fun r => (lel_leader r, lel_mtime r)) (sql_select (key_row key) d))) ;;
    now <- time_Now ;;
    Ret (fst lm, leaseTime <? int32_seconds (CurrDiffTimeSecond now (snd lm)))).

(** [leaderElectionStore.ListLeaderElections] *)
Definition checkLeaderValid (now mtime : Z) : bool := unix_seconds now - mtime <=? LeaseTime.

(** CAST(EXTRACT(EPOCH FROM t) AS INTEGER) rounds to the nearest integer. *)
Definition epoch (t : Z) : Z := (t + 500000) / 1000000.

Definition scan_election (now : Z) (r : leader_election_row) : res LeaderElection :=
  Ok (mkLeaderElection (lel_elect_key r) (lel_leader r) (epoch (lel_ctime r)) (epoch (lel_mtime r))
        (checkLeaderValid now (epoch (lel_mtime r)))).

Definition pg_ListLeaderElections : M (list LeaderElection) :=
  rs <- map_err store_Error (Query committed (fun _ d => Ok (sql_select (fun _ => true) d))) ;;
  now <- time_Now ;;
  lift (fetch_rows (scan_election now) rs).
End store.

(** ** leaderElectionStateMachine *)

(** [store.LeaderChangeEvent] *)
Record LeaderChangeEvent := mkLeaderChangeEvent { Key : string; Leader : bool; LeaderHost : string }.

(** The fields of the machine; [published] collects the events it sent to the
    event hub, the latest first. *)
Record leaderElectionStateMachine := mkMachine {
  electKey : string; leaderFlag : Z; version : Z; releaseSignal : Z; releaseTickLimit : Z;
  leader : string; published : list LeaderChangeEvent }.

Definition isLeader (le : leaderElectionStateMachine) : bool := 0 <? leaderFlag le.

Definition set_leaderFlag (v : Z) (le : leaderElectionStateMachine) :=
  mkMachine (electKey le) v (version le) (releaseSignal le) (releaseTickLimit le) (leader le) (published le).
Definition set_version (v : Z) (le : leaderElectionStateMachine) :=
  mkMachine (electKey le) (leaderFlag le) v (releaseSignal le) (releaseTickLimit le) (leader le) (published le).
Definition set_signal (v : Z) (le : leaderElectionStateMachine) :=
  mkMachine (electKey le) (leaderFlag le) (version le) v (releaseTickLimit le) (leader le) (published le).
Definition set_limit (v : Z) (le : leaderElectionStateMachine) :=
  mkMachine (electKey le) (leaderFlag le) (version le) (releaseSignal le) v (leader le) (published le).
Definition set_leader_name (l : string) (le : leaderElectionStateMachine) :=
  mkMachine (electKey le) (leaderFlag le) (version le) (releaseSignal le) (releaseTickLimit le) l (published le).

(** [publishLeaderChangeEvent] *)
Definition publishLeaderChangeEvent (le : leaderElectionStateMachine) : leaderElectionStateMachine :=
  mkMachine (electKey le) (leaderFlag le) (version le) (releaseSignal le) (releaseTickLimit le) (leader le)
    (mkLeaderChangeEvent (electKey le) (isLeader le) (leader le) :: published le).

(** [changeToLeader], [changeToFollower] *)
Definition changeToLeader `{PolarisApi} (le : leaderElectionStateMachine) : leaderElectionStateMachine :=
  publishLeaderChangeEvent (set_leader_name LocalHost (set_leaderFlag 1 le)).
Definition changeToFollower (l : string) (le : leaderElectionStateMachine) : leaderElectionStateMachine :=
  publishLeaderChangeEvent (set_leader_name l (set_leaderFlag 0 le)).

(** [setReleaseSignal], [checkAndClearReleaseSignal], [setReleaseTickLimit],
    [checkReleaseTickLimit] *)
Definition setReleaseSignal (le : leaderElectionStateMachine) : leaderElectionStateMachine := set_signal 1 le.

Definition checkAndClearReleaseSignal (le : leaderElectionStateMachine) : bool * leaderElectionStateMachine :=
  if releaseSignal le =? 1 then (true, set_signal 0 le) else (false, le).

Definition setReleaseTickLimit (le : leaderElectionStateMachine) : leaderElectionStateMachine :=
  set_limit (LeaseTime / TickTime * 3) le.

Definition checkReleaseTickLimit (le : leaderElectionStateMachine) : bool * leaderElectionStateMachine :=
  if 0 <? releaseTickLimit le then (true, set_limit (releaseTickLimit le - 1) le) else (false, le).

Section machine.
Context `{Env} `{PolarisApi} `{!LeaderElectionStore}.

(** A method of the machine: its result, the machine and the connection after
    it. *)
Definition LM (A : Type) : Type :=
  leaderElectionStateMachine -> conn database -> A * leaderElectionStateMachine * conn database.

(** [heartbeat]: the version advances even if the swap fails. *)
Definition heartbeat : LM (res bool) := fun le c =>
  let curVersion := version le in
  let le := set_version (curVersion + 1) le in
  let '(r, c) := CompareAndSwapVersion (electKey le) curVersion (version le) LocalHost c in
  (r, le, c).

(** [elect] *)
Definition elect : LM (res bool) := fun le c =>
  match GetVersion (electKey le) c with
  | (Ok curVersion, c) =>
      let le := set_version (curVersion + 1) le in
      let '(r, c) := CompareAndSwapVersion (electKey le) curVersion (version le) LocalHost c in
      (r, le, c)
  | (Err e, c) => (Err e, le, c)
  | (Panic w, c) => (Panic w, le, c)
  end.

(** [checkLeaderDead] *)
Definition checkLeaderDead (le : leaderElectionStateMachine) : M database (string * bool) :=
  CheckMtimeExpired (electKey le) LeaseTime.

(** The second half of [tick]: look at the lease, and elect when it is over. *)
Definition check_and_elect (le : leaderElectionStateMachine) (c : conn database) :
    leaderElectionStateMachine * conn database :=
  match checkLeaderDead le c with
  | (Ok (l, false), c) =>
      let le := if str_eq l LocalHost then changeToLeader le else le in
      let le := if str_eq (leader le) l then le else changeToFollower l le in
      (le, c)
  | (Ok (_, true), c) =>
      match elect le c with
      | (Ok true, le, c) => (changeToLeader le, c)
      | (_, le, c) => (le, c)
      end
  | (_, c) => (le, c)
  end.

(** [tick] *)
Definition tick (le : leaderElectionStateMachine) (c : conn database) :
    leaderElectionStateMachine * conn database :=
  match checkReleaseTickLimit le with
  | (true, le) => (le, c)
  | (false, le) =>
      let '(shouldRelease, le) := checkAndClearReleaseSignal le in
      if isLeader le then
        if shouldRelease then (setReleaseTickLimit (changeToFollower "" le), c)
        else
          match heartbeat le c with
          | (Ok true, le, c) => (le, c)
          | (_, le, c) => check_and_elect le c
          end
      else check_and_elect le c
  end.

Fixpoint ticks (n : nat) (le : leaderElectionStateMachine) (c : conn database) :
    leaderElectionStateMachine * conn database :=
  match n with
  | O => (le, c)
  | S n' => let '(le, c) := tick le c in ticks n' le c
  end.

(** ** adminStore: the registry of machines *)

(** A goroutine of [mainLoop]: not yet begun, or in its loop. *)
Record goroutine := mkGoroutine { machine : leaderElectionStateMachine; running : bool }.

(** [leMap], and the cancelled machines whose loop has not ended yet. *)
Record adminStore := mkAdmin { leMap : gmap string goroutine; cancelled : list goroutine }.

Definition newAdminStore : adminStore := mkAdmin ∅ [].

Definition new_machine (key : string) : leaderElectionStateMachine := mkMachine key 0 0 0 0 "" [].

(** [StartLeaderElection] *)
Definition StartLeaderElection (key : string) (m : adminStore) (c : conn database) :
    res unit * adminStore * conn database :=
  match leMap m !! key with
  | Some _ => (Ok tt, m, c)
  | None =>
      match CreateLeaderElection key c with
      | (Ok _, c) => (Ok tt, mkAdmin (<[key := mkGoroutine (new_machine key) false]> (leMap m)) (cancelled m), c)
      | (Err e, c) => (Err (store_Error e), m, c)
      | (Panic w, c) => (Panic w, m, c)
      end
  end.

(** [StopLeaderElections] *)
Definition StopLeaderElections (m : adminStore) : adminStore :=
  mkAdmin ∅ (cancelled m ++ map snd (map_to_list (leMap m))).

(** [IsLeader] *)
Definition IsLeader (key : string) (m : adminStore) : bool :=
  match leMap m !! key with
  | Some g => isLeader (machine g)
  | None => false
  end.

(** [ReleaseLeaderElection] *)
Definition ReleaseLeaderElection (key : string) (m : adminStore) : res unit * adminStore :=
  match leMap m !! key with
  | None => (Err (EMsg ("LeaderElection(" +:+ key +:+ ") not started")), m)
  | Some g => (Ok tt, mkAdmin (<[key := mkGoroutine (setReleaseSignal (machine g)) (running g)]> (leMap m))
                        (cancelled m))
  end.

(** [adminStore.ListLeaderElections] *)
Definition admin_ListLeaderElections : M database (list LeaderElection) := ListLeaderElections.

(** [mainLoop]: it begins as a follower, ticks, and ends as a follower; a
    cancelled loop may tick once more before it notices. *)
Inductive admin_step : adminStore * conn database -> adminStore * conn database -> Prop :=
| step_start key m c r m' c' : StartLeaderElection key m c = (r, m', c') -> admin_step (m, c) (m', c')
| step_stop m c : admin_step (m, c) (StopLeaderElections m, c)
| step_release key m c : admin_step (m, c) (snd (ReleaseLeaderElection key m), c)
| step_begin key le m c : leMap m !! key = Some (mkGoroutine le false) ->
    admin_step (m, c) (mkAdmin (<[key := mkGoroutine (changeToFollower "" le) true]> (leMap m)) (cancelled m), c)
| step_tick key le m c le' c' : leMap m !! key = Some (mkGoroutine le true) -> tick le c = (le', c') ->
    admin_step (m, c) (mkAdmin (<[key := mkGoroutine le' true]> (leMap m)) (cancelled m), c')
| step_late_tick l1 le l2 m c le' c' : cancelled m = l1 ++ mkGoroutine le true :: l2 -> tick le c = (le', c') ->
    admin_step (m, c) (mkAdmin (leMap m) (l1 ++ mkGoroutine le' true :: l2), c')
| step_end l1 g l2 m c : cancelled m = l1 ++ g :: l2 ->
    admin_step (m, c) (mkAdmin (leMap m) (l1 ++ l2), c).
End machine.

(** ** Facts on leaderElectionStore *)

Section store_facts.
Context `{Env} `{PolarisApi}.
Implicit Types (d : database) (c : conn database).

Lemma one_election d key : db_wf d -> (length (sql_select (key_row key) d) <= 1)%nat.
Proof.
  intros Hd. apply (distinct_unique clash_leader_election); [apply Hd|].
  intros x y Hx%str_eq_true Hy%str_eq_true. unfold clash_leader_election. by rewrite Hx, Hy, str_eq_refl.
Qed.

Lemma keep_change_key key p (f : leader_election_row -> leader_election_row) l :
  (forall r, lel_elect_key (f r) = lel_elect_key r) ->
  keep (key_row key) (change p f l) = map (fun r => if p r then f r else r) (keep (key_row key) l).
Proof.
  intros Hf. induction l as [|r l IH]; [done|]. simpl. unfold key_row in *.
  destruct (p r) eqn:Ep; [rewrite Hf|]; destruct (str_eq (lel_elect_key r) key); simpl; rewrite ?Ep; congruence.
Qed.

(** A swap changes nothing unless the row has the expected version. *)
Lemma swap_Ok key cur new l now d n d' :
  db_wf d -> swap key cur new l now d = Ok (n, d') ->
  db_wf d' /\ (forall k, k <> key -> election d' k = election d k) /\
  ((n = 0 /\ d' = d) \/
   (n = 1 /\ exists l0, election d key = Some (cur, l0) /\ election d' key = Some (new, l))).
Proof.
  intros Hd Hs. pose proof (update_wf _ _ now d n d' Hd Hs) as Hd'. split; [done|].
  apply update_Ok_inv in Hs as [-> ->]. split.
  { intros k Hk. unfold election, sql_select. rewrite tbl_set, keep_change_key by done.
    rewrite (map_ext_in _ id), map_id; [done|]. intros r [_ Hr]%list_elem_of_In%elem_of_keep.
    unfold at_version, key_row in *. apply str_eq_true in Hr. rewrite Hr.
    by rewrite (proj2 (str_eq_false k key)). }
  pose proof (one_election d key Hd) as Hone. unfold election, sql_select in *.
  rewrite tbl_set, keep_change_key by done.
  assert (keep (at_version key cur) (tbl d) =
    keep (fun r => lel_version r =? cur) (keep (key_row key) (tbl d))) as Hat by (by rewrite keep_keep).
  unfold count. rewrite Hat.
  destruct (keep (key_row key) (tbl d)) as [|r [|r' l']] eqn:Ek; [| |simpl in Hone; lia].
  - left. split; [done|]. rewrite change_none; [apply set_tbl_id|].
    intros x Hx. unfold at_version. apply (proj1 (keep_nil_iff _ _)) with (x := x) in Ek; [|done]. by rewrite Ek.
  - assert (key_row key r = true) as Hkr.
    { assert (r ∈ keep (key_row key) (tbl d)) as [_ Hr]%elem_of_keep by (rewrite Ek; by left). done. }
    simpl. unfold at_version. rewrite Hkr. simpl. destruct (Z.eqb_spec (lel_version r) cur) as [Ev|Ev].
    + right. split; [done|]. simpl. exists (lel_leader r). by rewrite Ev.
    + left. split; [done|]. rewrite change_none; [apply set_tbl_id|]. intros x Hx. unfold at_version.
      destruct (key_row key x) eqn:Ex; [|done]. simpl. apply Z.eqb_neq.
      assert (x ∈ [r]) as ->%list_elem_of_singleton by (rewrite <- Ek; by apply elem_of_keep). done.
Qed.

Lemma DB_QueryRow_spec {R} (sel : Z -> database -> res (list R)) c r c' :
  DB_QueryRow committed sel c = (r, c') ->
  c' = Driver.tick c /\ forall x, r = Ok x -> exists now l, sel now (committed c) = Ok (x :: l).
Proof.
  unfold DB_QueryRow. destruct (fault_at (calls c)); intros; simplify_eq; (split; [done|]); [done|].
  intros x Hx. apply res_bind_Ok in Hx as (l & Hl & Hx). destruct l; simplify_eq; eauto.
Qed.

Lemma pg_GetVersion_law key c r c' : pg_GetVersion key c = (r, c') ->
  same_dbs c c' /\ forall v, r = Ok v -> exists l, election (committed c) key = Some (v, l).
Proof.
  unfold pg_GetVersion, map_err. destruct (DB_QueryRow _ _ c) as [r1 c1] eqn:E.
  apply DB_QueryRow_spec in E as [-> Hx]. intros Hr.
  assert (c' = Driver.tick c) as -> by (by destruct r1; simplify_eq). split; [done|]. intros v ->.
  destruct r1 as [v1| |]; simplify_eq. destruct (Hx v eq_refl) as (now & l & Hl). simplify_eq.
  unfold election. destruct (sql_select (key_row key) (committed c)) as [|row rows]; simplify_eq/=. eauto.
Qed.

Lemma pg_CheckMtimeExpired_spec key lease c r c' : pg_CheckMtimeExpired key lease c = (r, c') ->
  c' = Driver.tick c /\ forall l dead, r = Ok (l, dead) -> exists row rest,
    sql_select (key_row key) (committed c) = row :: rest /\ l = lel_leader row /\
    dead = (lease <? int32_seconds (lel_mtime row - utc (S (calls c)))).
Proof.
  unfold pg_CheckMtimeExpired, map_err, Bind.
  destruct (DB_QueryRow _ _ c) as [r1 c1] eqn:E. apply DB_QueryRow_spec in E as [-> Hx].
  unfold time_Now, Ret. destruct r1 as [x|e|w]; intros; simplify_eq; (split; [done|]); [|done..].
  intros l dead [= <- <-]. destruct (Hx x eq_refl) as (now & rest & Hl). injection Hl as Hl.
  destruct (sql_select (key_row key) (committed c)) as [|row rows]; simplify_eq/=. eauto 10.
Qed.

Lemma pg_CheckMtimeExpired_law key lease c r c' : pg_CheckMtimeExpired key lease c = (r, c') ->
  same_dbs c c' /\ forall l dead, r = Ok (l, dead) -> exists v, election (committed c) key = Some (v, l).
Proof.
  intros [-> Hx]%pg_CheckMtimeExpired_spec. split; [done|].
  intros l dead Hr. destruct (Hx l dead Hr) as (row & rest & Hs & -> & _). unfold election. rewrite Hs. eauto.
Qed.

Lemma pg_CompareAndSwap_law key cur new l c r c' :
  pg_CompareAndSwapVersion key cur new l c = (r, c') -> db_wf (committed c) ->
  db_wf (committed c') /\ replica c' = replica c /\
  (forall k, k <> key -> election (committed c') k = election (committed c) k) /\
  (committed c' = committed c \/
     exists l0, election (committed c) key = Some (cur, l0) /\ election (committed c') key = Some (new, l)) /\
  (r = Ok true -> exists l0, election (committed c) key = Some (cur, l0) /\
     election (committed c') key = Some (new, l)) /\
  (r = Ok false -> committed c' = committed c).
Proof.
  intros Hr Hwf. unfold pg_CompareAndSwapVersion, Bind, Ret in Hr.
  destruct (processWithTransaction _ c) as [[n|e|w] c1] eqn:E;
    apply (process_spec _ (p_map_err store_Error (swap key cur new l))) in E as [Ho Hre]; simpl in Ho.
  - destruct Ho as (now & Hs%p_map_err_Ok). simplify_eq.
    apply swap_Ok in Hs as (Hd & Hk & [[-> Heq]|[-> Hsw]]); [| |done].
    + rewrite Heq in *. split_and!; try done. by left.
    + split_and!; try done. by right.
  - destruct Ho as [Heq|(now & n & Hs%p_map_err_Ok)]; simplify_eq.
    + rewrite Heq. split_and!; try done. by left.
    + apply swap_Ok in Hs as (Hd & Hk & [[-> Heq]|[-> Hsw]]); [| |done].
      * rewrite Heq in *. split_and!; try done. by left.
      * split_and!; try done. by right.
  - simplify_eq. rewrite Ho. split_and!; try done. by left.
Qed.

(** The interface is implemented. *)
#[export] Instance pg_leader_store : LeaderElectionStore := {|
  CreateLeaderElection := pg_CreateLeaderElection;
  GetVersion := pg_GetVersion;
  CompareAndSwapVersion := pg_CompareAndSwapVersion;
  CheckMtimeExpired := pg_CheckMtimeExpired;
  ListLeaderElections := pg_ListLeaderElections;
  GetVersion_law := pg_GetVersion_law;
  CheckMtimeExpired_law := pg_CheckMtimeExpired_law;
  CompareAndSwap_law := pg_CompareAndSwap_law |}.
End store_facts.

(** ** Any number of servers on one database *)

(** One atomic call of some server, with a ghost list of the swaps that were
    reported as won, the latest first: a swap from any version to the next, by
    any host; or anything else that leaves the key alone. *)
Inductive election_step `{Env} `{!LeaderElectionStore} (key : string) :
    relation (database * list (Z * string)) :=
| election_swap c r c' v host wins :
    CompareAndSwapVersion key v (v + 1) host c = (r, c') ->
    election_step key (committed c, wins)
      (committed c', match r with Ok true => (v + 1, host) :: wins | _ => wins end)
| election_other d d' wins :
    db_wf d' -> election d' key = election d key -> election_step key (d, wins) (d', wins).

(** The versions won so far are distinct and not above the current one. *)
Definition wins_below (key : string) (s : database * list (Z * string)) : Prop :=
  db_wf (fst s) /\ StronglySorted Z.gt (map fst (snd s)) /\
  forall v host, (v, host) ∈ snd s ->
    exists v' l, election (fst s) key = Some (v', l) /\ v <= v' /\ (v = v' -> l = host).

Section election_facts.
Context `{Env} `{PolarisApi} `{!LeaderElectionStore}.
Implicit Types (le : leaderElectionStateMachine) (c : conn database).

Lemma wins_below_step key s s' : wins_below key s -> election_step key s s' -> wins_below key s'.
Proof.
  intros Hb Hstep. destruct Hstep as [c r c' v host wins Hr|d d' wins Hd' He];
    destruct Hb as (Hd & Hs & Hw); simpl in *.
  - destruct (CompareAndSwap_law _ _ _ _ _ _ _ Hr Hd) as (Hd' & _ & _ & Hch & Ht & Hf).
    assert (forall v0 h0, (v0, h0) ∈ wins -> exists v' l, election (committed c') key = Some (v', l) /\
      v0 <= v' /\ (v0 = v' -> l = h0)) as Hkeep.
    { intros v0 h0 Hin. destruct (Hw _ _ Hin) as (v' & l & Hl & Hle & Heq).
      destruct Hch as [->|(l0 & Hl0 & Hl1)]; [eauto|].
      exists (v + 1), host. rewrite Hl in Hl0. simplify_eq. split; [done|]. split; lia. }
    destruct r as [[]|e|w]; [|by split_and!..].
    destruct (Ht eq_refl) as (l0 & Hl0 & Hl1). split; [done|]. simpl. split.
    + constructor; [done|]. apply Forall_forall. intros z Hz.
      apply list_elem_of_fmap in Hz as ([v0 h0] & -> & Hin).
      destruct (Hw _ _ Hin) as (v' & l & Hl & Hle & _). rewrite Hl in Hl0. simplify_eq/=. lia.
    + intros v0 h0 [Heq|Hin]%elem_of_cons; [|auto]. simplify_eq. exists (v + 1), host. split; [done|]. split; [lia|done].
  - split; [done|]. split; [done|]. simpl. by rewrite He.
Qed.

(** C24: no version is won twice.  However the calls of any number of servers
    interleave, and whatever faults occur, the versions of the swaps reported
    as won strictly increase, so two servers never win the same version, and
    while the winner's version is current the row names the winner. *)
Theorem one_winner_per_version key d s :
  db_wf d -> rtc (election_step key) (d, []) s ->
  StronglySorted Z.gt (map fst (snd s)) /\
  forall v host, (v, host) ∈ snd s ->
    exists v' l, election (fst s) key = Some (v', l) /\ v <= v' /\ (v = v' -> l = host).
Proof.
  intros Hd Hs.
  enough (wins_below key s) as (_ & ? & ?) by done.
  assert (wins_below key (d, [])) as H0'.
  { split; [done|]. split; [constructor|]. intros v host Hin. by apply elem_of_nil in Hin. }
  revert H0'. induction Hs as [|x y z Hxy _ IH]; [done|]. intros Hx. apply IH. by eapply wins_below_step.
Qed.

(** *** The state machine *)

Lemma checkReleaseTickLimit_eq le b le' : checkReleaseTickLimit le = (b, le') ->
  electKey le' = electKey le /\ leaderFlag le' = leaderFlag le.
Proof. unfold checkReleaseTickLimit. destruct (0 <? releaseTickLimit le); intros; by simplify_eq. Qed.

Lemma checkAndClear_eq le b le' : checkAndClearReleaseSignal le = (b, le') ->
  electKey le' = electKey le /\ leaderFlag le' = leaderFlag le.
Proof. unfold checkAndClearReleaseSignal. destruct (releaseSignal le =? 1); intros; by simplify_eq. Qed.

Lemma check_and_elect_recorded le c le' c' :
  db_wf (committed c) -> isLeader le = false -> check_and_elect le c = (le', c') -> isLeader le' = true ->
  exists v, election (committed c') (electKey le) = Some (v, LocalHost).
Proof.
  intros Hwf Hf. unfold check_and_elect, checkLeaderDead.
  destruct (CheckMtimeExpired (electKey le) LeaseTime c) as [[[l [|]]|e|w] c1] eqn:E;
    destruct (CheckMtimeExpired_law _ _ _ _ _ E) as [[Hc1 _] Hl].
  - unfold elect. destruct (GetVersion (electKey le) c1) as [[v|e|w] c2] eqn:E2;
      destruct (GetVersion_law _ _ _ _ E2) as [[Hc2 _] _].
    + simpl. destruct (CompareAndSwapVersion (electKey le) v (v + 1) LocalHost c2) as [r c3] eqn:E3.
      assert (db_wf (committed c2)) as Hwf2 by (by rewrite Hc2, Hc1).
      destruct (CompareAndSwap_law _ _ _ _ _ _ _ E3 Hwf2) as (_ & _ & _ & _ & Ht & _).
      destruct r as [[]|e|w]; intros; simplify_eq; unfold isLeader in *; simpl in *; try congruence.
      destruct (Ht eq_refl) as (_ & _ & Hnew). eauto.
    + intros; simplify_eq. congruence.
    + intros; simplify_eq. congruence.
  - destruct (Hl l false eq_refl) as (v & Hv). intros [= <- <-].
    destruct (str_eq l LocalHost) eqn:El.
    + apply str_eq_true in El as ->. rewrite Hc1. eauto.
    + destruct (str_eq (leader le) l); [congruence|]. unfold isLeader. simpl. done.
  - intros; simplify_eq. congruence.
  - intros; simplify_eq. congruence.
Qed.

(** A machine that was a follower before a tick and is leader after it is
    recorded in the database: the row of its key then names this host. *)
Theorem tick_leader_recorded le c le' c' :
  db_wf (committed c) -> isLeader le = false -> tick le c = (le', c') -> isLeader le' = true ->
  exists v, election (committed c') (electKey le) = Some (v, LocalHost).
Proof.
  intros Hwf Hf. unfold tick. destruct (checkReleaseTickLimit le) as [b le1] eqn:E1.
  apply checkReleaseTickLimit_eq in E1 as [Hk1 Hl1]. unfold isLeader in Hf.
  destruct b. { intros [= <- <-]. unfold isLeader. congruence. }
  destruct (checkAndClearReleaseSignal le1) as [s le2] eqn:E2.
  apply checkAndClear_eq in E2 as [Hk2 Hl2]. rewrite <- Hk1, <- Hk2.
  assert (isLeader le2 = false) as Hf2 by (unfold isLeader; congruence). rewrite Hf2.
  by apply check_and_elect_recorded.
Qed.

(** Ticks a released machine sits out. *)
Lemma tick_sits_out le c : 0 < releaseTickLimit le ->
  tick le c = (set_limit (releaseTickLimit le - 1) le, c).
Proof. intros Hl. unfold tick, checkReleaseTickLimit. by rewrite (proj2 (Z.ltb_lt _ _) Hl). Qed.

Lemma ticks_sit_out n le c : Z.of_nat n <= releaseTickLimit le ->
  ticks n le c = (set_limit (releaseTickLimit le - Z.of_nat n) le, c).
Proof.
  revert le. induction n as [|n IH]; intros le Hl.
  - simpl. rewrite Z.sub_0_r. by destruct le.
  - rewrite Nat2Z.inj_succ in *. cbn [ticks]. rewrite tick_sits_out by lia. rewrite IH by (unfold set_limit; cbn; lia).
    unfold set_limit. cbn. do 2 f_equal. lia.
Qed.

(** [ReleaseLeaderElection] works as intended: at its next tick the leader
    steps down and says so, and for the next 15 ticks (three times the lease)
    the machine does not touch the database and stays a follower. *)
Theorem release_abstains le c n :
  isLeader le = true -> releaseTickLimit le = 0 -> (n <= 15)%nat ->
  let '(le', c') := ticks (S n) (setReleaseSignal le) c in
  c' = c /\ isLeader le' = false /\ leader le' = ""%string /\ releaseSignal le' = 0 /\
  releaseTickLimit le' = 15 - Z.of_nat n /\
  published le' = mkLeaderChangeEvent (electKey le) false "" :: published le.
Proof.
  intros Hl Hlim Hn. cbn [ticks]. unfold tick at 1, checkReleaseTickLimit. simpl. rewrite Hlim. simpl.
  unfold checkAndClearReleaseSignal. simpl. unfold isLeader in Hl. unfold isLeader at 1. simpl. rewrite Hl.
  unfold setReleaseTickLimit. change (LeaseTime / TickTime * 3) with 15.
  rewrite ticks_sit_out by (simpl; lia). simpl. split_and!; done.
Qed.
End election_facts.

(** ** The machine on PostgreSQL *)

Section pg_election.
Context `{Env} `{PolarisApi}.
Implicit Types (le : leaderElectionStateMachine) (c : conn database).

(** The clock never goes back. *)
Definition monotone_clock : Prop := forall j k, (j <= k)%nat -> utc j <= utc k.

Lemma BeginTx_now c c' :
  BeginTx c = (Ok tt, c') -> tx_now c' = utc (calls c) + session_tz /\ calls c' = S (calls c).
Proof. unfold BeginTx. by destruct (fault_at (calls c)); intros; simplify_eq. Qed.

Lemma Begin_now c c' :
  Begin (D:=database) c = (Ok tt, c') -> exists j, (j < calls c')%nat /\ tx_now c' = utc j + session_tz.
Proof.
  unfold Begin. intros (k & c1 & c2 & ms & _ & _ & Hb & ->)%Retry_spec.
  apply BeginTx_now in Hb as [Hn Hc]. exists (calls c1). simpl. rewrite Hc. split; [lia|done].
Qed.

(** Success of [CreateLeaderElection]: the row is new, and its times are those
    of the begin of the transaction. *)
Lemma pg_CreateLeaderElection_Ok key c c' :
  pg_CreateLeaderElection key c = (Ok tt, c') ->
  exists j, (j < calls c')%nat /\
    committed c' = set_tbl (tbl (committed c) ++ [new_election key (utc j + session_tz)]) (committed c) /\
    distinct clash (tbl (committed c) ++ [new_election key (utc j + session_tz)]) = true.
Proof.
  unfold pg_CreateLeaderElection, processWithTransaction. intros ([] & c1 & Hb & Hr)%Bind_Ok.
  pose proof (Begin_spec _ _ _ Hb) as ([Hc1 _] & _ & Ho). destruct (Ho eq_refl) as [Hopen Hw].
  apply Begin_now in Hb as (j & Hj & Hnow). exists j.
  unfold defer_rollback in Hr. match type of Hr with context [let '(_, _) := ?m in _] => destruct m as [r1 c5] eqn:E end.
  simplify_eq. apply Bind_Ok in E as ([] & c2 & H2 & E). apply Bind_Ok in E as ([] & c3 & H3 & E).
  unfold tx_Prepare, tx_Exec in H2. rewrite Hopen in H2.
  assert (c2 = set_work (work c1) (Driver.tick c1)) as ->
    by (destruct (fault_at (calls c1)) as [[]|]; simpl in H2; by simplify_eq). clear H2.
  unfold ignore_error, tx_Exec in H3. simpl in H3. rewrite Hopen in H3.
  assert (exists d, (c3 = set_work d (Driver.tick (Driver.tick (set_work (work c1) c1))) /\ txst c3 = TxOpen /\
     d = set_tbl (tbl (work c1) ++ [new_election key (tx_now c1)]) (work c1) /\
     distinct clash (tbl (work c1) ++ [new_election key (tx_now c1)]) = true) \/ txst c3 = TxAborted) as (d & Hd).
  { unfold sql_insert in H3. simpl in H3.
    destruct (fault_at (S (calls c1))) as [[]|]; destruct (distinct clash _) eqn:Ed;
      simplify_eq; eexists; first [by right|left; repeat split; try done]. }
  unfold Commit in E. destruct Hd as [(-> & Ho3 & -> & Hdist)|Hab]; [|by rewrite Hab in E].
  rewrite Ho3 in E. simpl in E. destruct (fault_at (S (S (calls c1)))) as [[]|]; simplify_eq.
  destruct (Rollback_frame (set_txst TxDone (set_committed
    (set_tbl (tbl (work c1) ++ [new_election key (tx_now c1)]) (work c1))
    (Driver.tick (set_work (set_tbl (tbl (work c1) ++ [new_election key (tx_now c1)]) (work c1))
       (Driver.tick (Driver.tick (set_work (work c1) c1)))))))) as (Hrc & _).
  split; [simpl; lia|]. rewrite Hrc. simpl. rewrite Hw, Hnow in *. done.
Qed.

(** [CreateLeaderElection] fails for a key that already has a row (the
    error of the insert is dropped, but then the aborted transaction cannot
    commit): so a second server, or a restarted one, cannot start the election
    of that key, and the table is left alone. *)
Theorem CreateLeaderElection_existing key c r c' :
  (exists row, row ∈ tbl (committed c) /\ key_row key row = true) ->
  pg_CreateLeaderElection key c = (r, c') -> r <> Ok tt.
Proof.
  intros (row & Hrow & Hk) Hr ->. apply pg_CreateLeaderElection_Ok in Hr as (j & _ & _ & Hd).
  apply distinct_app in Hd as (_ & _ & Hd). specialize (Hd row (new_election key (utc j + session_tz)) Hrow).
  unfold clash in Hd. simpl in Hd. unfold clash_leader_election in Hd. simpl in Hd.
  unfold key_row in Hk. rewrite Hk in Hd. discriminate Hd. by left.
Qed.

Lemma not_expired micros : micros < 11000000 -> (LeaseTime <? int32_seconds micros) = false.
Proof.
  intros Hm. apply Z.ltb_ge. unfold int32_seconds, trunc_seconds, LeaseTime.
  assert (Z.quot micros 1000000 <= 10).
  { destruct (Z.le_gt_cases 0 micros).
    - rewrite Z.quot_div_nonneg by lia. apply Z.lt_succ_r. apply Z.div_lt_upper_bound; lia.
    - transitivity 0; [|lia]. apply Z.opp_nonneg_nonpos. rewrite <- Z.quot_opp_l by lia.
      apply Z.quot_pos; lia. }
  destruct (_ && _); lia.
Qed.

(** A follower that finds the lease of another host running does nothing but
    look. *)
Lemma follower_tick key le c le' c' :
  electKey le = key -> isLeader le = false ->
  (forall row, row ∈ tbl (committed c) -> key_row key row = true ->
     lel_leader row <> LocalHost /\ lel_mtime row - utc (S (calls c)) < 11000000) ->
  tick le c = (le', c') ->
  electKey le' = key /\ isLeader le' = false /\ committed c' = committed c /\ (calls c <= calls c')%nat.
Proof.
  intros Hk Hf Hrow. unfold tick. destruct (checkReleaseTickLimit le) as [b le1] eqn:E1.
  apply checkReleaseTickLimit_eq in E1 as [Hk1 Hl1]. unfold isLeader in Hf.
  destruct b. { intros [= <- <-]. unfold isLeader. split_and!; [congruence|congruence|done|lia]. }
  destruct (checkAndClearReleaseSignal le1) as [s le2] eqn:E2. apply checkAndClear_eq in E2 as [Hk2 Hl2].
  assert (isLeader le2 = false) as Hf2 by (unfold isLeader; congruence). rewrite Hf2.
  unfold check_and_elect, checkLeaderDead. rewrite Hk2, Hk1, Hk. simpl.
  destruct (pg_CheckMtimeExpired key LeaseTime c) as [r c1] eqn:E.
  apply pg_CheckMtimeExpired_spec in E as [-> Hx].
  destruct r as [[l dead]|e|w].
  - destruct (Hx l dead eq_refl) as (row & rest & Hs & -> & ->).
    assert (row ∈ sql_select (key_row key) (committed c)) as [Hin Hkr]%elem_of_keep by (rewrite Hs; by left).
    destruct (Hrow row Hin Hkr) as [Hl Hm]. rewrite not_expired by done.
    rewrite (proj2 (str_eq_false _ _) Hl). intros [= <- <-].
    destruct (str_eq (leader le2) (lel_leader row)); simpl; split_and!; first [congruence|lia|done].
  - intros [= <- <-]. split_and!; [congruence|done|done|simpl; lia].
  - intros [= <- <-]. split_and!; [congruence|done|done|simpl; lia].
Qed.

Lemma follower_ticks key d j n le c le' c' :
  monotone_clock -> session_tz < 11000000 -> LocalHost <> ""%string ->
  (forall row, row ∈ tbl d -> key_row key row = true -> row = new_election key (utc j + session_tz)) ->
  electKey le = key -> isLeader le = false -> committed c = d -> (j < calls c)%nat ->
  ticks n le c = (le', c') -> isLeader le' = false /\ committed c' = d.
Proof.
  intros Hmono Htz Hhost Hrow. revert le c.
  induction n as [|n IH]; intros le c Hk Hf Hd Hj; simpl; [by intros [= <- <-]|].
  destruct (tick le c) as [le1 c1] eqn:E.
  apply (follower_tick key) in E as (Hk1 & Hf1 & Hd1 & Hc1); [|done|done|].
  - intros Hr. apply (IH le1 c1); [done|done|by rewrite Hd1|lia|done].
  - intros row Hin Hkr. rewrite Hd in Hin. rewrite (Hrow row Hin Hkr). simpl. split; [done|].
    specialize (Hmono j (S (calls c)) ltac:(lia)). lia.
Qed.

(** C40: with a server session in UTC (or west of it), a named host and a clock
    that does not run backwards, the election never has a winner: the age of
    the lease is computed with the wrong sign, so the lease of the row that
    [CreateLeaderElection] inserted never counts as expired, and no machine is
    ever elected, however often it ticks. *)
Theorem never_elected key c c1 n le' c' :
  monotone_clock -> session_tz < 11000000 -> LocalHost <> ""%string ->
  pg_CreateLeaderElection key c = (Ok tt, c1) ->
  ticks n (changeToFollower "" (new_machine key)) c1 = (le', c') ->
  isLeader le' = false /\ committed c' = committed c1.
Proof.
  intros Hmono Htz Hhost Hc Hr.
  apply pg_CreateLeaderElection_Ok in Hc as (j & Hj & Hc & Hd).
  apply (follower_ticks key (committed c1) j n (changeToFollower "" (new_machine key)) c1 le' c'); [done|done|done| |done|done|done|exact Hj|exact Hr].
  intros row Hin Hk. rewrite Hc, tbl_set in Hin.
  apply elem_of_app in Hin as [Hin|Hin%list_elem_of_singleton]; [|done].
  apply distinct_app in Hd as (_ & _ & Hd).
  specialize (Hd row (new_election key (utc j + session_tz)) Hin ltac:(by left)).
  unfold clash in Hd. simpl in Hd. unfold clash_leader_election in Hd. simpl in Hd.
  unfold key_row in Hk. congruence.
Qed.

(** Every driver call fails. *)
Definition outage : Prop := forall k, exists f, fault_at k = Some f.

Lemma outage_process {A} (m : M database A) c : outage ->
  exists e c', processWithTransaction m c = (Err e, c').
Proof.
  intros Ho. unfold processWithTransaction, Bind.
  destruct (Begin c) as [[[]|e|w] c1] eqn:E; [|by eauto|by destruct (Begin_spec _ _ _ E) as (_ & Hw & _); destruct (Hw w)].
  unfold Begin in E. apply Retry_Ok in E as (c2 & c3 & E). unfold BeginTx in E.
  destruct (Ho (calls c2)) as [f Hf]. by rewrite Hf in E.
Qed.

Lemma outage_heartbeat le c : outage ->
  exists e c', heartbeat le c = (Err e, set_version (version le + 1) le, c').
Proof.
  intros Ho. unfold heartbeat. simpl. unfold pg_CompareAndSwapVersion, Bind.
  match goal with |- context [processWithTransaction ?m c] =>
    destruct (outage_process m c Ho) as (e & c1 & ->) end. eauto.
Qed.

(** A leader that loses the database stays leader: when the heartbeat and
    the check of the lease both fail, the tick logs that it becomes a follower
    but leaves the flag set, so [IsLeader] keeps saying yes for as long as the
    outage lasts. *)
Theorem leader_survives_outage le c n :
  outage -> isLeader le = true -> releaseSignal le = 0 -> releaseTickLimit le = 0 ->
  isLeader (fst (ticks n le c)) = true /\ published (fst (ticks n le c)) = published le.
Proof.
  intros Ho. revert le c. induction n as [|n IH]; intros le c Hl Hs Hlim; [done|].
  cbn [ticks]. unfold tick, checkReleaseTickLimit, checkAndClearReleaseSignal. rewrite Hlim. simpl. rewrite Hs. simpl.
  rewrite Hl. destruct (outage_heartbeat le c Ho) as (e & c1 & ->).
  unfold check_and_elect, checkLeaderDead. simpl. unfold pg_CheckMtimeExpired, map_err, Bind, DB_QueryRow.
  destruct (Ho (calls c1)) as [f ->]. exact (IH (set_version (version le + 1) le) (Driver.tick c1) Hl Hs Hlim).
Qed.
End pg_election.
