(* ===== verification/Cleanup.v ===== *)
(** * Housekeeping (store/postgresql/admin.go, tool.go)

    The batch jobs of [adminStore] that remove soft-deleted instances and
    clients, the search for unhealthy instances, and [toolStore]'s clock. *)
From stdpp Require Import base list strings gmap.
From Stdlib Require Import ZArith Lia.
From S2P Require Import Prelude Driver Rows Schema Sql Common.
Open Scope Z_scope.
Open Scope store_scope.

Section cleanup.
Context `{Env} `{PolarisApi}.
Abbreviation M := (M database).
Abbreviation P := (P database).

(** ** Instances *)

(** The identifiers the job loads, in table order. *)
Definition wait_del (bound batchSize : Z) (d : database) : list string :=
  take (Z.to_nat batchSize)
    (map ins_id (keep (fun r => (ins_flag r =? 1) && (ins_mtime r <=? bound)) (tbl d))).

(** [placeholders]: [idx] is not advanced in the loop. *)
Fixpoint in_placeholders (ids : list string) (idx : Z) : sql :=
  match ids with
  | [] => []
  | [_] => [Ph idx]
  | _ :: ids' => Ph idx :: T "," :: in_placeholders ids' idx
  end.

(** DELETE ... WHERE ... IN (...) with these placeholders. *)
Definition delete_in {R} `{Table R} (str : string) (ids : list string) (where_ : R -> bool) : P Z :=
  if params_ok (T str :: in_placeholders ids 1 ++ [T ")"]) (length ids)
  then sql_delete where_
  else fun _ _ => Err param_error.

Definition clean_instances (ids : list string) : M Z :=
  map_err store_Error (stmt_Exec (delete_in "DELETE FROM instance_metadata WHERE id IN (" ids
    (fun r => bool_decide (imd_id r ∈ ids)))) ;;;
  map_err store_Error (stmt_Exec (delete_in "DELETE FROM health_check WHERE id IN (" ids
    (fun r => bool_decide (hck_id r ∈ ids)))) ;;;
  map_err store_Error (stmt_Exec (delete_in "DELETE FROM instance WHERE flag = 1 AND id IN (" ids
    (fun r => (ins_flag r =? 1) && bool_decide (ins_id r ∈ ids)))).

(** [BatchCleanDeletedInstances]; [timeout] in seconds.  [rows.Err()] is not
    looked at, and without candidates the transaction is rolled back. *)
Definition BatchCleanDeletedInstances (timeout batchSize : Z) : M Z :=
  processWithTransaction (
    now <- time_Now ;;
    let diffTime := GetCurrentSsTimestamp now - timeout in
    rs <- map_err store_Error (tx_Query (fun _ d =>
            Ok (wait_del (UnixSecondToTime diffTime) batchSize d))) ;;
    match r_data rs with
    | [] => Ret 0
    | waitDelIds => then_commit (clean_instances waitDelIds)
    end).

(** [GetUnHealthyInstances] *)
Definition unhealthy (bound : Z) (r : instance_row) : bool :=
  (ins_flag r =? 0) && (ins_enable_health_check r =? 1) && (ins_health_status r =? 0) &&
  (ins_mtime r <? bound).

Definition GetUnHealthyInstances (timeout limit : Z) : M (list string) :=
  rs <- map_err store_Error (Query committed (fun now d =>
          Ok (take (Z.to_nat limit) (sql_select (unhealthy (now - timeout * 1000000)) d)))) ;;
  map_err store_Error (lift (fetch_rows (fun r => Ok (ins_id r)) rs)).

(** ** Clients *)

Definition deleted_clients (bound batchSize : Z) (d : database) : list string :=
  take (Z.to_nat batchSize)
    (map cli_id (keep (fun r => (cli_flag r =? 1) && (cli_mtime r <=? bound)) (tbl d))).

Definition delete_clients (timeout batchSize : Z) : P Z := fun now d =>
  sql_delete (fun r => bool_decide (cli_id r ∈ deleted_clients (now - timeout * 1000000) batchSize d)) now d.

(** [BatchCleanDeletedClients] *)
Definition BatchCleanDeletedClients (timeout batchSize : Z) : M Z :=
  processWithTransaction (then_commit (map_err store_Error (tx_Exec (delete_clients timeout batchSize)))).

(** ** tool.go *)

(** [GetUnixSecond]; [maxWait] in microseconds.  CURRENT_TIMESTAMP carries its
    zone, so the instant does not depend on the session. *)
Definition GetUnixSecond (maxWait : Z) : M Z :=
  startTime <- time_Now ;;
  rs <- Query committed (fun now _ => Ok [now - session_tz]) ;;
  endTime <- time_Now ;;
  let timePass := endTime - startTime in
  if negb (maxWait =? 0) && (maxWait <? timePass) then Ret 0
  else Ret (fold_left (fun _ curTime => ConvertSecond curTime) (r_data rs) 0).
End cleanup.

(** ** Facts *)

(** Everything about one instance removed. *)
Definition purged (id : string) (d : database) : database :=
  set_tbl (keep (fun r => negb ((ins_flag r =? 1) && bool_decide (ins_id r ∈ [id]))) (tbl d))
    (set_tbl (keep (fun r => negb (bool_decide (hck_id r ∈ [id]))) (tbl d))
       (set_tbl (keep (fun r => negb (bool_decide (imd_id r ∈ [id]))) (tbl d)) d)).

Section cleanup_facts.
Context `{Env} `{PolarisApi}.
Abbreviation P := (P database).

Definition p_clean_instances (ids : list string) : P Z :=
  p_bind (p_map_err store_Error (delete_in "DELETE FROM instance_metadata WHERE id IN (" ids
            (fun r => bool_decide (imd_id r ∈ ids)))) (fun _ =>
  p_bind (p_map_err store_Error (delete_in "DELETE FROM health_check WHERE id IN (" ids
            (fun r => bool_decide (hck_id r ∈ ids)))) (fun _ =>
  p_map_err store_Error (delete_in "DELETE FROM instance WHERE flag = 1 AND id IN (" ids
            (fun r => (ins_flag r =? 1) && bool_decide (ins_id r ∈ ids))))).

#[export] Instance impl_clean_instances ids : Implements (clean_instances ids) (p_clean_instances ids).
Proof. unfold clean_instances, p_clean_instances. apply _. Qed.

Lemma in_placeholders_phs ids idx : phs (in_placeholders ids idx) = replicate (length ids) idx.
Proof.
  induction ids as [|x ids IH]; [done|]. destruct ids as [|y ids]; [done|].
  change (idx :: phs (in_placeholders (y :: ids) idx) = replicate (length (x :: y :: ids)) idx).
  by rewrite IH.
Qed.

Lemma in_placeholders_refused str ids : (2 <= length ids)%nat ->
  params_ok (T str :: in_placeholders ids 1 ++ [T ")"]) (length ids) = false.
Proof.
  intros Hl. destruct (params_ok _ _) eqn:E; [exfalso|done].
  assert (2 ∈ phs (T str :: in_placeholders ids 1 ++ [T ")"])) as Hi
    by (eapply (params_ok_all _ (length ids)); [exact E|lia]).
  simpl in Hi. rewrite phs_app, in_placeholders_phs in Hi. simpl in Hi. rewrite app_nil_r in Hi.
  apply elem_of_replicate in Hi as [? _]. done.
Qed.

Lemma p_clean_instances_many ids now d : (2 <= length ids)%nat ->
  p_clean_instances ids now d = Err (store_Error param_error).
Proof.
  intros Hl. unfold p_clean_instances, p_bind, p_map_err, delete_in.
  by rewrite in_placeholders_refused.
Qed.

Lemma p_clean_instances_Ok ids now d n d' :
  ids <> [] -> p_clean_instances ids now d = Ok (n, d') ->
  exists id, ids = [id] /\ d' = purged id d /\
    n = Z.of_nat (count (fun r => (ins_flag r =? 1) && bool_decide (ins_id r ∈ [id])) (tbl d)).
Proof.
  intros Hne Hp. destruct ids as [|id [|id2 ids]]; [done| |].
  - exists id. unfold p_clean_instances, p_bind, p_map_err, delete_in in Hp. simpl in Hp.
    injection Hp as <- <-. split; [done|]. unfold purged. autorewrite with tables. done.
  - by rewrite p_clean_instances_many in Hp by (simpl; lia).
Qed.

Lemma aborted_clean ids c r c' :
  txst c = TxAborted -> then_commit (clean_instances ids) c = (r, c') ->
  committed c' = committed c /\ replica c' = replica c /\ is_Ok r = false.
Proof.
  intros Ha. unfold then_commit, clean_instances, Bind, map_err, stmt_Exec, Bind, tx_Prepare, tx_Exec.
  rewrite Ha. simpl. intros. by simplify_eq.
Qed.

(** What the job can do. *)
Lemma clean_body timeout batchSize c r c' :
  txst c = TxOpen -> work c = committed c ->
  (now <- time_Now ;;
   rs <- map_err store_Error (tx_Query (fun _ d =>
     Ok (wait_del (UnixSecondToTime (GetCurrentSsTimestamp now - timeout)) batchSize d))) ;;
   match r_data rs with [] => Ret 0 | waitDelIds => then_commit (clean_instances waitDelIds) end) c = (r, c') ->
  replica c' = replica c /\
  ((committed c' = committed c /\ forall n, r = Ok n -> n = 0) \/
   exists bound id, wait_del bound batchSize (committed c) = [id] /\ committed c' = purged id (committed c) /\
     forall n, r = Ok n -> n = Z.of_nat (count (fun r => (ins_flag r =? 1) && bool_decide (ins_id r ∈ [id]))
                                        (tbl (committed c)))).
Proof.
  intros Ho Hw. unfold Bind at 1, time_Now. set (bound := UnixSecondToTime _). unfold Bind at 1, map_err.
  destruct (tx_Query (fun _ d => Ok (wait_del bound batchSize d)) c) as [[rs|e|w] c1] eqn:E; intros Hr.
  - assert (committed c1 = committed c /\ replica c1 = replica c /\
      ((txst c1 = TxAborted) \/ (txst c1 = TxOpen /\ work c1 = committed c1 /\
         r_data rs = wait_del bound batchSize (committed c)))) as (Hc1 & Hr1 & Hst).
    { unfold tx_Query, tx_Exec in E. rewrite Ho in E. simpl in E.
      destruct (fault_at (calls c)) as [[]|]; simplify_eq/=; split_and!; try done; [by left|right].
      rewrite Hw. done. }
    destruct (r_data rs) as [|id ids] eqn:Ed.
    { unfold Ret in Hr. simplify_eq. split; [done|]. left. split; [done|]. by intros n [= <-]. }
    destruct Hst as [Hst|(Ho1 & Hw1 & Hids)].
    + apply aborted_clean in Hr as (-> & -> & Hf); [|done]. split; [done|]. left.
      split; [done|]. by intros n ->.
    + apply (then_commit_spec _ (p_clean_instances (id :: ids))) in Hr as [Hout Hrep]; [|done|done].
      split; [congruence|]. rewrite Hc1 in Hout.
      destruct r as [n|e|w]; simpl in Hout.
      * right. destruct Hout as (now & Hp). apply p_clean_instances_Ok in Hp as (id' & Hi & Hd & Hn); [|done].
        exists bound, id'. rewrite <- Hids, Hi. split_and!; [done|done|]. by intros n' [= <-].
      * destruct Hout as [Hout|(now & n & Hp)]; [left; by split|right].
        apply p_clean_instances_Ok in Hp as (id' & Hi & Hd & Hn); [|done].
        exists bound, id'. by rewrite <- Hids, Hi.
      * left. by split.
  - simplify_eq. unfold tx_Query, tx_Exec in E. rewrite Ho in E. simpl in E.
    split; [|left; split; [|done]]; destruct (fault_at (calls c)) as [[]|]; by simplify_eq/=.
  - simplify_eq. unfold tx_Query, tx_Exec in E. rewrite Ho in E. simpl in E.
    destruct (fault_at (calls c)) as [[]|]; by simplify_eq/=.
Qed.

(** [BatchCleanDeletedInstances] removes at most one instance per call,
    with its metadata and health check: every placeholder of its IN lists is
    $1, so the server refuses the statements as soon as two instances wait to
    be removed, and then nothing is removed and the call fails. *)
Theorem BatchCleanDeletedInstances_one timeout batchSize c r c' :
  BatchCleanDeletedInstances timeout batchSize c = (r, c') ->
  replica c' = replica c /\
  ((committed c' = committed c /\ forall n, r = Ok n -> n = 0) \/
   exists bound id, wait_del bound batchSize (committed c) = [id] /\
     committed c' = purged id (committed c) /\
     forall n, r = Ok n -> n = Z.of_nat (count (fun x => (ins_flag x =? 1) && bool_decide (ins_id x ∈ [id]))
                                         (tbl (committed c)))).
Proof.
  unfold BatchCleanDeletedInstances, processWithTransaction, Bind at 1.
  destruct (Begin c) as [[[]|e|w] c1] eqn:E; intros Hr;
    destruct (Begin_spec _ _ _ E) as ([Hc Hre] & _ & Ho).
  - destruct (Ho eq_refl) as [Ho1 Hw1]. apply defer_rollback_eq in Hr as (c2 & Hb & -> & -> & _).
    rewrite <- Hc, <- Hre. eapply clean_body; [done|congruence|exact Hb].
  - simplify_eq. split; [done|]. left. split; [done|]. done.
  - simplify_eq. split; [done|]. left. split; [done|]. done.
Qed.

Lemma delete_clients_Ok timeout batchSize now d n d' :
  db_wf d -> 0 <= batchSize -> delete_clients timeout batchSize now d = Ok (n, d') ->
  only_table client_row d d' /\ 0 <= n <= batchSize /\
  n = Z.of_nat (length (tbl (R:=client_row) d)) - Z.of_nat (length (tbl (R:=client_row) d')) /\
  (forall r, r ∈ tbl d -> r ∉ tbl d' -> cli_flag r = 1 /\ cli_mtime r <= now - timeout * 1000000).
Proof.
  intros Hwf Hb Hd. unfold delete_clients, sql_delete in Hd.
  set (ids := deleted_clients (now - timeout * 1000000) batchSize d) in *.
  set (w := fun r => bool_decide (cli_id r ∈ ids)) in *.
  injection Hd as <- <-. rewrite tbl_set. split; [apply only_table_set|].
  change (fun r => negb (bool_decide (cli_id r ∈ ids))) with (fun r => negb (w r)).
  assert (forall (l : list client_row) (p : client_row -> bool),
    length l = (count p l + length (keep (fun r => negb (p r)) l))%nat) as Hlen.
  { unfold count. intros l p. induction l as [|x l IH]; [done|]. simpl. destruct (p x); simpl; lia. }
  specialize (Hlen (tbl d) w). split; [split; [lia|]|split; [lia|]].
  - assert (count w (tbl d) <= length ids)%nat as Hc.
    { unfold count. rewrite <- (length_map cli_id). apply submseteq_length, NoDup_submseteq.
      - assert (distinct clash_client (keep w (tbl d)) = true) as Hdist by (apply distinct_keep; apply Hwf).
        clear -Hdist. induction (keep w (tbl d)) as [|x l IH]; [constructor|].
        apply distinct_cons in Hdist as [Hx Hl]. simpl. apply list.NoDup_cons. split; [|auto].
        intros Hin. apply list_elem_of_In, in_map_iff in Hin as (y & Hy & Hi). apply list_elem_of_In, Hx in Hi.
        unfold clash_client in Hi. by rewrite Hy, str_eq_refl in Hi.
      - intros x Hx. apply list_elem_of_In, in_map_iff in Hx as (y & <- & Hi).
        apply list_elem_of_In, elem_of_keep in Hi as [_ Hi]. by apply bool_decide_eq_true in Hi. }
    assert (length ids <= Z.to_nat batchSize)%nat by (unfold ids, deleted_clients; rewrite length_take; lia). lia.
  - intros r Hr Hn. destruct (w r) eqn:Ew; [|destruct Hn; apply elem_of_keep; by rewrite Ew].
    unfold w in Ew. apply bool_decide_eq_true in Ew. unfold ids, deleted_clients in Ew.
    apply subseteq_take in Ew. apply list_elem_of_In, in_map_iff in Ew as (y & Hy & Hi).
    apply list_elem_of_In, elem_of_keep in Hi as [Hyd Hi]. apply andb_true_iff in Hi as [Hi1 Hi2].
    assert (y = r) as -> by (eapply (distinct_eq clash_client); [apply Hwf|done|done|..];
      unfold clash_client; by rewrite Hy, str_eq_refl). lia.
Qed.

#[export] Instance refines_BatchCleanDeletedClients timeout batchSize :
  Refines (BatchCleanDeletedClients timeout batchSize) (p_map_err store_Error (delete_clients timeout batchSize)).
Proof. unfold BatchCleanDeletedClients. apply _. Qed.

(** [BatchCleanDeletedClients] removes at most [batchSize] clients, each of
    them marked deleted for longer than the timeout, and reports how many. *)
Theorem BatchCleanDeletedClients_correct timeout batchSize c r c' :
  db_wf (committed c) -> 0 <= batchSize -> BatchCleanDeletedClients timeout batchSize c = (r, c') ->
  replica c' = replica c /\ only_table client_row (committed c) (committed c') /\
  (forall n, r = Ok n -> 0 <= n <= batchSize /\
     n = Z.of_nat (length (tbl (R:=client_row) (committed c))) - Z.of_nat (length (tbl (R:=client_row) (committed c')))) /\
  exists now, forall x, x ∈ tbl (committed c) -> x ∉ tbl (committed c') ->
     cli_flag x = 1 /\ cli_mtime x <= now - timeout * 1000000.
Proof.
  intros Hwf Hb Hr. unfold BatchCleanDeletedClients in Hr.
  apply (process_spec _ (p_map_err store_Error (delete_clients timeout batchSize))) in Hr as [Ho Hre].
  split; [done|]. destruct r as [n|e|w]; simpl in Ho.
  - destruct Ho as (now & Hd%p_map_err_Ok). apply delete_clients_Ok in Hd as (H1 & H2 & H3 & H4); [|done|done].
    split; [done|]. split; [by intros n' [= <-]|]. by exists now.
  - destruct Ho as [->|(now & n & Hd%p_map_err_Ok)].
    + split; [reflexivity|]. split; [done|]. exists 0. by intros x Hx.
    + apply delete_clients_Ok in Hd as (H1 & H2 & H3 & H4); [|done|done]. split; [done|]. split; [done|]. by exists now.
  - rewrite Ho. split; [reflexivity|]. split; [done|]. exists 0. by intros x Hx.
Qed.

(** On a working connection the clock is the server's, unless the answer took
    longer than the caller wants to wait. *)
Lemma GetUnixSecond_reliable maxWait c : reliable ->
  fst (GetUnixSecond maxWait c) =
    Ok (if negb (maxWait =? 0) && (maxWait <? utc (S (calls c)) - utc (calls c)) then 0
        else unix_seconds (utc (calls c))).
Proof.
  intros Hr. unfold GetUnixSecond. unfold Bind at 1, time_Now at 1. erewrite Query_then; [|done|done].
  unfold Bind, time_Now. simpl. destruct (_ && _); unfold Ret; simpl; [done|].
  unfold ConvertSecond, current_timestamp. by replace (utc (calls c) + session_tz - session_tz) with (utc (calls c)) by lia.
Qed.
End cleanup_facts.
