(* ===== verification/Instances.v ===== *)
(** * Instances (store/postgresql/instance.go)

    [instanceStore]: instances, their health checks and metadata.  The
    conversions of package [model] are parameters ([InstanceApi]). *)
From stdpp Require Import base list strings gmap.
From Stdlib Require Import ZArith Lia.
From S2P Require Import Prelude Driver Rows Schema Sql Common.
Open Scope Z_scope.
Open Scope store_scope.

(** [model.Instance] through its accessors. *)
Record model_Instance := mkInstance {
  ID : string; ServiceID : string; VpcID : string; Host : string; Port : Z; Protocol : string;
  Version : string; Healthy : bool; Isolate : bool; Weight : Z; EnableHealthCheck : bool;
  LogicSet : string; Region : string; Zone : string; Campus : string; Priority : Z;
  Revision : string; HealthCheck : option (Z * Z); (* type and ttl *)
  Metadata : option (gmap string string); Valid : bool }.

Definition set_Metadata (m : option (gmap string string)) (i : model_Instance) : model_Instance :=
  mkInstance (ID i) (ServiceID i) (VpcID i) (Host i) (Port i) (Protocol i) (Version i) (Healthy i)
    (Isolate i) (Weight i) (EnableHealthCheck i) (LogicSet i) (Region i) (Zone i) (Campus i)
    (Priority i) (Revision i) (HealthCheck i) m (Valid i).

(** [model.InstanceStore]: what a row is scanned into. *)
Record InstanceStore := mkInstanceStore {
  st_ID : string; st_ServiceID : string; st_VpcID : string; st_Host : string; st_Port : Z;
  st_Protocol : string; st_Version : string; st_HealthStatus : Z; st_Isolate : Z; st_Weight : Z;
  st_EnableHealthCheck : Z; st_LogicSet : string; st_Region : string; st_Zone : string;
  st_Campus : string; st_Priority : Z; st_Revision : string; st_Flag : Z; st_CheckType : Z;
  st_TTL : Z; st_CreateTime : Z; st_ModifyTime : Z }.

(** [model.ExpandInstanceStore] *)
Record ExpandInstanceStore := mkExpandInstanceStore {
  ServiceName : string; ex_Namespace : string; ServiceToken : string; ServicePlatformID : string;
  ServiceInstance : InstanceStore }.

(** Conversions of package [model]. *)
Class InstanceApi := {
  Store2Instance : InstanceStore -> model_Instance;
  ExpandStore2Instance : ExpandInstanceStore -> model_Instance;
  Int2bool : Z -> bool;
  Store2Instance_ID : forall s, ID (Store2Instance s) = st_ID s;
  Store2Instance_Valid : forall s, Valid (Store2Instance s) = negb (st_Flag s =? 1)
}.

(** A row of instance joined with its health check, if any, and with its
    service. *)
Definition joined := (instance_row * option health_check_row)%type.
Definition expanded := (service_row * joined)%type.

(** The server's answer to the generated query of [getExpandInstances].
    PostgreSQL has no index hints; otherwise it refuses wrongly numbered
    parameters. *)
Definition force_index : string := "force index(service_id, host) ".

Class PgExpand := {
  pg_expand : sql -> list arg -> database -> res (list expanded);
  pg_expand_params : forall q args d, T force_index ∉ q ->
    params_ok q (length args) = false -> pg_expand q args d = Err param_error;
  pg_expand_hint : forall q args d, T force_index ∈ q -> pg_expand q args d = Err syntax_error
}.

(** [store.InstanceMetadataRequest] *)
Record InstanceMetadataRequest := mkInstanceMetadataRequest {
  InstanceID : string; rq_Revision : string; Keys : list string; rq_Metadata : gmap string string }.

Definition b2i (b : bool) : Z := if b then 1 else 0.

Section instance.
Context `{Env} `{PolarisApi} `{MapRange} `{PgServer} `{InstanceApi} `{Strconv} `{PgExpand}.
Abbreviation M := (M database).
Abbreviation P := (P database).

(** ** Statements *)

(** [cleanInstance] *)
Definition dead (id : string) (r : instance_row) : bool := str_eq (ins_id r) id && (ins_flag r =? 1).

Definition cleanInstance (instanceID : string) : M unit :=
  map_err store_Error (void (stmt_Exec (sql_delete (dead instanceID)))).

(** [addMainInstance]: seventeen arguments per row. *)
Definition main_args (i : model_Instance) : list arg :=
  [AStr (ID i); AStr (ServiceID i); AStr (VpcID i); AStr (Host i); AInt (Port i); AStr (Protocol i);
   AStr (Version i); AInt (b2i (Healthy i)); AInt (b2i (Isolate i)); AInt (Weight i);
   AInt (b2i (EnableHealthCheck i)); AStr (LogicSet i); AStr (Region i); AStr (Zone i);
   AStr (Campus i); AInt (Priority i); AStr (Revision i)].

Definition main_row (now : Z) (a : list arg) : instance_row :=
  let s n := arg_str (nth n a (AStr "")) in
  let z n := arg_int (nth n a (AInt 0)) in
  InstanceRow (s 0%nat) (s 1%nat) (Some (s 2%nat)) (s 3%nat) (z 4%nat) (Some (s 5%nat)) (Some (s 6%nat))
    (z 7%nat) (z 8%nat) (z 9%nat) (z 10%nat) (Some (s 11%nat)) (Some (s 12%nat)) (Some (s 13%nat))
    (Some (s 14%nat)) (z 15%nat) (s 16%nat) 0 now now.

Definition addMainInstance (i : model_Instance) : M unit :=
  void (stmt_Exec (sql_insert (fun now => [main_row now (main_args i)]))).

(** [batchAddMainInstances]: without instances the text ends after VALUES. *)
Definition insert_main (instances : list model_Instance) : P Z :=
  match instances with
  | [] => fun _ _ => Err syntax_error
  | _ =>
      let '(groups, args) := values_loop 17 17 (map main_args instances) 1 in
      let str := T "insert into instance(id, service_id, vpc_id, host, port, protocol, version, health_status, isolate, weight, enable_health_check, logic_set, cmdb_region, cmdb_zone, cmdb_idc, priority, revision, ctime, mtime) values"
                 :: values_sql ", CURRENT_TIMESTAMP, CURRENT_TIMESTAMP" groups in
      if params_ok str (length args)
      then sql_insert (fun now => map (fun g => main_row now (map (arg_at args) g)) groups)
      else fun _ _ => Err param_error
  end.

Definition batchAddMainInstances (instances : list model_Instance) : M unit :=
  void (stmt_Exec (insert_main instances)).

(** [addInstanceCheck] *)
Definition check_args (id : string) (check : Z * Z) : list arg :=
  [AStr id; AInt (fst check); AInt (snd check)].

Definition check_row (a : list arg) : health_check_row :=
  HealthCheckRow (arg_str (nth 0 a (AStr ""))) (arg_int (nth 1 a (AInt 0))) (arg_int (nth 2 a (AInt 0))).

Definition addInstanceCheck (i : model_Instance) : M unit :=
  match HealthCheck i with
  | None => Ret tt
  | Some check => void (stmt_Exec (sql_insert (fun _ => [check_row (check_args (ID i) check)])))
  end.

(** [batchAddInstanceCheck] *)
Definition all_check_args (instances : list model_Instance) : list (list arg) :=
  omap (fun i => check_args (ID i) <$> HealthCheck i) instances.

Definition insert_checks (rows : list (list arg)) : P Z :=
  let '(groups, args) := values_loop 3 3 rows 1 in
  if params_ok (T "insert into health_check(id, type, ttl) values" :: values_sql "" groups) (length args)
  then sql_insert (fun _ => map (fun g => check_row (map (arg_at args) g)) groups)
  else fun _ _ => Err param_error.

Definition batchAddInstanceCheck (instances : list model_Instance) : M unit :=
  match all_check_args instances with
  | [] => Ret tt
  | rows => void (stmt_Exec (insert_checks rows))
  end.

(** [addInstanceMeta] *)
Definition meta_args (id : string) (kv : string * string) : list arg :=
  [AStr id; AStr (fst kv); AStr (snd kv)].

Definition meta_row (time : Z) (a : list arg) : instance_metadata_row :=
  InstanceMetadataRow (arg_str (nth 0 a (AStr ""))) (arg_str (nth 1 a (AStr "")))
    (arg_str (nth 2 a (AStr ""))) time time.

(** INSERT of metadata; [time] is what the text says the times are. *)
Definition insert_meta (rows : list (list arg)) (time : Z -> Z) : P Z :=
  let '(groups, args) := values_loop 3 3 rows 1 in
  if params_ok (T "insert into instance_metadata(id, mkey, mvalue, ctime, mtime) values "
                :: values_sql ", CURRENT_TIMESTAMP, CURRENT_TIMESTAMP" groups) (length args)
  then sql_insert (fun now => map (fun g => meta_row (time now) (map (arg_at args) g)) groups)
  else fun _ _ => Err param_error.

Definition addInstanceMeta (id : string) (meta : gmap string string) : M unit :=
  match range_map meta with
  | [] => Ret tt
  | entries => void (stmt_Exec (insert_meta (map (meta_args id) entries) (fun now => now)))
  end.

(** [batchDeleteInstanceMeta] *)
Definition meta_of (id : string) (r : instance_metadata_row) : bool := str_eq (imd_id r) id.

Definition batchDeleteInstanceMeta (instances : list model_Instance) : M unit :=
  match map ID instances with
  | [] => Ret tt
  | ids => void (stmt_Exec (sql_delete (fun r : instance_metadata_row => bool_decide (imd_id r ∈ ids))))
  end.

(** [batchAddInstanceMeta]: the times are texts, [GetCurrentTimeFormat()]. *)
Definition all_meta_args (instances : list model_Instance) : list (list arg) :=
  concat (map (fun i => map (meta_args (ID i)) (range_map (default ∅ (Metadata i)))) instances).

Definition batchAddInstanceMeta (instances : list model_Instance) : M unit :=
  now <- time_Now ;;
  match all_meta_args instances with
  | [] => Ret tt
  | rows => void (stmt_Exec (insert_meta rows (fun _ => GetCurrentTimeFormat now)))
  end.

(** [updateInstanceMeta] *)
Definition updateInstanceMeta (i : model_Instance) : M unit :=
  match Metadata i with
  | None => Ret tt
  | Some meta =>
      void (stmt_Exec (sql_delete (meta_of (ID i)))) ;;;
      addInstanceMeta (ID i) meta
  end.

(** [deleteInstanceCheck], [updateInstanceCheck]: an update inserts. *)
Definition check_of (id : string) (r : health_check_row) : bool := str_eq (hck_id r) id.

Definition deleteInstanceCheck (id : string) : M unit := void (stmt_Exec (sql_delete (check_of id))).

Definition updateInstanceCheck (i : model_Instance) : M unit :=
  match HealthCheck i with
  | None => deleteInstanceCheck (ID i)
  | Some check => void (stmt_Exec (sql_insert (fun _ => [check_row (check_args (ID i) check)])))
  end.

(** [updateInstanceMain]: mtime is the text of the Go clock. *)
Definition with_id (id : string) (r : instance_row) : bool := str_eq (ins_id r) id.

Definition set_instance (i : model_Instance) (mtime : Z) (r : instance_row) : instance_row :=
  InstanceRow (ins_id r) (ins_service_id r) (ins_vpc_id r) (ins_host r) (ins_port r)
    (Some (Protocol i)) (Some (Version i)) (b2i (Healthy i)) (b2i (Isolate i)) (Weight i)
    (b2i (EnableHealthCheck i)) (Some (LogicSet i)) (Some (Region i)) (Some (Zone i))
    (Some (Campus i)) (Priority i) (Revision i) (ins_flag r) (ins_ctime r) mtime.

Definition updateInstanceMain (i : model_Instance) : M unit :=
  tx_Prepare ;;;
  now <- time_Now ;;
  void (tx_Exec (sql_update (with_id (ID i)) (fun _ => set_instance i (GetCurrentTimeFormat now)))).

(** ** Operations that write *)

(** [addInstance], [AddInstance] *)
Definition addInstance_body (i : model_Instance) : M unit :=
  cleanInstance (ID i) ;;;
  addMainInstance i ;;;
  addInstanceCheck i ;;;
  updateInstanceMeta i.

Definition AddInstance (i : model_Instance) : M unit :=
  map_err store_Error (RetryTransaction (processWithTransaction (then_commit (addInstance_body i)))).

(** [batchAddInstances], [BatchAddInstances] *)
Definition batchAddInstances_body (instances : list model_Instance) : M unit :=
  batchAddMainInstances instances ;;;
  batchAddInstanceCheck instances ;;;
  batchDeleteInstanceMeta instances ;;;
  batchAddInstanceMeta instances.

Definition BatchAddInstances (instances : list model_Instance) : M unit :=
  map_err store_Error (RetryTransaction (processWithTransaction (then_commit (batchAddInstances_body instances)))).

(** [updateInstance], [UpdateInstance] *)
Definition updateInstance_body (i : model_Instance) : M unit :=
  updateInstanceMain i ;;;
  updateInstanceCheck i ;;;
  updateInstanceMeta i.

Definition update_error (err : error) : error :=
  let serr := store_Error err in
  if decide (store_Code serr = DuplicateEntryErr) then EStatus DataConflictErr (Error err) else serr.

Definition UpdateInstance (i : model_Instance) : M unit :=
  map_err update_error (RetryTransaction (processWithTransaction (then_commit (updateInstance_body i)))).

(** [CleanInstance] *)
Definition CleanInstance (instanceID : string) : M unit :=
  RetryTransaction (processWithTransaction (then_commit (cleanInstance instanceID))).

(** [DeleteInstance] *)
Definition set_flag (flag : Z) (now : Z) (r : instance_row) : instance_row :=
  InstanceRow (ins_id r) (ins_service_id r) (ins_vpc_id r) (ins_host r) (ins_port r) (ins_protocol r)
    (ins_version r) (ins_health_status r) (ins_isolate r) (ins_weight r) (ins_enable_health_check r)
    (ins_logic_set r) (ins_cmdb_region r) (ins_cmdb_zone r) (ins_cmdb_idc r) (ins_priority r)
    (ins_revision r) flag (ins_ctime r) now.

Definition DeleteInstance (instanceID : string) : M unit :=
  if str_empty instanceID then Fail (EMsg "delete Instance Missing instance id")
  else RetryTransaction (processWithTransaction (then_commit
         (map_err store_Error (void (stmt_Exec (sql_update (with_id instanceID) (set_flag 1))))))).

(** UPDATE instance SET ... WHERE id IN (...): the placeholders of the list
    come after [n] others. *)
Definition update_in (n : Z) (objects : list string) (set : Z -> instance_row -> instance_row) : P unit :=
  let '(placeholder, _) := PlaceholdersNI (Z.of_nat (length objects)) (n + 1) in
  if params_ok (map Ph (seqZ 1 n) ++ T " where id in (" :: placeholder ++ [T ")"])
       (Z.to_nat n + length objects)
  then p_void (sql_update (fun r => bool_decide (ins_id r ∈ objects)) set)
  else fun _ _ => Err param_error.

Definition update_batch (n : Z) (set : Z -> instance_row -> instance_row) (objects : list string) : M unit :=
  match objects with
  | [] => Ret tt
  | _ => map_err store_Error (stmt_Exec (update_in n objects set))
  end.

(** [BatchDeleteInstances]: here the error of [Prepare] is returned as it is. *)
Definition delete_batch (objects : list string) : M unit :=
  match objects with
  | [] => Ret tt
  | _ => tx_Prepare ;;; map_err store_Error (tx_Exec (update_in 0 objects (set_flag 1)))
  end.

Definition BatchDeleteInstances (ids : list string) : M unit :=
  RetryTransaction (processWithTransaction (then_commit (BatchOperation ids delete_batch))).

(** [SetInstanceHealthStatus], [BatchSetInstanceHealthStatus] *)
Definition set_health (status : Z) (revision : string) (now : Z) (r : instance_row) : instance_row :=
  InstanceRow (ins_id r) (ins_service_id r) (ins_vpc_id r) (ins_host r) (ins_port r) (ins_protocol r)
    (ins_version r) status (ins_isolate r) (ins_weight r) (ins_enable_health_check r)
    (ins_logic_set r) (ins_cmdb_region r) (ins_cmdb_zone r) (ins_cmdb_idc r) (ins_priority r)
    revision (ins_flag r) (ins_ctime r) now.

Definition SetInstanceHealthStatus (instanceID : string) (flag : Z) (revision : string) : M unit :=
  RetryTransaction (processWithTransaction (then_commit
    (map_err store_Error (void (stmt_Exec (sql_update (with_id instanceID) (set_health flag revision))))))).

Definition BatchSetInstanceHealthStatus (ids : list string) (status : Z) (revision : string) : M unit :=
  RetryTransaction (processWithTransaction (then_commit
    (BatchOperation ids (update_batch 2 (set_health status revision))))).

(** [BatchSetInstanceIsolate] *)
Definition set_isolate (isolate : Z) (revision : string) (now : Z) (r : instance_row) : instance_row :=
  InstanceRow (ins_id r) (ins_service_id r) (ins_vpc_id r) (ins_host r) (ins_port r) (ins_protocol r)
    (ins_version r) (ins_health_status r) isolate (ins_weight r) (ins_enable_health_check r)
    (ins_logic_set r) (ins_cmdb_region r) (ins_cmdb_zone r) (ins_cmdb_idc r) (ins_priority r)
    revision (ins_flag r) (ins_ctime r) now.

Definition BatchSetInstanceIsolate (ids : list string) (isolate : Z) (revision : string) : M unit :=
  RetryTransaction (processWithTransaction (then_commit
    (BatchOperation ids (update_batch 2 (set_isolate isolate revision))))).

(** [BatchAppendInstanceMetadata]: a plain INSERT, so an existing key fails;
    no entries at all is a syntax error. *)
Definition set_revision (revision : string) (now : Z) (r : instance_row) : instance_row :=
  InstanceRow (ins_id r) (ins_service_id r) (ins_vpc_id r) (ins_host r) (ins_port r) (ins_protocol r)
    (ins_version r) (ins_health_status r) (ins_isolate r) (ins_weight r) (ins_enable_health_check r)
    (ins_logic_set r) (ins_cmdb_region r) (ins_cmdb_zone r) (ins_cmdb_idc r) (ins_priority r)
    revision (ins_flag r) (ins_ctime r) now.

Definition append_meta (rq : InstanceMetadataRequest) : P Z :=
  match range_map (rq_Metadata rq) with
  | [] => fun _ _ => Err syntax_error
  | entries => insert_meta (map (meta_args (InstanceID rq)) entries) (fun now => now)
  end.

Definition append_one (rq : InstanceMetadataRequest) : M unit :=
  stmt_Exec (append_meta rq) ;;;
  void (stmt_Exec (sql_update (with_id (InstanceID rq)) (set_revision (rq_Revision rq)))).

Definition BatchAppendInstanceMetadata (requests : list InstanceMetadataRequest) : M unit :=
  match requests with
  | [] => Ret tt
  | _ => processWithTransaction (then_commit (each append_one requests))
  end.

(** [BatchRemoveInstanceMetadata] *)
Definition remove_meta (rq : InstanceMetadataRequest) : P Z :=
  match Keys rq with
  | [] => fun _ _ => Err syntax_error
  | keys => sql_delete (fun r => meta_of (InstanceID rq) r && bool_decide (imd_mkey r ∈ keys))
  end.

Definition remove_one (rq : InstanceMetadataRequest) : M unit :=
  stmt_Exec (remove_meta rq) ;;;
  void (stmt_Exec (sql_update (with_id (InstanceID rq)) (set_revision (rq_Revision rq)))).

Definition BatchRemoveInstanceMetadata (requests : list InstanceMetadataRequest) : M unit :=
  match requests with
  | [] => Ret tt
  | _ => processWithTransaction (then_commit (each remove_one requests))
  end.

(** ** Operations that read *)

(** "... where id in ($1,...)" over [keys]. *)
Definition select_in {R} (head : string) (keys : list string) (sel : database -> list R)
    (_ : Z) (d : database) : res (list R) :=
  let '(placeholder, _) := PlaceholdersNI (Z.of_nat (length keys)) 1 in
  if params_ok (T head :: placeholder ++ [T ")"]) (length keys) then Ok (sel d) else Err param_error.

(** instance left join health_check on instance.id = health_check.id *)
Definition join_check (d : database) (r : instance_row) : list joined :=
  match keep (check_of (ins_id r)) (tbl d) with
  | [] => [(r, None)]
  | checks => map (fun h => (r, Some h)) checks
  end.

Definition select_joined (where_ : instance_row -> bool) (d : database) : list joined :=
  concat (map (join_check d) (keep where_ (tbl d))).

(** The columns of [genInstanceSelectSQL]; type and ttl are coalesced. *)
Definition scan_main (r : joined) (ctime mtime : Z) : res InstanceStore :=
  let '(i, h) := r in
  vpc <-? scan_string (ins_vpc_id i) ;;
  protocol <-? scan_string (ins_protocol i) ;;
  version <-? scan_string (ins_version i) ;;
  logicSet <-? scan_string (ins_logic_set i) ;;
  region <-? scan_string (ins_cmdb_region i) ;;
  zone <-? scan_string (ins_cmdb_zone i) ;;
  idc <-? scan_string (ins_cmdb_idc i) ;;
  Ok (mkInstanceStore (ins_id i) (ins_service_id i) vpc (ins_host i) (ins_port i) protocol version
        (ins_health_status i) (ins_isolate i) (ins_weight i) (ins_enable_health_check i) logicSet
        region zone idc (ins_priority i) (ins_revision i) (ins_flag i)
        (match h with Some h => hck_type h | None => -1 end)
        (match h with Some h => hck_ttl h | None => 0 end) ctime mtime).

(** [callFetchInstanceRows] with callbacks that never stop, and
    [fetchInstanceRows] *)
Definition scan_instance (r : joined) : res InstanceStore :=
  scan_main r (ConvertSecond (ins_ctime (fst r))) (ConvertSecond (ins_mtime (fst r))).

Definition callFetchInstanceRows (rs : rows joined) : res (list InstanceStore) :=
  fetch_rows scan_instance rs.

Definition fetchInstanceRows (rs : rows joined) : res (list model_Instance) :=
  res_map (map Store2Instance) (callFetchInstanceRows rs).

(** [GetInstanceMeta] *)
Definition put_meta (m : gmap string string) (r : instance_metadata_row) : gmap string string :=
  <[imd_mkey r := imd_mvalue r]> m.

Definition fetch_meta {A} (handler : A -> instance_metadata_row -> A) (a : A)
    (rs : rows instance_metadata_row) : res A :=
  match r_err rs with Some e => Err e | None => Ok (fold_left handler (r_data rs) a) end.

Definition GetInstanceMeta (instanceID : string) : M (gmap string string) :=
  rs <- Query committed (fun _ d => Ok (sql_select (meta_of instanceID) d)) ;;
  lift (fetch_meta put_meta ∅ rs).

(** [getInstance], [GetInstance] *)
Definition getInstance (instanceID : string) : M (option model_Instance) :=
  rs <- Query committed (fun _ d => Ok (select_joined (with_id instanceID) d)) ;;
  out <- lift (fetchInstanceRows rs) ;;
  match out with
  | [] => Ret None
  | i :: _ =>
      meta <- GetInstanceMeta (ID i) ;;
      Ret (Some (set_Metadata (Some meta) i))
  end.

Definition GetInstance (instanceID : string) : M (option model_Instance) :=
  instance <- getInstance instanceID ;;
  Ret (match instance with
       | Some i => if Valid i then Some i else None
       | None => None
       end).

(** [BatchGetInstanceIsolate]: [rows.Err()] is not looked at.  The keys of
    [ids] come in an unspecified order, which the IN list hides. *)
Definition BatchGetInstanceIsolate (ids : gmap string bool) : M (option (gmap string bool)) :=
  match map fst (map_to_list ids) with
  | [] => Ret None
  | keys =>
      rs <- Query committed (select_in "select id, isolate from instance where flag = 0 and id in ("
              keys (sql_select (fun r : instance_row => (ins_flag r =? 0) && bool_decide (ins_id r ∈ keys)))) ;;
      Ret (Some (fold_left (fun m r => <[ins_id r := Int2bool (ins_isolate r)]> m) (r_data rs) ∅))
  end.

(** [GetInstancesBrief]: service and instance, joined, both not deleted. *)
Definition brief_rows (keys : list string) (d : database) : list (service_row * instance_row) :=
  keep (fun p => (ins_flag (snd p) =? 0) && (svc_flag (fst p) =? 0) &&
                 str_eq (svc_id (fst p)) (ins_service_id (snd p)) && bool_decide (ins_id (snd p) ∈ keys))
    (concat (map (fun s => map (pair s) (tbl d)) (tbl d))).

Definition scan_brief (p : service_row * instance_row) : res ExpandInstanceStore :=
  platform <-? scan_string (svc_platform_id (fst p)) ;;
  let i := snd p in
  Ok (mkExpandInstanceStore (svc_name (fst p)) (svc_namespace (fst p)) (svc_token (fst p)) platform
        (mkInstanceStore (ins_id i) "" "" (ins_host i) (ins_port i) "" "" 0 0 0 0 "" "" "" "" 0 "" 0 0 0 0 0)).

Definition GetInstancesBrief (ids : gmap string bool) : M (option (gmap string model_Instance)) :=
  match map fst (map_to_list ids) with
  | [] => Ret None
  | keys =>
      rs <- Query committed (select_in "select instance.id, host, port, name, namespace, token, platform_id from service, instance where instance.flag = 0 and service.flag = 0 and service.id = instance.service_id and instance.id in ("
              keys (brief_rows keys)) ;;
      out <- lift (scan_all scan_brief (r_data rs)) ;;
      Ret (Some (fold_left (fun m e => <[st_ID (ServiceInstance e) := ExpandStore2Instance e]> m) out ∅))
  end.

(** [GetInstancesCount], [GetInstancesCountTx] *)
Definition no_rows_is_zero (m : M Z) : M Z := fun c =>
  match m c with
  | (Err ENoRows, c') => (Ok 0, c')
  | rc => rc
  end.

Definition count_live (_ : Z) (d : database) : res (list Z) :=
  Ok [Z.of_nat (count_rows (fun r : instance_row => ins_flag r =? 0) d)].

Definition GetInstancesCount : M Z := no_rows_is_zero (Retry (QueryRow committed count_live)).

Definition GetInstancesCountTx : M Z := no_rows_is_zero (Retry (tx_QueryRow count_live)).

(** [GetInstancesMainByService] *)
Definition GetInstancesMainByService (serviceID host : string) : M (list model_Instance) :=
  rs <- Query committed (fun _ d => Ok (select_joined (fun r =>
          str_eq (ins_service_id r) serviceID && str_eq (ins_host r) host && (ins_flag r =? 0)) d)) ;;
  lift (fetchInstanceRows rs).

(** [getMoreInstancesMain]: the instances changed since [mtime], of the given
    services if any, read in the transaction of the caller. *)
Definition more_where (mtime : Z) (firstUpdate : bool) (serviceID : list string) (r : instance_row) : bool :=
  (mtime <=? ins_mtime r) && (negb firstUpdate || negb (ins_flag r =? 1)) &&
  match serviceID with [] => true | _ => bool_decide (ins_service_id r ∈ serviceID) end.

Definition more_sql (serviceID : list string) : sql :=
  [T " where instance.mtime >= "; Ph 1] ++
  match serviceID with
  | [] => []
  | _ => T " and service_id in (" :: fst (PlaceholdersNI (Z.of_nat (length serviceID)) 2) ++ [T ")"]
  end.

Definition select_more {R} (serviceID : list string) (sel : database -> list R) (_ : Z) (d : database) :
    res (list R) :=
  if params_ok (more_sql serviceID) (S (length serviceID)) then Ok (sel d) else Err param_error.

Definition getMoreInstancesMain (mtime : Z) (firstUpdate : bool) (serviceID : list string) :
    M (gmap string model_Instance) :=
  rs <- tx_Query (select_more serviceID (select_joined (more_where mtime firstUpdate serviceID))) ;;
  entries <- lift (callFetchInstanceRows rs) ;;
  Ret (fold_left (fun m e => <[st_ID e := Store2Instance e]> m) entries ∅).

(** [fetchInstanceMetaRows] *)
Definition add_meta (id k v : string) (m : gmap string model_Instance) : gmap string model_Instance :=
  match m !! id with
  | None => m
  | Some i => <[id := set_Metadata (Some (<[k := v]> (default ∅ (Metadata i)))) i]> m
  end.

Definition fetchInstanceMetaRows (instances : gmap string model_Instance)
    (rs : rows instance_metadata_row) : res (gmap string model_Instance) :=
  fetch_meta (fun m r => add_meta (imd_id r) (imd_mkey r) (imd_mvalue r) m) instances rs.

(** The rows of [genCompleteInstanceSelectSQL]: both joins. *)
Definition join_meta (d : database) (j : joined) : list (joined * option instance_metadata_row) :=
  match keep (meta_of (ins_id (fst j))) (tbl d) with
  | [] => [(j, None)]
  | metas => map (fun m => (j, Some m)) metas
  end.

Definition select_complete (where_ : instance_row -> bool) (d : database) :
    list (joined * option instance_metadata_row) :=
  concat (map (join_meta d) (select_joined where_ d)).

(** One row of [fetchInstanceWithMetaRows]: the timestamps are scanned into
    strings and read back with [ParseFloat]. *)
Definition fetch_complete (out : gmap string model_Instance) (r : joined * option instance_metadata_row) :
    res (gmap string model_Instance) :=
  let '(j, m) := r in
  entry <-? scan_main j 0 0 ;;
  match ParseFloat (RFC3339Nano (ins_ctime (fst j))) with
  | Err e => Err (errorf "failed to parse create_time" e)
  | Panic w => Panic w
  | Ok ctime =>
  match ParseFloat (RFC3339Nano (ins_mtime (fst j))) with
  | Err e => Err (errorf "failed to parse modify_time" e)
  | Panic w => Panic w
  | Ok mtime =>
      item <-? scan_main j ctime mtime ;;
      let out := match out !! st_ID item with
                 | Some _ => out
                 | None => <[st_ID item := Store2Instance item]> out
                 end in
      Ok (match m with
          | Some m => if str_empty (imd_id m) then out
                      else add_meta (st_ID item) (imd_mkey m) (imd_mvalue m) out
          | None => out
          end)
  end end.

Fixpoint fold_res {A B} (f : A -> B -> res A) (l : list B) (a : A) : res A :=
  match l with [] => Ok a | b :: l' => a' <-? f a b ;; fold_res f l' a' end.

Definition fetchInstanceWithMetaRows (rs : rows (joined * option instance_metadata_row)) :
    res (gmap string model_Instance) :=
  out <-? fold_res fetch_complete (r_data rs) ∅ ;;
  match r_err rs with Some e => Err e | None => Ok out end.

(** [getMoreInstancesMainWithMeta], [GetMoreInstances] *)
Definition getMoreInstancesMainWithMeta (mtime : Z) (firstUpdate : bool) (serviceID : list string) :
    M (gmap string model_Instance) :=
  if firstUpdate then
    instances <- getMoreInstancesMain mtime firstUpdate serviceID ;;
    rs <- Query replica (fun _ d => Ok (sql_select (fun _ : instance_metadata_row => true) d)) ;;
    lift (fetchInstanceMetaRows instances rs)
  else
    rs <- Query replica (select_more serviceID (select_complete (more_where mtime false serviceID))) ;;
    lift (fetchInstanceWithMetaRows rs).

Definition GetMoreInstances (mtime : Z) (firstUpdate needMeta : bool) (serviceID : list string) :
    M (gmap string model_Instance) :=
  if needMeta then getMoreInstancesMainWithMeta mtime firstUpdate serviceID
  else getMoreInstancesMain mtime firstUpdate serviceID.

(** [batchAcquireInstanceMetadata] over [batchQueryMetadata]: each group of
    metadata goes to the first instance of that id. *)
Fixpoint set_first (id : string) (meta : gmap string string) (l : list model_Instance) : list model_Instance :=
  match l with
  | [] => []
  | i :: l' => if str_eq id (ID i) then set_Metadata (Some meta) i :: l' else i :: set_first id meta l'
  end.

Definition group_meta (m : gmap string (gmap string string)) (r : instance_metadata_row) :
    gmap string (gmap string string) :=
  <[imd_id r := put_meta (default ∅ (m !! imd_id r)) r]> m.

Definition batchAcquireInstanceMetadata (instances done_ : list model_Instance) : M (list model_Instance) :=
  match map ID instances with
  | [] => Ret done_
  | ids =>
      rs <- Query committed (select_in "select id, mkey, mvalue from instance_metadata where id in("
              ids (sql_select (fun r : instance_metadata_row => bool_decide (imd_id r ∈ ids)))) ;;
      out <- lift (fetch_meta group_meta ∅ rs) ;;
      Ret (done_ ++ fold_left (fun l kv => set_first (fst kv) (snd kv) l) (map_to_list out) instances)
  end.

(** [fetchExpandInstanceRows], [getRowExpandInstances] *)
Definition scan_expand (e : expanded) : res model_Instance :=
  item <-? scan_instance (snd e) ;;
  Ok (ExpandStore2Instance (mkExpandInstanceStore (svc_name (fst e)) (svc_namespace (fst e)) "" "" item)).

Definition fetchExpandInstanceRows (rs : rows expanded) : res (list model_Instance) :=
  fetch_rows scan_expand rs.

Definition getRowExpandInstances (rs : rows expanded) : M (list model_Instance) :=
  out <- lift (fetchExpandInstanceRows rs) ;;
  BatchQuery out batchAcquireInstanceMetadata [].

(** [genExpandInstanceSelectSQL] *)
Definition genExpandInstanceSelectSQL (needForceIndex : bool) : sql :=
  [T "select instance.id, service_id, vpc_id, host, port, protocol, version, health_status, isolate, weight, enable_health_check, logic_set, cmdb_region, cmdb_zone, cmdb_idc, priority, instance.revision, instance.flag, COALESCE(health_check.type, -1), COALESCE(health_check.ttl, 0), service.name, service.namespace, instance.ctime, instance.mtime from (service inner join instance "] ++
  (if needForceIndex then [T force_index] else []) ++
  [T "on service.id = instance.service_id) left join health_check on instance.id = health_check.id "].

Definition has_key (k : string) (filter : gmap string string) : bool :=
  match filter !! k with Some _ => true | None => false end.

(** [getExpandInstances] *)
Definition getExpandInstances (filter metaFilter : gmap string string) (offset limit : Z) :
    M (list model_Instance) :=
  if limit =? 0 then Ret []
  else
    let needForceIndex := has_key "name" filter || has_key "namespace" filter || has_key "host" filter in
    let '(str, args) := genWhereSQLAndArgs (genExpandInstanceSelectSQL needForceIndex)
      (range_map filter) (range_map metaFilter) (Some (mkOrder "instance.mtime" "desc")) offset limit in
    rs <- Query committed (fun _ d => pg_expand str args d) ;;
    getRowExpandInstances rs.

(** [getExpandInstancesCount] *)
Definition getExpandInstancesCount (filter metaFilter : gmap string string) : M Z :=
  let str := [T "select count(*) from instance "] ++
    (if has_key "name" filter || has_key "namespace" filter
     then [T "inner join service on instance.service_id = service.id "] else []) in
  let '(str, args) := genWhereSQLAndArgs str (range_map filter) (range_map metaFilter) None 0 1 in
  Retry (QueryRow committed (fun _ d => res_map (fun n => [n]) (pg_count str args d))).

(** [GetExpandInstances] writes the flag condition into the caller's filter. *)
Definition live_filter (filter : gmap string string) : gmap string string :=
  <["instance.flag"%string := "0"%string]> filter.

Definition GetExpandInstances (filter metaFilter : gmap string string) (offset limit : Z) :
    M (Z * list model_Instance) :=
  out <- getExpandInstances (live_filter filter) metaFilter offset limit ;;
  num <- getExpandInstancesCount (live_filter filter) metaFilter ;;
  Ret (num, out).
End instance.

(** ** What the write operations mean *)

Section instance_facts.
Context `{Env} `{PolarisApi} `{MapRange} `{PgServer} `{InstanceApi} `{Strconv} `{PgExpand}.
Abbreviation P := (P database).

Definition new_check (id : string) (check : Z * Z) : health_check_row :=
  HealthCheckRow id (fst check) (snd check).

Definition new_meta (time : Z) (id : string) (kv : string * string) : instance_metadata_row :=
  InstanceMetadataRow id (fst kv) (snd kv) time time.

Definition p_insert_check (i : model_Instance) : P unit :=
  match HealthCheck i with
  | None => p_ret tt
  | Some check => p_void (sql_insert (fun _ => [new_check (ID i) check]))
  end.

Definition p_insert_meta (id : string) (meta : gmap string string) : P unit :=
  match range_map meta with
  | [] => p_ret tt
  | entries => p_void (sql_insert (fun now => map (new_meta now id) entries))
  end.

Definition p_updateMeta (i : model_Instance) : P unit :=
  match Metadata i with
  | None => p_ret tt
  | Some meta => p_bind (p_void (sql_delete (meta_of (ID i)))) (fun _ => p_insert_meta (ID i) meta)
  end.

Definition p_addInstance (i : model_Instance) : P unit :=
  p_bind (p_map_err store_Error (p_void (sql_delete (dead (ID i))))) (fun _ =>
  p_bind (p_void (sql_insert (fun now => [main_row now (main_args i)]))) (fun _ =>
  p_bind (p_insert_check i) (fun _ => p_updateMeta i))).

Definition p_updateCheck (i : model_Instance) : P unit :=
  match HealthCheck i with
  | None => p_void (sql_delete (check_of (ID i)))
  | Some check => p_void (sql_insert (fun _ => [new_check (ID i) check]))
  end.

Definition p_updateInstance (i : model_Instance) (mtime : Z) : P unit :=
  p_bind (p_void (sql_update (with_id (ID i)) (fun _ => set_instance i mtime))) (fun _ =>
  p_bind (p_updateCheck i) (fun _ => p_updateMeta i)).

(** The placeholders of the metadata insert stand for what it means. *)
Lemma insert_meta_eq rows time : Forall (fun r : list arg => length r = 3%nat) rows ->
  insert_meta rows time ≡p sql_insert (fun now => map (meta_row (time now)) rows).
Proof.
  intros Hl. unfold insert_meta.
  pose proof (values_ok 3 rows ", CURRENT_TIMESTAMP, CURRENT_TIMESTAMP"
    [T "insert into instance_metadata(id, mkey, mvalue, ctime, mtime) values "] eq_refl Hl) as Hv.
  change (Z.of_nat 3) with 3 in Hv.
  destruct (values_loop 3 3 rows 1) as [groups args]. destruct Hv as [Hok Hrows].
  simpl app in Hok. rewrite Hok. intros now d. unfold sql_insert.
  rewrite <- (map_map (map (arg_at args)) (meta_row (time now))), Hrows. done.
Qed.

#[export] Instance impl_addInstanceMeta id meta : Implements (addInstanceMeta id meta) (p_insert_meta id meta).
Proof.
  unfold addInstanceMeta, p_insert_meta. destruct (range_map meta) as [|kv l]; [apply _|].
  eapply impl_equiv; [apply _|]. unfold p_void.
  rewrite insert_meta_eq by (by apply Forall_map, Forall_true). intros now d.
  unfold p_bind, sql_insert. by rewrite map_map.
Qed.

#[export] Instance impl_updateInstanceMeta i : Implements (updateInstanceMeta i) (p_updateMeta i).
Proof. unfold updateInstanceMeta, p_updateMeta. apply _. Qed.

#[export] Instance impl_addInstanceCheck i : Implements (addInstanceCheck i) (p_insert_check i).
Proof. unfold addInstanceCheck, p_insert_check, check_row, check_args. simpl. apply _. Qed.

#[export] Instance impl_updateInstanceCheck i : Implements (updateInstanceCheck i) (p_updateCheck i).
Proof.
  unfold updateInstanceCheck, p_updateCheck, deleteInstanceCheck, check_row, check_args. simpl. apply _.
Qed.

#[export] Instance impl_addInstance i : Implements (addInstance_body i) (p_addInstance i).
Proof. unfold addInstance_body, p_addInstance, cleanInstance, addMainInstance. apply _. Qed.

#[export] Instance refines_AddInstance i : Refines (AddInstance i) (p_addInstance i).
Proof. unfold AddInstance. apply _. Qed.

(** The update takes its mtime from the clock of the process. *)
#[export] Instance does_updateInstance i :
  Does (updateInstance_body i) (fun now d _ d' => exists mtime, p_updateInstance i mtime now d = Ok (tt, d')).
Proof.
  unfold updateInstance_body, updateInstanceMain. eapply does_weaken.
  - eapply (does_bind _ _ _ (fun _ now d u d' =>
      p_bind (p_updateCheck i) (fun _ => p_updateMeta i) now d = Ok (u, d'))); [|intros _; apply _].
    eapply (does_bind _ _ _ (fun _ => r_bind (fun _ d _ d' => d' = d) (fun t now d u d' =>
      p_void (sql_update (with_id (ID i)) (fun _ => set_instance i (GetCurrentTimeFormat t))) now d
        = Ok (u, d')))); [apply does_implements; apply _|intros _].
    eapply does_bind; [apply does_time_Now|intros t; apply _].
  - intros now d [] d' ([] & d1 & Hm & Hrest).
    destruct Hm as ([] & d2 & E & t & d3 & -> & Hm). unfold p_ret in E. simplify_eq.
    exists (GetCurrentTimeFormat t). unfold p_updateInstance. apply p_bind_Ok. eauto.
Qed.

(** *** The tables afterwards *)

Definition instance_tables (d d' : database) (insts : list instance_row)
    (checks : list health_check_row) (metas : list instance_metadata_row) : Prop :=
  d' = set_tbl metas (set_tbl checks (set_tbl insts d)).

Definition metas_after (now : Z) (i : model_Instance) (d : database) : list instance_metadata_row :=
  match Metadata i with
  | None => tbl d
  | Some m => keep (fun r => negb (meta_of (ID i) r)) (tbl d) ++ map (new_meta now (ID i)) (range_map m)
  end.

(** What a successful [addInstance] leaves. *)
Definition stored (now : Z) (i : model_Instance) (d d' : database) : Prop :=
  instance_tables d d'
    (keep (fun r => negb (dead (ID i) r)) (tbl d) ++ [main_row now (main_args i)])
    (tbl d ++ match HealthCheck i with None => [] | Some check => [new_check (ID i) check] end)
    (metas_after now i d).

(** What a successful [updateInstance] leaves. *)
Definition updated (mtime now : Z) (i : model_Instance) (d d' : database) : Prop :=
  instance_tables d d' (change (with_id (ID i)) (set_instance i mtime) (tbl d))
    (match HealthCheck i with
     | None => keep (fun r => negb (check_of (ID i) r)) (tbl d)
     | Some check => tbl d ++ [new_check (ID i) check]
     end)
    (metas_after now i d).

Lemma instance_tables_tbl d d' insts checks metas : instance_tables d d' insts checks metas ->
  tbl d' = insts /\ tbl d' = checks /\ tbl d' = metas.
Proof. unfold instance_tables. intros ->. by autorewrite with tables. Qed.

Lemma p_insert_check_Ok i now d u d' : p_insert_check i now d = Ok (u, d') ->
  d' = set_tbl (tbl d ++ match HealthCheck i with None => [] | Some check => [new_check (ID i) check] end) d /\
  (HealthCheck i <> None -> forall r, r ∈ tbl d -> check_of (ID i) r = false).
Proof.
  unfold p_insert_check. destruct (HealthCheck i) as [check|].
  - intros (k & [-> E]%insert_Ok_inv)%p_void_Ok. split; [done|]. intros _ r Hr.
    apply distinct_app in E as (_ & _ & E). by apply (E r (new_check (ID i) check)), list_elem_of_singleton.
  - unfold p_ret. intros. simplify_eq. rewrite app_nil_r, set_tbl_id. done.
Qed.

Lemma p_insert_meta_Ok id meta now d u d' : p_insert_meta id meta now d = Ok (u, d') ->
  d' = set_tbl (tbl d ++ map (new_meta now id) (range_map meta)) d.
Proof.
  unfold p_insert_meta. destruct (range_map meta) as [|kv l].
  - unfold p_ret. intros. simplify_eq. by rewrite app_nil_r, set_tbl_id.
  - by intros (k & [-> _]%insert_Ok_inv)%p_void_Ok.
Qed.

Lemma p_updateMeta_Ok i now d u d' : p_updateMeta i now d = Ok (u, d') ->
  d' = set_tbl (metas_after now i d) d.
Proof.
  unfold p_updateMeta, metas_after. destruct (Metadata i) as [m|].
  - intros ([] & d1 & (k & [= _ <-])%p_void_Ok & ->%p_insert_meta_Ok)%p_bind_Ok.
    by autorewrite with tables.
  - unfold p_ret. intros. simplify_eq. by rewrite set_tbl_id.
Qed.

Lemma p_addInstance_Ok i now d u d' : p_addInstance i now d = Ok (u, d') ->
  stored now i d d' /\
  (forall r, r ∈ tbl d -> with_id (ID i) r = true -> ins_flag r = 1) /\
  (HealthCheck i <> None -> forall r, r ∈ tbl d -> check_of (ID i) r = false).
Proof.
  intros ([] & d1 & (k & [= _ <-])%p_map_err_Ok%p_void_Ok & Hp)%p_bind_Ok.
  apply p_bind_Ok in Hp as ([] & d2 & (k2 & [-> E]%insert_Ok_inv)%p_void_Ok & Hp).
  apply p_bind_Ok in Hp as ([] & d3 & [-> Hc]%p_insert_check_Ok & ->%p_updateMeta_Ok).
  autorewrite with tables in *. split; [|split].
  - unfold stored, instance_tables, metas_after. by autorewrite with tables.
  - intros r Hr Hid. apply distinct_app in E as (_ & _ & E).
    destruct (ins_flag r =? 1) eqn:Ef; [by apply Z.eqb_eq|].
    specialize (E r (main_row now (main_args i))). unfold clash in E. simpl in E.
    unfold clash_instance in E. simpl in E. unfold with_id in Hid. rewrite Hid in E. discriminate E.
    + apply elem_of_keep. split; [done|]. unfold dead. by rewrite Ef, andb_false_r.
    + by apply list_elem_of_singleton.
  - intros Hn r Hr. apply Hc; [done|]. exact Hr.
Qed.

Lemma p_updateCheck_Ok i now d u d' : p_updateCheck i now d = Ok (u, d') ->
  d' = set_tbl (match HealthCheck i with
     | None => keep (fun r => negb (check_of (ID i) r)) (tbl d)
     | Some check => tbl d ++ [new_check (ID i) check]
     end) d /\
  (HealthCheck i <> None -> forall r, r ∈ tbl d -> check_of (ID i) r = false).
Proof.
  unfold p_updateCheck. destruct (HealthCheck i) as [check|].
  - intros (k & [-> E]%insert_Ok_inv)%p_void_Ok. split; [done|]. intros _ r Hr.
    apply distinct_app in E as (_ & _ & E). by apply (E r (new_check (ID i) check)), list_elem_of_singleton.
  - by intros (k & [= _ <-])%p_void_Ok.
Qed.

Lemma p_updateInstance_Ok i mtime now d u d' : p_updateInstance i mtime now d = Ok (u, d') ->
  updated mtime now i d d' /\
  (HealthCheck i <> None -> forall r, r ∈ tbl d -> check_of (ID i) r = false).
Proof.
  intros ([] & d1 & (k & [-> _]%update_Ok_inv)%p_void_Ok & Hp)%p_bind_Ok.
  apply p_bind_Ok in Hp as ([] & d3 & [-> Hc]%p_updateCheck_Ok & ->%p_updateMeta_Ok).
  autorewrite with tables in *. split; [|exact Hc].
  unfold updated, instance_tables, metas_after. by autorewrite with tables.
Qed.
End instance_facts.

(** ** Properties of the write operations *)

Section instance_properties.
Context `{Env} `{PolarisApi} `{MapRange} `{PgServer} `{InstanceApi} `{Strconv} `{PgExpand}.
Implicit Types c : conn database.

Lemma p_addInstance_once i : once (p_addInstance i).
Proof.
  intros now now' d a d1 Hp. destruct (p_addInstance i now' d1) as [[u d2]|e|w] eqn:E; [|done..].
  exfalso. apply p_addInstance_Ok in Hp as (Hs & _ & _). apply p_addInstance_Ok in E as (_ & E & _).
  apply instance_tables_tbl in Hs as (Hi & _ & _).
  specialize (E (main_row now (main_args i))). rewrite Hi in E. simpl in E. discriminate E.
  - apply elem_of_app. right. by apply list_elem_of_singleton.
  - apply str_eq_refl.
Qed.

(** An instance that is not marked deleted, or a health check somebody left. *)
Definition occupied (i : model_Instance) (d : database) : Prop :=
  (exists x : instance_row, x ∈ tbl d /\ ins_id x = ID i /\ ins_flag x <> 1) \/
  (HealthCheck i <> None /\ exists h : health_check_row, h ∈ tbl d /\ hck_id h = ID i).

Lemma p_addInstance_occupied i now d : occupied i d -> is_Ok (p_addInstance i now d) = false.
Proof.
  intros Ho. destruct (p_addInstance i now d) as [[u d1]|e|w] eqn:E; [|done..].
  apply p_addInstance_Ok in E as (_ & Hi & Hc). exfalso.
  destruct Ho as [(x & Hx & Hid & Hf)|(Hn & h & Hh & Hid)].
  - apply Hf, Hi; [done|]. by apply str_eq_true.
  - specialize (Hc Hn h Hh). by apply str_eq_false in Hc.
Qed.

(** C15: [AddInstance], whatever faults occur, takes effect at most once and as
    a whole: the dead rows of that id go, the instance row, its health check
    and, when a metadata map is given, exactly its entries are there; after
    an error either that (a lost commit reply) or nothing happened.  A live
    instance of that id is never replaced. *)
Theorem AddInstance_correct i c r c' :
  AddInstance i c = (r, c') ->
  replica c' = replica c /\
  (r = Ok tt -> exists now, stored now i (committed c) (committed c')) /\
  (committed c' = committed c \/ exists now, stored now i (committed c) (committed c')) /\
  (occupied i (committed c) -> committed c' = committed c /\ r <> Ok tt).
Proof.
  intros Hr. destruct (refines_AddInstance i _ _ _ Hr) as [Ho Hre].
  pose proof (retried_once _ _ _ _ (p_addInstance_once i) Ho) as Hb.
  assert (forall now a, p_addInstance i now (committed c) = Ok (a, committed c') ->
    stored now i (committed c) (committed c')) as Hst by (intros; by eapply p_addInstance_Ok).
  split; [done|]. split; [|split].
  - intros ->. destruct Hb. eauto.
  - destruct r as [u|e|w]; [destruct Hb; eauto|destruct Hb as [|(?&?&?)]; eauto..].
  - intros Hocc. apply retried_outcome_stuck in Ho as [? Hf]; [split; [done|by intros ->]|].
    intros now. by apply p_addInstance_occupied.
Qed.

#[export] Instance refines_DeleteInstance id :
  Refines (DeleteInstance id)
    (p_map_err store_Error (p_void (sql_update (with_id id) (set_flag 1)))).
Proof. unfold DeleteInstance. apply _. Qed.

(** An instance with a health check that was deleted can never be added
    again: [DeleteInstance] only marks the row and [cleanInstance] removes
    only the row, so the insert into health_check hits the old entry and the
    whole transaction is undone, whatever the attempts. *)
Theorem ReAddInstance_fails i j c c1 r2 c2 r3 c3 :
  AddInstance i c = (Ok tt, c1) -> HealthCheck i <> None ->
  DeleteInstance (ID i) c1 = (r2, c2) ->
  ID j = ID i -> HealthCheck j <> None -> AddInstance j c2 = (r3, c3) ->
  r3 <> Ok tt /\ committed c3 = committed c2.
Proof.
  intros Ha Hi Hd Hj Hjc Hb.
  apply refines_AddInstance in Ha as [Ho _].
  apply (retried_once _ _ _ _ (p_addInstance_once i)) in Ho as (now & (Hs & _)%p_addInstance_Ok).
  apply instance_tables_tbl in Hs as (_ & Hc & _).
  destruct (HealthCheck i) as [check|]; [|done].
  assert (tbl (R:=health_check_row) (committed c2) = tbl (committed c1)) as Hk.
  { apply refines_DeleteInstance in Hd as [Hd _].
    eapply (retried_outcome_inv (fun d => tbl (R:=health_check_row) d = tbl (committed c1))); [|done|exact Hd].
    intros now' x a y Hx (k & [-> _]%update_Ok_inv)%p_map_err_Ok%p_void_Ok.
    by autorewrite with tables. }
  apply refines_AddInstance in Hb as [Hb _].
  apply retried_outcome_stuck in Hb as [Hb Hr]; [split; [by intros ->|done]|].
  intros now'. apply p_addInstance_occupied. right. split; [done|]. rewrite Hk, Hc.
  exists (new_check (ID i) check). split; [|done]. apply elem_of_app. right.
  by apply list_elem_of_singleton.
Qed.

Lemma change_set_instance i j m m' l :
  ID i = ID j ->
  (forall r, set_instance i m (set_instance j m' r) = set_instance i m r) ->
  change (with_id (ID i)) (set_instance i m) (change (with_id (ID j)) (set_instance j m') l) =
  change (with_id (ID i)) (set_instance i m) l.
Proof.
  intros Hij Hs. unfold change. rewrite map_map. apply map_ext. intros r. rewrite <- Hij.
  destruct (with_id (ID i) r) eqn:E; [|by rewrite E].
  unfold with_id in *. simpl. by rewrite E, Hs.
Qed.

Lemma keep_not_meta id time kvs l :
  keep (fun r => negb (meta_of id r)) (keep (fun r => negb (meta_of id r)) l ++ map (new_meta time id) kvs)
  = keep (fun r => negb (meta_of id r)) l.
Proof.
  rewrite keep_app, keep_keep.
  assert (keep (fun r => negb (meta_of id r)) (map (new_meta time id) kvs) = []) as ->.
  { apply keep_nil_iff. intros r Hr. apply list_elem_of_fmap in Hr as (kv & -> & _).
    unfold meta_of. simpl. by rewrite str_eq_refl. }
  rewrite app_nil_r. apply keep_ext. intros r _. apply andb_diag.
Qed.

Lemma set_instance_tables (i i' : list instance_row) (h h' : list health_check_row)
    (m m' : list instance_metadata_row) d :
  set_tbl m (set_tbl h (set_tbl i (set_tbl m' (set_tbl h' (set_tbl i' d))))) =
  set_tbl m (set_tbl h (set_tbl i d)).
Proof. by destruct d. Qed.

(** Updating twice is updating once. *)
Lemma updated_twice m n m' n' i d d1 d2 : HealthCheck i = None ->
  updated m n i d d1 -> updated m' n' i d1 d2 -> updated m' n' i d d2.
Proof.
  unfold updated, metas_after. intros Hc Hu. apply instance_tables_tbl in Hu as Ht.
  destruct Ht as (Hi & Hh & Hm). unfold instance_tables in *. rewrite Hc in *. intros ->.
  rewrite Hi, Hh, Hm, change_set_instance, keep_keep, Hu, set_instance_tables by done.
  f_equal; [|f_equal].
  - destruct (Metadata i) as [x|]; [|done]. by rewrite keep_not_meta.
  - apply keep_ext. intros r _. apply andb_diag.
Qed.
(** An update of content that is as before, or already updated. *)
Definition updated_or_not (i : model_Instance) (d0 d : database) : Prop :=
  d = d0 \/ exists mtime now, updated mtime now i d0 d.

Lemma update_again i mtime now d0 d d' :
  updated_or_not i d0 d -> p_updateInstance i mtime now d = Ok (tt, d') ->
  exists mtime now, updated mtime now i d0 d'.
Proof.
  intros Hd [Hu Hn]%p_updateInstance_Ok. destruct Hd as [->|(m & n & H1')]; [eauto|].
  destruct (HealthCheck i) as [check|] eqn:Hc; [|exists mtime, now; by eapply updated_twice].
  exfalso. apply instance_tables_tbl in H1' as (_ & Hh & _). rewrite Hc in Hh.
  specialize (Hn ltac:(done) (new_check (ID i) check)). rewrite Hh in Hn.
  unfold check_of in Hn. simpl in Hn. rewrite str_eq_refl in Hn. discriminate Hn.
  apply elem_of_app. right. by apply list_elem_of_singleton.
Qed.

Lemma UpdateInstance_does i c r c' : UpdateInstance i c = (r, c') ->
  exists r0, is_Ok r = is_Ok r0 /\
    retried_does (fun now d (_ : unit) d' => exists mtime, p_updateInstance i mtime now d = Ok (tt, d'))
      (committed c) r0 (committed c') /\ replica c' = replica c.
Proof.
  unfold UpdateInstance, map_err.
  destruct (RetryTransaction _ c) as [r0 c0] eqn:E.
  pose proof (retry_process_does (updateInstance_body i) _ _ _ _ E) as [Hd Hre].
  exists r0. destruct r0; simplify_eq; done.
Qed.

(** C17: [UpdateInstance], whatever faults occur and however often it is
    retried, leaves the updated row, the health check and the metadata of one
    update, or everything as it was; success means the former.  An instance
    that has a health check and is given one is never updated at all, because
    the insert into health_check collides. *)
Theorem UpdateInstance_correct i c r c' :
  UpdateInstance i c = (r, c') ->
  replica c' = replica c /\
  (r = Ok tt -> exists mtime now, updated mtime now i (committed c) (committed c')) /\
  updated_or_not i (committed c) (committed c') /\
  (HealthCheck i <> None -> (exists h : health_check_row, h ∈ tbl (committed c) /\ hck_id h = ID i) ->
     committed c' = committed c /\ r <> Ok tt).
Proof.
  intros (r0 & Hok & Ho & Hre)%UpdateInstance_does. split; [done|].
  assert (forall now x (a : unit) y, updated_or_not i (committed c) x ->
    (exists mtime, p_updateInstance i mtime now x = Ok (tt, y)) -> updated_or_not i (committed c) y) as Hinv.
  { intros now x a y Hx [m Hm]. right. by eapply update_again. }
  split; [|split].
  - intros ->. destruct r0 as [u|e|w]; [|done..]. 
    apply (retried_does_Ok (updated_or_not i (committed c))) in Ho as (d1 & now & Hd & m & Hm);
      [by eapply update_again|exact Hinv|by left].
  - eapply (retried_does_inv (updated_or_not i (committed c))); [exact Hinv|by left|exact Ho].
  - intros Hn (h & Hh & Hid). apply retried_does_stuck in Ho as [? Hr]; [split; [done|by intros ->; destruct r0]|].
    intros now a d1 [m [_ Hm]%p_updateInstance_Ok]. specialize (Hm Hn h Hh). by apply str_eq_false in Hm.
Qed.
(** *** Reading back *)

Lemma imeta_round_trip time id m :
  fold_left put_meta (map (new_meta time id) (range_map m)) ∅ = m.
Proof.
  rewrite <- (range_map_fold m) at 2. generalize (range_map m) as kvs. intros kvs.
  generalize (∅ : gmap string string). induction kvs as [|kv kvs IH]; intros m0; [done|]. apply IH.
Qed.

(** The metadata and the health check the tables hold for an id. *)
Definition metadata_of (id : string) (d : database) : gmap string string :=
  fold_left put_meta (keep (fun r => str_eq (imd_id r) id) (tbl d)) ∅.
Definition check_for (id : string) (d : database) : option health_check_row :=
  head (keep (fun h => str_eq (hck_id h) id) (tbl d)).

(** The health check an added instance has: the one it is given, or else one
    that was left under its id. *)
Definition check_after (i : model_Instance) (d : database) : option health_check_row :=
  match HealthCheck i with Some check => Some (new_check (ID i) check) | None => check_for (ID i) d end.

(** The columns [AddInstance] stores, as [getInstance] scans them. *)
Definition store_of (i : model_Instance) (check : option health_check_row) (now : Z) : InstanceStore :=
  mkInstanceStore (ID i) (ServiceID i) (VpcID i) (Host i) (Port i) (Protocol i) (Version i)
    (b2i (Healthy i)) (b2i (Isolate i)) (Weight i) (b2i (EnableHealthCheck i)) (LogicSet i)
    (Region i) (Zone i) (Campus i) (Priority i) (Revision i) 0
    (match check with Some h => hck_type h | None => -1 end)
    (match check with Some h => hck_ttl h | None => 0 end)
    (ConvertSecond now) (ConvertSecond now).

Lemma scan_stored i h now : scan_instance (main_row now (main_args i), h) = Ok (store_of i h now).
Proof. done. Qed.

Lemma stored_select now i d d' :
  stored now i d d' -> (forall r, r ∈ tbl d -> with_id (ID i) r = true -> ins_flag r = 1) ->
  (HealthCheck i <> None -> forall h, h ∈ tbl d -> check_of (ID i) h = false) ->
  exists others, select_joined (with_id (ID i)) d' =
    map (fun h => (main_row now (main_args i), h)) (check_after i d :: others).
Proof.
  intros (Hi & Hh & _)%instance_tables_tbl Hlive Hno. unfold select_joined.
  rewrite Hi, keep_app, keep_keep.
  replace (keep _ (tbl d)) with (@nil instance_row).
  2:{ symmetry. apply keep_nil_iff. intros r Hr. apply andb_false_iff.
      destruct (with_id (ID i) r) eqn:E; [left|by right]. unfold dead. unfold with_id in E.
      rewrite E. by rewrite (Hlive r Hr E). }
  assert (with_id (ID i) (main_row now (main_args i)) = true) as Hw by apply str_eq_refl.
  cbn [app keep]. rewrite Hw. cbn [map concat]. rewrite app_nil_r.
  unfold join_check. rewrite Hh, keep_app. change (ins_id (main_row now (main_args i))) with (ID i).
  unfold check_after, check_for.
  change (fun h => str_eq (hck_id h) (ID i)) with (check_of (ID i)). destruct (HealthCheck i) as [check|].
  - replace (keep (check_of (ID i)) (tbl d)) with (@nil health_check_row)
      by (symmetry; by apply keep_nil_iff, Hno).
    simpl. unfold check_of. simpl. rewrite str_eq_refl. by exists [].
  - rewrite app_nil_r. destruct (keep (check_of (ID i)) (tbl d)) as [|h hs]; [by exists []|].
    exists (map Some hs). simpl. by rewrite map_map.
Qed.

(** C16: without faults, the instance [GetInstance] returns after [AddInstance]
    is the conversion of exactly the columns that were given.  Its metadata is
    the map that was given, whatever the order of insertion, and its health
    check the one that was given; an instance given no map has the metadata
    the table still holds for its id, and one given no health check has the
    health check that is still there for its id. *)
Theorem AddInstance_GetInstance i c c1 : reliable -> AddInstance i c = (Ok tt, c1) ->
  exists now, fst (GetInstance (ID i) c1) = Ok (Some (set_Metadata
    (Some (match Metadata i with Some m => m | None => metadata_of (ID i) (committed c) end))
    (Store2Instance (store_of i (check_after i (committed c)) now)))).
Proof.
  intros Hrel [Ho _]%refines_AddInstance.
  apply (retried_once _ _ _ _ (p_addInstance_once i)) in Ho as (now & (Hs & Hlive & Hno)%p_addInstance_Ok).
  exists now. destruct (stored_select now i _ _ Hs Hlive Hno) as (others & Hsel).
  unfold GetInstance, getInstance. unfold Bind at 1. erewrite Query_then; [|done|by rewrite Hsel].
  unfold Bind at 1, lift, fetchInstanceRows, callFetchInstanceRows.
  rewrite (fetch_rows_Ok scan_instance _ (map (fun h => store_of i h now) (check_after i (committed c) :: others))).
  2:{ apply Forall2_fmap, Forall_Forall2_diag, Forall_true. intros h. apply scan_stored. }
  simpl. rewrite Store2Instance_ID. simpl.
  unfold GetInstanceMeta. unfold Bind at 1. erewrite Query_then; [|done|done].
  unfold lift, fetch_meta. simpl. rewrite Store2Instance_Valid. simpl. do 4 f_equal.
  apply instance_tables_tbl in Hs as (_ & _ & Hmd). unfold metas_after in Hmd. unfold metadata_of, sql_select.
  rewrite Hmd. destruct (Metadata i) as [m|]; [|done]. rewrite keep_app, keep_keep.
  replace (keep _ (tbl (committed c))) with (@nil instance_metadata_row).
  2:{ symmetry. apply keep_nil_iff. intros r _. by destruct (meta_of (ID i) r). }
  cbn [app]. rewrite keep_all; [by rewrite imeta_round_trip|].
  intros r Hr. apply list_elem_of_fmap in Hr as (kv & -> & _). apply str_eq_refl.
Qed.

(** *** Batches *)

Lemma update_in_eq (n : nat) objects set : objects <> [] ->
  update_in (Z.of_nat n) objects set ≡p
  p_void (sql_update (fun r => bool_decide (ins_id r ∈ objects)) set).
Proof.
  intros Hne. unfold update_in.
  pose proof (PlaceholdersNI_phs (Z.of_nat (length objects)) (Z.of_nat n + 1)
    (Nat2Z.is_nonneg _)) as [Hp _].
  destruct (PlaceholdersNI _ _) as [placeholder next]. simpl in Hp.
  rewrite params_ok_seqZ; [done|]. rewrite Nat2Z.id, phs_app. simpl. rewrite phs_app, Hp. simpl.
  rewrite app_nil_r, seqZ_nat_app. f_equal; [|f_equal; lia].
  generalize (seqZ 1 (Z.of_nat n)) as l. intros l. induction l; simpl; congruence.
Qed.

(** An update of some rows of instance that touches no key and overwrites
    what an earlier one wrote. *)
Definition overwrites (set : Z -> instance_row -> instance_row) : Prop :=
  (forall now r, ins_id (set now r) = ins_id r) /\
  (forall now now' r, set now (set now' r) = set now r).

Definition p_update_chunk (set : Z -> instance_row -> instance_row) (objects : list string) : P database unit :=
  match objects with
  | [] => p_ret tt
  | _ => p_map_err store_Error (p_void (sql_update (fun r => bool_decide (ins_id r ∈ objects)) set))
  end.

#[export] Instance impl_update_batch (n : nat) set objects :
  Implements (update_batch (Z.of_nat n) set objects) (p_update_chunk set objects).
Proof.
  unfold update_batch, p_update_chunk. destruct objects as [|o l]; [apply _|].
  eapply impl_equiv; [apply _|]. by rewrite update_in_eq.
Qed.

#[export] Instance impl_delete_batch objects :
  Implements (delete_batch objects) (p_update_chunk (set_flag 1) objects).
Proof.
  unfold delete_batch, p_update_chunk. destruct objects as [|o l]; [apply _|].
  eapply impl_equiv; [apply impl_bind; [apply _|intros; apply _]|].
  rewrite p_ret_bind. by rewrite (update_in_eq 0).
Qed.

(** The instances of the given ids rewritten, all others as they were. *)
Definition ids_rewritten (set : Z -> instance_row -> instance_row) (ids : list string) (now : Z)
    (d d' : database) : Prop :=
  d' = set_tbl (change (fun r => bool_decide (ins_id r ∈ ids)) (set now) (tbl d)) d.

Lemma ids_rewritten_app set l k now d d1 d2 : overwrites set ->
  ids_rewritten set l now d d1 -> ids_rewritten set k now d1 d2 ->
  ids_rewritten set (l ++ k) now d d2.
Proof.
  intros [Hid Hov] -> ->. unfold ids_rewritten. autorewrite with tables. f_equal.
  unfold change. rewrite map_map. apply map_ext. intros r.
  repeat case_bool_decide; rewrite ?Hid, ?Hov in *; set_solver.
Qed.

Lemma p_update_chunks_Ok set ls now d u d' : overwrites set ->
  p_each (p_update_chunk set) ls now d = Ok (u, d') -> ids_rewritten set (concat ls) now d d'.
Proof.
  intros Hs. revert d. induction ls as [|l ls IH]; intros d; simpl.
  - unfold p_ret. intros. simplify_eq. unfold ids_rewritten.
    rewrite change_none, set_tbl_id; [done|]. intros x _. by apply bool_decide_eq_false, not_elem_of_nil.
  - intros ([] & d1 & Hl & Hr)%p_bind_Ok. eapply ids_rewritten_app; [done| |by apply IH].
    destruct l as [|o l]; simpl in Hl.
    + unfold p_ret in Hl. simplify_eq. unfold ids_rewritten.
      rewrite change_none, set_tbl_id; [done|]. intros x _. by apply bool_decide_eq_false, not_elem_of_nil.
    + by apply p_map_err_Ok, p_void_Ok in Hl as (k & [-> _]%update_Ok_inv).
Qed.

(** Without faults the update of a well-formed database is never refused. *)
Lemma p_update_chunks_ok set ls now d : overwrites set -> db_wf d ->
  exists d', p_each (p_update_chunk set) ls now d = Ok (tt, d').
Proof.
  intros Hs. revert d. induction ls as [|l ls IH]; intros d Hd; [by exists d|]. simpl.
  destruct l as [|o l].
  { by apply IH. }
  unfold p_bind at 1, p_update_chunk at 1, p_map_err, p_void, p_bind at 1, p_ret.
  destruct Hs as [Hid Hov].
  rewrite update_ok; [|done|intros; unfold clash; simpl; unfold clash_instance; by rewrite ?Hid..].
  simpl. apply IH. apply set_tbl_wf; [done|].
  apply distinct_change; [intros; unfold clash; simpl; unfold clash_instance; by rewrite ?Hid..|].
  by apply tbl_distinct.
Qed.

Lemma batch_update_spec set (handler : list string -> M database unit) ids c r c'
    `{!forall objects, Implements (handler objects) (p_update_chunk set objects)} :
  overwrites set ->
  RetryTransaction (processWithTransaction (then_commit (BatchOperation ids handler))) c = (r, c') ->
  replica c' = replica c /\
  (r = Ok tt -> exists now, ids_rewritten set ids now (committed c) (committed c')) /\
  (committed c' = committed c \/ exists now, ids_rewritten set ids now (committed c) (committed c')) /\
  (reliable -> db_wf (committed c) -> r = Ok tt).
Proof.
  intros Hs Hr. pose proof (retry_process_spec (BatchOperation ids handler) _ _ _ _ Hr) as [Ho Hre].
  pose proof (chunks_spec 100 ids ltac:(lia)) as [Hcat _].
  set (J := fun d => d = committed c \/ exists now, ids_rewritten set ids now (committed c) d).
  assert (forall now x a y, J x -> p_each (p_update_chunk set) (chunks 100 ids) now x = Ok (a, y) ->
    exists now, ids_rewritten set ids now (committed c) y) as Hstep.
  { intros now x a y HJ Hp%p_update_chunks_Ok; [|done]. rewrite Hcat in Hp. exists now.
    destruct HJ as [->|[now' ->]]; [done|]. rewrite Hp. unfold ids_rewritten.
    autorewrite with tables. f_equal. destruct Hs as [Hid Hov]. unfold change. rewrite map_map.
    apply map_ext. intros x'. repeat case_bool_decide; rewrite ?Hid, ?Hov in *; done. }
  assert (forall now x a y, J x -> p_each (p_update_chunk set) (chunks 100 ids) now x = Ok (a, y) -> J y)
    as HJ by (intros; right; eauto).
  split; [done|]. split; [|split].
  - intros ->. apply retried_outcome_Ok in Ho as (d1 & now & Hd1 & Hp).
    eapply Hstep; [|exact Hp]. by eapply (rtc_commits_inv J); [exact HJ|left|].
  - eapply (retried_outcome_inv J); [exact HJ|by left|exact Ho].
  - intros Hrel Hwf.
    destruct (p_update_chunks_ok set (chunks 100 ids) (current_timestamp c) (committed c) Hs Hwf) as [d' Hd'].
    pose proof (process_exact (BatchOperation ids handler) _ c Hrel) as Hx. rewrite Hd' in Hx.
    assert (forall e, fst (processWithTransaction (then_commit (BatchOperation ids handler)) c) = Err e ->
      repeated e = false) as Hne by (intros e He; by rewrite Hx in He).
    pose proof (retry_process_exact (BatchOperation ids handler) _ c Hrel Hne) as Hy.
    rewrite Hr, Hd' in Hy. done.
Qed.

(** [BatchDeleteInstances] marks exactly the instances of the given ids as
    deleted, in one transaction over chunks of 100: all of them or, after an
    error, possibly none; no other row changes, duplicates in the list do no
    harm, and without faults it succeeds. *)
Theorem BatchDeleteInstances_correct ids c r c' :
  BatchDeleteInstances ids c = (r, c') ->
  replica c' = replica c /\
  (r = Ok tt -> exists now, ids_rewritten (set_flag 1) ids now (committed c) (committed c')) /\
  (committed c' = committed c \/
     exists now, ids_rewritten (set_flag 1) ids now (committed c) (committed c')) /\
  (reliable -> db_wf (committed c) -> r = Ok tt).
Proof. unfold BatchDeleteInstances. by apply batch_update_spec; [apply _|]. Qed.

(** [BatchSetInstanceHealthStatus] and [BatchSetInstanceIsolate] set their
    column, the revision and mtime of exactly the given instances, in the
    same all-or-nothing way. *)
Theorem BatchSetInstances_correct ids value revision c r c' op set :
  (op, set) = (BatchSetInstanceHealthStatus ids value revision, set_health value revision) \/
  (op, set) = (BatchSetInstanceIsolate ids value revision, set_isolate value revision) ->
  op c = (r, c') ->
  replica c' = replica c /\
  (r = Ok tt -> exists now, ids_rewritten set ids now (committed c) (committed c')) /\
  (committed c' = committed c \/ exists now, ids_rewritten set ids now (committed c) (committed c')) /\
  (reliable -> db_wf (committed c) -> r = Ok tt).
Proof.
  intros [[= -> ->]|[= -> ->]];
    (apply batch_update_spec; [intros; apply (impl_update_batch 2)|done]).
Qed.
(** *** Incremental reads *)

Lemma joined_one d r : db_wf d -> exists h, join_check d r = [(r, h)].
Proof.
  intros Hd. unfold join_check.
  assert (length (keep (check_of (ins_id r)) (tbl (R:=health_check_row) d)) <= 1)%nat as Hl.
  { eapply distinct_unique; [by apply tbl_distinct|]. intros x y Hx Hy.
    apply str_eq_true in Hx, Hy. apply str_eq_true. congruence. }
  destruct (keep _ _) as [|h [|h' l]]; simpl in *; [eauto..|lia].
Qed.

Lemma select_joined_ids w d : db_wf d -> NoDup (map (fun j => ins_id (fst j)) (select_joined w d)).
Proof.
  intros Hd. unfold select_joined.
  assert (NoDup (map ins_id (keep w (tbl d)))) as Hn.
  { eapply distinct_NoDup; [|apply distinct_keep; by apply tbl_distinct].
    intros x y Hxy. by apply str_eq_true. }
  replace (map _ _) with (map ins_id (keep w (tbl d))); [done|].
  clear Hn. induction (keep w (tbl d)) as [|r l IH]; [done|].
  cbn [map concat]. rewrite map_app, IH. by destruct (joined_one d r Hd) as [h ->].
Qed.

Lemma elem_of_select_joined w d j :
  j ∈ select_joined w d <-> exists r, r ∈ tbl d /\ w r = true /\ j ∈ join_check d r.
Proof.
  unfold select_joined. rewrite list_elem_of_In, in_concat. setoid_rewrite in_map_iff.
  setoid_rewrite <- list_elem_of_In. split.
  - intros (x & (r & <- & [Hr Hw]%elem_of_keep) & Hj). eauto.
  - intros (r & Hr & Hw & Hj). exists (join_check d r). split; [|done]. exists r.
    split; [done|]. by apply elem_of_keep.
Qed.

Lemma scan_instance_id j e : scan_instance j = Ok e -> st_ID e = ins_id (fst j).
Proof.
  unfold scan_instance, scan_main. destruct j as [i h]. intros Hs.
  repeat (apply res_bind_Ok in Hs as (? & _ & Hs)). by simplify_eq.
Qed.

Lemma tx_Query_Ok {R} (sel : Z -> database -> res (list R)) c rs c' :
  txst c = TxOpen -> tx_Query sel c = (Ok rs, c') -> exists l, sel (tx_now c) (work c) = Ok l /\
    (rs = Rows l None \/ exists n e, rs = Rows (take n l) (Some e)).
Proof.
  intros Ho. unfold tx_Query, tx_Exec. rewrite Ho. intros Hq.
  destruct (fault_at (calls c)) as [[e|e|n e]|]; [done|done| |].
  - apply (f_equal fst) in Hq. simpl in Hq. apply res_map_Ok in Hq as (l & Hl & <-). eauto 10.
  - destruct (sel (tx_now c) (work c)) as [l|e|w]; simpl in Hq; simplify_eq. eauto 10.
Qed.

(** Inside a transaction [GetMoreInstances] without metadata returns, by
    id, exactly the converted instances that changed since [mtime], of the
    wanted services and, on the first call, not deleted. *)
Theorem GetMoreInstances_main mtime first ids c m c' :
  txst c = TxOpen -> db_wf (work c) ->
  GetMoreInstances mtime first false ids c = (Ok m, c') ->
  forall id x, m !! id = Some x <->
    exists row h e, row ∈ tbl (work c) /\ more_where mtime first ids row = true /\
      ins_id row = id /\ join_check (work c) row = [(row, h)] /\
      scan_instance (row, h) = Ok e /\ x = Store2Instance e.
Proof.
  intros Ho Hwf Hr id x. unfold GetMoreInstances, getMoreInstancesMain in Hr.
  apply Bind_Ok in Hr as (rs & c1 & Hq & Hr). apply Bind_Ok in Hr as (out & c2 & Hf & Hr).
  unfold Ret in Hr. apply pair_equal_spec in Hf as [Hf <-]. simplify_eq.
  apply tx_Query_Ok in Hq as (l & Hl & Hrs); [|done].
  destruct Hrs as [->|(n & e & ->)];
    [|pose proof (fetch_rows_err_checking scan_instance (take n l) e) as Hx;
      unfold callFetchInstanceRows in *; by rewrite Hf in Hx].
  unfold callFetchInstanceRows, fetch_rows in *. simpl in *.
  apply res_bind_Ok in Hf as (out1 & Hf%scan_all_Ok & [= ->]).
  unfold select_more in Hl. destruct (params_ok _ _); [|done]. simplify_eq.
  pose proof (select_joined_ids (more_where mtime first ids) (work c) Hwf) as Hn.
  assert (map st_ID out = map (fun j => ins_id (fst j)) (select_joined (more_where mtime first ids) (work c))) as Hids.
  { clear -Hf. induction Hf as [|j e l k Hj _ IH]; [done|]. simpl. f_equal; [|done].
    by apply scan_instance_id. }
  rewrite <- Hids in Hn.
  rewrite (fold_insert_Some st_ID Store2Instance) by done. split.
  - intros (e & He & <- & ->). destruct (Forall2_elem_r _ _ _ _ Hf He) as (j & Hj & Hs).
    apply elem_of_select_joined in Hj as (row & Hrow & Hw & Hj).
    destruct (joined_one (work c) row Hwf) as [h Hh]. rewrite Hh in Hj.
    apply list_elem_of_singleton in Hj as ->. exists row, h, e.
    split_and!; try done. by rewrite (scan_instance_id _ _ Hs).
  - intros (row & h & e & Hrow & Hw & <- & Hh & Hs & ->). exists e.
    assert ((row, h) ∈ select_joined (more_where mtime first ids) (work c)) as Hin.
    { apply elem_of_select_joined. exists row. split_and!; try done. rewrite Hh.
      by apply list_elem_of_singleton. }
    apply list_elem_of_lookup in Hin as [k Hk].
    destruct (Forall2_lookup_l _ _ _ _ _ Hf Hk) as (e1 & He1 & Hs1). simpl in Hs1.
    assert (e1 = e) as -> by congruence. split; [by eapply list_elem_of_lookup_2|].
    split; [by rewrite (scan_instance_id (row, h) e Hs)|done].
Qed.

Lemma fetch_complete_fails out r : is_Ok (fetch_complete out r) = false.
Proof.
  destruct r as [j m]. unfold fetch_complete.
  destruct (scan_main j 0 0) as [e|e|w]; simpl; [|done..].
  destruct (ParseFloat_colon _ (RFC3339Nano_colon (ins_ctime (fst j)))) as [msg ->]. done.
Qed.

(** A later [GetMoreInstances] with metadata never returns an instance:
    the timestamps are scanned into strings and given to [ParseFloat], so one
    changed instance makes the call fail, and it succeeds only with the
    empty map when nothing changed. *)
Theorem GetMoreInstances_incremental mtime ids c m c' :
  GetMoreInstances mtime false true ids c = (Ok m, c') ->
  m = ∅ /\ keep (more_where mtime false ids) (tbl (replica c)) = [].
Proof.
  unfold GetMoreInstances, getMoreInstancesMainWithMeta. intros Hr.
  apply Query_fetch_Ok in Hr as (_ & now & l & Hl & Hf); [|apply _|].
  2:{ intros l e. unfold fetchInstanceWithMetaRows. simpl. by destruct (fold_res _ _ _). }
  unfold select_more in Hl. destruct (params_ok _ _); [|done]. simplify_eq.
  unfold fetchInstanceWithMetaRows in Hf. simpl in Hf.
  apply res_bind_Ok in Hf as (out & Hf & [= ->]).
  destruct (select_complete _ _) as [|r l] eqn:E.
  - simpl in Hf. simplify_eq. split; [done|]. unfold select_complete, select_joined in E.
    destruct (keep _ _) as [|row rest]; [done|]. exfalso. simpl in E.
    unfold join_check in E. destruct (keep (check_of _) _); simpl in E; apply app_eq_nil in E as [E _];
      unfold join_meta in E; simpl in E; destruct (keep (meta_of _) _); done.
  - simpl in Hf. pose proof (fetch_complete_fails ∅ r) as Hx. by destruct (fetch_complete ∅ r).
Qed.

Lemma genWhereSQLAndArgs_prefix str filter metaFilter order offset limit t :
  t ∈ str -> t ∈ fst (genWhereSQLAndArgs str filter metaFilter order offset limit).
Proof.
  intros Ht. unfold genWhereSQLAndArgs.
  destruct (genFilterSQL filter 1) as [[q a] i].
  destruct q, metaFilter; simpl; rewrite ?elem_of_app; auto 10.
Qed.

(** [GetExpandInstances] filtered by service name, namespace or host always
    fails, whatever the tables hold: the query carries MySQL's FORCE INDEX. *)
Theorem GetExpandInstances_refused filter metaFilter offset limit c r c' :
  limit <> 0 -> has_key "name" filter || has_key "namespace" filter || has_key "host" filter = true ->
  GetExpandInstances filter metaFilter offset limit c = (r, c') ->
  is_Ok r = false /\ same_dbs c c'.
Proof.
  intros Hl Hk Hr. unfold GetExpandInstances, getExpandInstances in Hr.
  rewrite (proj2 (Z.eqb_neq _ _) Hl) in Hr.
  replace (has_key "name" (live_filter filter) || has_key "namespace" (live_filter filter)
           || has_key "host" (live_filter filter)) with true in Hr.
  2:{ symmetry. etransitivity; [|exact Hk]. unfold has_key, live_filter. by rewrite !lookup_insert_ne. }
  assert (T force_index ∈ fst (genWhereSQLAndArgs (genExpandInstanceSelectSQL true)
    (range_map (live_filter filter)) (range_map metaFilter) (Some (mkOrder "instance.mtime" "desc"))
    offset limit)) as Hin.
  { apply genWhereSQLAndArgs_prefix. right. left. }
  destruct (genWhereSQLAndArgs _ _ _ _ _ _) as [str args]. simpl in Hin.
  unfold Bind at 1 2 in Hr.
  destruct (Query committed (fun _ d => pg_expand str args d) c) as [[rs|e|w] c1] eqn:E; [|simplify_eq..].
  - apply Query_Ok in E as (_ & now & l & E & _); [|apply _]. by rewrite pg_expand_hint in E.
  - apply Query_frame in E. done.
  - apply Query_frame in E. done.
Qed.
End instance_properties.

(** ** Concrete instances, for examples *)

Definition plain_instances : InstanceApi :=
  {| Store2Instance := fun s => mkInstance (st_ID s) (st_ServiceID s) (st_VpcID s) (st_Host s) (st_Port s)
       (st_Protocol s) (st_Version s) (st_HealthStatus s =? 1) (st_Isolate s =? 1) (st_Weight s)
       (st_EnableHealthCheck s =? 1) (st_LogicSet s) (st_Region s) (st_Zone s) (st_Campus s) (st_Priority s)
       (st_Revision s) (if st_CheckType s =? -1 then None else Some (st_CheckType s, st_TTL s)) None
       (negb (st_Flag s =? 1));
     ExpandStore2Instance := fun e => let s := ServiceInstance e in
       mkInstance (st_ID s) (st_ServiceID s) (st_VpcID s) (st_Host s) (st_Port s)
       (st_Protocol s) (st_Version s) (st_HealthStatus s =? 1) (st_Isolate s =? 1) (st_Weight s)
       (st_EnableHealthCheck s =? 1) (st_LogicSet s) (st_Region s) (st_Zone s) (st_Campus s) (st_Priority s)
       (st_Revision s) (if st_CheckType s =? -1 then None else Some (st_CheckType s, st_TTL s)) None
       (negb (st_Flag s =? 1));
     Int2bool := fun n => n =? 1;
     Store2Instance_ID := fun _ => eq_refl;
     Store2Instance_Valid := fun _ => eq_refl |}.

Definition plain_expand : PgExpand.
Proof.
  refine {| pg_expand := fun q args d =>
    if decide (T force_index ∈ q) then Err syntax_error
    else if params_ok q (length args) then Ok [] else Err param_error |}.
  - intros q args d Hn Hp. by rewrite decide_False, Hp.
  - intros q args d Hin. by rewrite decide_True.
Defined.
