(* ===== verification/ConfigRelease.v ===== *)
(** * Configuration releases (store/postgresql/config_file_release.go)

    [configFileReleaseStore]: a configuration file (namespace, group, file
    name) has named releases with increasing versions; per release type at
    most one of them is active.  The operations with [Tx] in their name work
    in the transaction of the caller and commit it.  The row lock taken on
    config_file has no effect on the content. *)
From stdpp Require Import base list strings gmap.
From Stdlib Require Import ZArith Lia.
From S2P Require Import Prelude Driver Rows Schema Sql Common.
Open Scope Z_scope.
Open Scope store_scope.

(** [model.ConfigFileRelease], the fields the store touches; times in
    seconds. *)
Record ConfigFileRelease := mkConfigFileRelease {
  Id : Z; Name : string; Namespace : string; Group : string; FileName : string; Content : string;
  Comment : string; Md5 : string; Version : Z; CreateTime : Z; CreateBy : string; ModifyTime : Z;
  ModifyBy : string; Flag : Z; Active : bool; Valid : bool; Metadata : gmap string string;
  ReleaseDescription : string; ReleaseType : string }.

(** [model.ConfigFileReleaseKey], [model.ConfigFileKey] *)
Record ConfigFileReleaseKey := mkConfigFileReleaseKey {
  k_Namespace : string; k_Group : string; k_FileName : string; k_Name : string }.
Record ConfigFileKey := mkConfigFileKey { f_Namespace : string; f_Group : string; f_Name : string }.

(** The two release types of package [model]. *)
Class ReleaseTypes := {
  ReleaseTypeFull : string;
  ReleaseTypeGray : string;
  ReleaseTypes_differ : ReleaseTypeFull <> ReleaseTypeGray
}.

Section release.
Context `{Env} `{PolarisApi} `{Strconv} `{ReleaseTypes}.
Abbreviation M := (M database).
Abbreviation P := (P database).

(** ** Statements *)

Definition of_file (namespace group fileName : string) (r : config_file_release_row) : bool :=
  str_eq (cfr_namespace r) namespace && str_eq (cfr_group r) group && str_eq (cfr_file_name r) fileName.

Definition of_release (namespace group fileName name : string) (r : config_file_release_row) : bool :=
  of_file namespace group fileName r && str_eq (cfr_name r) name.

Definition set_active (active now : Z) (r : config_file_release_row) : config_file_release_row :=
  ConfigFileReleaseRow (cfr_id r) (cfr_name r) (cfr_namespace r) (cfr_group r) (cfr_file_name r)
    (cfr_content r) (cfr_comment r) (cfr_md5 r) (cfr_version r) (cfr_flag r) (cfr_create_time r)
    (cfr_create_by r) now (cfr_modify_by r) (cfr_tags r) active (cfr_description r) (cfr_release_type r).

Definition set_deleted (now : Z) (r : config_file_release_row) : config_file_release_row :=
  ConfigFileReleaseRow (cfr_id r) (cfr_name r) (cfr_namespace r) (cfr_group r) (cfr_file_name r)
    (cfr_content r) (cfr_comment r) (cfr_md5 r) (cfr_version r) 1 (cfr_create_time r)
    (cfr_create_by r) now (cfr_modify_by r) (cfr_tags r) (cfr_active r) (cfr_description r) (cfr_release_type r).

Definition set_activated (version : Z) (release_type : string) (now : Z) (r : config_file_release_row) :
    config_file_release_row :=
  ConfigFileReleaseRow (cfr_id r) (cfr_name r) (cfr_namespace r) (cfr_group r) (cfr_file_name r)
    (cfr_content r) (cfr_comment r) (cfr_md5 r) version (cfr_flag r) (cfr_create_time r)
    (cfr_create_by r) now (cfr_modify_by r) (cfr_tags r) 1 (cfr_description r) release_type.

(** The driver does not take a uint64 beyond int64. *)
Definition uint64_arg (n : Z) : res unit :=
  if n <? 2 ^ 63 then Ok tt else Err (EMsg "uint64 values with high bit set are not supported").

(** [selectMaxVersion]: COALESCE(MAX(version), 0) *)
Definition max_version (l : list config_file_release_row) : Z :=
  match l with [] => 0 | r :: l' => foldr Z.max (cfr_version r) (map cfr_version l') end.

(** The column is signed, the variable it is scanned into is not. *)
Definition scan_uint64 (n : Z) : res Z :=
  if n <? 0 then Err (EMsg "sql: Scan error: converting int64 to a uint64: invalid syntax") else Ok n.

Lemma scan_uint64_Ok n m : scan_uint64 n = Ok m -> m = n.
Proof. unfold scan_uint64. destruct (n <? 0); [done|]. by intros [=]. Qed.

Definition selectMaxVersion (release : ConfigFileRelease) : M Z :=
  n <- tx_QueryRow (fun _ d =>
         Ok [max_version (sql_select (of_file (Namespace release) (Group release) (FileName release)) d)]) ;;
  lift (scan_uint64 n).

(** [inactiveConfigFileRelease] *)
Definition is_active (release : ConfigFileRelease) (r : config_file_release_row) : bool :=
  of_file (Namespace release) (Group release) (FileName release) r &&
  (cfr_active r =? 1) && str_eq (cfr_release_type r) (ReleaseType release).

Definition inactiveConfigFileRelease (release : ConfigFileRelease) : M Z :=
  tx_Exec (sql_update (is_active release) (set_active 0)) ;;;
  selectMaxVersion release.

Definition new_release_row (id version : Z) (data : ConfigFileRelease) (now : Z) : config_file_release_row :=
  ConfigFileReleaseRow id (Name data) (Namespace data) (Group data) (FileName data) (Content data)
    (Some (Comment data)) (Md5 data) version 0 now (Some (CreateBy data)) now (Some (ModifyBy data))
    (Some (MustJson_map (Metadata data))) 1 (Some (ReleaseDescription data)) (ReleaseType data).

Definition insert_release (version : Z) (data : ConfigFileRelease) : P unit :=
  p_bind nextval (fun id => p_void (sql_insert (fun now => [new_release_row id version data now]))).

(** ** Operations *)

(** [CreateConfigFileReleaseTx] *)
Definition create_release (data : ConfigFileRelease) : M unit :=
  map_err store_Error (rolls_back (void (tx_Exec (p_ret 0)))) ;;;
  map_err store_Error (void (tx_Exec (sql_delete (fun r =>
    of_release (Namespace data) (Group data) (FileName data) (Name data) r && (cfr_flag r =? 1))))) ;;;
  maxVersion <- map_err store_Error (rolls_back (inactiveConfigFileRelease data)) ;;
  map_err store_Error (rolls_back (
    lift (uint64_arg (maxVersion + 1)) ;;;
    tx_Exec (insert_release (maxVersion + 1) data))).

Definition CreateConfigFileReleaseTx (tx : option unit) (data : ConfigFileRelease) : M unit :=
  with_tx tx (create_release data ;;; commit_tx).

(** [transferRows]: times come as the text of a number, tags as JSON. *)
Definition scan_release (r : config_file_release_row) : res ConfigFileRelease :=
  match ParseFloat (epoch_text (cfr_create_time r)) with
  | Err e => Err (errorf "failed to parse create_time" e)
  | Panic w => Panic w
  | Ok ctime =>
  match ParseFloat (epoch_text (cfr_modify_time r)) with
  | Err e => Err (errorf "failed to parse modify_time" e)
  | Panic w => Panic w
  | Ok mtime =>
      metadata <-? Unmarshal_map (default "" (cfr_tags r)) ;;
      Ok (mkConfigFileRelease (cfr_id r) (cfr_name r) (cfr_namespace r) (cfr_group r) (cfr_file_name r)
            (cfr_content r) (default "" (cfr_comment r)) (cfr_md5 r) (cfr_version r) ctime
            (default "" (cfr_create_by r)) mtime (default "" (cfr_modify_by r)) (cfr_flag r)
            (cfr_active r =? 1) (cfr_flag r =? 0) metadata (default "" (cfr_description r))
            (cfr_release_type r))
  end end.

Definition transferRows (rs : rows config_file_release_row) : res (list ConfigFileRelease) :=
  fetch_rows scan_release rs.

(** [GetConfigFileReleaseTx], [GetConfigFileRelease] *)
Definition GetConfigFileReleaseTx (tx : option unit) (req : ConfigFileReleaseKey) :
    M (option ConfigFileRelease) :=
  with_tx tx (
    rs <- tx_Query (fun _ d => Ok (sql_select (fun r =>
            of_release (k_Namespace req) (k_Group req) (k_FileName req) (k_Name req) r &&
            (cfr_flag r =? 0)) d)) ;;
    fileRelease <- lift (transferRows rs) ;;
    Ret (head fileRelease)).

(** Begin, with [defer func() { _ = tx.Rollback() }()], and no commit. *)
Definition reading {A} (m : M A) : M A :=
  map_err store_Error Begin ;;; defer_rollback m.

Definition GetConfigFileRelease (req : ConfigFileReleaseKey) : M (option ConfigFileRelease) :=
  reading (GetConfigFileReleaseTx (Some tt) req).

(** [DeleteConfigFileReleaseTx], [CleanConfigFileReleasesTx] *)
Definition mark_deleted (where_ : config_file_release_row -> bool) : M unit :=
  map_err store_Error (rolls_back (void (tx_Exec (sql_update where_ set_deleted)))).

Definition DeleteConfigFileReleaseTx (tx : option unit) (data : ConfigFileReleaseKey) : M unit :=
  with_tx tx (
    mark_deleted (of_release (k_Namespace data) (k_Group data) (k_FileName data) (k_Name data)) ;;;
    commit_tx).

Definition CleanConfigFileReleasesTx (tx : option unit) (namespace group fileName : string) : M unit :=
  with_tx tx (mark_deleted (of_file namespace group fileName) ;;; commit_tx).

(** [CleanDeletedConfigFileRelease]: the rows come in the order they are
    stored in. *)
Fixpoint expire (n : nat) (p : config_file_release_row -> bool) (l : list config_file_release_row) :
    list config_file_release_row :=
  match n, l with
  | O, _ => l
  | _, [] => []
  | S n', r :: l' => if p r then expire n' p l' else r :: expire n p l'
  end.

Definition CleanDeletedConfigFileRelease (endTime limit : Z) : M unit :=
  void (Exec (fun _ d =>
    _ <-? uint64_arg limit ;;
    Ok (tt, set_tbl (expire (Z.to_nat limit)
      (fun r => (cfr_modify_time r <? endTime) && (cfr_flag r =? 1)) (tbl d)) d))).

(** [GetConfigFileActiveReleaseTx], [GetConfigFileBetaReleaseTx] *)
Definition active_where (file : ConfigFileKey) (release_type : string) (r : config_file_release_row) : bool :=
  of_file (f_Namespace file) (f_Group file) (f_Name file) r && (cfr_active r =? 1) &&
  str_eq (cfr_release_type r) release_type && (cfr_flag r =? 0).

Definition multiple_active : error := EMsg "multiple active file releases found".

Definition active_release (release_type : string) (tx : option unit) (file : ConfigFileKey) :
    M (option ConfigFileRelease) :=
  with_tx tx (
    rs <- tx_Query (fun _ d => Ok (sql_select (active_where file release_type) d)) ;;
    fileRelease <- lift (transferRows rs) ;;
    match fileRelease with
    | [] => Ret None
    | [r] => Ret (Some r)
    | _ => Fail multiple_active
    end).

Definition GetConfigFileActiveReleaseTx := active_release ReleaseTypeFull.
Definition GetConfigFileBetaReleaseTx := active_release ReleaseTypeGray.

Definition GetConfigFileActiveRelease (file : ConfigFileKey) : M (option ConfigFileRelease) :=
  reading (GetConfigFileActiveReleaseTx (Some tt) file).

(** [ActiveConfigFileReleaseTx]: an error of the UPDATE leaves the
    transaction open. *)
Definition activate (release : ConfigFileRelease) : M unit :=
  maxVersion <- rolls_back (inactiveConfigFileRelease release) ;;
  map_err store_Error (
    lift (uint64_arg (maxVersion + 1)) ;;;
    void (tx_Exec (sql_update
      (of_release (Namespace release) (Group release) (FileName release) (Name release))
      (set_activated (maxVersion + 1) (ReleaseType release))))).

Definition ActiveConfigFileReleaseTx (tx : option unit) (release : ConfigFileRelease) : M unit :=
  with_tx tx (activate release ;;; commit_tx).

(** [InactiveConfigFileReleaseTx] *)
Definition InactiveConfigFileReleaseTx (tx : option unit) (release : ConfigFileRelease) : M unit :=
  with_tx tx (
    map_err store_Error (void (tx_Exec (sql_update (fun r =>
      of_release (Namespace release) (Group release) (FileName release) (Name release) r &&
      str_eq (cfr_release_type r) (ReleaseType release)) (set_active 0)))) ;;;
    commit_tx).

(** [GetMoreReleaseFile] *)
Definition GetMoreReleaseFile (firstUpdate : bool) (modifyTime : Z) : M (list ConfigFileRelease) :=
  let modifyTime := if firstUpdate then zero_time else modifyTime in
  rs <- Query replica (fun _ d => Ok (sql_select (fun r => modifyTime <? cfr_modify_time r) d)) ;;
  lift (transferRows rs).

(** [CountConfigReleases] *)
Definition CountConfigReleases (namespace group : string) (onlyActive : bool) : M Z :=
  map_err store_Error (QueryRow committed (fun _ d =>
    Ok [Z.of_nat (count_rows (fun r =>
      (cfr_flag r =? 0) && str_eq (cfr_namespace r) namespace && str_eq (cfr_group r) group &&
      (negb onlyActive || (cfr_active r =? 1))) d)])).
End release.

(** ** What the operations mean *)

Section release_facts.
Context `{Env} `{PolarisApi} `{Strconv} `{ReleaseTypes}.
Abbreviation P := (P database).
Implicit Types c : conn database.

Definition file_rows (x : ConfigFileRelease) (d : database) : list config_file_release_row :=
  sql_select (of_file (Namespace x) (Group x) (FileName x)) d.

Definition p_inactive (x : ConfigFileRelease) : P Z :=
  p_bind (sql_update (is_active x) (set_active 0)) (fun _ =>
  p_read (fun d => scan_uint64 (max_version (file_rows x d)))).

Definition dead_release (x : ConfigFileRelease) (r : config_file_release_row) : bool :=
  of_release (Namespace x) (Group x) (FileName x) (Name x) r && (cfr_flag r =? 1).

Definition p_create (x : ConfigFileRelease) : P unit :=
  p_bind (p_map_err store_Error (p_void (p_ret 0))) (fun _ =>
  p_bind (p_map_err store_Error (p_void (sql_delete (dead_release x)))) (fun _ =>
  p_bind (p_map_err store_Error (p_inactive x)) (fun v =>
  p_map_err store_Error (p_bind (p_lift (uint64_arg (v + 1))) (fun _ => insert_release (v + 1) x))))).

Definition p_activate (x : ConfigFileRelease) : P unit :=
  p_bind (p_inactive x) (fun v =>
  p_map_err store_Error (p_bind (p_lift (uint64_arg (v + 1))) (fun _ =>
    p_void (sql_update (of_release (Namespace x) (Group x) (FileName x) (Name x))
      (set_activated (v + 1) (ReleaseType x)))))).

#[export] Instance impl_inactive x : Implements (inactiveConfigFileRelease x) (p_inactive x).
Proof.
  unfold inactiveConfigFileRelease, selectMaxVersion, p_inactive.
  apply impl_bind; [apply _|intros _]. implement. done.
Qed.

#[export] Instance impl_create x : Implements (create_release x) (p_create x).
Proof. unfold create_release, p_create. apply _. Qed.

#[export] Instance impl_activate x : Implements (activate x) (p_activate x).
Proof. unfold activate, p_activate. apply _. Qed.

#[export] Instance impl_mark_deleted w :
  Implements (mark_deleted w) (p_map_err store_Error (p_void (sql_update w set_deleted))).
Proof. unfold mark_deleted. apply _. Qed.

(** The rows of the file after the statements that precede the insert or the
    activation. *)
Definition deactivated (x : ConfigFileRelease) (now : Z) (l : list config_file_release_row) :=
  change (is_active x) (set_active 0 now) l.

Lemma p_inactive_Ok x now d v d' : p_inactive x now d = Ok (v, d') ->
  d' = set_tbl (deactivated x now (tbl d)) d /\ v = max_version (file_rows x d').
Proof.
  intros (k & d1 & [-> _]%update_Ok_inv & Hv)%p_bind_Ok. unfold p_read in Hv.
  destruct (scan_uint64 _) eqn:E; simplify_eq/=. by apply scan_uint64_Ok in E as ->.
Qed.

(** What a successful creation leaves. *)
Definition created (x : ConfigFileRelease) (now : Z) (d d' : database) : Prop :=
  exists rest v, rest = deactivated x now (keep (fun r => negb (dead_release x r)) (tbl d)) /\
    v = max_version (keep (of_file (Namespace x) (Group x) (FileName x)) rest) + 1 /\ v < 2 ^ 63 /\
    d' = set_tbl (rest ++ [new_release_row (config_file_release_id_seq d) v x now])
           (set_seq (config_file_release_id_seq d + 1) d) /\
    distinct clash (rest ++ [new_release_row (config_file_release_id_seq d) v x now]) = true.

Lemma seq_set_tbl (l : list config_file_release_row) d :
  config_file_release_id_seq (set_tbl l d) = config_file_release_id_seq d.
Proof. done. Qed.
Lemma tbl_set_seq n d : tbl (R:=config_file_release_row) (set_seq n d) = tbl d.
Proof. done. Qed.
Lemma set_seq_set_tbl n (l l' : list config_file_release_row) d :
  set_tbl l (set_seq n (set_tbl l' d)) = set_tbl l (set_seq n d).
Proof. done. Qed.
Hint Rewrite seq_set_tbl tbl_set_seq set_seq_set_tbl : tables.

Lemma p_create_Ok x now d u d' : p_create x now d = Ok (u, d') -> created x now d d'.
Proof.
  intros ([] & d1 & E & Hp)%p_bind_Ok. apply p_map_err_Ok in E. unfold p_void, p_bind, p_ret in E.
  simpl in E. injection E as <-.
  apply p_bind_Ok in Hp as ([] & d2 & (k & [= _ <-])%p_map_err_Ok%p_void_Ok & Hp).
  apply p_bind_Ok in Hp as (v & d3 & [-> ->]%p_map_err_Ok%p_inactive_Ok & Hp).
  apply p_map_err_Ok, p_bind_Ok in Hp as ([] & d4 & E & Hp).
  unfold p_lift, uint64_arg in E. destruct (_ <? 2 ^ 63) eqn:Hlt; [|done]. simpl in E. injection E as <-.
  unfold insert_release in Hp. apply p_bind_Ok in Hp as (id & d5 & E & Hp).
  unfold nextval in E. injection E as <- <-.
  apply p_void_Ok in Hp as (n & [-> Hd]%insert_Ok_inv). unfold file_rows, sql_select in *.
  autorewrite with tables in *. eexists _, _. split_and!; [done|done|by apply Z.ltb_lt|done|exact Hd].
Qed.

(** What a successful activation leaves. *)
Definition activated (x : ConfigFileRelease) (now : Z) (d d' : database) : Prop :=
  exists rest v, rest = deactivated x now (tbl d) /\
    v = max_version (keep (of_file (Namespace x) (Group x) (FileName x)) rest) + 1 /\ v < 2 ^ 63 /\
    d' = set_tbl (change (of_release (Namespace x) (Group x) (FileName x) (Name x))
                    (set_activated v (ReleaseType x) now) rest) d.

Lemma p_activate_Ok x now d u d' : p_activate x now d = Ok (u, d') -> activated x now d d'.
Proof.
  intros (v & d3 & [-> ->]%p_inactive_Ok & Hp)%p_bind_Ok.
  apply p_map_err_Ok, p_bind_Ok in Hp as ([] & d4 & E & Hp).
  unfold p_lift, uint64_arg in E. destruct (_ <? 2 ^ 63) eqn:Hlt; [|done]. simpl in E. injection E as <-.
  apply p_void_Ok in Hp as (n & [-> _]%update_Ok_inv). unfold file_rows, sql_select in *.
  autorewrite with tables in *. eexists _, _. split_and!; [done|done|by apply Z.ltb_lt|done].
Qed.

(** *** Versions *)

Lemma max_version_le l r : r ∈ l -> cfr_version r <= max_version l.
Proof.
  destruct l as [|r0 l]; [by intros ?%elem_of_nil|]. simpl.
  intros [->|Hr]%elem_of_cons.
  - induction l as [|x l IH]; simpl; lia.
  - induction l as [|x l IH]; [by apply elem_of_nil in Hr|]. simpl.
    apply elem_of_cons in Hr as [->|Hr]; [lia|]. specialize (IH Hr). lia.
Qed.

(** *** The invariant *)

(** Active releases of a type of a file. *)
Definition is_active_of (ns g f t : string) (r : config_file_release_row) : bool :=
  of_file ns g f r && (cfr_active r =? 1) && str_eq (cfr_release_type r) t.

Definition releases_ok (d : database) : Prop :=
  db_wf d /\
  (forall r : config_file_release_row, r ∈ tbl d -> cfr_id r < config_file_release_id_seq d) /\
  (forall ns g f t, (count (is_active_of ns g f t) (tbl d) <= 1)%nat).

Lemma count_app {A} (p : A -> bool) l k : count p (l ++ k) = (count p l + count p k)%nat.
Proof. unfold count. by rewrite keep_app, length_app. Qed.

Lemma count_keep_le {A} (p q : A -> bool) l : (count p (keep q l) <= count p l)%nat.
Proof.
  unfold count. induction l as [|x l IH]; simpl; [lia|].
  destruct (q x); simpl; destruct (p x); simpl; lia.
Qed.

(** A rewrite that makes no row satisfy [p]. *)
Lemma count_change_le {A} (p q : A -> bool) f l :
  (forall x, p (f x) = true -> p x = true) -> (count p (change q f l) <= count p l)%nat.
Proof.
  intros Hf. unfold count, change. induction l as [|x l IH]; simpl; [lia|].
  destruct (q x); simpl; [|destruct (p x); simpl; lia].
  destruct (p (f x)) eqn:E; [|destruct (p x); simpl; lia]. rewrite (Hf x E). simpl. lia.
Qed.

Lemma is_active_of_same x r :
  is_active_of (Namespace x) (Group x) (FileName x) (ReleaseType x) r = is_active x r.
Proof. done. Qed.

(** Deactivating leaves no active row of that type. *)
Lemma deactivated_none x now l :
  count (is_active_of (Namespace x) (Group x) (FileName x) (ReleaseType x)) (deactivated x now l) = O.
Proof.
  unfold count. apply length_zero_iff_nil, keep_nil_iff. intros r (y & _ & ->)%elem_of_change.
  rewrite is_active_of_same. destruct (is_active x y) eqn:E; [|done].
  unfold is_active. simpl. by rewrite andb_false_r.
Qed.

Lemma deactivated_le x now l ns g f t :
  (count (is_active_of ns g f t) (deactivated x now l) <= count (is_active_of ns g f t) l)%nat.
Proof.
  apply count_change_le. intros r. unfold is_active_of. simpl. by rewrite andb_false_r.
Qed.

Lemma elem_of_deactivated x now l r : r ∈ deactivated x now l ->
  exists y, y ∈ l /\ cfr_id r = cfr_id y /\ cfr_version r = cfr_version y /\
    cfr_flag r = cfr_flag y /\ of_file (Namespace x) (Group x) (FileName x) r =
                               of_file (Namespace x) (Group x) (FileName x) y.
Proof.
  intros (y & Hy & ->)%elem_of_change. exists y. by destruct (is_active x y).
Qed.
End release_facts.
#[export] Hint Rewrite seq_set_tbl tbl_set_seq set_seq_set_tbl : tables.

(** ** Properties *)

Section release_properties.
Context `{Env} `{PolarisApi} `{Strconv} `{ReleaseTypes}.
Abbreviation P := (P database).
Implicit Types c : conn database.

Lemma same_keys_distinct w (f : config_file_release_row -> config_file_release_row) l :
  (forall r, cfr_id (f r) = cfr_id r /\ cfr_namespace (f r) = cfr_namespace r /\
             cfr_group (f r) = cfr_group r /\ cfr_file_name (f r) = cfr_file_name r /\
             cfr_name (f r) = cfr_name r) ->
  distinct clash l = true -> distinct clash (change w f l) = true.
Proof.
  intros Hf. apply distinct_change; intros x y; unfold clash; simpl; unfold clash_config_file_release;
    destruct (Hf x) as (X1 & X2 & X3 & X4 & X5), (Hf y) as (Y1 & Y2 & Y3 & Y4 & Y5);
    by rewrite ?X1, ?X2, ?X3, ?X4, ?X5, ?Y1, ?Y2, ?Y3, ?Y4, ?Y5.
Qed.

(** A rewrite that activates nothing keeps the invariant. *)
Lemma releases_ok_change w (f : config_file_release_row -> config_file_release_row) d :
  (forall r, cfr_id (f r) = cfr_id r /\ cfr_namespace (f r) = cfr_namespace r /\
             cfr_group (f r) = cfr_group r /\ cfr_file_name (f r) = cfr_file_name r /\
             cfr_name (f r) = cfr_name r) ->
  (forall r, cfr_active (f r) = 1 -> cfr_active r = 1 /\ cfr_release_type (f r) = cfr_release_type r) ->
  releases_ok d -> releases_ok (set_tbl (change w f (tbl d)) d).
Proof.
  intros Hk Ha (Hwf & Hid & Hc). split; [|split].
  - apply set_tbl_wf; [done|]. by apply same_keys_distinct, tbl_distinct.
  - rewrite tbl_set. intros r (y & Hy & ->)%elem_of_change. rewrite seq_set_tbl.
    destruct (w y); [|by apply Hid]. destruct (Hk y) as (-> & _). by apply Hid.
  - intros ns g f0 t. rewrite tbl_set. etrans; [|apply Hc]. apply count_change_le.
    intros r. unfold is_active_of, of_file. destruct (Hk r) as (_ & -> & -> & -> & _).
    rewrite !andb_true_iff, !Z.eqb_eq. intros [[Hf Hact] Ht]. destruct (Ha r Hact) as [Hr Hty].
    rewrite Hty in Ht. done.
Qed.

#[export] Instance mark_deleted_ok w :
  Preserves releases_ok (p_map_err store_Error (p_void (sql_update w set_deleted))).
Proof.
  intros now d a d' Hd (k & [-> _]%update_Ok_inv)%p_map_err_Ok%p_void_Ok.
  by apply releases_ok_change; [|intros r; simpl; auto|].
Qed.

#[export] Instance inactivate_ok w :
  Preserves releases_ok (p_map_err store_Error (p_void (sql_update w (set_active 0)))).
Proof.
  intros now d a d' Hd (k & [-> _]%update_Ok_inv)%p_map_err_Ok%p_void_Ok.
  by apply releases_ok_change.
Qed.

Lemma count_one_of (p q : config_file_release_row -> bool) f l :
  (count p (change q f l) <= count p l + count (fun r => q r && p (f r)) l)%nat.
Proof.
  unfold count, change. induction l as [|x l IH]; simpl; [lia|].
  destruct (q x); simpl; [destruct (p (f x))|]; destruct (p x); simpl; lia.
Qed.

(** The key of an active release. *)
Lemma is_active_of_key ns g f t (r : config_file_release_row) : is_active_of ns g f t r = true ->
  ns = cfr_namespace r /\ g = cfr_group r /\ f = cfr_file_name r /\ t = cfr_release_type r.
Proof. unfold is_active_of, of_file. intros. booleans. rewrite !str_eq_true in *. done. Qed.

Lemma created_ok x now d d' : releases_ok d -> created x now d d' -> releases_ok d'.
Proof.
  intros (Hwf & Hid & Hc) (rest & v & -> & _ & _ & -> & Hdist).
  set (new := new_release_row (config_file_release_id_seq d) v x now) in *.
  set (rest := deactivated x now _) in *. split; [|split].
  - by apply set_tbl_wf.
  - rewrite tbl_set. intros r [Hr|Hr]%elem_of_app.
    + apply elem_of_deactivated in Hr as (y & [Hy _]%elem_of_keep & -> & _).
      specialize (Hid y Hy). simpl. lia.
    + apply list_elem_of_singleton in Hr as ->. simpl. lia.
  - intros ns g f t. rewrite tbl_set, count_app.
    assert (count (is_active_of ns g f t) rest <= 1)%nat as H1'.
    { etrans; [apply deactivated_le|]. etrans; [apply count_keep_le|]. apply Hc. }
    destruct (is_active_of ns g f t new) eqn:E.
    + apply is_active_of_key in E as Hk. simpl in Hk. destruct Hk as (-> & -> & -> & ->).
      unfold rest. rewrite deactivated_none. unfold count. simpl. rewrite E. simpl. lia.
    + unfold count at 2. simpl. rewrite E. simpl. lia.
Qed.

Lemma one_release d ns g f n : db_wf d -> (count (of_release ns g f n) (tbl d) <= 1)%nat.
Proof.
  intros Hd. eapply distinct_unique; [by apply tbl_distinct|]. intros r s Hr Hs.
  unfold of_release, of_file in *. booleans. rewrite !str_eq_true in *.
  unfold clash. simpl. unfold clash_config_file_release. apply orb_true_iff. right.
  rewrite !andb_true_iff, !str_eq_true. intuition congruence.
Qed.

Lemma activated_ok x now d d' : releases_ok d -> activated x now d d' -> releases_ok d'.
Proof.
  intros Hd (rest & v & Hrest & _ & _ & ->).
  assert (releases_ok (set_tbl rest d)) as (Hwf & Hid & Hc).
  { rewrite Hrest. by apply releases_ok_change. }
  rewrite <- (set_set _ rest d), <- (tbl_set rest d) at 1. split; [|split].
  - apply set_tbl_wf; [done|]. by apply same_keys_distinct, tbl_distinct.
  - rewrite tbl_set. intros r (y & Hy & ->)%elem_of_change. rewrite !seq_set_tbl in *.
    specialize (Hid y Hy). by destruct (of_release _ _ _ _ y).
  - intros ns g f t. rewrite !tbl_set in *. specialize (Hc ns g f t).
    etrans; [apply count_one_of|].
    set (q := of_release (Namespace x) (Group x) (FileName x) (Name x)).
    destruct (decide (ns = Namespace x /\ g = Group x /\ f = FileName x /\ t = ReleaseType x))
      as [(-> & -> & -> & ->)|Hne].
    + rewrite Hrest at 1. rewrite deactivated_none. etrans; [|exact (one_release _ (Namespace x) (Group x)
        (FileName x) (Name x) Hwf)]. rewrite tbl_set. fold q. simpl. unfold count.
      clear. induction rest as [|r l IH]; simpl; [lia|]. destruct (q r); simpl; [|lia].
      destruct (is_active_of _ _ _ _ _); simpl; lia.
    + assert (count (fun r => q r && is_active_of ns g f t (set_activated v (ReleaseType x) now r)) rest = O) as ->; [|lia].
      unfold count. apply length_zero_iff_nil, keep_nil_iff. intros r _. apply not_true_iff_false.
      rewrite andb_true_iff. intros [Hq (-> & -> & -> & ->)%is_active_of_key]. apply Hne.
      unfold q, of_release, of_file in Hq. booleans. rewrite !str_eq_true in *. done.
Qed.

#[export] Instance create_ok x : Preserves releases_ok (p_create x).
Proof. intros now d a d' Hd Hp%p_create_Ok. by eapply created_ok. Qed.

#[export] Instance activate_ok x : Preserves releases_ok (p_activate x).
Proof. intros now d a d' Hd Hp%p_activate_Ok. by eapply activated_ok. Qed.
(** *** The store as a transition system *)

Inductive release_op :=
| OpCreate (data : ConfigFileRelease)
| OpDelete (key : ConfigFileReleaseKey)
| OpClean (namespace group fileName : string)
| OpActive (release : ConfigFileRelease)
| OpInactive (release : ConfigFileRelease).

Definition run_op (op : release_op) : M database unit :=
  match op with
  | OpCreate data => CreateConfigFileReleaseTx (Some tt) data
  | OpDelete key => DeleteConfigFileReleaseTx (Some tt) key
  | OpClean namespace group fileName => CleanConfigFileReleasesTx (Some tt) namespace group fileName
  | OpActive release => ActiveConfigFileReleaseTx (Some tt) release
  | OpInactive release => InactiveConfigFileReleaseTx (Some tt) release
  end.

(** Contents reached from an empty table, each operation in a transaction
    opened for it, with whatever faults and whatever outcome. *)
Inductive release_reachable : database -> Prop :=
| release_start d : db_wf d -> tbl (R:=config_file_release_row) d = [] -> release_reachable d
| release_step op c r c' : release_reachable (committed c) -> txst c = TxOpen ->
    work c = committed c -> run_op op c = (r, c') -> release_reachable (committed c')
| release_expire endTime limit c r c' : release_reachable (committed c) ->
    CleanDeletedConfigFileRelease endTime limit c = (r, c') -> release_reachable (committed c').

Lemma expire_sub n p l : (forall r, r ∈ expire n p l -> r ∈ l) /\
  (forall q, (count q (expire n p l) <= count q l)%nat) /\
  (distinct clash l = true -> distinct clash (expire n p l) = true).
Proof.
  revert n. induction l as [|x l IH]; intros [|n]; [by split_and!|by split_and!|by split_and!|].
  simpl. destruct (p x).
  - destruct (IH n) as (Hi & Hc & Hd). split_and!.
    + intros r Hr. right. auto.
    + intros q. specialize (Hc q). unfold count in *. simpl. destruct (q x); simpl; lia.
    + rewrite andb_true_iff. intros [_ ?]. auto.
  - destruct (IH (S n)) as (Hi & Hc & Hd). split_and!.
    + intros r [->|Hr]%elem_of_cons; [by left|right; auto].
    + intros q. specialize (Hc q). unfold count in *. simpl. destruct (q x); simpl in *; lia.
    + intros Hx. apply andb_true_iff in Hx as [Hx Hl].
      change (distinct clash (x :: expire (S n) p l) = true). apply distinct_cons. split; [|auto].
      intros y Hy. rewrite forallb_forall in Hx. apply negb_true_iff, Hx, list_elem_of_In. auto.
Qed.

(** C18: in every reachable content each file has at most one active release
    of each type, ids stay below their sequence and the unique keys hold:
    creation, activation, deactivation, deletion and expiry all preserve
    this, whether they succeed, fail or lose the reply of their commit. *)
Theorem release_reachable_ok d : release_reachable d -> releases_ok d.
Proof.
  induction 1 as [d Hd Ht|op c r c' _ IH Ho Hw Hr|endTime limit c r c' _ IH Hr].
  - split; [done|]. rewrite Ht. split; [by intros r ?%elem_of_nil|]. intros. unfold count. simpl. lia.
  - destruct op; simpl in Hr.
    + apply (finish_keeps releases_ok (create_release data) _ _ _ _ Ho Hw IH Hr).
    + apply (finish_keeps releases_ok (mark_deleted _) _ _ _ _ Ho Hw IH Hr).
    + apply (finish_keeps releases_ok (mark_deleted _) _ _ _ _ Ho Hw IH Hr).
    + apply (finish_keeps releases_ok (activate release) _ _ _ _ Ho Hw IH Hr).
    + apply (finish_keeps releases_ok (map_err store_Error (void (tx_Exec (sql_update _ (set_active 0)))))
        _ _ _ _ Ho Hw IH Hr).
  - unfold CleanDeletedConfigFileRelease, void in Hr. revert IH.
    assert (exists r1, Exec (fun (_ : Z) (d : database) => _ <-? uint64_arg limit ;;
      Ok (tt, set_tbl (expire (Z.to_nat limit)
        (fun r => (cfr_modify_time r <? endTime) && (cfr_flag r =? 1)) (tbl d)) d)) c = (r1, c')) as [r1 Hr1].
    { unfold Bind, Ret in Hr. destruct (Exec _ c) as [[u|e|w] c1]; simplify_eq; eauto. }
    intros IH. apply refines_Exec in Hr1 as [Hr1 _].
    eapply (retried_outcome_inv releases_ok); [|exact IH|exact Hr1].
    intros now x a y (Hwf & Hid & Hc) Hy. apply res_bind_Ok in Hy as (u & _ & Hy). simplify_eq.
    edestruct (expire_sub (Z.to_nat limit)) as (Hi & Hle & Hd). split; [|split].
    + apply set_tbl_wf; [done|]. by apply Hd, tbl_distinct.
    + rewrite tbl_set. intros r0 Hr0. apply (Hid r0). by eapply Hi.
    + intros. rewrite tbl_set. etrans; [apply Hle|apply Hc].
Qed.

(** *** Creating and activating *)

(** C19: [CreateConfigFileReleaseTx] in an open transaction: after success (or a
    lost commit reply) the content is the transaction's with the file's
    releases of that type deactivated and the new row added, active and with
    a version above all others of the file; otherwise the committed content
    is untouched. *)
Theorem CreateConfigFileReleaseTx_correct x c r c' :
  txst c = TxOpen -> CreateConfigFileReleaseTx (Some tt) x c = (r, c') ->
  replica c' = replica c /\
  (r = Ok tt -> created x (tx_now c) (work c) (committed c')) /\
  (committed c' = committed c \/ created x (tx_now c) (work c) (committed c')) /\
  (created x (tx_now c) (work c) (committed c') ->
     exists rest new, tbl (committed c') = rest ++ [new] /\ cfr_active new = 1 /\
       cfr_name new = Name x /\ cfr_content new = Content x /\
       forall old, old ∈ rest -> of_file (Namespace x) (Group x) (FileName x) old = true ->
         cfr_version old < cfr_version new /\ (cfr_release_type old = ReleaseType x -> cfr_active old <> 1)).
Proof.
  intros Ho Hr. destruct (finish_spec (create_release x) _ _ _ _ Ho Hr) as (Hf & Hre & _).
  split; [done|]. split; [intros ->; by eapply p_create_Ok|]. split.
  { destruct r as [a|e|w]; simpl in Hf; [right; by eapply p_create_Ok|destruct Hf as [->|[a Hf]];
      [by left|right; by eapply p_create_Ok]|by left]. }
  intros (rest & v & Hrest & Hv & _ & -> & _). rewrite tbl_set. eexists _, _.
  split_and!; [done..|]. intros old Hold Hfile. split.
  - simpl. rewrite Hv.
    assert (cfr_version old <= max_version (keep (of_file (Namespace x) (Group x) (FileName x)) rest)); [|lia].
    apply max_version_le, elem_of_keep. done.
  - intros Hty Hact. pose proof (deactivated_none x (tx_now c) (keep (fun r => negb (dead_release x r)) (tbl (work c)))) as Hn.
    rewrite <- Hrest in Hn. apply length_zero_iff_nil in Hn. rewrite keep_nil_iff in Hn. specialize (Hn old Hold).
    unfold is_active_of in Hn. by rewrite Hfile, Hact, Hty, str_eq_refl in Hn.
Qed.

(** C21: [ActiveConfigFileReleaseTx] likewise makes the named release the only
    active one of its type, with a version above all others of the file. *)
Theorem ActiveConfigFileReleaseTx_correct x c r c' :
  txst c = TxOpen -> ActiveConfigFileReleaseTx (Some tt) x c = (r, c') ->
  replica c' = replica c /\
  (r = Ok tt -> activated x (tx_now c) (work c) (committed c')) /\
  (committed c' = committed c \/ activated x (tx_now c) (work c) (committed c')) /\
  (activated x (tx_now c) (work c) (committed c') ->
     forall new old, new ∈ tbl (committed c') -> old ∈ tbl (committed c') ->
       of_release (Namespace x) (Group x) (FileName x) (Name x) new = true ->
       of_file (Namespace x) (Group x) (FileName x) old = true -> cfr_name old <> Name x ->
       cfr_active new = 1 /\ cfr_release_type new = ReleaseType x /\
       cfr_version old < cfr_version new /\ (cfr_release_type old = ReleaseType x -> cfr_active old <> 1)).
Proof.
  intros Ho Hr. destruct (finish_spec (activate x) _ _ _ _ Ho Hr) as (Hf & Hre & _).
  split; [done|]. split; [intros ->; by eapply p_activate_Ok|]. split.
  { destruct r as [a|e|w]; simpl in Hf; [right; by eapply p_activate_Ok|destruct Hf as [->|[a Hf]];
      [by left|right; by eapply p_activate_Ok]|by left]. }
  intros (rest & v & Hrest & Hv & _ & ->). rewrite tbl_set.
  intros new old (n0 & Hn0 & ->)%elem_of_change (o0 & Ho0 & ->)%elem_of_change Hnew Hfile Hname.
  assert (of_release (Namespace x) (Group x) (FileName x) (Name x) o0 = false) as Eo.
  { destruct (of_release _ _ _ _ o0) eqn:E; [|done]. exfalso. apply Hname.
    unfold of_release in E. booleans. rewrite str_eq_true in *. done. }
  rewrite Eo in *.
  destruct (of_release _ _ _ _ n0) eqn:En; [|by rewrite Hnew in En]. split_and!; [done..| |].
  - simpl. rewrite Hv.
    assert (cfr_version o0 <= max_version (keep (of_file (Namespace x) (Group x) (FileName x)) rest)); [|lia].
    apply max_version_le, elem_of_keep. done.
  - intros Hty Hact. pose proof (deactivated_none x (tx_now c) (tbl (work c))) as Hn.
    rewrite <- Hrest in Hn. apply length_zero_iff_nil in Hn. rewrite keep_nil_iff in Hn. specialize (Hn o0 Ho0).
    unfold is_active_of in Hn. by rewrite Hfile, Hact, Hty, str_eq_refl in Hn.
Qed.
(** *** Reading *)

Lemma scan_new_release id v x now : 0 <= now < 4000000000000000 ->
  Unmarshal_map (MustJson_map (Metadata x)) = Ok (Metadata x) ->
  scan_release (new_release_row id v x now) =
    Ok (mkConfigFileRelease id (Name x) (Namespace x) (Group x) (FileName x) (Content x) (Comment x)
          (Md5 x) v (unix_seconds now) (CreateBy x) (unix_seconds now) (ModifyBy x) 0 true true
          (Metadata x) (ReleaseDescription x) (ReleaseType x)).
Proof.
  intros Hn Hj. unfold scan_release. cbn -[epoch_text].
  rewrite ParseFloat_epoch by done. by rewrite Hj.
Qed.

(** C20: a full release that was created is the one
    [GetConfigFileActiveRelease] returns, with every field, the metadata,
    valid, active and stamped with the transaction's time to the second
    (clock between 1970 and 2096, JSON round trip). *)
Theorem Create_GetActiveRelease x c c1 :
  reliable -> txst c = TxOpen -> 0 <= tx_now c < 4000000000000000 ->
  Unmarshal_map (MustJson_map (Metadata x)) = Ok (Metadata x) -> ReleaseType x = ReleaseTypeFull ->
  CreateConfigFileReleaseTx (Some tt) x c = (Ok tt, c1) ->
  exists id v, fst (GetConfigFileActiveRelease (mkConfigFileKey (Namespace x) (Group x) (FileName x)) c1) =
    Ok (Some (mkConfigFileRelease id (Name x) (Namespace x) (Group x) (FileName x) (Content x) (Comment x)
          (Md5 x) v (unix_seconds (tx_now c)) (CreateBy x) (unix_seconds (tx_now c)) (ModifyBy x) 0 true true
          (Metadata x) (ReleaseDescription x) (ReleaseType x))).
Proof.
  intros Hrel Ho Hnow Hj Hfull Hr.
  destruct (finish_spec (create_release x) _ _ _ _ Ho Hr) as (Hf%p_create_Ok & _ & _).
  destruct Hf as (rest & v & Hrest & _ & _ & Hd & _). exists (config_file_release_id_seq (work c)), v.
  set (new := new_release_row _ v x (tx_now c)) in Hd.
  assert (sql_select (active_where (mkConfigFileKey (Namespace x) (Group x) (FileName x)) ReleaseTypeFull)
            (committed c1) = [new]) as Hsel.
  { unfold sql_select. rewrite Hd, tbl_set, keep_app.
    replace (keep _ rest) with (@nil config_file_release_row).
    - simpl. unfold active_where, of_file. simpl. by rewrite Hfull, !str_eq_refl.
    - symmetry. apply keep_nil_iff. intros r Hrr.
      pose proof (deactivated_none x (tx_now c) (keep (fun r => negb (dead_release x r)) (tbl (work c)))) as Hn.
      rewrite <- Hrest in Hn. apply length_zero_iff_nil in Hn. rewrite keep_nil_iff in Hn.
      specialize (Hn r Hrr). rewrite Hfull in Hn. unfold active_where. simpl. unfold is_active_of in Hn.
      by rewrite Hn. }
  unfold GetConfigFileActiveRelease, reading, map_err, Bind at 1.
  rewrite Begin_reliable by done. set (c2 := tick (open_tx (current_timestamp c1) c1)).
  unfold defer_rollback, GetConfigFileActiveReleaseTx, active_release, with_tx.
  unfold Bind at 1. erewrite tx_Query_reliable; [|done|done|exact (f_equal Ok Hsel)].
  unfold Bind at 1, lift, transferRows.
  erewrite fetch_rows_Ok; [|constructor; [by apply scan_new_release|constructor]]. done.
Qed.

(** [CleanDeletedConfigFileRelease] only ever removes expired rows marked
    deleted; without faults it removes at most [limit] of them. *)
Theorem CleanDeletedConfigFileRelease_correct endTime limit c r c' :
  CleanDeletedConfigFileRelease endTime limit c = (r, c') ->
  let gone x := (cfr_modify_time x <? endTime) && (cfr_flag x =? 1) in
  replica c' = replica c /\
  keep (fun x => negb (gone x)) (tbl (committed c')) = keep (fun x => negb (gone x)) (tbl (committed c)) /\
  (reliable -> 0 <= limit < 2 ^ 63 -> r = Ok tt /\
     Z.of_nat (length (tbl (R:=config_file_release_row) (committed c))) - limit <=
       Z.of_nat (length (tbl (R:=config_file_release_row) (committed c')))).
Proof.
  intros Hr gone. unfold CleanDeletedConfigFileRelease, void in Hr. fold gone in Hr.
  set (p := fun (_ : Z) (d : database) => _ <-? uint64_arg limit ;;
    Ok (tt, set_tbl (expire (Z.to_nat limit) gone (tbl d)) d)) in Hr.
  assert (forall n l, keep (fun x => negb (gone x)) (expire n gone l) = keep (fun x => negb (gone x)) l /\
    (length l - n <= length (expire n gone l))%nat) as Hex.
  { intros n l. revert n. induction l as [|x l IH]; intros [|n]; [by split..|]. simpl.
    destruct (gone x) eqn:E; simpl; rewrite ?E; simpl.
    - destruct (IH n). split; [done|lia].
    - destruct (IH (S n)) as [-> ?]. split; [done|lia]. }
  assert (exists r1, Exec p c = (r1, c')) as [r1 Hr1].
  { unfold Bind, Ret in Hr. destruct (Exec p c) as [[u|e|w] c1]; simplify_eq; eauto. }
  pose proof (refines_Exec p _ _ _ Hr1) as [Ho Hre]. split; [done|]. split.
  - eapply (retried_outcome_inv (fun d => keep (fun x => negb (gone x)) (tbl d) =
      keep (fun x => negb (gone x)) (tbl (committed c)))); [|done|exact Ho].
    intros now x a y Hx (u & _ & Hy)%res_bind_Ok. simplify_eq. rewrite tbl_set.
    by rewrite (proj1 (Hex _ _)).
  - intros Hrel Hl. unfold Bind, Ret in Hr. rewrite (Exec_reliable p c tt (set_tbl
      (expire (Z.to_nat limit) gone (tbl (committed c))) (committed c))) in Hr; [|done|].
    2:{ unfold p, uint64_arg. by rewrite (proj2 (Z.ltb_lt limit (2^63))) by lia. }
    simplify_eq. split; [done|]. simpl. rewrite tbl_set.
    destruct (Hex (Z.to_nat limit) (tbl (committed c))) as [_ Hlen]. lia.
Qed.
End release_properties.
