(* ===== verification/Gray.v ===== *)
(** * Gray resources (store/postgresql/gray_resouce.go)

    [grayStore]: match rules by name, written with an upsert in the
    transaction of the caller, marked deleted, read incrementally from the
    replica, and deleted for good by a statement outside that transaction. *)
From stdpp Require Import base list strings.
From Stdlib Require Import ZArith Lia.
From S2P Require Import Prelude Driver Rows Schema Common.
Open Scope Z_scope.
Open Scope store_scope.

(** [model.GrayResource]; times in seconds. *)
Record GrayResource := mkGrayResource {
  Name : string; MatchRule : string; CreateTime : Z; ModifyTime : Z; CreateBy : string;
  ModifyBy : string; Valid : bool }.

Section gray.
Context `{Env} `{PolarisApi} `{Strconv}.
Abbreviation M := (M database).
Abbreviation P := (P database).

Definition named (name : string) (r : gray_resource_row) : bool := str_eq (gry_name r) name.

(** INSERT ... ON CONFLICT (name) DO UPDATE: the flag is only set (to its
    default) when the row is new. *)
Definition new_gray (data : GrayResource) (now : Z) : gray_resource_row :=
  GrayResourceRow (Name data) (MatchRule data) now (Some (CreateBy data)) now (Some (ModifyBy data)) (Some 0).

Definition set_gray (data : GrayResource) (now : Z) (r : gray_resource_row) : gray_resource_row :=
  GrayResourceRow (gry_name r) (MatchRule data) now (Some (CreateBy data)) now (Some (ModifyBy data)) (gry_flag r).

Definition upsert_gray (data : GrayResource) : P unit := fun now d =>
  if existsb (named (Name data)) (tbl d)
  then p_void (sql_update (named (Name data)) (set_gray data)) now d
  else p_void (sql_insert (fun now => [new_gray data now])) now d.

(** [CreateGrayResourceTx]: the error of the statement is shadowed. *)
Definition CreateGrayResourceTx (tx : option unit) (data : GrayResource) : M unit :=
  with_tx tx (map_err store_Error (tx_Exec (upsert_gray data)) ;;; commit_tx).

(** [CleanGrayResource] *)
Definition mark_gray (now : Z) (r : gray_resource_row) : gray_resource_row :=
  GrayResourceRow (gry_name r) (gry_match_rule r) (gry_create_time r) (gry_create_by r) now
    (gry_modify_by r) (Some 1).

Definition CleanGrayResource (tx : option unit) (data : GrayResource) : M unit :=
  with_tx tx (map_err store_Error (void (tx_Exec (sql_update (named (Name data)) mark_gray))) ;;; commit_tx).

(** [fetchGrayResourceRows]: the timestamps are scanned into strings and read
    back with [ParseFloat]; a null flag cannot be scanned. *)
Definition scan_gray (r : gray_resource_row) : res GrayResource :=
  match gry_flag r with
  | None => Err (EMsg "sql: Scan error: converting NULL to int64 is unsupported")
  | Some valid =>
  match ParseFloat (RFC3339Nano (gry_create_time r)) with
  | Err e => Err (errorf "failed to parse create_time" e)
  | Panic w => Panic w
  | Ok ctime =>
  match ParseFloat (RFC3339Nano (gry_modify_time r)) with
  | Err e => Err (errorf "failed to parse modify_time" e)
  | Panic w => Panic w
  | Ok mtime =>
      Ok (mkGrayResource (gry_name r) (gry_match_rule r) ctime mtime (default "" (gry_create_by r))
            (default "" (gry_modify_by r)) (valid =? 0))
  end end end.

Definition fetchGrayResourceRows (rs : rows gray_resource_row) : res (list GrayResource) :=
  fetch_rows scan_gray rs.

(** [GetMoreGrayResouces]: the column, without zone, is compared with an
    instant in the zone of the session. *)
Definition changed_since (modifyTime : Z) (firstUpdate : bool) (r : gray_resource_row) : bool :=
  (timeToTimestamp (unix_seconds modifyTime) * 1000000 <? gry_modify_time r - session_tz) &&
  (negb firstUpdate || bool_decide (gry_flag r = Some 0)).

Definition GetMoreGrayResouces (firstUpdate : bool) (modifyTime : Z) : M (list GrayResource) :=
  let modifyTime := if firstUpdate then zero_time else modifyTime in
  rs <- Query replica (fun _ d => Ok (sql_select (changed_since modifyTime firstUpdate) d)) ;;
  lift (fetchGrayResourceRows rs).

(** [DeleteGrayResource] does not use the transaction it is given. *)
Definition DeleteGrayResource (tx : option unit) (data : GrayResource) : M unit :=
  map_err store_Error (void (Exec (sql_delete (named (Name data))))).
End gray.

(** ** Properties *)

Section gray_properties.
Context `{Env} `{PolarisApi} `{Strconv}.
Implicit Types c : conn database.

Definition grays (name : string) (d : database) : list gray_resource_row := sql_select (named name) d.

(** The rows of one name after an upsert: the new rule, the old flag. *)
Definition upserted (x : GrayResource) (now : Z) (d d' : database) : Prop :=
  d' = set_tbl (tbl (R:=gray_resource_row) d') d /\
  keep (fun r => negb (named (Name x) r)) (tbl d') = keep (fun r => negb (named (Name x) r)) (tbl d) /\
  grays (Name x) d' = match grays (Name x) d with
                      | [] => [new_gray x now]
                      | old => map (set_gray x now) old
                      end.

Lemma change_named_rows name (f : gray_resource_row -> gray_resource_row) l :
  (forall r, gry_name (f r) = gry_name r) ->
  keep (named name) (change (named name) f l) = map f (keep (named name) l) /\
  keep (fun r => negb (named name r)) (change (named name) f l) = keep (fun r => negb (named name r)) l.
Proof.
  intros Hf. unfold change, named. induction l as [|r l [IH1 IH2]]; [done|]. simpl.
  destruct (str_eq (gry_name r) name) eqn:E; simpl; rewrite ?Hf, E; simpl; split; congruence.
Qed.

Lemma upsert_Ok x now d u d' : upsert_gray x now d = Ok (u, d') -> upserted x now d d'.
Proof.
  unfold upsert_gray, upserted, grays, sql_select. destruct (existsb _ _) eqn:E.
  - intros (k & [-> _]%update_Ok_inv)%p_void_Ok. rewrite !tbl_set.
    destruct (change_named_rows (Name x) (set_gray x now) (tbl d)) as [-> ->]; [done|].
    split_and!; [done..|]. destruct (keep _ _) eqn:Ek; [|done]. rewrite keep_nil_iff in Ek.
    apply existsb_exists in E as (r & Hr & Hn). by rewrite Ek in Hn by (by apply list_elem_of_In).
  - intros (k & [-> _]%insert_Ok_inv)%p_void_Ok. rewrite !tbl_set, !keep_app.
    assert (named (Name x) (new_gray x now) = true) as Hn by apply str_eq_refl. cbn [keep].
    rewrite Hn. simpl. rewrite app_nil_r.
    assert (keep (named (Name x)) (tbl d) = []) as ->; [|by split_and!].
    apply keep_nil_iff. intros r Hr. apply not_true_iff_false. intros Hnr.
    apply not_true_iff_false in E. apply E, existsb_exists. exists r.
    split; [by apply list_elem_of_In|done].
Qed.

#[export] Instance impl_upsert x : Implements (map_err store_Error (tx_Exec (upsert_gray x)))
  (p_map_err store_Error (upsert_gray x)).
Proof. apply _. Qed.

(** [CreateGrayResourceTx] in an open transaction leaves, after success or a
    lost commit reply, one row per old row of that name (or a new one) with
    the given rule and authors, and all other rows as they were.  The flag of
    an existing row stays: a resource that was cleaned remains deleted. *)
Theorem CreateGrayResourceTx_correct x c r c' :
  txst c = TxOpen -> CreateGrayResourceTx (Some tt) x c = (r, c') ->
  replica c' = replica c /\
  (r = Ok tt -> upserted x (tx_now c) (work c) (committed c')) /\
  (committed c' = committed c \/ upserted x (tx_now c) (work c) (committed c')) /\
  (forall old, r = Ok tt -> old ∈ grays (Name x) (work c) -> gry_flag old = Some 1 ->
     exists new, new ∈ grays (Name x) (committed c') /\ gry_match_rule new = MatchRule x /\
       gry_flag new = Some 1).
Proof.
  intros Ho Hr. destruct (finish_spec (map_err store_Error (tx_Exec (upsert_gray x))) _ _ _ _ Ho Hr) as (Hf & Hre & _).
  assert (forall d', p_map_err store_Error (upsert_gray x) (tx_now c) (work c) = Ok (tt, d') ->
    upserted x (tx_now c) (work c) d') as Hup by (intros d' Hd%p_map_err_Ok; by eapply upsert_Ok).
  split; [done|]. split; [intros ->; by apply Hup|]. split.
  { destruct r as [[]|e|w]; simpl in Hf; [right; auto|destruct Hf as [->|[[] Hf]]; auto|auto]. }
  intros old -> Hold Hflag. destruct (Hup _ Hf) as (_ & _ & Hg). rewrite Hg.
  destruct (grays (Name x) (work c)) as [|o l] eqn:E; [by apply elem_of_nil in Hold|].
  exists (set_gray x (tx_now c) old). split_and!; [|done|done].
  change (map (set_gray x (tx_now c)) (o :: l)) with (set_gray x (tx_now c) <$> (o :: l)).
  apply list_elem_of_fmap. eauto.
Qed.

Lemma scan_gray_fails r : is_Ok (scan_gray r) = false.
Proof.
  unfold scan_gray. destruct (gry_flag r); [|done].
  destruct (ParseFloat_colon _ (RFC3339Nano_colon (gry_create_time r))) as [msg ->]. done.
Qed.

(** [GetMoreGrayResouces] never returns a resource: one row that changed
    makes the call fail in [ParseFloat], and it succeeds only when there is
    none. *)
Theorem GetMoreGrayResouces_fails firstUpdate modifyTime c l c' :
  GetMoreGrayResouces firstUpdate modifyTime c = (Ok l, c') ->
  l = [] /\ sql_select (changed_since (if firstUpdate then zero_time else modifyTime) firstUpdate)
              (replica c) = [].
Proof.
  unfold GetMoreGrayResouces. intros Hr.
  apply Query_fetch_Ok in Hr as (_ & now & rs & Hl & Hf); [|apply _|apply fetch_rows_err_checking].
  injection Hl as <-. unfold fetchGrayResourceRows, fetch_rows in Hf. simpl in Hf.
  apply res_bind_Ok in Hf as (out & Hf & [= ->]).
  destruct (sql_select _ _) as [|r rs]; simpl in Hf; [by simplify_eq|].
  pose proof (scan_gray_fails r) as Hx. by destruct (scan_gray r).
Qed.

(** [DeleteGrayResource] deletes at once, outside the transaction it is
    given: rolling that transaction back does not bring the row back. *)
Theorem DeleteGrayResource_not_undone tx x c c1 :
  DeleteGrayResource tx x c = (Ok tt, c1) ->
  grays (Name x) (committed (snd (Rollback c1))) = [] /\
  keep (fun r => negb (named (Name x) r)) (tbl (committed (snd (Rollback c1)))) =
    keep (fun r => negb (named (Name x) r)) (tbl (committed c)).
Proof.
  destruct (Rollback_frame c1) as (-> & _). unfold DeleteGrayResource, map_err, void, Bind, Ret.
  destruct (Exec _ c) as [[n|e|w] c2] eqn:E; intros; simplify_eq.
  apply refines_Exec in E as [(d1 & now & Hs & Hp)%retried_outcome_Ok _].
  unfold sql_delete in Hp. injection Hp as _ <-. unfold grays, sql_select. rewrite tbl_set, !keep_keep.
  split.
  - apply keep_nil_iff. intros r _. by destruct (named (Name x) r).
  - transitivity (keep (fun r => negb (named (Name x) r)) (tbl d1)).
    { apply keep_ext. intros r _. apply andb_diag. }
    eapply (rtc_commits_inv (fun d => keep (fun r => negb (named (Name x) r)) (tbl d) =
      keep (fun r => negb (named (Name x) r)) (tbl (committed c)))); [|done|exact Hs].
    intros n0 a b y Ha [= _ <-]. rewrite tbl_set, keep_keep, <- Ha. apply keep_ext.
    intros r _. apply andb_diag.
Qed.
End gray_properties.
