(* ===== verification/Store.v ===== *)
(** * The store object (store/postgresql/default.go, openDatabase of base_db.go)

    [PostgresqlStore]: parsing of its configuration, the life cycle
    [Initialize] / [Destroy] with the database handles it opens and closes,
    and the transactions it starts.  Whether a database can be opened is the
    environment's choice. *)
From stdpp Require Import base list strings pretty gmap.
From Stdlib Require Import ZArith Lia.
From S2P Require Import Prelude Driver Rows Schema Common LeaderElection.
Open Scope Z_scope.
Open Scope store_scope.

(** ** Configuration *)

Definition STORENAME : string := "postgresqlStore".
Definition DefaultConnMaxLifetime : Z := 60 * 30.

(** The Go values a configuration file yields; [VOther] is any other value,
    given by what [%v] prints for it. *)
Inductive scalar := VStr (s : string) | VInt (n : Z) | VOther (printed : string).

Definition Sprintf_v (v : scalar) : string :=
  match v with VStr s => s | VInt n => pretty n | VOther p => p end.

(** The entry of a database: a map, [nil], or something else. *)
Inductive entry := EMap (m : gmap string scalar) | ENil | EOther.

Record dbConfig := mkDbConfig {
  dbType : string; dbUser : string; dbPwd : string; dbAddr : string; dbPort : string; dbName : string;
  maxOpenConns : Z; maxIdleConns : Z; connMaxLifetime : Z }.

Definition set_dbPwd (pwd : string) (c : dbConfig) : dbConfig :=
  mkDbConfig (dbType c) (dbUser c) pwd (dbAddr c) (dbPort c) (dbName c) (maxOpenConns c)
    (maxIdleConns c) (connMaxLifetime c).

Definition needCheckFields : list string := ["dbType"; "dbUser"; "dbPwd"; "dbAddr"; "dbPort"; "dbName"]%string.

Definition missing_field (key : string) : error :=
  EMsg ("config Plugin " +:+ STORENAME +:+ ":" +:+ key +:+ " type must be string").

(** The loop over the fields, in the order [range] gives them. *)
Fixpoint check_fields (order : list string) (obj : gmap string scalar) (got : gmap string string) :
    res (gmap string string) :=
  match order with
  | [] => Ok got
  | key :: order' =>
      match obj !! key with
      | None => Err (missing_field key)
      | Some val => check_fields order' obj (<[key := Sprintf_v val]> got)
      end
  end.

Definition positive_int (obj : gmap string scalar) (key : string) (default_ : Z) : Z :=
  match obj !! key with
  | Some (VInt n) => if 0 <? n then n else default_
  | _ => default_
  end.

(** [parseStoreConfig] *)
Definition parseStoreConfig (order : list string) (opts : entry) : res dbConfig :=
  let obj := match opts with EMap m => m | _ => ∅ end in
  got <-? check_fields order obj ∅ ;;
  let field key := default "" (got !! key) in
  Ok (mkDbConfig (field "dbType") (field "dbUser") (field "dbPwd") (field "dbAddr") (field "dbPort")
        (field "dbName") (positive_int obj "maxOpenConns" 0) (positive_int obj "maxIdleConns" 0)
        (positive_int obj "connMaxLifetime" DefaultConnMaxLifetime))%string.

(** [parseDatabaseConf] *)
Definition parseDatabaseConf (order : list string) (opt : gmap string entry) :
    res (dbConfig * option dbConfig) :=
  match opt !! "master"%string with
  | None | Some ENil => Err (EMsg "database master db config is missing")
  | Some masterEnter =>
      masterConfig <-? parseStoreConfig order masterEnter ;;
      match opt !! "slave"%string with
      | None | Some ENil => Ok (masterConfig, None)
      | Some slaveEntry =>
          slaveConfig <-? parseStoreConfig order slaveEntry ;;
          Ok (masterConfig, Some slaveConfig)
      end
  end.

(** ** Opening databases *)

(** What happens to the n-th handle asked for. *)
Inductive open_outcome :=
| OpenFails (e : error)     (* sql.Open fails *)
| PingFails (e : error)     (* sql.Open gave a handle, the server does not answer *)
| Opens.

(** [BaseDB]: its handle, and the pool settings that were made. *)
Record BaseDB := mkBaseDB {
  handle : nat; cfg : dbConfig; MaxOpenConns : option Z; MaxIdleConns : option Z; ConnMaxLifetime : option Z }.

(** Handles of [sql.DB]: the next number, and those opened and not closed. *)
Record handles := mkHandles { next : nat; live : list nat }.

Definition dns (c : dbConfig) : string :=
  "host=" +:+ dbAddr c +:+ " port=" +:+ dbPort c +:+ " user=" +:+ dbUser c +:+ " password=" +:+ dbPwd c
  +:+ " dbname=" +:+ dbName c +:+ " sslmode=disable".

Definition if_positive (n : Z) : option Z := if 0 <? n then Some n else None.

Section store.
Context (outcome : nat -> string -> string -> open_outcome).  (* by attempt, driver and dns *)
Context (ParsePassword : option (string -> res string)).      (* the plugin, if any *)

(** [NewBaseDB], [openDatabase]: a handle that does not answer is not closed. *)
Definition openDatabase (c : dbConfig) (w : handles) : res BaseDB * handles :=
  let opened := mkHandles (S (next w)) (next w :: live w) in
  match outcome (next w) (dbType c) (dns c) with
  | OpenFails e => (Err e, mkHandles (S (next w)) (live w))
  | PingFails e => (Err e, opened)
  | Opens => (Ok (mkBaseDB (next w) c (if_positive (maxOpenConns c)) (if_positive (maxIdleConns c))
                    (if_positive (connMaxLifetime c))), opened)
  end.

Definition NewBaseDB (c : dbConfig) (w : handles) : res BaseDB * handles :=
  match ParsePassword with
  | None => openDatabase c w
  | Some parse =>
      match parse (dbPwd c) with
      | Ok pwd => openDatabase (set_dbPwd pwd c) w
      | Err e => (Err e, w)
      | Panic x => (Panic x, w)
      end
  end.

Definition Close (db : BaseDB) (w : handles) : handles :=
  mkHandles (next w) (filter (fun h => h <> handle db) (live w)).

(** ** Life cycle *)

(** [PostgresqlStore]: of the sub-stores, all built from master and slave,
    the one with state of its own is [adminStore]. *)
Record PostgresqlStore := mkStore {
  master : option BaseDB; slave : option BaseDB; start : bool; admin : option adminStore }.

Definition new_store : PostgresqlStore := mkStore None None false None.

(** [newStore] *)
Definition newStore (p : PostgresqlStore) : PostgresqlStore :=
  mkStore (master p) (slave p) (start p) (Some newAdminStore).

(** [Initialize] *)
Definition Initialize (order : list string) (opt : gmap string entry) (p : PostgresqlStore) (w : handles) :
    res unit * PostgresqlStore * handles :=
  if start p then (Ok tt, p, w)
  else match parseDatabaseConf order opt with
  | Err e => (Err e, p, w)
  | Panic x => (Panic x, p, w)
  | Ok (masterConfig, slaveConfig) =>
      match NewBaseDB masterConfig w with
      | (Err e, w) => (Err e, p, w)
      | (Panic x, w) => (Panic x, p, w)
      | (Ok m, w) =>
          let p := mkStore (Some m) (slave p) (start p) (admin p) in
          let ready p w := (Ok tt, newStore (mkStore (master p)
            (match slave p with Some s => Some s | None => master p end) true (admin p)), w) in
          match slaveConfig with
          | None => ready p w
          | Some slaveConfig =>
              match NewBaseDB slaveConfig w with
              | (Err e, w) => (Err e, p, w)
              | (Panic x, w) => (Panic x, p, w)
              | (Ok s, w) => ready (mkStore (master p) (Some s) (start p) (admin p)) w
              end
          end
      end
  end.

(** [Destroy] *)
Definition Destroy (p : PostgresqlStore) (w : handles) : res unit * PostgresqlStore * handles :=
  let w := match master p with Some m => Close m w | None => w end in
  let w := match slave p with Some s => Close s w | None => w end in
  (Ok tt, mkStore None None false (option_map StopLeaderElections (admin p)), w).
End store.

(** ** Transactions *)

Section transactions.
Context `{Env} `{PolarisApi}.

(** [StartTx] *)
Definition StartTx : M database unit := Begin.

(** [StartReadTx]: the transaction is one on the slave, so the calls it is
    handed to are run there as well ([on_slave]). *)
Definition StartReadTx : M database unit := on_slave Begin.

(** [buildEtimeStr]; [emptyEnableTime] is 1980-01-01 00:00:01. *)
Definition emptyEnableTime : Z := 315532801000000.

Definition buildEtimeStr (enable : bool) : M database Z :=
  now <- time_Now ;;
  Ret (if enable then GetCurrentTimeFormat now else emptyEnableTime).
End transactions.

(** ** Properties *)

Section config_properties.

Lemma check_fields_Ok order obj got : (forall k, k ∈ order -> is_Some (obj !! k)) ->
  exists out, check_fields order obj got = Ok out /\
    forall k, out !! k = if bool_decide (k ∈ order) then Sprintf_v <$> obj !! k else got !! k.
Proof.
  revert got. induction order as [|k order IH]; intros got Hall; [by exists got|]. simpl.
  destruct (Hall k ltac:(left)) as [v Hv]. rewrite Hv.
  destruct (IH (<[k := Sprintf_v v]> got)) as (out & Ho & Hl).
  { intros k' Hk'. apply Hall. by right. }
  exists out. split; [done|]. intros k'. rewrite Hl.
  destruct (decide (k' = k)) as [->|Hne].
  - rewrite lookup_insert_eq, Hv. rewrite (bool_decide_eq_true_2 (k ∈ k :: order)) by left.
    by case_bool_decide.
  - rewrite lookup_insert_ne by done.
    assert (bool_decide (k' ∈ k :: order) = bool_decide (k' ∈ order)) as ->; [|done].
    apply bool_decide_ext. rewrite elem_of_cons. naive_solver.
Qed.

Lemma check_fields_missing order obj got : (exists k, k ∈ order /\ obj !! k = None) ->
  exists k, k ∈ order /\ obj !! k = None /\ check_fields order obj got = Err (missing_field k).
Proof.
  revert got. induction order as [|k order IH]; intros got (k0 & Hk0 & Hn); [by apply elem_of_nil in Hk0|].
  simpl. destruct (obj !! k) as [v|] eqn:Hv.
  - destruct (IH (<[k := Sprintf_v v]> got)) as (k1 & Hk1 & Hn1 & He).
    { exists k0. split; [|done]. apply elem_of_cons in Hk0 as [->|]; [congruence|done]. }
    exists k1. split; [by right|done].
  - exists k. split; [left|done].
Qed.

Definition printed (obj : gmap string scalar) (key : string) : string :=
  default "" (Sprintf_v <$> obj !! key).

(** [parseStoreConfig] succeeds exactly when the six connection fields are
    present; each is then what [%v] prints, a pool setting counts only when it
    is a positive int, and the order in which the map is ranged over only
    decides which missing field is reported. *)
Theorem parseStoreConfig_correct order obj : order ≡ₚ needCheckFields ->
  ((forall k, k ∈ needCheckFields -> is_Some (obj !! k)) ->
     parseStoreConfig order (EMap obj) = Ok (mkDbConfig (printed obj "dbType") (printed obj "dbUser")
       (printed obj "dbPwd") (printed obj "dbAddr") (printed obj "dbPort") (printed obj "dbName")
       (positive_int obj "maxOpenConns" 0) (positive_int obj "maxIdleConns" 0)
       (positive_int obj "connMaxLifetime" 1800))) /\
  ((exists k, k ∈ needCheckFields /\ obj !! k = None) ->
     exists k, k ∈ needCheckFields /\ obj !! k = None /\
       parseStoreConfig order (EMap obj) = Err (missing_field k)).
Proof.
  intros Hp. split.
  - intros Hall. destruct (check_fields_Ok order obj ∅) as (out & Ho & Hl).
    { intros k. rewrite Hp. apply Hall. }
    unfold parseStoreConfig. rewrite Ho. simpl. rewrite !Hl. unfold printed.
    assert (forall k, bool_decide (k ∈ order) = bool_decide (k ∈ needCheckFields)) as He
      by (intros k; apply bool_decide_ext; by rewrite Hp).
    rewrite !He. reflexivity.
  - intros (k & Hk & Hn). destruct (check_fields_missing order obj ∅) as (k1 & Hk1 & Hn1 & He).
    { exists k. by rewrite Hp. }
    exists k1. rewrite <- Hp. split_and!; [done..|]. unfold parseStoreConfig. by rewrite He.
Qed.
End config_properties.

Section life_cycle.
Context (outcome : nat -> string -> string -> open_outcome).
Context (ParsePassword : option (string -> res string)).

(** Handles are numbered in the order they are opened. *)
Definition numbered (w : handles) : Prop := Forall (fun h => (h < next w)%nat) (live w).

Lemma NewBaseDB_Ok c w db w' : numbered w -> NewBaseDB outcome ParsePassword c w = (Ok db, w') ->
  handle db = next w /\ next w' = S (next w) /\ live w' = next w :: live w /\ numbered w'.
Proof.
  intros Hw. unfold NewBaseDB, openDatabase. intros Hr.
  assert (numbered (mkHandles (S (next w)) (next w :: live w))) as Hn.
  { constructor; [simpl; lia|]. eapply Forall_impl; [exact Hw|]. simpl. lia. }
  repeat (case_match; simplify_eq/=); done.
Qed.

Lemma NewBaseDB_numbered c w r w' : numbered w -> NewBaseDB outcome ParsePassword c w = (r, w') ->
  numbered w' /\ (next w <= next w')%nat /\ (forall h, h ∈ live w -> h ∈ live w').
Proof.
  intros Hw. unfold NewBaseDB, openDatabase. intros Hr.
  assert (forall l, Forall (fun h => (h < next w)%nat) l -> numbered (mkHandles (S (next w)) l)) as Hn.
  { intros l Hl. eapply Forall_impl; [exact Hl|]. simpl. lia. }
  assert (numbered (mkHandles (S (next w)) (next w :: live w))) as Hn'.
  { constructor; [simpl; lia|]. eapply Forall_impl; [exact Hw|]. simpl. lia. }
  repeat (case_match; simplify_eq/=); split_and!; try done; try lia; try (by apply Hn); intros; by right.
Qed.

Lemma filter_fresh (w : handles) n : numbered w -> (next w <= n)%nat ->
  filter (fun h => h <> n) (live w) = live w.
Proof.
  intros Hw Hn. induction Hw as [|h l Hh _ IH]; [done|]. rewrite filter_cons_True by lia. by rewrite IH.
Qed.

Lemma close_first (w : handles) n : numbered w -> (next w <= n)%nat ->
  filter (fun h => h <> n) (n :: live w) = live w.
Proof. intros Hw Hn. rewrite filter_cons_False by naive_solver. by apply filter_fresh. Qed.

Lemma close_second (w : handles) n k : numbered w -> (next w <= n)%nat -> k <> n ->
  filter (fun h => h <> n) (k :: n :: live w) = k :: live w.
Proof. intros Hw Hn Hk. rewrite filter_cons_True by done. by rewrite close_first. Qed.

(** A store that initialises is started, reads from the slave database or,
    without one, from the master, and initialising it again changes nothing;
    destroying it closes exactly the handles it had opened. *)
Theorem Initialize_Destroy order opt w p1 w1 p2 w2 :
  numbered w -> Initialize outcome ParsePassword order opt new_store w = (Ok tt, p1, w1) ->
  Destroy p1 w1 = (Ok tt, p2, w2) ->
  start p1 = true /\ (exists m s, master p1 = Some m /\ slave p1 = Some s /\
    handle m ∈ live w1 /\ handle s ∈ live w1) /\
  Initialize outcome ParsePassword order opt p1 w1 = (Ok tt, p1, w1) /\
  start p2 = false /\ master p2 = None /\ slave p2 = None /\ live w2 = live w.
Proof.
  intros Hw Hi Hd. unfold Initialize, new_store in Hi. simpl in Hi.
  destruct (parseDatabaseConf order opt) as [[mc sc]|e|x]; [|done..].
  destruct (NewBaseDB _ _ mc w) as [[m|e|x] w0] eqn:Em; [|done..].
  apply NewBaseDB_Ok in Em as (Hm & Hn0 & Hl0 & Hw0); [|done].
  destruct sc as [sc|].
  - destruct (NewBaseDB _ _ sc w0) as [[sl|e|x] w3] eqn:Es; [|done..].
    apply NewBaseDB_Ok in Es as (Hs & Hn1 & Hl1 & Hw1); [|done].
    injection Hi as <- <-. unfold Destroy in Hd. simpl in Hd. injection Hd as <- <-.
    split_and!; try done.
    + exists m, sl. split_and!; try done; rewrite Hl1, ?Hl0, ?Hm, ?Hs; set_solver.
    + simpl. rewrite Hl1, Hl0, Hm, Hs, Hn0.
      rewrite close_second by (done || lia). apply close_first; [done|lia].
  - injection Hi as <- <-. unfold Destroy in Hd. simpl in Hd. injection Hd as <- <-.
    split_and!; try done.
    + exists m, m. rewrite Hl0, Hm. split_and!; try done; set_solver.
    + simpl. rewrite Hl0, Hm, close_first by done. apply filter_fresh; [done|lia].
Qed.

(** When the slave database cannot be opened, [Initialize] fails but keeps
    the master handle; if a later attempt succeeds, that handle is forgotten
    and stays open even after [Destroy]. *)
Theorem Initialize_leaks order opt opt' w e p1 w1 m p2 w2 p3 w3 :
  numbered w -> Initialize outcome ParsePassword order opt new_store w = (Err e, p1, w1) ->
  master p1 = Some m ->
  Initialize outcome ParsePassword order opt' p1 w1 = (Ok tt, p2, w2) ->
  Destroy p2 w2 = (Ok tt, p3, w3) ->
  handle m ∈ live w3.
Proof.
  intros Hw Hi Hm Hi2 Hd. unfold Initialize, new_store in Hi. simpl in Hi.
  destruct (parseDatabaseConf order opt) as [[mc sc]|e1|x]; [|by simplify_eq..].
  destruct (NewBaseDB _ _ mc w) as [[m1|e1|x] w0] eqn:Em; [|by simplify_eq..].
  apply NewBaseDB_Ok in Em as (Hh & Hn0 & Hl0 & Hw0); [|done].
  destruct sc as [sc|]; [|done]. destruct (NewBaseDB _ _ sc w0) as [[sl|e2|x] w4] eqn:Es; [done| |done].
  injection Hi as <- <- <-. simpl in Hm. injection Hm as <-.
  apply NewBaseDB_numbered in Es as (Hw4 & Hn4 & Hl4); [|done].
  assert (handle m1 ∈ live w4) as Hin by (apply Hl4; rewrite Hl0, Hh; left).
  assert (handle m1 < next w4)%nat as Hlt by lia.
  unfold Initialize in Hi2. simpl in Hi2.
  destruct (parseDatabaseConf order opt') as [[mc' sc']|e1|x]; [|done..].
  destruct (NewBaseDB _ _ mc' w4) as [[m2|e1|x] w5] eqn:Em2; [|done..].
  apply NewBaseDB_Ok in Em2 as (Hh2 & Hn5 & Hl5 & Hw5); [|done].
  destruct sc' as [sc'|].
  - destruct (NewBaseDB _ _ sc' w5) as [[s2|e1|x] w6] eqn:Es2; [|done..].
    apply NewBaseDB_Ok in Es2 as (Hh6 & Hn6 & Hl6 & _); [|done].
    injection Hi2 as <- <-. unfold Destroy in Hd. simpl in Hd. injection Hd as <- <-. simpl.
    rewrite !list_elem_of_filter. split; [lia|]. split; [lia|]. rewrite Hl6, Hl5. by do 2 right.
  - injection Hi2 as <- <-. unfold Destroy in Hd. simpl in Hd. injection Hd as <- <-. simpl.
    rewrite !list_elem_of_filter. split; [lia|]. split; [lia|]. rewrite Hl5. by right.
Qed.
End life_cycle.

Section read_transactions.
Context `{Env} `{PolarisApi}.

Lemma swap_swap (c : conn database) : swap_dbs (swap_dbs c) = c.
Proof. by destruct c. Qed.

(** A transaction [StartReadTx] opened reads the replica, and ending it changes
    nothing on either database. *)
Theorem StartReadTx_reads_replica {R} (sel : Z -> database -> res (list R)) (c c1 c2 c3 : conn database) rs r :
  StartReadTx c = (Ok tt, c1) -> on_slave (tx_Query sel) c1 = (Ok rs, c2) -> on_slave Commit c2 = (r, c3) ->
  (exists now l, sel now (replica c) = Ok l /\ r_data rs `prefix_of` l) /\ same_dbs c c2 /\ same_dbs c c3.
Proof.
  unfold StartReadTx, on_slave. intros Hb Hq Hc.
  destruct (Begin (swap_dbs c)) as [rb cb] eqn:Eb. simplify_eq.
  destruct (Begin_spec _ _ _ Eb) as ([Hc1 Hr1] & _ & Ho). destruct (Ho eq_refl) as [Ho1 Hw1].
  rewrite swap_swap in Hq. destruct (tx_Query sel cb) as [rq cq] eqn:Eq. simplify_eq. rewrite swap_swap in Hc.
  assert (exists l, sel (tx_now cb) (work cb) = Ok l /\ r_data rs `prefix_of` l) as (l & Hl & Hp).
  { unfold tx_Query, tx_Exec in Eq. rewrite Ho1 in Eq.
    destruct (fault_at (calls cb)) as [[e|e|n e]|]; [done|done| |]; destruct (sel (tx_now cb) (work cb)) as [l|e'|w];
      simplify_eq/=; exists l; split; try done. exists (drop n l). by rewrite take_drop. }
  assert (committed cq = committed cb /\ replica cq = replica cb /\ work cq = work cb) as (Hcq & Hrq & Hwq).
  { unfold tx_Query, tx_Exec in Eq. rewrite Ho1, Hl in Eq.
    destruct (fault_at (calls cb)) as [[e|e|n e]|]; by simplify_eq/=. }
  destruct (Commit cq) as [rc cc] eqn:Ec. simplify_eq.
  assert (committed cc = committed cq /\ replica cc = replica cq) as [Hcc Hrc].
  { simpl in Hw1. unfold Commit in Ec. repeat case_match; simplify_eq/=; split; congruence. }
  simpl in Hc1, Hr1, Hw1. split_and!.
  - exists (tx_now cb), l. split; [|done]. by rewrite <- Hl, Hw1.
  - unfold same_dbs, swap_dbs. simpl. split; congruence.
  - unfold same_dbs, swap_dbs. simpl. split; congruence.
Qed.
End read_transactions.
