(* ===== verification/L5.v ===== *)
(** * L5 compatibility (store/postgresql/l5.go)

    [l5Store]: the generator of L5 session ids, which counts in the one row of
    cl5_module with 32-bit arithmetic, and the incremental reads of the four
    L5 tables on the replica. *)
From stdpp Require Import base list strings pretty gmap relations.
From Stdlib Require Import ZArith Lia Ascii.
From S2P Require Import Prelude Driver Rows Schema Sql Common.
Open Scope Z_scope.
Open Scope store_scope.

(** [model.Route], [model.Policy], [model.Section], [model.IPConfig] *)
Record Route := mkRoute {
  r_IP : Z; r_ModID : Z; r_CmdID : Z; r_SetID : string; r_Valid : bool; r_Flow : Z }.
Record Policy := mkPolicy {
  p_ModID : Z; p_Div : Z; p_Mod : Z; p_Valid : bool; p_Flow : Z }.
Record Section_ := mkSection {
  s_ModID : Z; s_From : Z; s_To : Z; s_Xid : Z; s_Valid : bool; s_Flow : Z }.
Record IPConfig := mkIPConfig {
  i_IP : Z; i_AreaID : Z; i_CityID : Z; i_IdcID : Z; i_Valid : bool; i_Flow : Z }.

(** [Scan] of an int4 column into an integer field of package [model], whose
    width is not in this repository: every width holds the values from zero. *)
Class ModelInt := {
  scan_field : Z -> res Z;
  scan_field_ok : forall n, 0 <= n < 2 ^ 31 -> scan_field n = Ok n
}.

(** ** 32-bit words *)

Definition u32 (n : Z) : Z := n mod 2 ^ 32.

Section l5.
Context `{Env} `{PolarisApi} `{ModelInt}.
Abbreviation M := (M database).
Abbreviation P := (P database).

(** [GetL5Extend], [SetL5Extend] and [GetMoreL5Extend] return nil. *)
Definition GetL5Extend (serviceID : string) : M (option (gmap string string)) := Ret None.
Definition SetL5Extend (serviceID : string) (meta : gmap string string) : M (option (gmap string string)) :=
  Ret None.
Definition GetMoreL5Extend (mtime : Z) : M (option (gmap string (gmap string string))) := Ret None.

(** ** Session ids *)

(** The three counters after the one in the row. *)
Definition next_module (m : Z * Z * Z) : Z * Z * Z :=
  let '(mid, iid, rnum) := m in
  let rnum := u32 (rnum + 1) in
  let '(iid, rnum) := if 65536 <=? rnum then (u32 (iid + 1), 0) else (iid, rnum) in
  let '(mid, iid) := if 4096 <=? iid then (u32 (mid + 1), 1) else (mid, iid) in
  (mid, iid, rnum).

Definition set_module (m : Z * Z * Z) (now : Z) (r : cl5_module_row) : cl5_module_row :=
  Cl5ModuleRow m.1.1 m.1.2 m.2 (cl5_mtime r).

(** The UPDATE has no WHERE clause. *)
Definition update_module (m : Z * Z * Z) : P Z := fun now d =>
  mid <-? int4_arg m.1.1 ;;
  iid <-? int4_arg m.1.2 ;;
  rnum <-? int4_arg m.2 ;;
  sql_update (fun _ => true) (set_module (mid, iid, rnum)) now d.

Definition modID (layoutID mid : Z) : Z := u32 (u32 (Z.shiftl mid 6) + layoutID).
Definition cmdID (iid rnum : Z) : Z := u32 (u32 (Z.shiftl iid 16) + rnum).

Definition sid_text (layoutID : Z) (m : Z * Z * Z) : string :=
  pretty (modID layoutID m.1.1) +:+ ":" +:+ pretty (cmdID m.1.2 m.2).

(** [select ... limit 1 offset 0], scanned into three uint32. *)
Definition select_module : M (Z * Z * Z) :=
  r <- tx_QueryRow (fun _ d => Ok (take 1 (tbl (R:=cl5_module_row) d))) ;;
  mid <- lift (scan_uint32 (cl5_module_id r)) ;;
  iid <- lift (scan_uint32 (cl5_interface_id r)) ;;
  rnum <- lift (scan_uint32 (cl5_range_num r)) ;;
  Ret (mid, iid, rnum).

Definition write_module (layoutID : Z) (m : Z * Z * Z) : M string :=
  stmt_Exec (update_module m) ;;;
  Ret (sid_text layoutID m).

Definition genNextL5Sid_body (layoutID : Z) : M string :=
  m <- select_module ;;
  write_module layoutID (next_module m).

Definition genNextL5Sid (layoutID : Z) : M string :=
  Begin ;;; defer_rollback (then_commit (genNextL5Sid_body layoutID)).

(** [GenNextL5Sid]: the handler returns nil, so [RetryTransaction] does too
    and its result overwrites the error of [genNextL5Sid]; what remains of a
    failure is the empty id. *)
Definition GenNextL5Sid (layoutID : Z) : M string :=
  RetryTransaction (fun c =>
    match genNextL5Sid layoutID c with
    | (Err _, c') => (Ok ""%string, c')
    | rc => rc
    end).

(** ** Incremental reads *)

(** [COALESCE(Fflag, 0)], and the field [Valid] made from it. *)
Definition is_valid (flag : option Z) : bool := negb (default 0 flag =? 1).

Definition l5RouteFetchRows (rs : rows t_route_row) : res (list Route) :=
  fetch_rows (fun r =>
    ip <-? scan_field (rt_fip r) ;;
    mod_ <-? scan_field (rt_fmodid r) ;;
    cmd <-? scan_field (rt_fcmdid r) ;;
    flow <-? scan_field (rt_fflow r) ;;
    Ok (mkRoute ip mod_ cmd (rt_fsetid r) (is_valid (rt_fflag r)) flow)) rs.

Definition l5PolicyFetchRows (rs : rows t_policy_row) : res (list Policy) :=
  fetch_rows (fun r =>
    mod_ <-? scan_field (pl_fmodid r) ;;
    div <-? scan_field (pl_fdiv r) ;;
    md <-? scan_field (pl_fmod r) ;;
    flow <-? scan_field (pl_fflow r) ;;
    Ok (mkPolicy mod_ div md (is_valid (pl_fflag r)) flow)) rs.

Definition l5SectionFetchRows (rs : rows t_section_row) : res (list Section_) :=
  fetch_rows (fun r =>
    mod_ <-? scan_field (sn_fmodid r) ;;
    from <-? scan_field (sn_ffrom r) ;;
    to <-? scan_field (sn_fto r) ;;
    xid <-? scan_field (sn_fxid r) ;;
    flow <-? scan_field (sn_fflow r) ;;
    Ok (mkSection mod_ from to xid (is_valid (sn_fflag r)) flow)) rs.

Definition l5IPConfigFetchRows (rs : rows t_ip_config_row) : res (list IPConfig) :=
  fetch_rows (fun r =>
    ip <-? scan_field (ip_fip r) ;;
    area <-? scan_field (ip_fareaid r) ;;
    city <-? scan_field (ip_fcityid r) ;;
    idc <-? scan_field (ip_fidcid r) ;;
    flow <-? scan_field (ip_fflow r) ;;
    Ok (mkIPConfig ip area city idc (is_valid (ip_fflag r)) flow)) rs.

(** [getL5RouteSelectSQL() + " where Fflow > $1"] and the like. *)
Definition flow_above {R} `{Table R} (col : R -> Z) (flow now : Z) (d : database) : res (list R) :=
  flow <-? int4_arg flow ;; Ok (sql_select (fun r => flow <? col r) d).

Definition GetMoreL5Routes (flow : Z) : M (list Route) :=
  rs <- Query replica (flow_above rt_fflow flow) ;; lift (l5RouteFetchRows rs).
Definition GetMoreL5Policies (flow : Z) : M (list Policy) :=
  rs <- Query replica (flow_above pl_fflow flow) ;; lift (l5PolicyFetchRows rs).
Definition GetMoreL5Sections (flow : Z) : M (list Section_) :=
  rs <- Query replica (flow_above sn_fflow flow) ;; lift (l5SectionFetchRows rs).
Definition GetMoreL5IPConfigs (flow : Z) : M (list IPConfig) :=
  rs <- Query replica (flow_above ip_fflow flow) ;; lift (l5IPConfigFetchRows rs).
End l5.

(** ** The counter *)

(** The range the counters stay in as long as a module id fits 26 bits, and
    the place of a value in the order in which they are handed out. *)
Definition module_ok (m : Z * Z * Z) : Prop :=
  0 <= m.1.1 < 2 ^ 26 /\ 1 <= m.1.2 < 4096 /\ 0 <= m.2 < 65536.
Definition position (m : Z * Z * Z) : Z := (m.1.1 * 4095 + (m.1.2 - 1)) * 65536 + m.2.
Definition last_position : Z := 2 ^ 26 * 4095 * 65536 - 1.

Lemma u32_small n : 0 <= n < 2 ^ 32 -> u32 n = n.
Proof. apply Z.mod_small. Qed.

Lemma next_module_ok m : module_ok m -> position m < last_position ->
  module_ok (next_module m) /\ position (next_module m) = position m + 1.
Proof.
  destruct m as [[mid iid] rnum]. unfold module_ok, position, last_position. simpl. intros (Hm & Hi & Hr) Hp.
  rewrite (u32_small (rnum + 1)), (u32_small (iid + 1)), (u32_small (mid + 1)) by lia.
  destruct (Z.leb_spec 65536 (rnum + 1)); simpl;
    [destruct (Z.leb_spec 4096 (iid + 1))|destruct (Z.leb_spec 4096 iid)]; simpl; lia.
Qed.

Lemma digits_unique b q r q' r' : 0 <= r < b -> 0 <= r' < b -> q * b + r = q' * b + r' -> q = q' /\ r = r'.
Proof. intros Hr Hr' He. apply (Z.div_mod_unique b); lia. Qed.

Lemma position_inj m n : module_ok m -> module_ok n -> position m = position n -> m = n.
Proof.
  destruct m as [[mid iid] rnum], n as [[mid' iid'] rnum']. unfold module_ok, position. simpl.
  intros (Hm & Hi & Hr) (Hm' & Hi' & Hr') Hp.
  apply digits_unique in Hp as [Hq ->]; [|done..].
  apply digits_unique in Hq as [-> Hq]; [|lia..]. by replace iid with iid' by lia.
Qed.

Lemma modID_eq layout mid : 0 <= layout < 64 -> 0 <= mid < 2 ^ 26 -> modID layout mid = mid * 64 + layout.
Proof. intros. unfold modID. rewrite Z.shiftl_mul_pow2, (u32_small (mid * 2 ^ 6)), u32_small by lia. lia. Qed.

Lemma cmdID_eq iid rnum : 1 <= iid < 4096 -> 0 <= rnum < 65536 -> cmdID iid rnum = iid * 65536 + rnum.
Proof. intros. unfold cmdID. rewrite Z.shiftl_mul_pow2, (u32_small (iid * 2 ^ 16)), u32_small by lia. lia. Qed.

(** Texts before the first colon. *)
Lemma colon_split s s' t t' : str_has ":" s = false -> str_has ":" s' = false ->
  s +:+ ":" +:+ t = s' +:+ ":" +:+ t' -> s = s' /\ t = t'.
Proof.
  revert s'. induction s as [|a s IH]; intros [|b s']; simpl.
  - intros _ _ [=]. done.
  - intros _ [Hb _]%orb_false_iff [= <- _]. done.
  - intros [Ha _]%orb_false_iff _ [= -> _]. done.
  - intros [_ Ha]%orb_false_iff [_ Hb]%orb_false_iff [= <- He]. destruct (IH s') as [-> ->]; done.
Qed.

Lemma pretty_no_colon (n : Z) : 0 <= n -> str_has ":" (pretty n) = false.
Proof.
  intros Hn. pose proof (pad_colon 0 n Hn) as Hp. unfold pad in Hp. by rewrite str_has_app in Hp.
Qed.

(** Within the range an id determines the layout and the counters. *)
Lemma sid_text_inj layout layout' m m' :
  0 <= layout < 64 -> 0 <= layout' < 64 -> module_ok m -> module_ok m' ->
  sid_text layout m = sid_text layout' m' -> layout = layout' /\ m = m'.
Proof.
  destruct m as [[mid iid] rnum], m' as [[mid' iid'] rnum'].
  intros Hl Hl' (Hm & Hi & Hr) (Hm' & Hi' & Hr'). unfold sid_text. simpl in *.
  rewrite !modID_eq, !cmdID_eq by done. intros He.
  apply colon_split in He as [H1%(inj pretty) H2%(inj pretty)]; [|apply pretty_no_colon; lia..].
  apply digits_unique in H1 as [-> ->]; [|done..]. apply digits_unique in H2 as [-> ->]; done.
Qed.

Lemma sid_text_nonempty layout m : sid_text layout m <> ""%string.
Proof. unfold sid_text. by destruct (pretty (modID layout m.1.1)). Qed.

(** ** What the generator does *)

Section l5_facts.
Context `{Env} `{PolarisApi} `{ModelInt}.
Abbreviation P := (P database).
Implicit Types c : conn database.

(** The table has one row, with these counters. *)
Definition module_is (m : Z * Z * Z) (d : database) : Prop :=
  exists t, tbl d = [Cl5ModuleRow m.1.1 m.1.2 m.2 t].

Definition p_sid (layoutID : Z) : P string := fun now d =>
  r <-? first_row (Rows (take 1 (tbl (R:=cl5_module_row) d)) None) ;;
  mid <-? scan_uint32 (cl5_module_id r) ;;
  iid <-? scan_uint32 (cl5_interface_id r) ;;
  rnum <-? scan_uint32 (cl5_range_num r) ;;
  let m := next_module (mid, iid, rnum) in
  nd <-? update_module m now d ;;
  Ok (sid_text layoutID m, nd.2).

#[export] Instance impl_sid layoutID : Implements (genNextL5Sid_body layoutID) (p_sid layoutID).
Proof.
  unfold genNextL5Sid_body, select_module, write_module. implement.
  unfold p_sid, p_bind, p_lift, p_ret, res_map. simpl.
  destruct (take 1 (tbl (R:=cl5_module_row) d)) as [|r l]; [done|]. simpl.
  repeat (match goal with |- context [scan_uint32 ?n] => destruct (scan_uint32 n) eqn:?; [|done..]; simpl end).
  by destruct (update_module _ now d) as [[]| |].
Qed.

Lemma scan_uint32_ok n : 0 <= n < 2 ^ 32 -> scan_uint32 n = Ok n.
Proof. intros. unfold scan_uint32. by replace ((0 <=? n) && (n <? 2 ^ 32)) with true by lia. Qed.

Lemma p_sid_next layout m now d : db_wf d -> module_is m d -> module_ok m -> position m < last_position ->
  exists d', p_sid layout now d = Ok (sid_text layout (next_module m), d') /\
    module_is (next_module m) d' /\ only_table cl5_module_row d d'.
Proof.
  destruct m as [[mid iid] rnum]. intros Hd [t Ht] Hm Hp. simpl in Ht.
  destruct (next_module_ok _ Hm Hp) as [(Hm1 & Hi1 & Hr1) _]. destruct Hm as (Hm & Hi & Hr). simpl in *.
  unfold p_sid. rewrite Ht. simpl. rewrite !scan_uint32_ok by lia. cbn [res_bind].
  destruct (next_module (mid, iid, rnum)) as [[mid' iid'] rnum']. simpl in *. unfold update_module, int4_arg.
  rewrite !(proj2 (Z.ltb_lt _ (2 ^ 31))) by (simpl; lia). cbn [res_bind].
  unfold sql_update. rewrite Ht. simpl. eexists. split; [done|]. split.
  - exists t. by rewrite tbl_set.
  - apply only_table_set.
Qed.

#[export] Instance sid_wf layout : Preserves db_wf (p_sid layout).
Proof.
  intros now d a d' Hd Hp. unfold p_sid, update_module in Hp. res_steps. simplify_eq.
  match goal with x : Z * database |- _ => destruct x end.
  by eapply (update_wf _ _ _ _ _ _ Hd).
Qed.

Lemma GenNextL5Sid_run layout c r c' : GenNextL5Sid layout c = (r, c') ->
  exists r0, genNextL5Sid layout c = (r0, c') /\ r = match r0 with Err _ => Ok ""%string | _ => r0 end.
Proof.
  intros Hr. destruct (genNextL5Sid layout c) as [r0 c0] eqn:E. exists r0.
  unfold GenNextL5Sid, RetryTransaction in Hr.
  rewrite (Retry_once _ c (match r0 with Err _ => Ok ""%string | _ => r0 end) c0) in Hr.
  - by simplify_eq.
  - rewrite E. by destruct r0.
  - intros e. by destruct r0.
Qed.

(** The counters go up by one, or stay when the id was not given out. *)
Definition counted (layout : Z) (m : Z * Z * Z) (d d' : database) (r : res string) : Prop :=
  (d' = d /\ forall s, r = Ok s -> s = ""%string) \/
  (module_is (next_module m) d' /\ only_table cl5_module_row d d' /\
   (r = Ok ""%string \/ r = Ok (sid_text layout (next_module m)))).

Lemma GenNextL5Sid_counted layout m c r c' :
  db_wf (committed c) -> module_is m (committed c) -> module_ok m -> position m < last_position ->
  GenNextL5Sid layout c = (r, c') ->
  counted layout m (committed c) (committed c') r /\ replica c' = replica c /\ (forall e, r <> Err e) /\
  (reliable -> r = Ok (sid_text layout (next_module m))).
Proof.
  intros Hd Hm Hok Hp (r0 & Hr & ->)%GenNextL5Sid_run.
  change (genNextL5Sid layout) with (processWithTransaction (then_commit (genNextL5Sid_body layout))) in Hr.
  pose proof (process_exact (genNextL5Sid_body layout) (p_sid layout) c) as Hx. rewrite Hr in Hx.
  apply (process_spec (genNextL5Sid_body layout) (p_sid layout)) in Hr as [Ho Hre].
  destruct (p_sid_next layout m (current_timestamp c) _ Hd Hm Hok Hp) as (dx & Hdx & _).
  split; [|split_and!; [done|by intros e; destruct r0|]].
  - unfold counted. destruct r0 as [s|e|w]; simpl in Ho.
    + destruct Ho as [now Ho]. destruct (p_sid_next layout m now _ Hd Hm Hok Hp) as (d' & Hd' & Hq1 & Hq2).
      rewrite Hd' in Ho. simplify_eq. auto.
    + destruct Ho as [->|(now & a & Ho)]; [left; split; [done|by intros s [= <-]]|].
      destruct (p_sid_next layout m now _ Hd Hm Hok Hp) as (d' & Hd' & Hq1 & Hq2).
      rewrite Hd' in Ho. simplify_eq. auto.
    + left. split; [done|]. by intros s [=].
  - intros Hrel. specialize (Hx Hrel). rewrite Hdx in Hx. simpl in Hx. by subst.
Qed.

(** The two statements of the generator by themselves. *)
Definition p_select : P (Z * Z * Z) := fun now d =>
  r <-? first_row (Rows (take 1 (tbl (R:=cl5_module_row) d)) None) ;;
  mid <-? scan_uint32 (cl5_module_id r) ;;
  iid <-? scan_uint32 (cl5_interface_id r) ;;
  rnum <-? scan_uint32 (cl5_range_num r) ;;
  Ok ((mid, iid, rnum), d).

Lemma impl_select : Implements select_module p_select.
Proof.
  unfold select_module. implement. unfold p_select, p_bind, p_lift, p_ret, res_map. simpl.
  destruct (take 1 (tbl (R:=cl5_module_row) d)) as [|r l]; [done|]. simpl.
  repeat (match goal with |- context [scan_uint32 ?n] => destruct (scan_uint32 n) eqn:?; [|done..]; simpl end).
  done.
Qed.

Lemma p_select_is m now d : module_is m d -> module_ok m -> p_select now d = Ok (m, d).
Proof.
  destruct m as [[mid iid] rnum]. intros [t Ht] (Hm & Hi & Hr). simpl in *. unfold p_select. rewrite Ht. simpl.
  by rewrite !scan_uint32_ok by lia.
Qed.

Lemma impl_write layout m :
  Implements (write_module layout m) (p_bind (update_module m) (fun _ => p_ret (sid_text layout m))).
Proof. unfold write_module. apply _. Qed.

Lemma p_write_is layout m now d : module_ok m -> module_is m d ->
  exists d', p_bind (update_module m) (fun _ => p_ret (sid_text layout m)) now d = Ok (sid_text layout m, d').
Proof.
  destruct m as [[mid iid] rnum]. intros (Hm & Hi & Hr) [t Ht]. simpl in *.
  unfold p_bind, update_module, int4_arg. rewrite !(proj2 (Z.ltb_lt _ (2 ^ 31))) by (simpl; lia).
  cbn [res_bind]. unfold sql_update. rewrite Ht. simpl. eauto.
Qed.

(** Successive calls by one server. *)
Fixpoint gen_sids (layouts : list Z) : M database (list string) :=
  match layouts with
  | [] => Ret []
  | l :: layouts' =>
      s <- GenNextL5Sid l ;;
      rest <- gen_sids layouts' ;;
      Ret (s :: rest)
  end.
End l5_facts.

Section l5_properties.
Context `{Env} `{PolarisApi} `{ModelInt}.
Implicit Types c : conn database.

Lemma GenNextL5Sid_wf layout c r c' : db_wf (committed c) -> GenNextL5Sid layout c = (r, c') -> db_wf (committed c').
Proof.
  intros Hd (r0 & Hr & _)%GenNextL5Sid_run.
  change (genNextL5Sid layout) with (processWithTransaction (then_commit (genNextL5Sid_body layout))) in Hr.
  apply (process_spec (genNextL5Sid_body layout) (p_sid layout)) in Hr as [Ho _].
  eapply tx_outcome_inv; [|exact Hd|exact Ho]. apply sid_wf.
Qed.

(** C25: [GenNextL5Sid] on a table with one row whose counters are in range: it
    changes nothing but that row, whose counters go up by one (with carries
    at 65536 and 4096) or stay; the id it returns is the text of the new
    counters, and empty when the transaction failed or its outcome is not
    known.  It never reports an error.  Without faults the id is always
    returned, and all numbers stay below their 32-bit words. *)
Theorem GenNextL5Sid_bounds layout m c r c' :
  0 <= layout < 64 -> db_wf (committed c) -> module_is m (committed c) -> module_ok m ->
  position m < last_position -> GenNextL5Sid layout c = (r, c') ->
  counted layout m (committed c) (committed c') r /\ replica c' = replica c /\ (forall e, r <> Err e) /\
  (reliable -> r = Ok (sid_text layout (next_module m))) /\
  module_ok (next_module m) /\ position (next_module m) = position m + 1 /\
  modID layout (next_module m).1.1 = (next_module m).1.1 * 64 + layout /\
  cmdID (next_module m).1.2 (next_module m).2 = (next_module m).1.2 * 65536 + (next_module m).2.
Proof.
  intros Hl Hd Hm Hok Hp Hr.
  destruct (GenNextL5Sid_counted layout m c r c' Hd Hm Hok Hp Hr) as (Hc & Hre & He & Hrel).
  destruct (next_module_ok m Hok Hp) as [Hn Hpos]. pose proof Hn as (Hq1 & Hq2 & Hq3).
  split_and!; auto using modID_eq, cmdID_eq.
Qed.

Lemma gen_sids_above layouts : forall m c ids c',
  Forall (fun l => 0 <= l < 64) layouts -> db_wf (committed c) -> module_is m (committed c) -> module_ok m ->
  position m + Z.of_nat (length layouts) <= last_position -> gen_sids layouts c = (Ok ids, c') ->
  NoDup (keep (fun s => negb (str_empty s)) ids) /\
  forall s, s ∈ ids -> s <> ""%string ->
    exists l n, 0 <= l < 64 /\ module_ok n /\ position m < position n /\ s = sid_text l n.
Proof.
  induction layouts as [|l layouts IH]; intros m c ids c' Hl Hd Hm Hok Hp Hr; simpl in Hr.
  { injection Hr as <- <-. split; [constructor|]. by intros s ?%elem_of_nil. }
  apply Bind_Ok in Hr as (s & c1 & Hs & (rest & c2 & Hrest & [= <- <-])%Bind_Ok).
  inversion Hl as [|? ? Hl1 Hl2]; subst. simpl in Hp.
  destruct (GenNextL5Sid_counted l m c _ c1 Hd Hm Hok ltac:(lia) Hs) as (Hc & _ & _ & _).
  destruct (next_module_ok m Hok ltac:(lia)) as [Hn Hpos].
  pose proof (GenNextL5Sid_wf l c _ c1 Hd Hs) as Hd1.
  destruct Hc as [[Hsame Hempty]|(Hm1 & _ & Hval)].
  - specialize (Hempty s eq_refl) as ->.
    destruct (IH m c1 rest c2) as [Hnd Hab]; rewrite ?Hsame; [done..|lia|done|].
    split; [done|]. intros s [->|Hin]%elem_of_cons Hne; [done|eauto].
  - destruct (IH (next_module m) c1 rest c2) as [Hnd Hab]; [done..|lia|done|].
    assert (forall s, s ∈ rest -> s <> ""%string -> exists l n, 0 <= l < 64 /\ module_ok n /\
      position (next_module m) < position n /\ s = sid_text l n) as Hab' by done.
    split.
    + destruct Hval as [[= ->]|[= ->]]; [done|].
      simpl. rewrite str_empty_false by apply sid_text_nonempty. simpl. constructor; [|done].
      intros [Hin Hne%negb_true_iff]%elem_of_keep. apply bool_decide_eq_false in Hne.
      destruct (Hab _ Hin Hne) as (l' & n & Hl' & Hn' & Hlt & He).
      apply sid_text_inj in He as [_ <-]; [lia|done..].
    + intros s' [->|Hin]%elem_of_cons Hne.
      * destruct Hval as [[= ->]|[= ->]]; [done|]. exists l, (next_module m). split_and!; [lia..|done| |done]. lia.
      * destruct (Hab _ Hin Hne) as (l' & n & Hl' & Hn' & Hlt & He). exists l', n. split_and!; [lia..|done| |done]. lia.
Qed.

(** C26: The ids one server generates one after the other are pairwise distinct,
    whatever faults occur, as long as the counters stay in range; an empty
    string, which stands for a failure, is not an id. *)
Theorem gen_sids_distinct layouts m c ids c' :
  Forall (fun l => 0 <= l < 64) layouts -> db_wf (committed c) -> module_is m (committed c) -> module_ok m ->
  position m + Z.of_nat (length layouts) <= last_position -> gen_sids layouts c = (Ok ids, c') ->
  NoDup (keep (fun s => negb (str_empty s)) ids).
Proof. intros. by eapply gen_sids_above. Qed.

(** What a statement of an open transaction sees at the isolation level read
    committed: the content another session has committed since. *)
Definition sees (d : database) c : conn database := set_work d (set_committed d c).

(** The SELECT takes no lock: when a second session runs the whole generator
    between the SELECT and the UPDATE of the first, both return the same id
    and both commit. *)
Theorem GenNextL5Sid_not_locked layout m (ca cb : conn database) ra ca1 cb1 : reliable ->
  db_wf (committed ca) -> module_is m (committed ca) -> module_ok m -> position m < last_position ->
  committed cb = committed ca ->
  Bind Begin (fun _ => select_module) ca = (ra, ca1) ->
  GenNextL5Sid layout cb = (Ok (sid_text layout (next_module m)), cb1) ->
  ra = Ok m /\
  fst (then_commit (write_module layout (next_module m)) (sees (committed cb1) ca1)) =
    Ok (sid_text layout (next_module m)).
Proof.
  intros Hrel Hd Hm Hok Hp Hcb Ha Hb.
  assert (module_is (next_module m) (committed cb1)) as Hm1.
  { pose proof (fun r => GenNextL5Sid_counted layout m cb r cb1) as Hc. rewrite Hcb in Hc.
    destruct (Hc _ Hd Hm Hok Hp Hb) as ([[_ He]|[? _]] & _); [|done].
    by destruct (sid_text_nonempty layout (next_module m)), (He _ eq_refl). }
  unfold Bind in Ha at 1. rewrite Begin_reliable in Ha by done.
  destruct (impl_select) as [Fs Ss Xs]. set (c1 := tick (open_tx (current_timestamp ca) ca)) in Ha.
  pose proof (Xs c1 Hrel eq_refl) as Hx. rewrite Ha in Hx. simpl in Hx.
  rewrite (p_select_is m) in Hx by done. simpl in Hx. subst ra. split; [done|].
  destruct (Ss c1 m ca1 Ha eq_refl) as [_ Ho].
  set (c2 := sees (committed cb1) ca1). unfold then_commit, Bind at 1.
  destruct (impl_write layout (next_module m)) as [Fw Sw Xw].
  pose proof (Xw c2 Hrel Ho) as Hw.
  destruct (p_write_is layout (next_module m) (tx_now c2) (committed cb1)) as [d' Hd'];
    [by apply next_module_ok|done|].
  change (work c2) with (committed cb1) in Hw. rewrite Hd' in Hw.
  destruct (write_module layout (next_module m) c2) as [r c3] eqn:E. simpl in Hw. subst r.
  destruct (Sw _ _ _ E Ho) as [_ Ho3]. unfold Bind, Commit, Ret. by rewrite Ho3, (Hrel (calls c3)).
Qed.

Definition route_of (r : t_route_row) : Route :=
  mkRoute (rt_fip r) (rt_fmodid r) (rt_fcmdid r) (rt_fsetid r) (is_valid (rt_fflag r)) (rt_fflow r).

Lemma flow_above_Ok {R} `{!Table R} (col : R -> Z) flow now d l :
  flow_above col flow now d = Ok l -> l = sql_select (fun r => flow <? col r) d.
Proof. unfold flow_above, int4_arg. destruct (flow <? 2 ^ 31); intros; by simplify_eq/=. Qed.

(** [GetMoreL5Routes] returns exactly the routes of the replica whose flow
    number is above the given one, a row being valid unless its flag is 1;
    with columns from zero no scan fails. *)
Theorem GetMoreL5Routes_correct flow c out c' :
  Forall (fun r => 0 <= rt_fip r < 2 ^ 31 /\ 0 <= rt_fmodid r < 2 ^ 31 /\ 0 <= rt_fcmdid r < 2 ^ 31 /\
    0 <= rt_fflow r < 2 ^ 31) (tbl (R:=t_route_row) (replica c)) ->
  GetMoreL5Routes flow c = (Ok out, c') ->
  same_dbs c c' /\ out = map route_of (sql_select (fun r => flow <? rt_fflow r) (replica c)).
Proof.
  intros Hrows Hr. unfold GetMoreL5Routes in Hr.
  apply Query_fetch_Ok in Hr as [Hs (now & l & Hl & Hf)]; [apply flow_above_Ok in Hl|apply _|apply fetch_rows_err_checking].
  split; [done|]. subst l. revert Hf. unfold l5RouteFetchRows. erewrite (fetch_rows_map _ route_of); [by intros [=]|].
  intros r [Hin _]%elem_of_keep.
  rewrite Forall_forall in Hrows. destruct (Hrows r Hin) as (Hq1 & Hq2 & Hq3 & Hq4).
  by rewrite !scan_field_ok.
Qed.
End l5_properties.

(** Fields of 32 unsigned bits. *)
Lemma uint32_ok n : 0 <= n < 2 ^ 31 -> scan_uint32 n = Ok n.
Proof. intros. apply scan_uint32_ok. lia. Qed.
Definition plain_int : ModelInt := {| scan_field := scan_uint32; scan_field_ok := uint32_ok |}.
