(* ===== verification/CircuitBreaker.v ===== *)
(** * Circuit breaker rules (store/postgresql/circuitbreaker_config_v2.go)

    [circuitBreakerStore]: rules are inserted, updated, enabled and marked
    deleted by id, each in a retried transaction whose times are the clock of
    the program in the zone Asia/Shanghai; they are listed with the filters of
    RuleFilter, and read by the cache from the replica. *)
From stdpp Require Import base list strings pretty gmap sorting.
From Stdlib Require Import ZArith Lia.
From S2P Require Import Prelude Driver Rows Schema Sql Common Where RuleFilter Store.
Open Scope Z_scope.
Open Scope store_scope.

(** [model.CircuitBreakerRule], the fields the store touches. *)
Record CircuitBreakerRule := mkCircuitBreakerRule {
  ID : string; Name : string; Namespace : string; Enable : bool; Revision : string;
  Description : string; Level : Z; SrcService : string; SrcNamespace : string; DstService : string;
  DstNamespace : string; DstMethod : string; Rule : string; Valid : bool; CreateTime : Z;
  ModifyTime : Z; EnableTime : Z }.

Definition cb_cols (col : string) : option (column circuitbreaker_rule_v2_row) :=
  if str_eq col "id" then Some (CText (fun r => Some (cb_id r)))
  else if str_eq col "name" then Some (CText (fun r => Some (cb_name r)))
  else if str_eq col "namespace" then Some (CText (fun r => Some (cb_namespace r)))
  else if str_eq col "enable" then Some (CInt (fun r => Some (cb_enable r)))
  else if str_eq col "revision" then Some (CText (fun r => Some (cb_revision r)))
  else if str_eq col "description" then Some (CText (fun r => Some (cb_description r)))
  else if str_eq col "level" then Some (CInt (fun r => Some (cb_level r)))
  else if str_eq col "src_service" then Some (CText (fun r => Some (cb_src_service r)))
  else if str_eq col "src_namespace" then Some (CText (fun r => Some (cb_src_namespace r)))
  else if str_eq col "dst_service" then Some (CText (fun r => Some (cb_dst_service r)))
  else if str_eq col "dst_namespace" then Some (CText (fun r => Some (cb_dst_namespace r)))
  else if str_eq col "dst_method" then Some (CText (fun r => Some (cb_dst_method r)))
  else if str_eq col "config" then Some (CText cb_config)
  else if str_eq col "metadata" then Some (CText (fun _ => None))
  else if str_eq col "flag" then Some (CInt (fun r => Some (cb_flag r)))
  else if str_eq col "ctime" then Some (CTime cb_ctime)
  else if str_eq col "mtime" then Some (CTime cb_mtime)
  else if str_eq col "etime" then Some (CTime cb_etime)
  else None.

Definition cb_live (r : circuitbreaker_rule_v2_row) : bool := cb_flag r =? 0.

Section circuit_breaker.
Context `{Env} `{PolarisApi} `{PgInput} `{MapRange}.
Abbreviation M := (M database).
Abbreviation P := (P database).

(** ** Writing *)

(** [insertCircuitBreakerRuleSql] and the statements after it *)
Definition new_cb_row (cb : CircuitBreakerRule) (ctime mtime etime : Z) : circuitbreaker_rule_v2_row :=
  CircuitbreakerRuleV2Row (ID cb) (Name cb) (Namespace cb) (boolToInt (Enable cb)) (Revision cb)
    (Description cb) (Level cb) (SrcService cb) (SrcNamespace cb) (DstService cb) (DstNamespace cb)
    (DstMethod cb) (Some (Rule cb)) 0 ctime mtime etime.

Definition cb_with_id (id : string) (r : circuitbreaker_rule_v2_row) : bool := str_eq (cb_id r) id.

Definition set_cb (cb : CircuitBreakerRule) (mtime etime : Z) (r : circuitbreaker_rule_v2_row) :
    circuitbreaker_rule_v2_row :=
  CircuitbreakerRuleV2Row (cb_id r) (Name cb) (Namespace cb) (boolToInt (Enable cb)) (Revision cb)
    (Description cb) (Level cb) (SrcService cb) (SrcNamespace cb) (DstService cb) (DstNamespace cb)
    (DstMethod cb) (Some (Rule cb)) (cb_flag r) (cb_ctime r) mtime etime.

Definition set_cb_deleted (mtime : Z) (r : circuitbreaker_rule_v2_row) : circuitbreaker_rule_v2_row :=
  CircuitbreakerRuleV2Row (cb_id r) (cb_name r) (cb_namespace r) (cb_enable r) (cb_revision r)
    (cb_description r) (cb_level r) (cb_src_service r) (cb_src_namespace r) (cb_dst_service r)
    (cb_dst_namespace r) (cb_dst_method r) (cb_config r) 1 (cb_ctime r) mtime (cb_etime r).

Definition set_cb_enable (cb : CircuitBreakerRule) (mtime etime : Z) (r : circuitbreaker_rule_v2_row) :
    circuitbreaker_rule_v2_row :=
  CircuitbreakerRuleV2Row (cb_id r) (cb_name r) (cb_namespace r) (boolToInt (Enable cb)) (Revision cb)
    (cb_description r) (cb_level r) (cb_src_service r) (cb_src_namespace r) (cb_dst_service r)
    (cb_dst_namespace r) (cb_dst_method r) (cb_config r) (cb_flag r) (cb_ctime r) mtime etime.

(** [createCircuitBreakerRule]: the error of [Prepare] is overwritten. *)
Definition create_body (cb : CircuitBreakerRule) : M unit :=
  etimeStr <- buildEtimeStr (Enable cb) ;;
  or_nil_stmt tx_Prepare ;;;
  t1 <- time_Now ;;
  t2 <- time_Now ;;
  void (tx_Exec (sql_insert (fun _ =>
    [new_cb_row cb (GetCurrentTimeFormat t1) (GetCurrentTimeFormat t2) etimeStr]))).

Definition createCircuitBreakerRule (cb : CircuitBreakerRule) : M unit :=
  processWithTransaction (then_commit (create_body cb)).
Definition CreateCircuitBreakerRule (cb : CircuitBreakerRule) : M unit :=
  map_err store_Error (RetryTransaction (createCircuitBreakerRule cb)).

Definition update_body (cb : CircuitBreakerRule) : M unit :=
  etimeStr <- buildEtimeStr (Enable cb) ;;
  tx_Prepare ;;;
  t <- time_Now ;;
  void (tx_Exec (sql_update (cb_with_id (ID cb)) (fun _ => set_cb cb (GetCurrentTimeFormat t) etimeStr))).

Definition updateCircuitBreakerRule (cb : CircuitBreakerRule) : M unit :=
  processWithTransaction (then_commit (update_body cb)).
Definition UpdateCircuitBreakerRule (cb : CircuitBreakerRule) : M unit :=
  map_err store_Error (RetryTransaction (updateCircuitBreakerRule cb)).

Definition delete_body (id : string) : M unit :=
  tx_Prepare ;;;
  t <- time_Now ;;
  void (tx_Exec (sql_update (cb_with_id id) (fun _ => set_cb_deleted (GetCurrentTimeFormat t)))).

Definition deleteCircuitBreakerRule (id : string) : M unit :=
  processWithTransaction (then_commit (delete_body id)).
Definition DeleteCircuitBreakerRule (id : string) : M unit :=
  map_err store_Error (RetryTransaction (deleteCircuitBreakerRule id)).

Definition enable_body (cb : CircuitBreakerRule) : M unit :=
  etimeStr <- buildEtimeStr (Enable cb) ;;
  tx_Prepare ;;;
  t <- time_Now ;;
  void (tx_Exec (sql_update (cb_with_id (ID cb)) (fun _ => set_cb_enable cb (GetCurrentTimeFormat t) etimeStr))).

Definition enableCircuitBreakerRule (cb : CircuitBreakerRule) : M unit :=
  processWithTransaction (then_commit (enable_body cb)).
Definition EnableCircuitBreakerRule (cb : CircuitBreakerRule) : M unit :=
  map_err store_Error (RetryTransaction (enableCircuitBreakerRule cb)).

(** ** Reading *)

Definition getCircuitBreakerRulesCount : gmap string string -> M Z :=
  count_rules genCircuitBreakerRuleSQL cb_cols cb_live.

Definition HasCircuitBreakerRule (id : string) : M bool :=
  has_rule genCircuitBreakerRuleSQL cb_cols cb_live {["id" := id]}%string.
Definition HasCircuitBreakerRuleByName (name namespace : string) : M bool :=
  has_rule genCircuitBreakerRuleSQL cb_cols cb_live {[exactName := name; "namespace" := namespace]}%string.
Definition HasCircuitBreakerRuleByNameExcludeId (name namespace id : string) : M bool :=
  has_rule genCircuitBreakerRuleSQL cb_cols cb_live
    {[exactName := name; "namespace" := namespace; excludeId := id]}%string.

Definition fetchBriefCircuitBreakerRules (rs : rows circuitbreaker_rule_v2_row) : res (list CircuitBreakerRule) :=
  fetch_rows (fun r => enable <-? scan_bool (cb_enable r) ;;
    Ok (mkCircuitBreakerRule (cb_id r) (cb_name r) (cb_namespace r) enable (cb_revision r) "" (cb_level r)
      (cb_src_service r) (cb_src_namespace r) (cb_dst_service r) (cb_dst_namespace r) (cb_dst_method r)
      "" false (cb_ctime r) (cb_mtime r) (cb_etime r))) rs.

Definition fetchFullCircuitBreakerRules (rs : rows circuitbreaker_rule_v2_row) : res (list CircuitBreakerRule) :=
  fetch_rows (fun r => enable <-? scan_bool (cb_enable r) ;; config <-? scan_string (cb_config r) ;;
    Ok (mkCircuitBreakerRule (cb_id r) (cb_name r) (cb_namespace r) enable (cb_revision r) (cb_description r)
      (cb_level r) (cb_src_service r) (cb_src_namespace r) (cb_dst_service r) (cb_dst_namespace r)
      (cb_dst_method r) config false (cb_ctime r) (cb_mtime r) (cb_etime r))) rs.

Definition fetchCircuitBreakerRuleRows (rs : rows circuitbreaker_rule_v2_row) : res (list CircuitBreakerRule) :=
  fetch_rows (fun r => enable <-? scan_bool (cb_enable r) ;; config <-? scan_string (cb_config r) ;;
    Ok (mkCircuitBreakerRule (cb_id r) (cb_name r) (cb_namespace r) enable (cb_revision r) (cb_description r)
      (cb_level r) (cb_src_service r) (cb_src_namespace r) (cb_dst_service r) (cb_dst_namespace r)
      (cb_dst_method r) config (negb (cb_flag r =? 1)) (cb_ctime r) (cb_mtime r) (cb_etime r))) rs.

Definition getBriefCircuitBreakerRules : gmap string string -> Z -> Z -> M (list CircuitBreakerRule) :=
  page_rules genCircuitBreakerRuleSQL cb_cols cb_live cb_mtime fetchBriefCircuitBreakerRules.
Definition getFullCircuitBreakerRules : gmap string string -> Z -> Z -> M (list CircuitBreakerRule) :=
  page_rules genCircuitBreakerRuleSQL cb_cols cb_live cb_mtime fetchFullCircuitBreakerRules.

Definition GetCircuitBreakerRules (filter : gmap string string) (offset limit : Z) :
    M (Z * list CircuitBreakerRule) :=
  get_rules genCircuitBreakerRuleSQL cb_cols cb_live cb_mtime fetchBriefCircuitBreakerRules
    fetchFullCircuitBreakerRules filter offset limit.

Definition GetCircuitBreakerRulesForCache (mtime : Z) (firstUpdate : bool) : M (list CircuitBreakerRule) :=
  rs <- Query replica (fun _ d => Ok (sql_select (fun r =>
    (mtime <? cb_mtime r) && (negb firstUpdate || negb (cb_flag r =? 1))) d)) ;;
  lift (fetchCircuitBreakerRuleRows rs).
End circuit_breaker.

(** ** Properties *)

Section circuit_breaker_facts.
Context `{Env} `{PolarisApi} `{PgInput} `{MapRange}.
Implicit Types c : conn database.

(** The enable time for a clock. *)
Definition etime_of (enable : bool) (t : Z) : Z :=
  if enable then GetCurrentTimeFormat t else emptyEnableTime.

Lemma does_etime {A} enable (f : Z -> M database A) (R : Z -> Z -> database -> A -> database -> Prop) :
  (forall t, Does (f (etime_of enable t)) (R t)) ->
  Does (Bind (buildEtimeStr enable) f) (fun now d a d' => exists t, R t now d a d').
Proof.
  intros Hf. pose proof (does_now (fun t => f (etime_of enable t)) R Hf) as [F S].
  split; [exact F|exact S].
Qed.

#[export] Instance does_create cb : Does (create_body cb)
  (does_insert (fun t : Z * Z * Z => new_cb_row cb (GetCurrentTimeFormat t.1.2) (GetCurrentTimeFormat t.2)
    (etime_of (Enable cb) t.1.1))).
Proof.
  eapply does_weaken.
  - apply does_etime. intros te. eapply does_after_ret; [apply _|]. apply does_now. intros t1.
    apply does_now. intros t2. apply does_implements, _.
  - intros now d [] d' (te & t1 & t2 & [n Hn]%p_void_Ok). by exists (te, t1, t2), n.
Qed.

(** The three updates. *)
Lemma does_cb_update (f : Z -> M database unit) enable w (set : Z * Z -> circuitbreaker_rule_v2_row -> circuitbreaker_rule_v2_row) :
  (forall te, f (etime_of enable te) = (tx_Prepare ;;; t <- time_Now ;;
     void (tx_Exec (sql_update w (fun _ => set (te, t)))))) ->
  Does (Bind (buildEtimeStr enable) f) (does_update w set).
Proof.
  intros Hf. eapply does_weaken.
  - apply does_etime. intros te. rewrite Hf. eapply does_after_ret; [apply _|].
    apply does_now. intros t. apply does_implements, _.
  - intros now d [] d' (te & t & [n Hn]%p_void_Ok). by exists (te, t), n.
Qed.

#[export] Instance does_update_cb cb : Does (update_body cb) (does_update (cb_with_id (ID cb))
  (fun t : Z * Z => set_cb cb (GetCurrentTimeFormat t.2) (etime_of (Enable cb) t.1))).
Proof. by apply does_cb_update. Qed.

#[export] Instance does_enable_cb cb : Does (enable_body cb) (does_update (cb_with_id (ID cb))
  (fun t : Z * Z => set_cb_enable cb (GetCurrentTimeFormat t.2) (etime_of (Enable cb) t.1))).
Proof. by apply does_cb_update. Qed.

#[export] Instance does_delete_cb id : Does (delete_body id) (does_update (cb_with_id id)
  (fun t : Z => set_cb_deleted (GetCurrentTimeFormat t))).
Proof.
  eapply does_weaken.
  - eapply does_after_ret; [apply _|]. apply does_now. intros t. apply does_implements, _.
  - intros now d [] d' (t & [n Hn]%p_void_Ok). by exists t, n.
Qed.
End circuit_breaker_facts.

Section circuit_breaker_properties.
Context `{Env} `{PolarisApi} `{PgInput} `{MapRange}.
Implicit Types c : conn database.

(** [CreateCircuitBreakerRule] adds one row with the rule's values, times
    of the program's clock and the enable time only if the rule is enabled;
    or it changes nothing.  An id in use, live or marked deleted, is
    refused. *)
Theorem CreateCircuitBreakerRule_correct cb c r c' :
  db_wf (committed c) -> CreateCircuitBreakerRule cb c = (r, c') ->
  let added := inserted (fun t : Z * Z * Z => new_cb_row cb (GetCurrentTimeFormat t.1.2)
    (GetCurrentTimeFormat t.2) (etime_of (Enable cb) t.1.1)) (committed c) (committed c') in
  db_wf (committed c') /\ replica c' = replica c /\ (r = Ok tt -> added) /\ (committed c' = committed c \/ added) /\
  ((exists x, x ∈ tbl (committed c) /\ cb_id x = ID cb) -> committed c' = committed c /\ is_Ok r = false).
Proof.
  intros Hd Hr added. eapply map_err_retry_does in Hr as [Ho Hre]; [|apply _].
  apply does_insert_outcome in Ho as (Hd' & Hok & Hor & Hc); [|intros; apply str_eq_refl|done].
  split_and!; auto. intros (x & Hx & Hid). apply Hc. exists x. split; [done|]. intros t. by apply str_eq_true.
Qed.

(** [UpdateCircuitBreakerRule], [EnableCircuitBreakerRule] and
    [DeleteCircuitBreakerRule] change the row of the id only. *)
Theorem UpdateCircuitBreakerRule_correct cb c r c' :
  db_wf (committed c) -> UpdateCircuitBreakerRule cb c = (r, c') ->
  let changed := updated (cb_with_id (ID cb)) (fun t : Z * Z =>
    set_cb cb (GetCurrentTimeFormat t.2) (etime_of (Enable cb) t.1)) (committed c) (committed c') in
  db_wf (committed c') /\ replica c' = replica c /\ (r = Ok tt -> changed) /\ (committed c' = committed c \/ changed).
Proof.
  intros Hd Hr changed. eapply map_err_retry_does in Hr as [Ho Hre]; [|apply _].
  apply does_update_outcome in Ho as (Hd' & Hok & Hor); auto.
Qed.

Theorem EnableCircuitBreakerRule_correct cb c r c' :
  db_wf (committed c) -> EnableCircuitBreakerRule cb c = (r, c') ->
  let changed := updated (cb_with_id (ID cb)) (fun t : Z * Z =>
    set_cb_enable cb (GetCurrentTimeFormat t.2) (etime_of (Enable cb) t.1)) (committed c) (committed c') in
  db_wf (committed c') /\ replica c' = replica c /\ (r = Ok tt -> changed) /\ (committed c' = committed c \/ changed).
Proof.
  intros Hd Hr changed. eapply map_err_retry_does in Hr as [Ho Hre]; [|apply _].
  apply does_update_outcome in Ho as (Hd' & Hok & Hor); auto.
Qed.

Theorem DeleteCircuitBreakerRule_correct id c r c' :
  db_wf (committed c) -> DeleteCircuitBreakerRule id c = (r, c') ->
  let changed := updated (cb_with_id id) (fun t => set_cb_deleted (GetCurrentTimeFormat t))
    (committed c) (committed c') in
  db_wf (committed c') /\ replica c' = replica c /\ (r = Ok tt -> changed) /\ (committed c' = committed c \/ changed).
Proof.
  intros Hd Hr changed. eapply map_err_retry_does in Hr as [Ho Hre]; [|apply _].
  apply does_update_outcome in Ho as (Hd' & Hok & Hor); auto.
Qed.

(** When the server refuses to prepare the INSERT, [CreateCircuitBreakerRule]
    panics: the error is overwritten before anyone looks at it and the
    statement is nil.  The deferred rollback still runs, so nothing is
    changed. *)
Theorem CreateCircuitBreakerRule_panics cb c e :
  fault_at (calls c) = None ->
  (fault_at (S (calls c)) = Some (FailBefore e) \/ fault_at (S (calls c)) = Some (FailAfter e)) ->
  exists w c', CreateCircuitBreakerRule cb c = (Panic w, c') /\ committed c' = committed c /\ txst c' = TxDone.
Proof.
  intros H0' H1'.
  assert (exists w c', createCircuitBreakerRule cb c = (Panic w, c') /\ committed c' = committed c /\ txst c' = TxDone)
    as (w & c' & Hc & Hcc & Ht).
  { unfold createCircuitBreakerRule, processWithTransaction, Bind at 1, Begin.
    erewrite Retry_once; [|unfold BeginTx; by rewrite H0'|done].
    unfold defer_rollback, then_commit, create_body, Bind, buildEtimeStr, time_Now, or_nil_stmt, tx_Prepare, tx_Exec.
    simpl. destruct H1' as [-> | ->]; unfold Rollback; simpl; eauto. }
  exists w, c'. split; [|done]. unfold CreateCircuitBreakerRule, map_err, RetryTransaction.
  by erewrite Retry_once; [|exact Hc|].
Qed.

(** *** Queries *)

Definition cb_full_of (r : circuitbreaker_rule_v2_row) : CircuitBreakerRule :=
  mkCircuitBreakerRule (cb_id r) (cb_name r) (cb_namespace r) (cb_enable r =? 1) (cb_revision r) (cb_description r)
    (cb_level r) (cb_src_service r) (cb_src_namespace r) (cb_dst_service r) (cb_dst_namespace r)
    (cb_dst_method r) (default "" (cb_config r)) false (cb_ctime r) (cb_mtime r) (cb_etime r).

(** What the store writes can be read. *)
Definition cb_readable (r : circuitbreaker_rule_v2_row) : Prop :=
  (cb_enable r = 0 \/ cb_enable r = 1) /\ cb_config r <> None.

Lemma fetchFullCB_Ok l : Forall cb_readable l -> fetchFullCircuitBreakerRules (Rows l None) = Ok (map cb_full_of l).
Proof.
  intros Hl. apply fetch_rows_map. intros r Hr. rewrite Forall_forall in Hl.
  destruct (Hl r Hr) as [He Hc]. unfold cb_full_of, scan_bool.
  destruct (cb_config r); [|done]. by destruct He as [-> | ->].
Qed.

(** [GetCircuitBreakerRules] returns the number of live rules its filter is
    meant to select, a list of levels included, and the requested page of
    them, newest first, in whatever order the filter is walked. *)
Theorem GetCircuitBreakerRules_correct filter offset limit c l : reliable ->
  filter !! briefSearch = None -> matching (meant cb_entry) cb_cols cb_live filter (committed c) = Ok l ->
  Forall cb_readable l ->
  fst (GetCircuitBreakerRules filter offset limit c) =
    Ok (Z.of_nat (length l), map cb_full_of (page cb_mtime offset limit l)).
Proof.
  intros Hrel Hb Hm Hl. eapply get_rules_reliable; [apply gen_rule_means, cb_step_means|done..|].
  by apply fetchFullCB_Ok, Forall_page.
Qed.

Lemma fetchBriefCB_checks : err_checking fetchBriefCircuitBreakerRules.
Proof. apply fetch_rows_err_checking. Qed.
Lemma fetchFullCB_checks : err_checking fetchFullCircuitBreakerRules.
Proof. apply fetch_rows_err_checking. Qed.

(** A filter on [enable] never works: the bool argument arrives as the text
    "true" or "false", which is no value of the integer column. *)
Theorem GetCircuitBreakerRules_enable filter v offset limit c r c' :
  filter !! "enable"%string = Some v -> v <> ""%string ->
  GetCircuitBreakerRules filter offset limit c = (r, c') -> is_Ok r = false.
Proof.
  intros Hk Hv Hr. destruct r as [out|e|w]; [|done..]. exfalso.
  assert (forall d, is_Ok (matching (meant cb_entry) cb_cols cb_live (delete briefSearch filter) d) = false) as Hm.
  { intros d. eapply matching_refused; [by rewrite lookup_delete_ne|done..|].
    unfold cond_pred, cb_entry. simpl. pose proof (pg_int_bool (parse_bool v)) as Hp. unfold cmp. simpl.
    by destruct (pg_int _). }
  unfold GetCircuitBreakerRules, get_rules in Hr. apply Bind_Ok in Hr as (l & c1 & Hp & _).
  destruct (match filter !! briefSearch with Some b => str_eq (lower b) "true" | None => false end);
    eapply (page_rules_Ok _ _ (gen_rule_means cb_step cb_entry cb_step_means)) in Hp as (l' & Hl & _);
    auto using fetchBriefCB_checks, fetchFullCB_checks; specialize (Hm (committed c)); by rewrite Hl in Hm.
Qed.

Theorem HasCircuitBreakerRuleByNameExcludeId_correct name namespace id c : reliable ->
  name <> ""%string -> namespace <> ""%string -> id <> ""%string ->
  fst (HasCircuitBreakerRuleByNameExcludeId name namespace id c) =
    Ok (existsb (fun r => cb_live r && str_eq (cb_name r) name && str_eq (cb_namespace r) namespace &&
          negb (str_eq (cb_id r) id)) (tbl (committed c))).
Proof.
  intros Hrel Hn Hns Hid. unfold HasCircuitBreakerRuleByNameExcludeId.
  apply (has_rule_plain cb_step cb_entry cb_step_means); [done| |].
  - repeat (apply map_Forall_insert_2; [by split_and!|]). apply map_Forall_empty.
  - intros r. rewrite !forallb_range, forallb_range_singleton by (by simplify_map_eq).
    change (cb_live r && ((str_eq (cb_name r) name || false) && ((str_eq (cb_namespace r) namespace || false) &&
      negb (str_eq (cb_id r) id || false))) = cb_live r && str_eq (cb_name r) name &&
      str_eq (cb_namespace r) namespace && negb (str_eq (cb_id r) id)).
    by rewrite !orb_false_r, !andb_assoc.
Qed.
End circuit_breaker_properties.
