(* ===== verification/RateLimit.v ===== *)
(** * Rate limit rules (store/postgresql/ratelimit_config.go)

    [rateLimitStore].  The INSERT of [createRateLimit] names the function
    current_timestamp where columns are listed and is refused by the server;
    update, enable and delete work by id in a retried transaction.  Rules are
    listed with the generator [genFilterRateLimitSQL] and read by the cache
    from the replica. *)
From stdpp Require Import base list strings pretty gmap sorting.
From Stdlib Require Import ZArith Lia.
From S2P Require Import Prelude Driver Rows Schema Sql Common Where RuleFilter Store.
Open Scope Z_scope.
Open Scope store_scope.

(** [model.RateLimit], the fields the store touches; of
    [model.ExtendRateLimit] the store fills this part only. *)
Record RateLimit := mkRateLimit {
  ID : string; ServiceID : string; Name : string; Method : string; Labels : string; Priority : Z;
  Rule : string; Revision : string; Disable : bool; Valid : bool; CreateTime : Z; ModifyTime : Z;
  EnableTime : Z }.

(** ** The generator *)

Definition queryKeyToDbColumn (key : string) : string :=
  if str_eq key "id" then "ratelimit_config.id"
  else if str_eq key "name" then "ratelimit_config.name"
  else if str_eq key "method" then "ratelimit_config.method"
  else if str_eq key "labels" then "ratelimit_config.labels"
  else if str_eq key "disable" then "ratelimit_config.disable"
  else "".

Definition rl_step (key value sqlKey : string) (index : Z) : cond * arg :=
  if str_eq key "name" || str_eq key "method" || str_eq key "labels" then
    (CLike sqlKey index, AStr ("%" +:+ value +:+ "%"))
  else if str_eq key "disable" then
    (CEq sqlKey index, AStr (if parse_bool value then "true" else "false"))
  else (CEq sqlKey index, AStr value).

Fixpoint genFilterRateLimitSQL_loop (query : list (string * string)) (str : list cond) (args : list arg)
    (index : Z) : list cond * list arg * Z :=
  match query with
  | [] => (str, args, index)
  | (key, value) :: query' =>
      let sqlKey := queryKeyToDbColumn key in
      if str_empty sqlKey then genFilterRateLimitSQL_loop query' str args index
      else let '(c, a) := rl_step key value sqlKey index in
           genFilterRateLimitSQL_loop query' (str ++ [c]) (args ++ [a]) (index + 1)
  end.

Definition genFilterRateLimitSQL (query : list (string * string)) (index : Z) : list cond * list arg * Z :=
  genFilterRateLimitSQL_loop query [] [] index.

Definition rl_gen (query : list (string * string)) : list cond * list arg * Z := genFilterRateLimitSQL query 1.

Definition rl_cols (col : string) : option (column ratelimit_config_row) :=
  if str_eq col "ratelimit_config.id" then Some (CText (fun r => Some (rl_id r)))
  else if str_eq col "ratelimit_config.name" then Some (CText (fun r => Some (rl_name r)))
  else if str_eq col "ratelimit_config.method" then Some (CText (fun r => Some (rl_method r)))
  else if str_eq col "ratelimit_config.labels" then Some (CText (fun r => Some (rl_labels r)))
  else if str_eq col "ratelimit_config.disable" then Some (CInt (fun r => Some (rl_disable r)))
  else None.

Definition rl_live (r : ratelimit_config_row) : bool := rl_flag r =? 0.

Section rate_limit.
Context `{Env} `{PolarisApi} `{PgInput} `{MapRange}.
Abbreviation M := (M database).

(** ** Writing *)

(** [limitToEtimeStr] *)
Definition limitToEtimeStr (limit : RateLimit) : M Z :=
  now <- time_Now ;;
  Ret (if Disable limit then emptyEnableTime else GetCurrentTimeFormat now).

(** The check at the head of the exported operations. *)
Definition with_params (what : string) (limit : RateLimit) (m : M unit) : M unit :=
  if str_empty (ID limit) || str_empty (Revision limit) then
    Fail (EMsg ("[Store][database] " +:+ what +:+ " rate limit missing some params"))
  else m.

(** [createRateLimit]: the server does not parse the statement. *)
Definition createRateLimit (limit : RateLimit) : M unit :=
  Begin ;;; defer_rollback (then_commit (
    _ <- limitToEtimeStr limit ;;
    tx_Exec (fun _ _ => Err syntax_error))).
Definition CreateRateLimit (limit : RateLimit) : M unit :=
  with_params "create" limit (map_err store_Error (RetryTransaction (createRateLimit limit))).

Definition rl_with_id (id : string) (r : ratelimit_config_row) : bool := str_eq (rl_id r) id.

Definition set_rl_enable (limit : RateLimit) (now etime : Z) (r : ratelimit_config_row) : ratelimit_config_row :=
  RatelimitConfigRow (rl_id r) (rl_name r) (boolToInt (Disable limit)) (rl_service_id r) (rl_method r)
    (rl_labels r) (rl_priority r) (rl_rule r) (Revision limit) (rl_flag r) (rl_ctime r) now etime.

Definition set_rl (limit : RateLimit) (now etime : Z) (r : ratelimit_config_row) : ratelimit_config_row :=
  RatelimitConfigRow (rl_id r) (Name limit) (boolToInt (Disable limit)) (ServiceID limit) (Method limit)
    (Labels limit) (Priority limit) (Rule limit) (Revision limit) (rl_flag r) (rl_ctime r) now etime.

Definition set_rl_deleted (now : Z) (r : ratelimit_config_row) : ratelimit_config_row :=
  RatelimitConfigRow (rl_id r) (rl_name r) (rl_disable r) (rl_service_id r) (rl_method r)
    (rl_labels r) (rl_priority r) (rl_rule r) (rl_revision r) 1 (rl_ctime r) now (rl_etime r).

Definition enable_body (limit : RateLimit) : M unit :=
  etimeStr <- limitToEtimeStr limit ;;
  void (stmt_Exec (sql_update (rl_with_id (ID limit)) (fun now => set_rl_enable limit now etimeStr))).
Definition enableRateLimit (limit : RateLimit) : M unit :=
  Begin ;;; defer_rollback (then_commit (enable_body limit)).
Definition EnableRateLimit (limit : RateLimit) : M unit :=
  with_params "enable" limit (map_err store_Error (RetryTransaction (enableRateLimit limit))).

Definition update_body (limit : RateLimit) : M unit :=
  etimeStr <- limitToEtimeStr limit ;;
  void (stmt_Exec (sql_update (rl_with_id (ID limit)) (fun now => set_rl limit now etimeStr))).
Definition updateRateLimit (limit : RateLimit) : M unit :=
  Begin ;;; defer_rollback (then_commit (update_body limit)).
Definition UpdateRateLimit (limit : RateLimit) : M unit :=
  with_params "update" limit (map_err store_Error (RetryTransaction (updateRateLimit limit))).

Definition deleteRateLimit (limit : RateLimit) : M unit :=
  Begin ;;; defer_rollback (then_commit (void (stmt_Exec (sql_update (rl_with_id (ID limit)) set_rl_deleted)))).
Definition DeleteRateLimit (limit : RateLimit) : M unit :=
  with_params "delete" limit (map_err store_Error (RetryTransaction (deleteRateLimit limit))).

(** ** Reading *)

Definition fetchRateLimitRows (rs : rows ratelimit_config_row) : res (list RateLimit) :=
  fetch_rows (fun r => disable <-? scan_bool (rl_disable r) ;;
    Ok (mkRateLimit (rl_id r) (rl_service_id r) (rl_name r) (rl_method r) (rl_labels r) (rl_priority r)
      (rl_rule r) (rl_revision r) disable (negb (rl_flag r =? 1)) (rl_ctime r) (rl_mtime r) (rl_etime r))) rs.

(** [GetRateLimitWithID] *)
Definition GetRateLimitWithID (id : string) : M (option RateLimit) :=
  if str_empty id then Fail (EMsg "get rate limit missing some params")
  else
    rs <- Query committed (fun _ d => Ok (sql_select (fun r => str_eq (rl_id r) id && (rl_flag r =? 0)) d)) ;;
    out <- lift (fetchRateLimitRows rs) ;;
    Ret (head out).

Definition fetchRateLimitCacheRows (rs : rows ratelimit_config_row) : res (list RateLimit) :=
  fetch_rows (fun r =>
    Ok (mkRateLimit (rl_id r) (rl_service_id r) (rl_name r) (rl_method r) (rl_labels r) (rl_priority r)
      (rl_rule r) (rl_revision r) (rl_disable r =? 1) (negb (rl_flag r =? 1)) (rl_ctime r) (rl_mtime r)
      (rl_etime r))) rs.

Definition GetRateLimitsForCache (mtime : Z) (firstUpdate : bool) : M (list RateLimit) :=
  rs <- Query replica (fun _ d => Ok (sql_select (fun r =>
    (mtime <? rl_mtime r) && (negb firstUpdate || negb (rl_flag r =? 1))) d)) ;;
  lift (fetchRateLimitCacheRows rs).

Definition fetchBriefRateLimitRows (rs : rows ratelimit_config_row) : res (list RateLimit) :=
  fetch_rows (fun r => disable <-? scan_bool (rl_disable r) ;;
    Ok (mkRateLimit (rl_id r) (rl_service_id r) (rl_name r) (rl_method r) "" 0 "" "" disable false
      (rl_ctime r) (rl_mtime r) (rl_etime r))) rs.

Definition fetchExpandRateLimitRows (rs : rows ratelimit_config_row) : res (list RateLimit) :=
  fetch_rows (fun r => disable <-? scan_bool (rl_disable r) ;;
    Ok (mkRateLimit (rl_id r) (rl_service_id r) (rl_name r) (rl_method r) (rl_labels r) (rl_priority r)
      (rl_rule r) (rl_revision r) disable false (rl_ctime r) (rl_mtime r) (rl_etime r))) rs.

Definition getBriefRateLimits : gmap string string -> Z -> Z -> M (list RateLimit) :=
  page_rules rl_gen rl_cols rl_live rl_mtime fetchBriefRateLimitRows.
Definition getExpandRateLimits : gmap string string -> Z -> Z -> M (list RateLimit) :=
  page_rules rl_gen rl_cols rl_live rl_mtime fetchExpandRateLimitRows.
Definition getExpandRateLimitsCount : gmap string string -> M Z := count_rules rl_gen rl_cols rl_live.

(** [GetExtendRateLimits]: the key [brief] stays in the filter, whose unknown
    keys are skipped. *)
Definition GetExtendRateLimits (filter : gmap string string) (offset limit : Z) : M (Z * list RateLimit) :=
  let isBrief := match filter !! briefSearch with Some b => str_eq (lower b) "true" | None => false end in
  out <- (if isBrief then getBriefRateLimits filter offset limit else getExpandRateLimits filter offset limit) ;;
  num <- getExpandRateLimitsCount filter ;;
  Ret (num, out).
End rate_limit.

(** ** What the filter means *)

Definition rl_entry (key value : string) : bcond :=
  let col := queryKeyToDbColumn key in
  if str_eq key "name" || str_eq key "method" || str_eq key "labels" then BLike col ("%" +:+ value +:+ "%")
  else if str_eq key "disable" then BEq col (if parse_bool value then "true" else "false")
  else BEq col value.

Definition rl_meant (query : list (string * string)) : list bcond :=
  map (fun kv => rl_entry (fst kv) (snd kv)) (keep (fun kv => negb (str_empty (queryKeyToDbColumn (fst kv)))) query).

Lemma rl_loop_means query : forall str args idx, in_order 1 (str, args, idx) ->
  let '(str', args', idx') := genFilterRateLimitSQL_loop query str args idx in
  in_order 1 (str', args', idx') /\ map (fill args') str' = map (fill args) str ++ rl_meant query.
Proof.
  unfold rl_meant. induction query as [|[key value] query IH]; intros str args idx Ho; simpl.
  { by rewrite app_nil_r. }
  destruct (str_empty (queryKeyToDbColumn key)); [by apply IH|]. simpl.
  assert (exists c a, rl_step key value (queryKeyToDbColumn key) idx = (c, a) /\ cond_phs c = [idx] /\
    fill (args ++ [a]) c = rl_entry key value) as (c & a & -> & Hc & Hf).
  { unfold rl_step, rl_entry. repeat case_match; (eexists _, _; split; [done|split; [done|]]); simpl;
      by rewrite arg_at_last by apply Ho. }
  destruct (in_order_fill_snoc str args idx c [a] (idx + 1) Ho (one_cond _ _ _ Hc)) as [Ho' Hf'].
  specialize (IH _ _ _ Ho'). destruct (genFilterRateLimitSQL_loop _ _ _ _) as [[str' args'] idx'].
  destruct IH as [H1 H2]. split; [done|]. by rewrite H2, Hf', Hf, <- app_assoc.
Qed.

Lemma rl_gen_means : gen_means rl_gen rl_meant.
Proof.
  intros query. unfold rl_gen, genFilterRateLimitSQL. pose proof (rl_loop_means query [] [] 1 (in_order_nil 1)) as Hl.
  by destruct (genFilterRateLimitSQL_loop _ _ _ _) as [[str args] idx].
Qed.

(** ** Properties *)

Section rate_limit_facts.
Context `{Env} `{PolarisApi} `{PgInput} `{MapRange}.
Implicit Types c : conn database.

Definition rl_etime_of (disable : bool) (t : Z) : Z :=
  if disable then emptyEnableTime else GetCurrentTimeFormat t.

Lemma does_limit_etime {A} limit (f : Z -> M database A) (R : Z -> Z -> database -> A -> database -> Prop) :
  (forall t, Does (f (rl_etime_of (Disable limit) t)) (R t)) ->
  Does (Bind (limitToEtimeStr limit) f) (fun now d a d' => exists t, R t now d a d').
Proof.
  intros Hf. pose proof (does_now (fun t => f (rl_etime_of (Disable limit) t)) R Hf) as [F S].
  split; [exact F|exact S].
Qed.

(** The values of the update depend on CURRENT_TIMESTAMP and on the clock. *)
Lemma does_limit_update limit w (set : Z -> Z -> ratelimit_config_row -> ratelimit_config_row) :
  Does (Bind (limitToEtimeStr limit) (fun etime => void (stmt_Exec (sql_update w (fun now => set now etime)))))
    (does_update w (fun t : Z * Z => set t.1 (rl_etime_of (Disable limit) t.2))).
Proof.
  eapply does_weaken; [apply does_limit_etime; intros t; apply does_implements, _|].
  intros now d [] d' (t & [n Hn]%p_void_Ok). by exists (now, t), n.
Qed.
End rate_limit_facts.

Section rate_limit_properties.
Context `{Env} `{PolarisApi} `{PgInput} `{MapRange}.
Implicit Types c : conn database.

(** [CreateRateLimit] never creates a rule: its INSERT lists
    current_timestamp among the columns, which is a syntax error. *)
Theorem CreateRateLimit_fails limit c r c' :
  CreateRateLimit limit c = (r, c') ->
  committed c' = committed c /\ replica c' = replica c /\ is_Ok r = false.
Proof.
  unfold CreateRateLimit, with_params. destruct (_ || _); [intros [= <- <-]; split_and!; done|]. intros Hr.
  assert (Does (Bind (limitToEtimeStr limit) (fun _ => tx_Exec (fun _ _ => Err syntax_error)))
    (fun _ _ (_ : unit) (_ : database) => False)) as Hdoes.
  { eapply does_weaken; [apply does_limit_etime; intros t; apply does_implements, _|].
    by intros now d a d' (t & Ht). }
  apply (map_err_retry_does _ _ _) in Hr as [Ho Hre].
  apply retried_does_stuck in Ho as [? ?]; [by split_and!|]. by intros ??? [].
Qed.

(** [UpdateRateLimit], [EnableRateLimit] and [DeleteRateLimit] change the row
    of the id only, and nothing when an id or revision is missing. *)
Theorem UpdateRateLimit_correct limit c r c' :
  db_wf (committed c) -> UpdateRateLimit limit c = (r, c') ->
  let changed := updated (rl_with_id (ID limit)) (fun t : Z * Z =>
    set_rl limit t.1 (rl_etime_of (Disable limit) t.2)) (committed c) (committed c') in
  db_wf (committed c') /\ replica c' = replica c /\ (r = Ok tt -> changed) /\ (committed c' = committed c \/ changed).
Proof.
  intros Hd. unfold UpdateRateLimit, with_params. destruct (_ || _); [intros [= <- <-]; split_and!; auto; by intros [=]|]. intros Hr.
  eapply map_err_retry_does in Hr as [Ho Hre]; [|apply does_limit_update].
  apply does_update_outcome in Ho as (Hd' & Hok & Hor); auto.
Qed.

Theorem EnableRateLimit_correct limit c r c' :
  db_wf (committed c) -> EnableRateLimit limit c = (r, c') ->
  let changed := updated (rl_with_id (ID limit)) (fun t : Z * Z =>
    set_rl_enable limit t.1 (rl_etime_of (Disable limit) t.2)) (committed c) (committed c') in
  db_wf (committed c') /\ replica c' = replica c /\ (r = Ok tt -> changed) /\ (committed c' = committed c \/ changed).
Proof.
  intros Hd. unfold EnableRateLimit, with_params. destruct (_ || _); [intros [= <- <-]; split_and!; auto; by intros [=]|]. intros Hr.
  eapply map_err_retry_does in Hr as [Ho Hre]; [|apply does_limit_update].
  apply does_update_outcome in Ho as (Hd' & Hok & Hor); auto.
Qed.

Theorem DeleteRateLimit_correct limit c r c' :
  db_wf (committed c) -> DeleteRateLimit limit c = (r, c') ->
  let changed := updated (rl_with_id (ID limit)) set_rl_deleted (committed c) (committed c') in
  db_wf (committed c') /\ replica c' = replica c /\ (r = Ok tt -> changed) /\ (committed c' = committed c \/ changed).
Proof.
  intros Hd. unfold DeleteRateLimit, with_params. destruct (_ || _); [intros [= <- <-]; split_and!; auto; by intros [=]|]. intros Hr.
  eapply (refines_map_err store_Error) in Hr as [Ho Hre]; [|apply refines_retry_process, _].
  apply update_row_outcome in Ho as (Hd' & Hok & Hor); auto.
Qed.

(** *** Queries *)

Definition rl_expand_of (r : ratelimit_config_row) : RateLimit :=
  mkRateLimit (rl_id r) (rl_service_id r) (rl_name r) (rl_method r) (rl_labels r) (rl_priority r)
    (rl_rule r) (rl_revision r) (rl_disable r =? 1) false (rl_ctime r) (rl_mtime r) (rl_etime r).

Lemma scan_bool_ok n : n = 0 \/ n = 1 -> scan_bool n = Ok (n =? 1).
Proof. by intros [-> | ->]. Qed.

(** [GetExtendRateLimits] returns the number of live rules its filter is
    meant to select and the requested page of them, newest first. *)
Theorem GetExtendRateLimits_correct filter offset limit c l : reliable ->
  filter !! briefSearch = None -> matching rl_meant rl_cols rl_live filter (committed c) = Ok l ->
  Forall (fun r => rl_disable r = 0 \/ rl_disable r = 1) l ->
  fst (GetExtendRateLimits filter offset limit c) =
    Ok (Z.of_nat (length l), map rl_expand_of (page rl_mtime offset limit l)).
Proof.
  intros Hrel Hb Hm Hl. unfold GetExtendRateLimits. rewrite Hb.
  erewrite Bind_run by (eapply page_rules_reliable; [apply rl_gen_means|done|done|apply (fetch_rows_map _ rl_expand_of);
    intros r Hr; rewrite scan_bool_ok; [done|]; rewrite Forall_forall in Hl; by eapply Hl, elem_of_page]).
  erewrite Bind_run; [done|]. by apply (count_rules_reliable _ _ rl_gen_means).
Qed.

(** [GetRateLimitWithID] after an update shows the new values, the enable
    time being unset for a disabled rule. *)
Theorem GetRateLimitWithID_correct id c x : reliable -> db_wf (committed c) -> id <> ""%string ->
  x ∈ tbl (committed c) -> rl_id x = id -> rl_flag x = 0 -> (rl_disable x = 0 \/ rl_disable x = 1) ->
  fst (GetRateLimitWithID id c) =
    Ok (Some (mkRateLimit (rl_id x) (rl_service_id x) (rl_name x) (rl_method x) (rl_labels x) (rl_priority x)
      (rl_rule x) (rl_revision x) (rl_disable x =? 1) true (rl_ctime x) (rl_mtime x) (rl_etime x))).
Proof.
  intros Hrel Hd Hid Hx Hxid Hlive Hdis. unfold GetRateLimitWithID. rewrite str_empty_false by done.
  assert (sql_select (fun r => str_eq (rl_id r) id && (rl_flag r =? 0)) (committed c) = [x]) as Hsel.
  { eapply keep_unique; [by apply tbl_distinct|done| |].
    - by rewrite Hxid, str_eq_refl, Hlive.
    - intros y z. rewrite !andb_true_iff, !str_eq_true. intros [Hy _] [Hz _]. apply str_eq_true. congruence. }
  erewrite Query_then; [|done|exact (f_equal Ok Hsel)].
  unfold Bind, lift, fetchRateLimitRows, fetch_rows. simpl. rewrite scan_bool_ok by done. simpl. by rewrite Hlive.
Qed.
End rate_limit_properties.
