(* ===== verification/RoutingV2.v ===== *)
(** * Routing rules, second version (store/postgresql/routing_config_v2.go)

    [routingConfigStoreV2]: rules keyed by id.  Creation first removes a row
    of the id marked deleted; creation and update can run in a transaction of
    the caller, which they leave open; enabling and deletion are single
    statements prepared on the pool.  The namespace of a rule is written and
    never read back. *)
From stdpp Require Import base list strings.
From Stdlib Require Import ZArith Lia.
From S2P Require Import Prelude Driver Rows Schema Sql Common Store.
Open Scope Z_scope.
Open Scope store_scope.

(** [model.RouterConfig], the fields the store touches. *)
Record RouterConfig := mkRouterConfig {
  ID : string; Namespace : string; Name : string; Policy : string; Config : string; Enable : bool;
  Priority : Z; Revision : string; Description : string; Valid : bool; CreateTime : Z;
  ModifyTime : Z; EnableTime : Z }.

Section routing.
Context `{Env} `{PolarisApi}.
Abbreviation M := (M database).

(** ** Writing *)

Definition missing_id : error := EStatus EmptyParamsErr "missing id or revision".
Definition missing_params : error := EStatus EmptyParamsErr "missing some params".

Definition checked (conf : RouterConfig) {A} (m : M A) : M A :=
  if str_empty (ID conf) || str_empty (Revision conf) then Fail missing_id
  else if str_empty (Policy conf) || str_empty (Config conf) then Fail missing_params
  else m.

Definition rv_with_id (id : string) (r : routing_config_v2_row) : bool := str_eq (rv_id r) id.
Definition rv_dead (id : string) (r : routing_config_v2_row) : bool := rv_with_id id r && (rv_flag r =? 1).

Definition new_rv_row (conf : RouterConfig) (now etime : Z) : routing_config_v2_row :=
  RoutingConfigV2Row (ID conf) (Name conf) (Namespace conf) (Policy conf) (Some (Config conf))
    (boolToInt (Enable conf)) (Revision conf) (Description conf) (Priority conf) 0 now now etime.

(** The clock is looked at only for an enabled rule. *)
Definition enable_time (enable : bool) : M Z :=
  if enable then t <- time_Now ;; Ret (GetCurrentTimeFormat t) else Ret emptyEnableTime.

(** [createRoutingConfigV2Tx] *)
Definition createRoutingConfigV2Tx (conf : RouterConfig) : M unit :=
  map_err store_Error (stmt_Exec (sql_delete (rv_dead (ID conf)))) ;;;
  etime <- enable_time (Enable conf) ;;
  void (map_err store_Error (stmt_Exec (sql_insert (fun now => [new_rv_row conf now etime])))).

(** [CreateRoutingConfigV2] *)
Definition CreateRoutingConfigV2 (conf : RouterConfig) : M unit :=
  checked conf (map_err store_Error (RetryTransaction
    (Begin ;;; defer_rollback (commit_with store_Error (createRoutingConfigV2Tx conf))))).

(** [CreateRoutingConfigV2Tx] leaves the transaction open. *)
Definition CreateRoutingConfigV2Tx (tx : option unit) (conf : RouterConfig) : M unit :=
  with_tx tx (createRoutingConfigV2Tx conf).

Definition set_rv (conf : RouterConfig) (now : Z) (r : routing_config_v2_row) : routing_config_v2_row :=
  RoutingConfigV2Row (rv_id r) (Name conf) (rv_namespace r) (Policy conf) (Some (Config conf))
    (rv_enable r) (Revision conf) (Description conf) (Priority conf) (rv_flag r) (rv_ctime r) now (rv_etime r).

(** [updateRoutingConfigV2Tx] *)
Definition updateRoutingConfigV2Tx (conf : RouterConfig) : M unit :=
  checked conf (void (map_err store_Error (stmt_Exec (sql_update (rv_with_id (ID conf)) (set_rv conf))))).

(** [UpdateRoutingConfigV2]: no retry. *)
Definition UpdateRoutingConfigV2 (conf : RouterConfig) : M unit :=
  Begin ;;; defer_rollback (commit_with store_Error (updateRoutingConfigV2Tx conf)).

Definition UpdateRoutingConfigV2Tx (tx : option unit) (conf : RouterConfig) : M unit :=
  with_tx tx (updateRoutingConfigV2Tx conf).

Definition set_rv_enable (conf : RouterConfig) (now etime : Z) (r : routing_config_v2_row) : routing_config_v2_row :=
  RoutingConfigV2Row (rv_id r) (rv_name r) (rv_namespace r) (rv_policy r) (rv_config r)
    (boolToInt (Enable conf)) (Revision conf) (rv_description r) (rv_priority r) (rv_flag r) (rv_ctime r) now etime.

(** [EnableRouting] *)
Definition EnableRouting (conf : RouterConfig) : M unit :=
  if str_empty (ID conf) || str_empty (Revision conf) then
    Fail (EMsg "[Store][database] enable routing config v2 missing some params")
  else map_err store_Error (RetryTransaction (
    etime <- enable_time (Enable conf) ;;
    DB_Prepare ;;;
    void (DB_Exec (sql_update (rv_with_id (ID conf)) (fun now => set_rv_enable conf now etime))))).

Definition set_rv_deleted (now : Z) (r : routing_config_v2_row) : routing_config_v2_row :=
  RoutingConfigV2Row (rv_id r) (rv_name r) (rv_namespace r) (rv_policy r) (rv_config r) (rv_enable r)
    (rv_revision r) (rv_description r) (rv_priority r) 1 (rv_ctime r) now (rv_etime r).

(** [DeleteRoutingConfigV2]: prepared on the pool, without retry. *)
Definition DeleteRoutingConfigV2 (ruleID : string) : M unit :=
  if str_empty ruleID then Fail (EStatus EmptyParamsErr "missing service id")
  else map_err store_Error (
    DB_Prepare ;;;
    void (DB_Exec (sql_update (rv_with_id ruleID) set_rv_deleted))).

(** ** Reading *)

Definition fetchRoutingConfigV2Rows (rs : rows routing_config_v2_row) : res (list RouterConfig) :=
  fetch_rows (fun r => config <-? scan_string (rv_config r) ;;
    Ok (mkRouterConfig (rv_id r) "" (rv_name r) (rv_policy r) config (rv_enable r =? 1) (rv_priority r)
      (rv_revision r) (rv_description r) (negb (rv_flag r =? 1)) (rv_ctime r) (rv_mtime r) (rv_etime r))) rs.

Definition GetRoutingConfigsV2ForCache (mtime : Z) (firstUpdate : bool) : M (list RouterConfig) :=
  rs <- Query replica (fun _ d => Ok (sql_select (fun r =>
    (mtime <? rv_mtime r) && (negb firstUpdate || negb (rv_flag r =? 1))) d)) ;;
  lift (fetchRoutingConfigV2Rows rs).

Definition getRoutingConfigV2WithIDTx (ruleID : string) : M (option RouterConfig) :=
  rs <- tx_Query (fun _ d => Ok (sql_select (fun r => rv_with_id ruleID r && (rv_flag r =? 0)) d)) ;;
  out <- lift (fetchRoutingConfigV2Rows rs) ;;
  Ret (head out).

(** [GetRoutingConfigV2WithID]: in a transaction that is rolled back. *)
Definition GetRoutingConfigV2WithID (ruleID : string) : M (option RouterConfig) :=
  Begin ;;; defer_rollback (getRoutingConfigV2WithIDTx ruleID).

Definition GetRoutingConfigV2WithIDTx (tx : option unit) (ruleID : string) : M (option RouterConfig) :=
  match tx with
  | None => Fail (EMsg "transaction is nil")
  | Some _ => getRoutingConfigV2WithIDTx ruleID
  end.
End routing.

(** ** Properties *)

Section routing_facts.
Context `{Env} `{PolarisApi}.
Implicit Types c : conn database.

Definition rv_etime_of (enable : bool) (t : Z) : Z :=
  if enable then GetCurrentTimeFormat t else emptyEnableTime.

(** What one effective creation does. *)
Definition rv_created (conf : RouterConfig) (now : Z) (d d' : database) : Prop :=
  exists t, let row := new_rv_row conf now (rv_etime_of (Enable conf) t) in
    let kept := keep (fun r => negb (rv_dead (ID conf) r)) (tbl d) in
    d' = set_tbl (kept ++ [row]) d /\ distinct clash (kept ++ [row]) = true.

Lemma does_enable_time {A} enable (f : Z -> M database A) (R : Z -> Z -> database -> A -> database -> Prop) :
  (forall t, Does (f (rv_etime_of enable t)) (R t)) ->
  Does (Bind (enable_time enable) f) (fun now d a d' => exists t, R t now d a d').
Proof.
  intros Hf. destruct enable.
  - pose proof (does_now (fun t => f (GetCurrentTimeFormat t)) R Hf) as [F S]. split; [exact F|exact S].
  - eapply does_weaken; [exact (Hf 0)|]. intros now d a d' Hr. by exists 0.
Qed.

#[export] Instance does_create conf :
  Does (createRoutingConfigV2Tx conf) (fun now d _ d' => rv_created conf now d d').
Proof.
  eapply does_weaken.
  - unfold createRoutingConfigV2Tx. eapply (does_bind _ _ (fun now d n d' =>
      p_map_err store_Error (sql_delete (rv_dead (ID conf))) now d = Ok (n, d')) (fun _ => _)); [apply does_implements, _|].
    intros n. apply does_enable_time. intros t. apply does_implements, _.
  - intros now d [] d' (n & d1 & Hn%p_map_err_Ok & (t & [k Hk]%p_void_Ok)). injection Hn as _ <-.
    apply p_map_err_Ok in Hk. exists t. apply insert_Ok_inv in Hk as [-> Hk].
    rewrite tbl_set, set_set in *. done.
Qed.

Lemma rv_created_wf conf now d d' : db_wf d -> rv_created conf now d d' -> db_wf d'.
Proof. intros Hd (t & -> & Hk). by apply set_tbl_wf. Qed.

(** A second creation finds the live row of the first. *)
Lemma rv_created_once conf now now' d d1 d2 : rv_created conf now d d1 -> ~ rv_created conf now' d1 d2.
Proof.
  intros (t & -> & Hk) (t' & _ & Hk'). rewrite tbl_set, keep_app in Hk'.
  set (row := new_rv_row conf now (rv_etime_of (Enable conf) t)) in Hk'.
  assert (keep (fun r => negb (rv_dead (ID conf) r)) [row] = [row]) as Hrow.
  { simpl. unfold rv_dead. by rewrite andb_false_r. }
  rewrite Hrow, <- app_assoc in Hk'. apply distinct_app in Hk' as (_ & Hk' & _).
  apply distinct_cons in Hk' as [Hk' _]. specialize (Hk' _ (list_elem_of_here _ _)).
  unfold clash in Hk'. simpl in Hk'. unfold clash_routing_config_v2 in Hk'. simpl in Hk'. by rewrite str_eq_refl in Hk'.
Qed.
End routing_facts.

Section routing_properties.
Context `{Env} `{PolarisApi}.
Implicit Types c : conn database.

(** C29: [CreateRoutingConfigV2] on every branch: without id, revision, policy or
    config it fails at once; otherwise the committed content has the new row
    in place of one marked deleted, exactly once whatever was retried, or it
    is unchanged.  A live rule with the id is never replaced. *)
Theorem CreateRoutingConfigV2_correct conf c r c' :
  db_wf (committed c) -> CreateRoutingConfigV2 conf c = (r, c') ->
  db_wf (committed c') /\ replica c' = replica c /\
  (r = Ok tt -> exists now, rv_created conf now (committed c) (committed c')) /\
  (committed c' = committed c \/ exists now, rv_created conf now (committed c) (committed c')) /\
  ((ID conf = "" \/ Revision conf = "" \/ Policy conf = "" \/ Config conf = "")%string ->
     committed c' = committed c /\ exists m, r = Err (EStatus EmptyParamsErr m)) /\
  ((exists x, x ∈ tbl (committed c) /\ rv_id x = ID conf /\ rv_flag x = 0) ->
     committed c' = committed c /\ is_Ok r = false).
Proof.
  intros Hd. unfold CreateRoutingConfigV2, checked.
  destruct (str_empty (ID conf) || str_empty (Revision conf)) eqn:E1.
  { intros [= <- <-]. split_and!; auto; [done|]. intros _. split; [done|by eexists]. }
  destruct (str_empty (Policy conf) || str_empty (Config conf)) eqn:E2.
  { intros [= <- <-]. split_and!; auto; [done|]. intros _. split; [done|by eexists]. }
  intros Hr. eapply Retry_store_Error in Hr as [Ho Hre]; [|apply (attempt_commit_with store_Error _ _)].
  assert (forall now now' x (a : unit) y (a' : unit) z, rv_created conf now x y -> ~ rv_created conf now' y z) as Honce.
  { intros. by eapply rv_created_once. }
  split; [|split; [done|split; [|split; [|split]]]].
  - eapply (retried_does_inv db_wf); [|exact Hd|exact Ho]. intros now x a y Hx Hy. exact (rv_created_wf _ _ _ _ Hx Hy).
  - intros ->. by apply (retried_does_once _ _ _ _ Honce) in Ho.
  - apply (retried_does_once _ _ _ _ Honce) in Ho. destruct r; [by right|..];
      (destruct Ho as [?|(now & _ & ?)]; [by left|right; eauto]).
  - booleans. intros [Hx|[Hx|[Hx|Hx]]]; apply str_empty_spec in Hx; congruence.
  - intros (x & Hx & Hid & Hlive). eapply retried_does_stuck; [|exact Ho].
    intros now a d1 (t & _ & Hk). apply distinct_app in Hk as (_ & _ & Hk).
    specialize (Hk x (new_rv_row conf now (rv_etime_of (Enable conf) t))).
    assert (clash x (new_rv_row conf now (rv_etime_of (Enable conf) t)) = false) as Hc.
    { apply Hk; [|by left]. apply elem_of_keep. split; [done|]. unfold rv_dead. by rewrite Hlive, andb_false_r. }
    apply str_eq_false in Hc. by apply Hc.
Qed.

(** [UpdateRoutingConfigV2] and [DeleteRoutingConfigV2] are one attempt each,
    [EnableRouting] is retried; they change the row of the id only. *)
Theorem UpdateRoutingConfigV2_correct conf c r c' :
  UpdateRoutingConfigV2 conf c = (r, c') ->
  let changed := updated (rv_with_id (ID conf)) (set_rv conf) (committed c) (committed c') in
  replica c' = replica c /\ (r = Ok tt -> changed) /\ (committed c' = committed c \/ changed).
Proof.
  intros Hr changed.
  assert (Does (updateRoutingConfigV2Tx conf) (does_update (rv_with_id (ID conf)) (set_rv conf))) as Hdoes.
  { unfold updateRoutingConfigV2Tx, checked. destruct (_ || _); [|destruct (_ || _)];
      (eapply does_weaken; [apply does_implements, _|]).
    - done.
    - done.
    - intros now d [] d' [n Hn%p_map_err_Ok]%p_void_Ok. by exists now, n. }
  apply (attempt_commit_with store_Error _ _) in Hr as [Ho Hre]. split; [done|].
  assert (forall now a d', does_update (rv_with_id (ID conf)) (set_rv conf) now (committed c) a d' ->
    updated (rv_with_id (ID conf)) (set_rv conf) (committed c) d') as Hu.
  { intros now a d' (x & n & [-> _]%update_Ok_inv). by exists x. }
  destruct r as [[]|e|w]; simpl in Ho.
  - destruct Ho as [now Ho]. apply Hu in Ho. auto.
  - split; [done|]. destruct Ho as [->|(now & a & Ho)]; [by left|right; by eapply Hu].
  - split; [done|by left].
Qed.

Theorem DeleteRoutingConfigV2_correct id c r c' :
  DeleteRoutingConfigV2 id c = (r, c') ->
  let changed := updated (rv_with_id id) set_rv_deleted (committed c) (committed c') in
  replica c' = replica c /\ (r = Ok tt -> id <> ""%string /\ changed) /\ (committed c' = committed c \/ changed).
Proof.
  unfold DeleteRoutingConfigV2. destruct (str_empty id) eqn:E.
  { intros [= <- <-]. split_and!; auto; by intros [=]. }
  intros Hr. apply bool_decide_eq_false in E.
  assert (attempt_does (DB_Prepare ;;; void (DB_Exec (sql_update (rv_with_id id) set_rv_deleted)))
    (does_update (rv_with_id id) set_rv_deleted)) as Ha.
  { intros x rx x'. unfold DB_Prepare, Bind at 1.
    destruct (fault_at (calls x)) as [fl|]; [intros; simplify_eq; simpl; auto|].
    unfold void, Bind, Ret. destruct (DB_Exec _ _) as [r0 x0] eqn:E0. apply DB_Exec_spec in E0 as [Ho Hre].
    unfold tx_outcome in Ho. destruct r0 as [n|e|w]; intros; simplify_eq; (split; [|done]); simpl.
    - destruct Ho as [now Ho]. by exists now, now, n.
    - destruct Ho as [->|(now & n & Ho)]; [by left|right]. by exists now, tt, now, n.
    - done. }
  apply (attempt_map_err store_Error _ _ Ha) in Hr as [Ho Hre]. split; [done|].
  assert (forall now a d', does_update (rv_with_id id) set_rv_deleted now (committed c) a d' ->
    updated (rv_with_id id) set_rv_deleted (committed c) d') as Hu.
  { intros now a d' (x & n & [-> _]%update_Ok_inv). by exists x. }
  destruct r as [[]|e|w]; simpl in Ho.
  - destruct Ho as [now Ho]. apply Hu in Ho. auto.
  - split; [done|]. destruct Ho as [->|(now & a & Ho)]; [by left|right; by eapply Hu].
  - split; [done|by left].
Qed.

Theorem EnableRouting_correct conf c r c' :
  db_wf (committed c) -> EnableRouting conf c = (r, c') ->
  let changed := updated (rv_with_id (ID conf)) (fun t : Z * Z =>
    set_rv_enable conf t.1 (rv_etime_of (Enable conf) t.2)) (committed c) (committed c') in
  db_wf (committed c') /\ replica c' = replica c /\ (r = Ok tt -> changed) /\ (committed c' = committed c \/ changed).
Proof.
  intros Hd. unfold EnableRouting. destruct (_ || _); [intros [= <- <-]; split_and!; auto; by intros [=]|].
  intros Hr.
  assert (attempt_does (etime <- enable_time (Enable conf) ;; DB_Prepare ;;;
    void (DB_Exec (sql_update (rv_with_id (ID conf)) (fun now => set_rv_enable conf now etime))))
    (does_update (rv_with_id (ID conf)) (fun t : Z * Z => set_rv_enable conf t.1 (rv_etime_of (Enable conf) t.2)))) as Ha.
  { intros x rx x' Hx. set (t := utc (calls x)).
    assert ((DB_Prepare ;;; void (DB_Exec (sql_update (rv_with_id (ID conf)) (fun now =>
      set_rv_enable conf now (rv_etime_of (Enable conf) t))))) x = (rx, x')) as Hx'.
    { by destruct (Enable conf). }
    revert Hx'. unfold DB_Prepare, Bind at 1.
    destruct (fault_at (calls x)) as [fl|]; [intros; simplify_eq; simpl; auto|].
    unfold void, Bind, Ret. destruct (DB_Exec _ _) as [r0 x0] eqn:E0. apply DB_Exec_spec in E0 as [Ho Hre].
    unfold tx_outcome in Ho. destruct r0 as [n|e|w]; intros; simplify_eq; (split; [|done]); simpl.
    - destruct Ho as [now Ho]. by exists now, (now, t), n.
    - destruct Ho as [->|(now & n & Ho)]; [by left|right]. by exists now, tt, (now, t), n.
    - done. }
  apply (Retry_store_Error store_Error _ _ _ _ _ Ha) in Hr as [Ho Hre].
  apply does_update_outcome in Ho as (Hd' & Hok & Hor); auto.
Qed.

(** *** Reading *)

Definition rv_shown (x : routing_config_v2_row) : RouterConfig :=
  mkRouterConfig (rv_id x) "" (rv_name x) (rv_policy x) (default "" (rv_config x)) (rv_enable x =? 1)
    (rv_priority x) (rv_revision x) (rv_description x) (negb (rv_flag x =? 1)) (rv_ctime x) (rv_mtime x) (rv_etime x).

(** Without faults [GetRoutingConfigV2WithID] finds exactly the live row. *)
Lemma GetRoutingConfigV2WithID_run id c l : reliable ->
  sql_select (fun r => rv_with_id id r && (rv_flag r =? 0)) (committed c) = l ->
  Forall (fun r => rv_config r <> None) l ->
  fst (GetRoutingConfigV2WithID id c) = Ok (head (map rv_shown l)).
Proof.
  intros Hrel Hl Hc. unfold GetRoutingConfigV2WithID, Bind at 1. rewrite Begin_reliable by done.
  unfold defer_rollback, getRoutingConfigV2WithIDTx, Bind at 1, tx_Query, tx_Exec. simpl.
  rewrite (Hrel (S (calls c))). simpl. rewrite Hl. unfold Bind, lift, fetchRoutingConfigV2Rows.
  rewrite (fetch_rows_map _ rv_shown); [done|].
  intros r Hr. rewrite Forall_forall in Hc. specialize (Hc r Hr). unfold rv_shown. by destruct (rv_config r).
Qed.

(** [GetRoutingConfigV2WithID] returns the rule [CreateRoutingConfigV2]
    stored, except its namespace, which no query selects: valid, with equal
    creation and modification times, and an enable time that is the program's
    clock in Asia/Shanghai for an enabled rule and 1980 for a disabled one.
    After [DeleteRoutingConfigV2] it is gone. *)
Theorem RoutingConfigV2_roundtrip conf c c1 c2 : reliable -> db_wf (committed c) ->
  CreateRoutingConfigV2 conf c = (Ok tt, c1) -> DeleteRoutingConfigV2 (ID conf) c1 = (Ok tt, c2) ->
  (exists now t, fst (GetRoutingConfigV2WithID (ID conf) c1) = Ok (Some
    (mkRouterConfig (ID conf) "" (Name conf) (Policy conf) (Config conf) (Enable conf) (Priority conf)
      (Revision conf) (Description conf) true now now (rv_etime_of (Enable conf) t)))) /\
  fst (GetRoutingConfigV2WithID (ID conf) c2) = Ok None.
Proof.
  intros Hrel Hd Hc Hdel.
  destruct (CreateRoutingConfigV2_correct conf c _ c1 Hd Hc) as (Hd1 & _ & Hok & _ & Hno & _).
  destruct (Hok eq_refl) as (now & t & Hc1 & Hdist).
  destruct (DeleteRoutingConfigV2_correct (ID conf) c1 _ c2 Hdel) as (_ & Hok2 & _).
  destruct (Hok2 eq_refl) as (Hid & now2 & Hc2).
  set (row := new_rv_row conf now (rv_etime_of (Enable conf) t)) in *.
  assert (forall x, x ∈ keep (fun r => negb (rv_dead (ID conf) r)) (tbl (committed c)) ->
    rv_with_id (ID conf) x = false) as Hnone.
  { intros x Hx. apply distinct_app in Hdist as (_ & _ & Hdist).
    specialize (Hdist x row Hx (list_elem_of_here _ _)). exact Hdist. }
  split.
  - exists now, t. erewrite GetRoutingConfigV2WithID_run with (l:=[row]);
      [by unfold rv_shown; simpl; destruct (Enable conf)|done| |by constructor].
    unfold sql_select. rewrite Hc1, tbl_set, keep_app.
    replace (keep _ (keep _ _)) with (@nil routing_config_v2_row).
    + simpl. unfold rv_with_id. simpl. by rewrite str_eq_refl.
    + symmetry. apply keep_nil_iff. intros x Hx. by rewrite Hnone.
  - erewrite GetRoutingConfigV2WithID_run with (l:=[]); [done|done| |by constructor].
    unfold sql_select. rewrite Hc2, tbl_set. apply keep_nil_iff. intros x (y & Hy & ->)%elem_of_change.
    destruct (rv_with_id (ID conf) y) eqn:E; [by rewrite andb_false_r|by rewrite E].
Qed.
End routing_properties.
