(* ===== verification/Routing.v ===== *)
(** * Routing rules, first version (store/postgresql/routing_config.go)

    [routingConfigStore]: one row per service id.  Creation is refused by the
    server, because current_timestamp stands where columns are listed, and so
    is the update, whose placeholders skip [$4]; deletion and the queries
    work.  The listing joins the rows with their services. *)
From stdpp Require Import base list strings gmap.
From Stdlib Require Import ZArith Lia.
From S2P Require Import Prelude Driver Rows Schema Sql Common Where RuleFilter.
Open Scope Z_scope.
Open Scope store_scope.

(** [model.RoutingConfig]; [model.ExtendRoutingConfig] adds the names of the
    service. *)
Record RoutingConfig := mkRoutingConfig {
  ID : string; InBounds : string; OutBounds : string; Revision : string; Valid : bool;
  CreateTime : Z; ModifyTime : Z }.
Record ExtendRoutingConfig := mkExtendRoutingConfig {
  ServiceName : string; NamespaceName : string; Config_ : RoutingConfig }.

(** ** The generator *)

Fixpoint genFilterRoutingConfigSQL_loop (filters : list (string * string)) (str : list cond) (args : list arg)
    (index : Z) : list cond * list arg * Z :=
  match filters with
  | [] => (str, args, index)
  | (key, value) :: filters' =>
      genFilterRoutingConfigSQL_loop filters' (str ++ [CEq key index]) (args ++ [AStr value]) (index + 1)
  end.

Definition genFilterRoutingConfigSQL (filters : list (string * string)) (index : Z) :
    list cond * list arg * Z := genFilterRoutingConfigSQL_loop filters [] [] index.

(** A row of the join and the columns a filter can name in it without being
    ambiguous. *)
Definition joined : Type := routing_config_row * service_row.

Definition join_cols (col : string) : option (column joined) :=
  if str_eq col "in_bounds" then Some (CText (fun x => rc_in_bounds x.1))
  else if str_eq col "out_bounds" then Some (CText (fun x => rc_out_bounds x.1))
  else if str_eq col "routing_config.id" then Some (CText (fun x => Some (rc_id x.1)))
  else if str_eq col "routing_config.revision" then Some (CText (fun x => Some (rc_revision x.1)))
  else if str_eq col "service.id" then Some (CText (fun x => Some (svc_id x.2)))
  else if str_eq col "service.revision" then Some (CText (fun x => Some (svc_revision x.2)))
  else if str_eq col "name" then Some (CText (fun x => Some (svc_name x.2)))
  else if str_eq col "namespace" then Some (CText (fun x => Some (svc_namespace x.2)))
  else if str_eq col "service.name" then Some (CText (fun x => Some (svc_name x.2)))
  else if str_eq col "service.namespace" then Some (CText (fun x => Some (svc_namespace x.2)))
  else if str_eq col "ports" then Some (CText (fun x => svc_ports x.2))
  else if str_eq col "business" then Some (CText (fun x => svc_business x.2))
  else if str_eq col "department" then Some (CText (fun x => svc_department x.2))
  else if str_eq col "cmdb_mod1" then Some (CText (fun x => svc_cmdb_mod1 x.2))
  else if str_eq col "cmdb_mod2" then Some (CText (fun x => svc_cmdb_mod2 x.2))
  else if str_eq col "cmdb_mod3" then Some (CText (fun x => svc_cmdb_mod3 x.2))
  else if str_eq col "comment" then Some (CText (fun x => svc_comment x.2))
  else if str_eq col "token" then Some (CText (fun x => Some (svc_token x.2)))
  else if str_eq col "reference" then Some (CText (fun x => svc_reference x.2))
  else if str_eq col "refer_filter" then Some (CText (fun x => svc_refer_filter x.2))
  else if str_eq col "platform_id" then Some (CText (fun x => svc_platform_id x.2))
  else if str_eq col "routing_config.flag" then Some (CInt (fun x => Some (rc_flag x.1)))
  else if str_eq col "service.flag" then Some (CInt (fun x => Some (svc_flag x.2)))
  else if str_eq col "routing_config.ctime" then Some (CTime (fun x => rc_ctime x.1))
  else if str_eq col "routing_config.mtime" then Some (CTime (fun x => rc_mtime x.1))
  else if str_eq col "service.ctime" then Some (CTime (fun x => svc_ctime x.2))
  else if str_eq col "service.mtime" then Some (CTime (fun x => svc_mtime x.2))
  else if str_eq col "export_to" then Some (CText (fun _ => None))
  else if str_eq col "owner" then Some (CText (fun x => Some (svc_owner x.2)))
  else None.

Definition rc_join (d : database) : list joined :=
  concat (map (fun r => map (fun s => (r, s)) (keep (fun s => str_eq (rc_id r) (svc_id s)) (tbl d)))
    (sql_select (fun r => rc_flag r =? 0) d)).

Section routing.
Context `{Env} `{PolarisApi} `{PgInput} `{MapRange}.
Abbreviation M := (M database).

(** ** Writing *)

Definition checked (conf : RoutingConfig) (m : M unit) : M unit :=
  if str_empty (ID conf) || str_empty (Revision conf) then
    Fail (EStatus EmptyParamsErr "missing service id or revision")
  else if str_empty (InBounds conf) || str_empty (OutBounds conf) then
    Fail (EStatus EmptyParamsErr "missing some params")
  else m.

Definition rc_with_id (id : string) (r : routing_config_row) : bool := str_eq (rc_id r) id.

(** [cleanRoutingConfig] *)
Definition cleanRoutingConfig (serviceID : string) : M unit :=
  void (stmt_Exec (sql_delete (fun r => rc_with_id serviceID r && (rc_flag r =? 1)))).

Definition CreateRoutingConfig (conf : RoutingConfig) : M unit :=
  checked conf (RetryTransaction (processWithTransaction (then_commit (
    map_err store_Error (cleanRoutingConfig (ID conf)) ;;;
    map_err store_Error (tx_Exec (fun _ _ => Err syntax_error)))))).

Definition set_rc (conf : RoutingConfig) (now : Z) (r : routing_config_row) : routing_config_row :=
  RoutingConfigRow (rc_id r) (Some (InBounds conf)) (Some (OutBounds conf)) (Revision conf) (rc_flag r)
    (rc_ctime r) now.

Definition update_sql : sql :=
  [T "update routing_config set in_bounds = "; Ph 1; T ", out_bounds = "; Ph 2; T ", revision = "; Ph 3;
   T ", mtime = current_timestamp where id = "; Ph 5].

Definition UpdateRoutingConfig (conf : RoutingConfig) : M unit :=
  checked conf (RetryTransaction (processWithTransaction (then_commit (
    void (map_err store_Error (stmt_Exec (fun now d =>
      if params_ok update_sql 4 then sql_update (rc_with_id (ID conf)) (set_rc conf) now d
      else Err param_error))))))).

Definition set_rc_deleted (now : Z) (r : routing_config_row) : routing_config_row :=
  RoutingConfigRow (rc_id r) (rc_in_bounds r) (rc_out_bounds r) (rc_revision r) 1 (rc_ctime r) now.

Definition mark_deleted (serviceID : string) : M unit :=
  void (map_err store_Error (stmt_Exec (sql_update (rc_with_id serviceID) set_rc_deleted))).

Definition DeleteRoutingConfig (serviceID : string) : M unit :=
  if str_empty serviceID then Fail (EStatus EmptyParamsErr "missing service id")
  else RetryTransaction (processWithTransaction (then_commit (mark_deleted serviceID))).

(** [DeleteRoutingConfigTx] leaves the transaction open. *)
Definition DeleteRoutingConfigTx (tx : option unit) (serviceID : string) : M unit :=
  match tx with
  | None => Fail (EMsg "transaction is nil")
  | Some _ =>
      if str_empty serviceID then Fail (EStatus EmptyParamsErr "missing service id")
      else mark_deleted serviceID
  end.

(** ** Reading *)

Definition scan_routing (r : routing_config_row) : res RoutingConfig :=
  inb <-? scan_string (rc_in_bounds r) ;;
  outb <-? scan_string (rc_out_bounds r) ;;
  Ok (mkRoutingConfig (rc_id r) inb outb (rc_revision r) (negb (rc_flag r =? 1)) (rc_ctime r) (rc_mtime r)).

Definition fetchRoutingConfigRows (rs : rows routing_config_row) : res (list RoutingConfig) :=
  fetch_rows scan_routing rs.

Definition GetRoutingConfigsForCache (mtime : Z) (firstUpdate : bool) : M (list RoutingConfig) :=
  rs <- Query replica (fun _ d => Ok (sql_select (fun r =>
    (mtime <? rc_mtime r) && (negb firstUpdate || negb (rc_flag r =? 1))) d)) ;;
  lift (fetchRoutingConfigRows rs).

(** The service need not be live. *)
Definition GetRoutingConfigWithService (name namespace : string) : M (option RoutingConfig) :=
  rs <- Query committed (fun _ d => Ok (concat (map (fun s =>
          sql_select (fun r => str_eq (svc_id s) (rc_id r) && (rc_flag r =? 0)) d)
        (sql_select (fun s => str_eq (svc_name s) name && str_eq (svc_namespace s) namespace) d)))) ;;
  out <- lift (fetchRoutingConfigRows rs) ;;
  Ret (head out).

Definition GetRoutingConfigWithID (id : string) : M (option RoutingConfig) :=
  rs <- Query committed (fun _ d => Ok (sql_select (fun r => rc_with_id id r && (rc_flag r =? 0)) d)) ;;
  out <- lift (fetchRoutingConfigRows rs) ;;
  Ret (head out).

Definition fetch_joined (rs : rows joined) : res (list ExtendRoutingConfig) :=
  fetch_rows (fun x =>
    inb <-? scan_string (rc_in_bounds x.1) ;;
    outb <-? scan_string (rc_out_bounds x.1) ;;
    Ok (mkExtendRoutingConfig (svc_name x.2) (svc_namespace x.2)
      (mkRoutingConfig (rc_id x.1) inb outb "" false (rc_ctime x.1) (rc_mtime x.1)))) rs.

(** [GetRoutingConfigs]: the count first. *)
Definition GetRoutingConfigs (filter : gmap string string) (offset limit : Z) :
    M (Z * list ExtendRoutingConfig) := fun c =>
  let '(filterStr, args, index) := genFilterRoutingConfigSQL (range_map filter) 1 in
  match QueryRow committed (fun _ d => l <-? where_list join_cols filterStr [] args (rc_join d) ;;
          Ok [Z.of_nat (length l)]) c with
  | (Err ENoRows, c') => (Ok (0, []), c')
  | (Err e, c') => (Err e, c')
  | (Panic w, c') => (Panic w, c')
  | (Ok total, c') =>
      (rs <- Query committed (fun _ d =>
         l <-? where_list join_cols filterStr [index; index + 1] (args ++ [AInt limit; AInt offset]) (rc_join d) ;;
         Ok (page (fun x => rc_mtime x.1) offset limit l)) ;;
       out <- lift (fetch_joined rs) ;;
       Ret (total, out)) c'
  end.
End routing.

(** ** Properties *)

Lemma routing_loop_means filters : forall str args idx, in_order 1 (str, args, idx) ->
  let '(str', args', idx') := genFilterRoutingConfigSQL_loop filters str args idx in
  in_order 1 (str', args', idx') /\
  map (fill args') str' = map (fill args) str ++ map (fun kv => BEq kv.1 kv.2) filters.
Proof.
  induction filters as [|[key value] filters IH]; intros str args idx Ho; simpl.
  { by rewrite app_nil_r. }
  destruct (in_order_fill_snoc str args idx (CEq key idx) [AStr value] (idx + 1) Ho (one_cond idx (CEq key idx) (AStr value) eq_refl)) as [Ho' Hf].
  specialize (IH _ _ _ Ho'). destruct (genFilterRoutingConfigSQL_loop _ _ _ _) as [[str' args'] idx'].
  destruct IH as [H1 H2]. split; [done|]. rewrite H2, Hf, <- app_assoc. simpl. by rewrite arg_at_last by apply Ho.
Qed.

Section routing_properties.
Context `{Env} `{PolarisApi} `{PgInput} `{MapRange}.
Implicit Types c : conn database.

(** Rules of the first version are never created: the INSERT is a syntax
    error, and the row marked deleted that was to be replaced stays, because
    its removal is rolled back. *)
Theorem CreateRoutingConfig_fails conf c r c' :
  CreateRoutingConfig conf c = (r, c') ->
  committed c' = committed c /\ replica c' = replica c /\ is_Ok r = false.
Proof.
  unfold CreateRoutingConfig, checked. destruct (_ || _); [intros [= <- <-]; by split_and!|].
  destruct (_ || _); [intros [= <- <-]; by split_and!|].
  intros [Ho Hre]%(refines_retry_process _ _ _). apply retried_outcome_stuck in Ho as [? ?]; [by split_and!|].
  intros now. unfold p_bind, p_map_err, p_void, sql_delete. done.
Qed.

(** Nor are they updated: the statement uses [$5] without [$4]. *)
Theorem UpdateRoutingConfig_fails conf c r c' :
  UpdateRoutingConfig conf c = (r, c') ->
  committed c' = committed c /\ replica c' = replica c /\ is_Ok r = false.
Proof.
  unfold UpdateRoutingConfig, checked. destruct (_ || _); [intros [= <- <-]; by split_and!|].
  destruct (_ || _); [intros [= <- <-]; by split_and!|].
  intros [Ho Hre]%(refines_retry_process _ _ _). apply retried_outcome_stuck in Ho as [? ?]; [by split_and!|].
  intros now. done.
Qed.

Theorem DeleteRoutingConfig_correct id c r c' :
  db_wf (committed c) -> DeleteRoutingConfig id c = (r, c') ->
  let changed := updated (rc_with_id id) set_rc_deleted (committed c) (committed c') in
  db_wf (committed c') /\ replica c' = replica c /\ (r = Ok tt -> changed) /\ (committed c' = committed c \/ changed).
Proof.
  intros Hd. unfold DeleteRoutingConfig. destruct (str_empty id); [intros [= <- <-]; split_and!; auto; by intros [=]|].
  intros [Ho Hre]%(refines_retry_process _ _ _).
  apply (retried_outcome_does _ (does_update (rc_with_id id) set_rc_deleted)) in Ho.
  - apply does_update_outcome in Ho as (Hd' & Hok & Hor); auto.
  - intros now x [] y [n Hn%p_map_err_Ok]%p_void_Ok. by exists now, n.
Qed.

Definition extend_of (x : joined) : ExtendRoutingConfig :=
  mkExtendRoutingConfig (svc_name x.2) (svc_namespace x.2)
    (mkRoutingConfig (rc_id x.1) (default "" (rc_in_bounds x.1)) (default "" (rc_out_bounds x.1)) "" false
       (rc_ctime x.1) (rc_mtime x.1)).

(** [GetRoutingConfigs] joins the live rules with their services and returns
    how many satisfy every equation of the filter, and the requested page of
    them, newest first. *)
Theorem GetRoutingConfigs_correct filter offset limit c l : reliable ->
  where_rows join_cols (map (fun kv => BEq kv.1 kv.2) (range_map filter)) (rc_join (committed c)) = Ok l ->
  Forall (fun x => rc_in_bounds x.1 <> None /\ rc_out_bounds x.1 <> None) l ->
  fst (GetRoutingConfigs filter offset limit c) =
    Ok (Z.of_nat (length l), map extend_of (page (fun x => rc_mtime x.1) offset limit l)).
Proof.
  intros Hrel Hl Hn. unfold GetRoutingConfigs, genFilterRoutingConfigSQL.
  pose proof (routing_loop_means (range_map filter) [] [] 1 (in_order_nil 1)) as Hg.
  destruct (genFilterRoutingConfigSQL_loop _ _ _ _) as [[str args] idx]. destruct Hg as [Ho Hf]. simpl in Hf.
  unfold QueryRow. rewrite (Query_then _ _ _ c [Z.of_nat (length l)]); [|done|].
  2:{ erewrite where_list_count by done. by rewrite Hf, Hl. }
  simpl. rewrite (Query_then _ _ _ _ (page (fun x => rc_mtime x.1) offset limit l)); [|done|].
  2:{ erewrite where_list_paged by done. simpl. by rewrite Hf, Hl. }
  unfold Bind, lift, fetch_joined. rewrite (fetch_rows_map _ extend_of); [done|].
  intros x Hx%elem_of_page. rewrite Forall_forall in Hn. destruct (Hn x Hx) as [Hi Hout]. unfold extend_of.
  destruct (rc_in_bounds x.1), (rc_out_bounds x.1); done.
Qed.

(** A filter key both tables have, such as [id] or [revision], is refused. *)
Theorem GetRoutingConfigs_ambiguous filter k v offset limit c r c' :
  filter !! k = Some v -> k ∈ ["id"; "revision"; "flag"; "ctime"; "mtime"]%string ->
  GetRoutingConfigs filter offset limit c = (r, c') -> forall n out, r = Ok (n, out) -> n = 0 /\ out = [].
Proof.
  intros Hk Hamb Hr n out ->. unfold GetRoutingConfigs, genFilterRoutingConfigSQL in Hr.
  pose proof (routing_loop_means (range_map filter) [] [] 1 (in_order_nil 1)) as Hg.
  destruct (genFilterRoutingConfigSQL_loop _ _ _ _) as [[str args] idx]. destruct Hg as [Ho Hf]. simpl in Hf.
  destruct (QueryRow _ _ c) as [[total|e|w] c1] eqn:E; [|destruct e; by simplify_eq|done].
  exfalso. apply QueryRow_Ok in E as [_ (now & l & Hl)]; [|apply _].
  erewrite where_list_count in Hl by done. rewrite Hf in Hl. unfold where_rows in Hl.
  apply res_bind_Ok in Hl as (x & (ps & Hps & _)%res_bind_Ok & _).
  eapply (all_ok_elem _ _ _ (BEq k v)) in Hps;
    [|apply list_elem_of_In, in_map_iff; exists (k, v); split; [done|by apply list_elem_of_In, elem_of_range]].
  repeat (apply elem_of_cons in Hamb as [->|Hamb]; [done|]). by apply elem_of_nil in Hamb.
Qed.
End routing_properties.
