(* ===== verification/Client.v ===== *)
(** * Clients (store/postgresql/client.go)

    [clientStore]: SDK clients and the addresses of their statistics.  Clients
    arrive in batches; single creation, update and batch deletion issue
    statements the server refuses.  The cache reads the replica. *)
From stdpp Require Import base list strings gmap.
From Stdlib Require Import ZArith Lia.
From S2P Require Import Prelude Driver Rows Schema Sql Common.
Open Scope Z_scope.
Open Scope store_scope.

(** The values [model.Client] gives through its protobuf message. *)
Record StatInfo := mkStatInfo { Target : string; Port : Z; Protocol : string; Path : string }.
Record Client := mkClient {
  ID : string; Host : string; Type_ : string; Version : string; Region : string; Zone : string;
  Campus : string; Stat : list StatInfo }.

(** [model.ClientStore], the row as it is scanned. *)
Record ClientStore := mkClientStore {
  st_ID : string; st_Host : string; st_Type : string; st_Version : string; st_Region : string;
  st_Zone : string; st_Campus : string; st_Flag : Z; st_Stat : StatInfo; st_CreateTime : Z;
  st_ModifyTime : Z }.

(** Conversions of package [model]. *)
Class ClientApi := {
  Store2Client : ClientStore -> Client;
  Store2ClientStat : StatInfo -> StatInfo
}.

Section client.
Context `{Env} `{PolarisApi} `{ClientApi}.
Abbreviation M := (M database).
Abbreviation P := (P database).

(** ** Statements *)

Definition with_id (id : string) (r : client_row) : bool := str_eq (cli_id r) id.

Definition set_dead (mtime : Z) (r : client_row) : client_row :=
  ClientRow (cli_id r) (cli_host r) (cli_type r) (cli_version r) (cli_region r) (cli_zone r) (cli_campus r)
    1 (cli_ctime r) mtime.

(** [deleteClient] *)
Definition deleteClient (clientID : string) : M unit :=
  if str_empty clientID then Fail (EMsg "delete client missing client id")
  else
    map_err store_Error tx_Prepare ;;;
    t <- time_Now ;;
    map_err store_Error (void (tx_Exec (sql_update (with_id clientID) (fun _ => set_dead (GetCurrentTimeFormat t))))).

Definition client_args (client : Client) : list arg :=
  [AStr (ID client); AStr (Host client); AStr (Type_ client); AStr (Version client); AStr (Region client);
   AStr (Zone client); AStr (Campus client)].

Definition client_row_of (ctime mtime : Z) (a : list arg) : client_row :=
  let s n := arg_str (nth n a (AStr "")) in
  ClientRow (s 0%nat) (s 1%nat) (s 2%nat) (s 3%nat) (Some (s 4%nat)) (Some (s 5%nat)) (Some (s 6%nat))
    0 ctime mtime.

(** [addClientMain]: the text of the statement is its first argument. *)
Definition add_main_sql : sql := T "values(" :: placeholders_sql (seqZ 1 9) ++ [T ")"].

Definition addClientMain (client : Client) : M unit :=
  tx_Prepare ;;;
  t1 <- time_Now ;;
  t2 <- time_Now ;;
  let args := AStr "insert into client(...)" :: client_args client ++ [ATime (GetCurrentTimeFormat t1); ATime (GetCurrentTimeFormat t2)] in
  void (tx_Exec (fun now d =>
    if params_ok add_main_sql (length args)
    then sql_insert (fun _ => [client_row_of (GetCurrentTimeFormat t1) (GetCurrentTimeFormat t2) args]) now d
    else Err param_error)).

(** [batchAddClientMain]: two looks at the clock per client, written into the
    text; without clients the text ends after VALUES. *)
Fixpoint current_times (clients : list Client) : M (list (Z * Z)) :=
  match clients with
  | [] => Ret []
  | _ :: clients' =>
      t1 <- time_Now ;;
      t2 <- time_Now ;;
      rest <- current_times clients' ;;
      Ret ((GetCurrentTimeFormat t1, GetCurrentTimeFormat t2) :: rest)
  end.

Definition insert_clients (clients : list Client) (times : list (Z * Z)) : P Z :=
  match clients with
  | [] => fun _ _ => Err syntax_error
  | _ =>
      let '(groups, args) := values_loop 7 7 (map client_args clients) 1 in
      if params_ok (T "insert into client(id, host, type, version, region, zone, campus, flag, ctime, mtime) values"
                    :: values_sql ", 0, CTIME, MTIME" groups) (length args)
      then sql_insert (fun _ => zip_with (fun g t => client_row_of t.1 t.2 (map (arg_at args) g)) groups times)
      else fun _ _ => Err param_error
  end.

Definition batchAddClientMain (clients : list Client) : M unit :=
  times <- current_times clients ;;
  void (stmt_Exec (insert_clients clients times)).

(** Rows of client_stat: the port is an int4. *)
Definition stat_args (id : string) (s : StatInfo) : list arg :=
  [AStr id; AStr (Target s); AInt (Port s); AStr (Protocol s); AStr (Path s)].

Definition stat_row_of (a : list arg) : client_stat_row :=
  let s n := arg_str (nth n a (AStr "")) in
  ClientStatRow (s 0%nat) (s 1%nat) (arg_int (nth 2 a (AInt 0))) (s 3%nat) (s 4%nat).

Definition insert_stats (rows : list (list arg)) : P Z :=
  let '(groups, args) := values_loop 5 5 rows 1 in
  if params_ok (T "insert into client_stat(client_id, target, port, protocol, path) values"
                :: values_sql "" groups) (length args)
  then fun now d =>
    if forallb (fun g => arg_int (nth 2 (map (arg_at args) g) (AInt 0)) <? 2 ^ 31) groups
    then sql_insert (fun _ => map (fun g => stat_row_of (map (arg_at args) g)) groups) now d
    else Err (EDriver "pq: value is out of range for type integer")
  else fun _ _ => Err param_error.

(** [batchAddClientStat]: the map is walked in an unspecified order, which
    only affects the order of the rows. *)
Definition batchAddClientStat (client2Stats : gmap string (list StatInfo)) : M unit :=
  if decide (client2Stats = ∅) then Ret tt
  else void (stmt_Exec (insert_stats
    (concat (map (fun kv => map (stat_args kv.1) kv.2) (map_to_list client2Stats))))).

(** [addClientStat] *)
Definition addClientStat (client : Client) : M unit :=
  match Stat client with
  | [] => Ret tt
  | stats => void (stmt_Exec (insert_stats (map (stat_args (ID client)) stats)))
  end.

(** [batchCleanClientStats] *)
Definition delete_stats_in (objects : list string) : P Z :=
  let '(placeholder, _) := PlaceholdersNI (Z.of_nat (length objects)) 1 in
  if params_ok (T "delete from client_stat where client_id in (" :: placeholder ++ [T ")"]) (length objects)
  then sql_delete (fun r => bool_decide (cst_client_id r ∈ objects))
  else fun _ _ => Err param_error.

Definition clean_stats_batch (objects : list string) : M unit :=
  match objects with
  | [] => Ret tt
  | _ => map_err store_Error (void (stmt_Exec (delete_stats_in objects)))
  end.

Definition batchCleanClientStats (ids : list string) : M unit := BatchOperation ids clean_stats_batch.

(** [batchDeleteClientsMain]: the time stands in the text without quotes. *)
Definition delete_clients_batch (objects : list string) : M unit :=
  match objects with
  | [] => Ret tt
  | _ => map_err store_Error (tx_Exec (A:=unit) (fun _ _ => Err syntax_error))
  end.

Definition batchDeleteClientsMain (ids : list string) : M unit := BatchOperation ids delete_clients_batch.

Definition set_client (client : Client) (mtime : Z) (r : client_row) : client_row :=
  ClientRow (cli_id r) (Host client) (Type_ client) (Version client) (Some (Region client))
    (Some (Zone client)) (Some (Campus client)) (cli_flag r) (cli_ctime r) mtime.

(** [updateClientMain] *)
Definition updateClientMain (client : Client) : M unit :=
  tx_Prepare ;;;
  t <- time_Now ;;
  void (tx_Exec (sql_update (with_id (ID client)) (fun _ => set_client client (GetCurrentTimeFormat t)))).

(** [updateClientStat]: there is no column cliend_id. *)
Definition no_column : error := EDriver "pq: column does not exist".

Definition updateClientStat (client : Client) : M unit :=
  tx_Exec (A:=unit) (fun _ _ => Err no_column) ;;;
  addClientStat client.

(** ** Operations *)

(** [createClient], [CreateClient] *)
Definition createClient (client : Client) : M unit :=
  Begin ;;; defer_rollback (then_commit (
    deleteClient (ID client) ;;;
    addClientMain client ;;;
    addClientStat client)).

Definition CreateClient (client : Client) : M unit :=
  if str_empty (ID client) then
    Fail (EMsg ("add Business missing some params, id , name " +:+ Host client))
  else map_err store_Error (RetryTransaction (createClient client)).

(** [updateClient], [UpdateClient] *)
Definition updateClient (client : Client) : M unit :=
  Begin ;;; defer_rollback (then_commit (
    updateClientMain client ;;;
    updateClientStat client)).

Definition update_error (err : error) : error :=
  let serr := store_Error err in
  if decide (store_Code serr = DuplicateEntryErr) then EStatus DataConflictErr (Error err) else serr.

Definition UpdateClient (client : Client) : M unit :=
  map_err update_error (RetryTransaction (updateClient client)).

(** [batchAddClients], [BatchAddClients]: of two clients with one id the last
    one's statistics count. *)
Definition stat_infos (clients : list Client) : gmap string (list StatInfo) :=
  fold_left (fun m c => match Stat c with [] => m | statInfos => <[ID c := statInfos]> m end) clients ∅.

Definition add_clients (clients : list Client) : M unit :=
  batchCleanClientStats (map ID clients) ;;;
  batchAddClientMain clients ;;;
  batchAddClientStat (stat_infos clients).

Definition batchAddClients (clients : list Client) : M unit :=
  Begin ;;; defer_rollback (then_commit (add_clients clients)).

Definition BatchAddClients (clients : list Client) : M unit :=
  map_err store_Error (RetryTransaction (batchAddClients clients)).

(** [batchDeleteClients], [BatchDeleteClients] *)
Definition batchDeleteClients (ids : list string) : M unit :=
  Begin ;;; defer_rollback (then_commit (
    batchCleanClientStats ids ;;;
    batchDeleteClientsMain ids)).

Definition BatchDeleteClients (ids : list string) : M unit :=
  map_err store_Error (RetryTransaction (batchDeleteClients ids)).

(** [GetClientStat]: the table client is not in the FROM clause. *)
Definition GetClientStat (clientID : string) : M (list StatInfo) :=
  rs <- Query (R:=client_stat_row) committed (fun _ _ => Err (EDriver "pq: missing FROM-clause entry for table client")) ;;
  lift (fetch_rows (fun r =>
    port <-? scan_uint32 (cst_port r) ;;
    Ok (mkStatInfo (cst_target r) port (cst_protocol r) (cst_path r))) rs).

(** client left join client_stat *)
Definition joined : Type := client_row * option client_stat_row.

Definition join_stats (d : database) (r : client_row) : list joined :=
  match keep (fun s => str_eq (cst_client_id s) (cli_id r)) (tbl d) with
  | [] => [(r, None)]
  | stats => map (fun s => (r, Some s)) stats
  end.

Definition more_where (mtime : Z) (firstUpdate : bool) (r : client_row) : bool :=
  (mtime <=? cli_mtime r) && (negb firstUpdate || negb (cli_flag r =? 1)).

Definition select_more (mtime : Z) (firstUpdate : bool) (d : database) : list joined :=
  concat (map (join_stats d) (sql_select (more_where mtime firstUpdate) d)).

(** [callFetchClientRows]: only the port is coalesced. *)
Definition scan_client (j : joined) : res ClientStore :=
  let '(r, s) := j in
  region <-? scan_string (cli_region r) ;;
  zone <-? scan_string (cli_zone r) ;;
  campus <-? scan_string (cli_campus r) ;;
  target <-? scan_string (cst_target <$> s) ;;
  protocol <-? scan_string (cst_protocol <$> s) ;;
  path <-? scan_string (cst_path <$> s) ;;
  port <-? scan_uint32 (match s with Some s => cst_port s | None => 0 end) ;;
  Ok (mkClientStore (cli_id r) (cli_host r) (cli_type r) (cli_version r) region zone campus (cli_flag r)
        (mkStatInfo target port protocol path)
        (cli_ctime r) (cli_mtime r)).

Definition callFetchClientRows {A} (rs : rows joined) (callback : A -> ClientStore -> A) (out : A) : res A :=
  res_map (fun l => fold_left callback l out) (fetch_rows scan_client rs).

Definition add_stat (s : StatInfo) (c : Client) : Client :=
  mkClient (ID c) (Host c) (Type_ c) (Version c) (Region c) (Zone c) (Campus c) (Stat c ++ [s]).

Definition collect (out : gmap string Client) (entry : ClientStore) : gmap string Client :=
  match out !! st_ID entry with
  | None => <[st_ID entry := Store2Client entry]> out
  | Some outClient => <[st_ID entry := add_stat (Store2ClientStat (st_Stat entry)) outClient]> out
  end.

(** [GetMoreClients] *)
Definition GetMoreClients (mtime : Z) (firstUpdate : bool) : M (gmap string Client) :=
  rs <- Query replica (fun _ d => Ok (select_more mtime firstUpdate d)) ;;
  lift (callFetchClientRows rs collect ∅).
End client.

(** ** What the operations do *)

Definition new_client_row (c : Client) (t : Z * Z) : client_row :=
  ClientRow (ID c) (Host c) (Type_ c) (Version c) (Some (Region c)) (Some (Zone c)) (Some (Campus c)) 0 t.1 t.2.

Definition new_stat_row (id : string) (s : StatInfo) : client_stat_row :=
  ClientStatRow id (Target s) (Port s) (Protocol s) (Path s).

Definition new_stat_rows (clients : list Client) : list client_stat_row :=
  concat (map (fun kv => map (new_stat_row kv.1) kv.2) (map_to_list (stat_infos clients))).

(** The clients are new, their statistics replace those of the same ids. *)
Definition clients_added (clients : list Client) (d d' : database) : Prop :=
  exists times, length times = length clients /\
    tbl d' = tbl d ++ zip_with new_client_row clients times /\
    distinct clash (tbl (R:=client_row) d') = true /\
    tbl d' = keep (fun r => negb (bool_decide (cst_client_id r ∈ map ID clients))) (tbl d) ++ new_stat_rows clients.

Section client_facts.
Context `{Env} `{PolarisApi} `{ClientApi}.
Abbreviation P := (P database).
Implicit Types c : conn database.

Lemma delete_stats_in_eq objects : objects <> [] ->
  delete_stats_in objects ≡p sql_delete (fun r => bool_decide (cst_client_id r ∈ objects)).
Proof.
  intros Hne. unfold delete_stats_in.
  pose proof (PlaceholdersNI_phs (Z.of_nat (length objects)) 1 (Nat2Z.is_nonneg _)) as [Hp _].
  destruct (PlaceholdersNI _ _) as [placeholder next]. simpl in Hp.
  rewrite params_ok_seqZ; [done|]. simpl. by rewrite phs_app, Hp, app_nil_r.
Qed.

Definition p_clean_chunk (objects : list string) : P unit :=
  match objects with
  | [] => p_ret tt
  | _ => p_map_err store_Error (p_void (sql_delete (fun r => bool_decide (cst_client_id r ∈ objects))))
  end.

#[export] Instance impl_clean_batch objects : Implements (clean_stats_batch objects) (p_clean_chunk objects).
Proof.
  unfold clean_stats_batch, p_clean_chunk. destruct objects as [|o l]; [apply _|].
  eapply impl_equiv; [apply _|]. unfold p_void. by rewrite delete_stats_in_eq.
Qed.

(** Deleting chunk by chunk. *)
Lemma p_clean_chunks_Ok parts now d d' : p_each p_clean_chunk parts now d = Ok (tt, d') ->
  d' = set_tbl (keep (fun r => negb (bool_decide (cst_client_id r ∈ concat parts))) (tbl d)) d.
Proof.
  revert d. induction parts as [|o parts IH]; intros d.
  { intros [= <-]. rewrite keep_all; [by rewrite set_tbl_id|]. intros r _. by rewrite bool_decide_eq_false_2 by (by intros ?%elem_of_nil). }
  cbn [p_each]. intros ([] & d1 & Ho & Hr)%p_bind_Ok. apply IH in Hr as ->.
  assert (d1 = set_tbl (keep (fun r => negb (bool_decide (cst_client_id r ∈ o))) (tbl d)) d) as ->.
  { destruct o as [|x o]; simpl in Ho.
    - injection Ho as <-. rewrite keep_all; [by rewrite set_tbl_id|]. intros r _.
      by rewrite bool_decide_eq_false_2 by (by intros ?%elem_of_nil).
    - rewrite p_map_err_Ok, p_void_Ok in Ho. by destruct Ho as (k & [= _ <-]). }
  rewrite tbl_set, set_set, keep_keep. f_equal. apply keep_ext. intros r _.
  simpl. by rewrite bool_decide_app, negb_orb.
Qed.

#[export] Instance does_clean ids : Does (batchCleanClientStats ids) (fun now d _ d' =>
  d' = set_tbl (keep (fun r => negb (bool_decide (cst_client_id r ∈ ids))) (tbl d)) d).
Proof.
  eapply does_weaken; [unfold batchCleanClientStats; apply does_implements; apply _|].
  intros now d [] d' Hp%p_clean_chunks_Ok. by rewrite (proj1 (chunks_spec 100 ids ltac:(lia))) in Hp.
Qed.

Lemma does_times clients : Does (current_times clients) (fun _ d times d' => d' = d /\ length times = length clients).
Proof.
  induction clients as [|x clients IH]; simpl.
  { eapply does_weaken; [apply does_implements, impl_ret|]. by intros now d l d' [= <- <-]. }
  eapply does_weaken.
  - apply does_now. intros t1. apply does_now. intros t2.
    apply (does_bind _ _ _ (fun rest now d times d' => p_ret ((GetCurrentTimeFormat t1, GetCurrentTimeFormat t2) :: rest) now d = Ok (times, d')) IH).
    intros rest. apply does_implements, impl_ret.
  - intros now d times d' (t1 & t2 & rest & d1 & [-> Hl] & [= <- <-]). split; [done|]. simpl. by rewrite Hl.
Qed.

Lemma insert_clients_Ok clients times now d n d' : length times = length clients ->
  insert_clients clients times now d = Ok (n, d') ->
  clients <> [] /\ d' = set_tbl (tbl d ++ zip_with new_client_row clients times) d /\
  distinct clash (tbl d ++ zip_with new_client_row clients times) = true.
Proof.
  intros Hl Hi. destruct clients as [|x l] eqn:Ec; [done|]. rewrite <- Ec in *. split; [by subst|].
  unfold insert_clients in Hi. replace (match clients with [] => _ | _ => _ end) with
    (let '(groups, args) := values_loop 7 7 (map client_args clients) 1 in
      if params_ok (T "insert into client(id, host, type, version, region, zone, campus, flag, ctime, mtime) values"
                    :: values_sql ", 0, CTIME, MTIME" groups) (length args)
      then sql_insert (fun _ => zip_with (fun g t => client_row_of t.1 t.2 (map (arg_at args) g)) groups times)
      else fun _ _ => Err param_error) in Hi by (by subst). clear Ec.
  pose proof (values_ok 7 (map client_args clients) ", 0, CTIME, MTIME"
    [T "insert into client(id, host, type, version, region, zone, campus, flag, ctime, mtime) values"] eq_refl) as Hv.
  change (Z.of_nat 7) with 7 in Hv.
  destruct (values_loop 7 7 (map client_args clients) 1) as [groups args].
  destruct Hv as [Hp Hrows]; [apply Forall_forall; intros a (c & -> & _)%list_elem_of_fmap; done|].
  change (?a :: ?b) with ([a] ++ b) in Hi. rewrite Hp in Hi.
  assert (zip_with (fun g t => client_row_of t.1 t.2 (map (arg_at args) g)) groups times =
          zip_with new_client_row clients times) as He.
  { clear Hi Hp. revert clients times Hl Hrows. induction groups as [|g groups IH]; intros [|c clients] [|t times] Hl Hrows;
      try done; simpl in *; simplify_eq.
    match goal with E : map (arg_at args) g = _ |- _ => rewrite E end. f_equal. by apply IH. }
  apply insert_Ok_inv in Hi as [-> Hd]. by rewrite He in *.
Qed.

Lemma insert_stats_Ok rows now d n d' : Forall (fun r => length r = 5%nat) rows ->
  insert_stats rows now d = Ok (n, d') ->
  d' = set_tbl (tbl d ++ map stat_row_of rows) d /\ distinct clash (tbl d ++ map stat_row_of rows) = true.
Proof.
  intros Hw Hi. unfold insert_stats in Hi.
  pose proof (values_ok 5 rows "" [T "insert into client_stat(client_id, target, port, protocol, path) values"] eq_refl Hw) as Hv.
  change (Z.of_nat 5) with 5 in Hv. destruct (values_loop 5 5 rows 1) as [groups args]. destruct Hv as [Hp Hrows].
  change (?a :: ?b) with ([a] ++ b) in Hi. rewrite Hp in Hi.
  destruct (forallb _ groups); [|done]. apply insert_Ok_inv in Hi.
  by rewrite <- (map_map (map (arg_at args)) stat_row_of), Hrows in Hi.
Qed.

#[export] Instance does_add_main clients : Does (batchAddClientMain clients) (fun now d _ d' =>
  clients <> [] /\ exists times, length times = length clients /\
    d' = set_tbl (tbl d ++ zip_with new_client_row clients times) d /\
    distinct clash (tbl d ++ zip_with new_client_row clients times) = true).
Proof.
  unfold batchAddClientMain. eapply does_weaken.
  - apply (does_bind _ _ _ (fun times now d a d' => p_void (insert_clients clients times) now d = Ok (a, d'))
      (does_times clients)). intros times. apply does_implements, _.
  - intros now d [] d' (times & d1 & [-> Hl] & Hi). apply p_void_Ok in Hi as (n & Hi).
    apply insert_clients_Ok in Hi as (Hne & Hd); [|done]. eauto.
Qed.

Lemma map_concat {A B} (f : A -> B) l : map f (concat l) = concat (map (map f) l).
Proof. induction l as [|x l IH]; simpl; [done|]. by rewrite map_app, IH. Qed.

#[export] Instance does_add_stats clients : Does (batchAddClientStat (stat_infos clients)) (fun now d _ d' =>
  d' = set_tbl (tbl d ++ new_stat_rows clients) d /\
  (distinct clash (tbl (R:=client_stat_row) d) = true -> distinct clash (tbl d ++ new_stat_rows clients) = true)).
Proof.
  unfold batchAddClientStat. destruct (decide _) as [He|He].
  - eapply does_weaken; [apply does_implements, impl_ret|]. intros now d [] d' [= <-].
    unfold new_stat_rows. rewrite He, map_to_list_empty. simpl. by rewrite app_nil_r, set_tbl_id.
  - eapply does_weaken; [apply does_implements, _|]. intros now d [] d' [n Hi]%p_void_Ok.
    apply insert_stats_Ok in Hi as [-> Hd].
    + replace (map stat_row_of _) with (new_stat_rows clients) in *; [done|].
      unfold new_stat_rows. rewrite map_concat, map_map. f_equal. apply map_ext. intros [id stats].
      simpl. by rewrite map_map.
    + apply Forall_forall. intros a Ha%list_elem_of_In. apply in_concat in Ha as (l & Hl & Ha).
      apply in_map_iff in Hl as (kv & <- & _). by apply in_map_iff in Ha as (x & <- & _).
Qed.

#[export] Instance does_add_clients clients : Does (add_clients clients) (fun now d _ d' =>
  clients <> [] /\ clients_added clients d d' /\ (db_wf d -> db_wf d')).
Proof.
  unfold add_clients. eapply does_weaken.
  - apply does_bind; [apply does_clean|]. intros u. apply does_bind; [apply does_add_main|].
    intros u'. apply does_add_stats.
  - intros now d [] d' (u & d1 & -> & u' & d2 & (Hne & times & Hl & -> & Hdc) & -> & Hds). split; [done|].
    autorewrite with tables in *. split.
    + exists times. by autorewrite with tables.
    + intros Hd. assert (forall p, distinct clash (keep p (tbl (R:=client_stat_row) d)) = true) as Hk
        by (intros p; by apply distinct_keep, tbl_distinct).
      apply set_tbl_wf; [apply set_tbl_wf; [apply set_tbl_wf; auto|done]|auto].
Qed.

#[export] Instance does_update_main client : Does (updateClientMain client) (fun _ _ _ _ => True).
Proof.
  eapply does_weaken; [eapply does_after_ret; [apply _|]; apply does_now; intros t; apply does_implements, _|done].
Qed.

#[export] Instance does_deleteClient id : Does (deleteClient id) (fun _ _ _ _ => True).
Proof.
  unfold deleteClient. destruct (str_empty id).
  - eapply does_weaken; [apply does_implements, impl_fail|done].
  - eapply does_weaken; [|intros now d a d' _; exact I].
    eapply (does_bind _ _ (fun now d a d' => True) (fun _ _ _ _ _ => True)).
    + eapply does_weaken; [apply does_implements, _|done].
    + intros u. eapply does_weaken; [apply does_now; intros t; apply does_implements, _|done].
Qed.

#[export] Instance does_add_client_main client : Does (addClientMain client) (fun _ _ _ _ => False).
Proof.
  unfold addClientMain. eapply does_then_never; [apply does_implements, _|]. intros [].
  eapply does_then_never; [apply does_time_Now|]. intros t1.
  eapply does_then_never; [apply does_time_Now|]. intros t2.
  eapply does_never; [apply _|]. intros now d. reflexivity.
Qed.

#[export] Instance does_add_client_stat client : Does (addClientStat client) (fun _ _ _ _ => True).
Proof.
  unfold addClientStat. destruct (Stat client); (eapply does_weaken; [apply does_implements; apply _|done]).
Qed.
End client_facts.

(** ** Properties *)

Section client_properties.
Context `{Env} `{PolarisApi} `{ClientApi}.
Implicit Types c : conn database.

(** C36: in a database whose keys hold, [BatchAddClients] adds the rows of all
    clients and replaces the statistics of their ids, exactly once whatever is
    retried, or changes nothing.  It fails when no client is given and when one of the ids has a
    row already, live or deleted: a client that registers again is refused. *)
Theorem BatchAddClients_correct clients c r c' :
  db_wf (committed c) -> BatchAddClients clients c = (r, c') ->
  db_wf (committed c') /\ replica c' = replica c /\
  (r = Ok tt -> clients_added clients (committed c) (committed c')) /\
  (committed c' = committed c \/ clients_added clients (committed c) (committed c')) /\
  (clients = [] \/ (exists x y, x ∈ tbl (committed c) /\ y ∈ clients /\ cli_id x = ID y) ->
     committed c' = committed c /\ is_Ok r = false).
Proof.
  intros Hd Hr. eapply (map_err_retry_does _ (add_clients clients)) in Hr as [Ho Hre]; [|apply does_add_clients].
  assert (forall d d', clients <> [] /\ clients_added clients d d' /\ (db_wf d -> db_wf d') ->
    ~ exists x y, x ∈ tbl d /\ y ∈ clients /\ cli_id x = ID y) as Hfree.
  { intros d d' (_ & (times & Hl & Ht & Hdc & _) & _) (x & y & Hx & Hy & Hid).
    rewrite Ht in Hdc. apply distinct_app in Hdc as (_ & _ & Hdc).
    apply list_elem_of_lookup in Hy as [i Hi]. destruct (lookup_lt_is_Some_2 times i) as [t Hti].
    { rewrite Hl. by eapply lookup_lt_Some. }
    specialize (Hdc x (new_client_row y t) Hx). unfold clash in Hdc. simpl in Hdc. unfold clash_client in Hdc.
    rewrite (proj2 (str_eq_true _ _)) in Hdc by done. apply Bool.diff_true_false, Hdc.
    apply (list_elem_of_lookup_2 _ i). rewrite lookup_zip_with, Hi. simpl. by rewrite Hti. }
  split; [|split; [done|]].
  { eapply (retried_does_inv db_wf); [|exact Hd|exact Ho]. intros now x a y Hx (_ & _ & Hy). auto. }
  assert (clients = [] \/ (exists x y, x ∈ tbl (committed c) /\ y ∈ clients /\ cli_id x = ID y) ->
    committed c' = committed c /\ is_Ok r = false) as Hstuck.
  { intros Hc. eapply retried_does_stuck; [|exact Ho]. intros now a d1 Hx.
    destruct Hc as [->|Hc]; [by destruct Hx|]. by apply Hfree in Hx. }
  apply retried_does_once in Ho.
  - destruct r as [[]|e|w]; [destruct Ho as (now & _ & Ho & _); auto|..];
      (split; [done|]; split; [|done]; destruct Ho as [->|(now & a & _ & Ho & _)]; auto).
  - intros now now' x a y a' z Hx Hy. apply Hfree in Hy. apply Hy. destruct Hx as (Hne & (times & Hl & Ht & _) & _).
    destruct clients as [|cl clients]; [done|]. destruct times as [|t times]; [done|].
    exists (new_client_row cl t), cl. rewrite Ht. split; [apply elem_of_app; right; by left|]. split; [by left|done].
Qed.


(** [CreateClient], [UpdateClient] and [BatchDeleteClients] of at least one
    id never succeed and never change anything: the first gives ten arguments
    to nine placeholders, the second deletes by a column that does not exist,
    the third writes a time without quotes. *)
Theorem client_writes_fail c c' r :
  (forall client, CreateClient client c = (r, c') \/ UpdateClient client c = (r, c') ->
     is_Ok r = false /\ committed c' = committed c /\ replica c' = replica c) /\
  (forall ids, ids <> [] -> BatchDeleteClients ids c = (r, c') ->
     is_Ok r = false /\ committed c' = committed c /\ replica c' = replica c).
Proof.
  split.
  - intros client [Hr|Hr].
    + unfold CreateClient in Hr. destruct (str_empty (ID client)); [by injection Hr as <- <-|].
      eapply never_outcome; [|exact Hr]. eapply does_then_never; [apply _|]. intros [].
      eapply does_never_then; [apply _|]. intros []. apply _.
    + eapply never_outcome; [|exact Hr]. eapply does_then_never; [apply _|]. intros [].
      unfold updateClientStat. eapply does_never_then; [|intros []; apply _].
      eapply does_never; [apply _|]. done.
  - intros ids Hne Hr. eapply never_outcome; [|exact Hr]. eapply does_then_never; [apply _|]. intros [].
    assert (Implements (batchDeleteClientsMain ids) (p_each (fun objects => match objects with
      | [] => p_ret tt | _ => p_map_err store_Error (fun _ _ => Err syntax_error) end) (chunks 100 ids))) as Hi.
    { unfold batchDeleteClientsMain. apply impl_BatchOperation. intros [|o l]; simpl; apply _. }
    eapply does_never; [exact Hi|]. intros now d. destruct ids as [|id ids]; [done|]. reflexivity.
Qed.
(** [GetClientStat] fails whatever the database holds. *)
Theorem GetClientStat_fails id c r c' : GetClientStat id c = (r, c') -> same_dbs c c' /\ is_Ok r = false.
Proof.
  unfold GetClientStat. intros Hr. split; [by eapply Query_fetch_frame|].
  destruct r as [l|e|w]; [|done..]. apply Query_fetch_Ok in Hr as (_ & now & rs & Hs & _);
    [done|apply _|apply fetch_rows_err_checking].
Qed.

Lemma collect_keys l m id : fold_left collect l m !! id <> None <->
  m !! id <> None \/ exists e, e ∈ l /\ st_ID e = id.
Proof.
  revert m. induction l as [|e l IH]; intros m; simpl.
  { split; [by left|]. intros [?|(e & He & _)]; [done|by apply elem_of_nil in He]. }
  rewrite IH. assert (collect m e !! id <> None <-> m !! id <> None \/ st_ID e = id) as ->.
  { unfold collect. destruct (m !! st_ID e) eqn:E; destruct (decide (st_ID e = id)) as [<-|Hne];
      rewrite ?lookup_insert_eq, ?lookup_insert_ne, ?E by done; naive_solver. }
  setoid_rewrite elem_of_cons. naive_solver.
Qed.

(** [GetMoreClients] changes nothing, and succeeds only when every changed
    client of the replica has statistics: the left join gives NULL for one
    without, which is scanned into strings.  The result then has exactly the
    changed clients. *)
Theorem GetMoreClients_needs_stats mtime firstUpdate c r c' :
  GetMoreClients mtime firstUpdate c = (r, c') ->
  same_dbs c c' /\
  (forall m, r = Ok m ->
     (forall x, x ∈ tbl (replica c) -> more_where mtime firstUpdate x = true ->
        exists s, s ∈ tbl (replica c) /\ cst_client_id s = cli_id x) /\
     (forall id, m !! id <> None <->
        exists x, x ∈ tbl (replica c) /\ more_where mtime firstUpdate x = true /\ cli_id x = id)).
Proof.
  unfold GetMoreClients. intros Hr.
  split; [exact (Query_fetch_frame _ _ (fun rs => callFetchClientRows rs collect ∅) _ _ _ Hr)|]. intros m ->.
  assert (err_checking (fun rs => callFetchClientRows rs collect ∅)) as Hec.
  { intros l e. unfold callFetchClientRows, fetch_rows. simpl. by destruct (scan_all scan_client l). }
  eapply Query_fetch_Ok in Hr as (_ & now & rs & [= <-] & Hf); [|apply _|exact Hec].
  unfold callFetchClientRows, fetch_rows in Hf. apply res_map_Ok in Hf as (l & Hf & <-).
  apply res_bind_Ok in Hf as (l' & Hs%scan_all_Ok & [= ->]). simpl in Hs.
  assert (forall x j, x ∈ tbl (replica c) -> more_where mtime firstUpdate x = true ->
    j ∈ join_stats (replica c) x -> j ∈ select_more mtime firstUpdate (replica c)) as Hin.
  { intros x j Hx Hm Hj. apply list_elem_of_In, in_concat. exists (join_stats (replica c) x).
    split; [|by apply list_elem_of_In]. apply in_map, list_elem_of_In, elem_of_keep. done. }
  assert (forall j e, scan_client j = Ok e -> st_ID e = cli_id j.1 /\ j.2 <> None) as Hscan.
  { intros [x s] e He. unfold scan_client in He. res_steps. injection He as <-. by destruct s. }
  split.
  - intros x Hx Hm. destruct (keep (fun s => str_eq (cst_client_id s) (cli_id x)) (tbl (replica c))) as [|s k] eqn:E.
    + exfalso. specialize (Hin x (x, None) Hx Hm). unfold join_stats in Hin. rewrite E in Hin.
      specialize (Hin (list_elem_of_here _ _)). eapply Forall2_elem_l in Hs as (e & _ & He); [|exact Hin].
      by apply Hscan in He as [_ He].
    + exists s. assert (s ∈ keep (fun s => str_eq (cst_client_id s) (cli_id x)) (tbl (replica c))) as Hk by (rewrite E; by left).
      apply elem_of_keep in Hk as [Hk Hid%str_eq_true]. done.
  - intros id. rewrite collect_keys, lookup_empty. split.
    + intros [?|(e & He & <-)]; [done|]. destruct (Forall2_elem_r _ _ _ _ Hs He) as ([x s] & Hj & Hsc).
      apply Hscan in Hsc as [-> _]. apply list_elem_of_In, in_concat in Hj as (k & Hk & Hj).
      apply in_map_iff in Hk as (x' & <- & Hx'). apply list_elem_of_In, elem_of_keep in Hx' as [Hx' Hm].
      exists x'. split; [done|]. split; [done|]. unfold join_stats in Hj. simpl.
      destruct (keep _ _) in Hj; [by destruct Hj as [[= -> _]|[]]|]. apply in_map_iff in Hj as (s' & [= -> _] & _). done.
    + intros (x & Hx & Hm & <-). right.
      assert (exists j, j ∈ join_stats (replica c) x /\ j.1 = x) as (j & Hj & <-).
      { unfold join_stats. destruct (keep _ _) as [|s k]; eexists; (split; [by left|done]). }
      eapply Forall2_elem_l in Hs as (e & He & Hsc); [|by eapply Hin]. exists e. split; [done|]. by apply Hscan in Hsc as [? _].
Qed.
End client_properties.
