(* ===== verification/ServiceContract.v ===== *)
(** * Service contracts (store/postgresql/service_contract.go)

    [serviceContractStore]: contracts and the interfaces they describe.  The
    statements name a column [name] of service_contract and of
    service_contract_detail; the schema calls it type, so the server refuses
    them.  The columns a SELECT asks for are the records [contract_cols] and
    [detail_cols]. *)
From stdpp Require Import base list strings gmap.
From Stdlib Require Import ZArith Lia.
From S2P Require Import Prelude Driver Rows Schema Sql Common.
Open Scope Z_scope.
Open Scope store_scope.

(** [model.ServiceContract], [model.InterfaceDescriptor] and
    [model.EnrichServiceContract]. *)
Inductive source := InterfaceDescriptor_Manual | InterfaceDescriptor_Client.

Record ServiceContract := mkServiceContract {
  ID : string; Namespace : string; Name : string; Service : string; Protocol : string; Version : string;
  Revision : string; Content : string; CreateTime : Z; ModifyTime : Z; Valid : bool }.

Record InterfaceDescriptor := mkInterfaceDescriptor {
  if_ID : string; ContractID : string; if_Name : string; Method : string; Path : string; if_Content : string;
  if_Revision : string; Source : source; if_CreateTime : Z; if_ModifyTime : Z; if_Valid : bool }.

Record EnrichServiceContract := mkEnrich { contract_of : ServiceContract; Interfaces : list InterfaceDescriptor }.

(** [EnrichServiceContract.Format] of package [model]. *)
Class ContractApi := { Format : EnrichServiceContract -> EnrichServiceContract }.

(** What the two queries select. *)
Record contract_cols := ContractCols {
  c_id : string; c_name : string; c_namespace : string; c_service : string; c_protocol : string;
  c_version : string; c_revision : string; c_flag : option Z; c_content : option string; c_ctime : Z; c_mtime : Z }.

Record detail_cols := DetailCols {
  d_id : string; d_contract_id : string; d_name : string; d_method : string; d_path : string;
  d_content : option string; d_revision : string; d_ctime : Z; d_mtime : Z; d_source : Z }.

(** Neither table has a column [name]. *)
Definition no_name : error := EDriver "pq: column name does not exist".

Section contract.
Context `{Env} `{PolarisApi} `{Strconv} `{ContractApi}.
Abbreviation M := (M database).
Abbreviation P := (P database).

(** [CreateServiceContract] *)
Definition CreateServiceContract (contract : ServiceContract) : M unit :=
  map_err store_Error (void (Exec (A:=Z) (fun _ _ => Err no_name))).

Definition contract_id_is (id : string) (r : service_contract_row) : bool := str_eq (sct_id r) id.

Definition set_contract (c : ServiceContract) (now : Z) (r : service_contract_row) : service_contract_row :=
  ServiceContractRow (sct_id r) (sct_type r) (sct_namespace r) (sct_service r) (sct_protocol r) (sct_version r)
    (Revision c) (sct_flag r) (Some (Content c)) (sct_ctime r) now.

(** [UpdateServiceContract] *)
Definition UpdateServiceContract (contract : ServiceContract) : M unit :=
  void (Exec (sql_update (contract_id_is (ID contract)) (set_contract contract))).

Definition set_contract_deleted (now : Z) (r : service_contract_row) : service_contract_row :=
  ServiceContractRow (sct_id r) (sct_type r) (sct_namespace r) (sct_service r) (sct_protocol r) (sct_version r)
    (sct_revision r) (Some 1) (sct_content r) (sct_ctime r) now.

Definition detail_of (id : string) (r : service_contract_detail_row) : bool := str_eq (scd_contract_id r) id.

(** [DeleteServiceContract] *)
Definition delete_contract (contract : ServiceContract) : M unit :=
  void (tx_Exec (sql_update (contract_id_is (ID contract)) set_contract_deleted)) ;;;
  void (tx_Exec (sql_delete (detail_of (ID contract)))).

Definition DeleteServiceContract (contract : ServiceContract) : M unit :=
  processWithTransaction (then_commit (delete_contract contract)).

(** The loops over the rows. *)
Definition scan_contract (r : contract_cols) : res ServiceContract :=
  match c_flag r, c_content r with
  | Some flag, Some content =>
      times <-? scan_times (RFC3339Nano (c_ctime r)) (RFC3339Nano (c_mtime r)) ;;
      Ok (mkServiceContract (c_id r) (c_namespace r) (c_name r) (c_service r) (c_protocol r) (c_version r)
            (c_revision r) content times.1 times.2 (flag =? 0))
  | _, _ => Err (store_Error (EMsg "sql: Scan error: converting NULL is unsupported"))
  end.

(** [GetServiceContract]: [rows.Err()] is not looked at. *)
Definition GetServiceContract (id : string) : M (option EnrichServiceContract) :=
  rs <- map_err store_Error (Query (R:=contract_cols) committed (fun _ _ => Err no_name)) ;;
  list <- lift (scan_all scan_contract (r_data rs)) ;;
  Ret (match list with [] => None | contract :: _ => Some (mkEnrich contract []) end).

Definition set_contract_revision (revision : string) (now : Z) (r : service_contract_row) : service_contract_row :=
  ServiceContractRow (sct_id r) (sct_type r) (sct_namespace r) (sct_service r) (sct_protocol r) (sct_version r)
    revision (sct_flag r) (sct_content r) (sct_ctime r) now.

(** The three operations on interfaces update the revision and run one
    statement per interface, all of which name the missing column. *)
Definition updateRevision (contract : EnrichServiceContract) : M unit :=
  void (tx_Exec (sql_update (contract_id_is (ID (contract_of contract)))
    (set_contract_revision (Revision (contract_of contract))))).

Definition each_interface (contract : EnrichServiceContract) : M unit :=
  updateRevision contract ;;;
  each (fun item => tx_Exec (A:=unit) (fun _ _ => Err no_name)) (Interfaces contract).

Definition AddServiceContractInterfaces (contract : EnrichServiceContract) : M unit :=
  processWithTransaction (then_commit (each_interface contract)).

Definition AppendServiceContractInterfaces (contract : EnrichServiceContract) : M unit :=
  processWithTransaction (then_commit (each_interface contract)).

Definition DeleteServiceContractInterfaces (contract : EnrichServiceContract) : M unit :=
  processWithTransaction (then_commit (each_interface contract)).

(** The interfaces of [GetMoreServiceContracts], grouped by contract. *)
Definition scan_detail (r : detail_cols) : res InterfaceDescriptor :=
  match d_content r with
  | Some content =>
      times <-? scan_times (RFC3339Nano (d_ctime r)) (RFC3339Nano (d_mtime r)) ;;
      Ok (mkInterfaceDescriptor (d_id r) (d_contract_id r) (d_name r) (d_method r) (d_path r) content
            (d_revision r) (if d_source r =? 2 then InterfaceDescriptor_Client else InterfaceDescriptor_Manual)
            times.1 times.2 true)
  | None => Err (store_Error (EMsg "sql: Scan error: converting NULL to string is unsupported"))
  end.

Definition contractDetailMap (l : list InterfaceDescriptor) : gmap string (list InterfaceDescriptor) :=
  fold_left (fun m item => <[ContractID item := default [] (m !! ContractID item) ++ [item]]> m) l ∅.

Definition with_interfaces (m : gmap string (list InterfaceDescriptor)) (c : ServiceContract) : EnrichServiceContract :=
  Format (mkEnrich c (default [] (m !! ID c))).

Definition more_contracts : M (list EnrichServiceContract) :=
  rs <- map_err store_Error (tx_Query (R:=contract_cols) (fun _ _ => Err no_name)) ;;
  list <- lift (scan_all scan_contract (r_data rs)) ;;
  match list with
  | [] => Ret []
  | _ =>
      detailRows <- map_err store_Error (tx_Query (R:=detail_cols) (fun _ _ => Err no_name)) ;;
      details <- lift (scan_all scan_detail (r_data detailRows)) ;;
      Ret (map (with_interfaces (contractDetailMap details)) list)
  end.

(** [GetMoreServiceContracts]: neither the time nor the first update matters
    to a statement the server refuses. *)
Definition GetMoreServiceContracts (firstUpdate : bool) (mtime : Z) : M (list EnrichServiceContract) :=
  on_slave (map_err store_Error Begin ;;; defer_commit more_contracts).
End contract.

(** ** Properties *)

Section contract_properties.
Context `{Env} `{PolarisApi} `{Strconv} `{ContractApi}.
Implicit Types (c : conn database) (x : ServiceContract) (e : EnrichServiceContract).

(** [UpdateServiceContract] sets content and revision of the contract of that
    id, or changes nothing. *)
Theorem UpdateServiceContract_correct x c r c' :
  db_wf (committed c) -> UpdateServiceContract x c = (r, c') ->
  db_wf (committed c') /\ replica c' = replica c /\
  (r = Ok tt -> updated (contract_id_is (ID x)) (set_contract x) (committed c) (committed c')) /\
  (committed c' = committed c \/ updated (contract_id_is (ID x)) (set_contract x) (committed c) (committed c')).
Proof.
  intros Hd Hr. eapply refines_void in Hr as [Ho Hre]; [|apply _].
  apply update_row_outcome in Ho as (Hd' & Hok & Hor); auto.
Qed.

(** The content after a deletion: the contract is marked, its interfaces are
    gone, every other contract and interface is as it was. *)
Definition contract_deleted (id : string) (now : Z) (d d' : database) : Prop :=
  tbl d' = change (contract_id_is id) (set_contract_deleted now) (tbl d) /\
  tbl d' = keep (fun r => negb (detail_of id r)) (tbl d).

Lemma delete_contract_Ok x now d d' :
  p_bind (p_void (sql_update (contract_id_is (ID x)) set_contract_deleted)) (fun _ =>
    p_void (sql_delete (detail_of (ID x)))) now d = Ok (tt, d') ->
  contract_deleted (ID x) now d d'.
Proof.
  intros ([] & d1 & (n & [-> _]%update_Ok_inv)%p_void_Ok & (k & [= _ <-])%p_void_Ok)%p_bind_Ok.
  unfold contract_deleted. by autorewrite with tables.
Qed.

(** [DeleteServiceContract] marks the contract deleted and removes all its
    interfaces in one transaction, or changes nothing committed; afterwards no
    interface refers to it. *)
Theorem DeleteServiceContract_correct x c r c' : DeleteServiceContract x c = (r, c') ->
  replica c' = replica c /\
  (r = Ok tt -> exists now, contract_deleted (ID x) now (committed c) (committed c')) /\
  (committed c' = committed c \/ exists now, contract_deleted (ID x) now (committed c) (committed c')) /\
  (r = Ok tt -> forall s, s ∈ tbl (committed c') -> scd_contract_id s <> ID x).
Proof.
  intros [Ho Hre]%(process_spec (delete_contract x) _).
  assert (r = Ok tt -> exists now, contract_deleted (ID x) now (committed c) (committed c')) as Hok.
  { intros ->. destruct Ho as [now Ho]. exists now. by eapply delete_contract_Ok. }
  split_and!; [done|done| |].
  - destruct r as [u|e|w]; [right|destruct Ho as [->|(now & [] & Ho)]; [by left|right]|by left].
    + destruct u. by apply Hok.
    + exists now. by eapply delete_contract_Ok.
  - intros [now [_ Hs]]%Hok s. rewrite Hs. intros [_ Hn]%elem_of_keep.
    unfold detail_of in Hn. intros E. by rewrite E, str_eq_refl in Hn.
Qed.

(** The operations on interfaces: without interfaces they update the revision,
    with any they change nothing and fail. *)
Lemma each_interface_outcome e c r c' : processWithTransaction (then_commit (each_interface e)) c = (r, c') ->
  let done_ := updated (contract_id_is (ID (contract_of e))) (set_contract_revision (Revision (contract_of e)))
    (committed c) (committed c') in
  replica c' = replica c /\ (r = Ok tt -> Interfaces e = [] /\ done_) /\
  (committed c' = committed c \/ (Interfaces e = [] /\ done_)).
Proof.
  intros [Ho Hre]%(process_spec (each_interface e) _) done_.
  assert (forall now d', p_bind (p_void (sql_update (contract_id_is (ID (contract_of e)))
      (set_contract_revision (Revision (contract_of e))))) (fun _ =>
      p_each (fun _ : InterfaceDescriptor => (fun _ _ => Err no_name : res (unit * database))) (Interfaces e)) now (committed c) = Ok (tt, d') ->
    Interfaces e = [] /\ updated (contract_id_is (ID (contract_of e)))
      (set_contract_revision (Revision (contract_of e))) (committed c) d') as Hp.
  { intros now d' ([] & d1 & (n & [-> _]%update_Ok_inv)%p_void_Ok & Hl)%p_bind_Ok.
    destruct (Interfaces e) as [|i l]; [|done]. injection Hl as <-. split; [done|]. by exists now. }
  split; [done|]. destruct r as [[]|err|w].
  - destruct Ho as [now Ho]. apply Hp in Ho. auto.
  - split; [done|]. destruct Ho as [->|(now & [] & Ho)]; [by left|right]. by eapply Hp.
  - split; [done|]. by left.
Qed.

Theorem interfaces_correct e c r c' :
  AddServiceContractInterfaces e c = (r, c') \/ AppendServiceContractInterfaces e c = (r, c') \/
    DeleteServiceContractInterfaces e c = (r, c') ->
  let done_ := updated (contract_id_is (ID (contract_of e))) (set_contract_revision (Revision (contract_of e)))
    (committed c) (committed c') in
  replica c' = replica c /\ (r = Ok tt -> Interfaces e = [] /\ done_) /\
  (committed c' = committed c \/ (Interfaces e = [] /\ done_)).
Proof. intros [Hr|[Hr|Hr]]; by apply each_interface_outcome in Hr. Qed.

(** Reading on the replica in a transaction that is committed either way. *)
Lemma more_contracts_fails firstUpdate mtime c r c' :
  GetMoreServiceContracts firstUpdate mtime c = (r, c') -> is_Ok r = false /\ same_dbs c c'.
Proof.
  intros Hr. by eapply (slave_refused store_Error store_Error) in Hr; [|intros; by eexists].
Qed.

(** Contracts cannot be created, read or given interfaces:
    [CreateServiceContract], [GetServiceContract] and
    [GetMoreServiceContracts] never succeed and change nothing, and neither do
    the three operations with at least one interface. *)
Theorem contract_name_refused x e id firstUpdate mtime c r c' :
  CreateServiceContract x c = (r, c') \/
  (Interfaces e <> [] /\ (AddServiceContractInterfaces e c = (r, c') \/
     AppendServiceContractInterfaces e c = (r, c') \/ DeleteServiceContractInterfaces e c = (r, c'))) ->
  is_Ok r = false /\ same_dbs c c' /\
  is_Ok (fst (GetServiceContract id c)) = false /\ same_dbs c (snd (GetServiceContract id c)) /\
  is_Ok (fst (GetMoreServiceContracts firstUpdate mtime c)) = false /\
  same_dbs c (snd (GetMoreServiceContracts firstUpdate mtime c)).
Proof.
  intros Hw. assert (is_Ok r = false /\ same_dbs c c') as [Hok Hs].
  { destruct Hw as [Hr|[Hne Hr]].
    - eapply (refines_map_err store_Error) in Hr as [Ho Hre]; [|apply _].
      apply retried_outcome_stuck in Ho as [Hd Hok]; [done|]. by intros now.
    - apply interfaces_correct in Hr as (Hre & Hok & Hc). split; [|split; [|done]].
      + destruct r as [[]| |]; [|done..]. by destruct (Hok eq_refl).
      + by destruct Hc as [?|[? _]]. }
  destruct (more_contracts_fails firstUpdate mtime c _ _ (surjective_pairing _)) as [Hm1 Hm2].
  split_and!; try done.
  - unfold GetServiceContract, Bind, map_err.
    destruct (Query _ _ c) as [rr c1] eqn:E. apply Query_refused in E; [|done]. by destruct rr.
  - assert (ReadOnly (GetServiceContract id)) as Hro by (unfold GetServiceContract; apply _).
    by eapply Hro, surjective_pairing.
Qed.
End contract_properties.
