(* ===== verification/Strategy.v ===== *)
(** * Authorisation strategies (store/postgresql/strategy.go)

    [strategyStore]: strategies with the principals they are bound to and the
    resources they open, and the two helpers users and groups share:
    [createDefaultStrategy] (user.go) and [cleanLinkStrategy].  The schema
    calls the column of the default mark default_status; statements that read
    it as ag.default, that quote it as a text, or that use INSERT IGNORE are
    refused by the server. *)
From stdpp Require Import base list strings gmap.
From Stdlib Require Import ZArith Lia.
From S2P Require Import Prelude Driver Rows Schema Sql Common Where.
Open Scope Z_scope.
Open Scope store_scope.

(** [model.Principal], [model.StrategyResource], [model.StrategyDetail] and
    [model.ModifyStrategyDetail]. *)
Record Principal := mkPrincipal { PrincipalID : string; PrincipalRole : Z }.
Record StrategyResource := mkStrategyResource { StrategyID : string; ResType : Z; ResID : string }.
Record StrategyDetail := mkStrategyDetail {
  ID : string; Name : string; Action : string; Comment : string; Principals : list Principal; Default : bool;
  Owner : string; Resources : list StrategyResource; Valid : bool; Revision : string;
  CreateTime : Z; ModifyTime : Z }.
Record ModifyStrategyDetail := mkModifyStrategyDetail {
  m_ID : string; m_Action : string; m_Comment : string; AddPrincipals : list Principal;
  RemovePrincipals : list Principal; AddResources : list StrategyResource;
  RemoveResources : list StrategyResource }.

(** Constants and functions of packages of polarismesh/polaris. *)
Class AuthApi := {
  PrincipalUser : Z;
  PrincipalGroup : Z;
  MaxBatchSize : nat;
  InvalidUserIDSlice : StatusCode;
  BuildDefaultStrategyName : Z -> string -> string;
  READ_WRITE : string
}.

(** Where the server refuses a statement. *)
Definition no_default : error := EDriver "pq: column ag.default does not exist".
Definition no_set_target : error := EDriver "pq: column ag of relation auth_strategy does not exist".

(** [tx.Prepare] of a text the server refuses, and [stmt.Exec] with the wrong
    number of arguments. *)
Definition tx_refused `{Env} (e : error) : M database unit := tx_Exec (fun _ _ => Err e).
Definition stmt_wrong_args `{Env} : M database unit := stmt_Exec (fun _ _ => Err param_error).

Section strategy.
Context `{Env} `{PolarisApi} `{Uuid} `{MapRange} `{PgInput} `{AuthApi}.
Abbreviation M := (M database).
Abbreviation P := (P database).

(** ** Principals and resources of one strategy *)

(** [addStrategyPrincipals]: INSERT IGNORE. *)
Definition addStrategyPrincipals (id : string) (principals : list Principal) : M unit :=
  match principals with
  | [] => Ret tt
  | _ => tx_refused syntax_error
  end.

Definition principal_is (id : string) (p : Principal) (r : auth_principal_row) : bool :=
  str_eq (ap_strategy_id r) id && str_eq (ap_principal_id r) (PrincipalID p) &&
  (ap_principal_role r =? PrincipalRole p).

(** [deleteStrategyPrincipals] *)
Definition deleteStrategyPrincipals (id : string) (principals : list Principal) : M unit :=
  each (fun principal => void (stmt_Exec (sql_delete (principal_is id principal)))) principals.

Definition resource_args (r : StrategyResource) : list arg :=
  [AStr (StrategyID r); AInt (ResType r); AStr (ResID r)].

Definition resource_row (now : Z) (a : list arg) : auth_strategy_resource_row :=
  AuthStrategyResourceRow (arg_str (nth 0 a (AStr ""))) (arg_int (nth 1 a (AInt 0))) (arg_str (nth 2 a (AStr "")))
    now now.

Definition insert_resources (resources : list StrategyResource) : P Z :=
  let '(groups, args) := values_loop 3 3 (map resource_args resources) 1 in
  if params_ok (T "INSERT INTO auth_strategy_resource(strategy_id, res_type, res_id) VALUES "
                :: values_sql "" groups) (length args)
  then sql_insert (fun now => map (fun g => resource_row now (map (arg_at args) g)) groups)
  else fun _ _ => Err param_error.

(** [addStrategyResources] *)
Definition addStrategyResources (id : string) (resources : list StrategyResource) : M unit :=
  match resources with
  | [] => Ret tt
  | _ => void (stmt_Exec (insert_resources resources))
  end.

Definition resource_is (x : StrategyResource) (r : auth_strategy_resource_row) : bool :=
  str_eq (asr_strategy_id r) (StrategyID x) && str_eq (asr_res_id r) (ResID x) && (asr_res_type r =? ResType x).

(** [deleteStrategyResources] *)
Definition deleteStrategyResources (id : string) (resources : list StrategyResource) : M unit :=
  each (fun resource => void (stmt_Exec (sql_delete (resource_is resource)))) resources.

(** ** Adding, updating and deleting *)

Definition strategy_id_is (id : string) (r : auth_strategy_row) : bool := str_eq (as_id r) id.

Definition strategy_dead (name owner : string) (r : auth_strategy_row) : bool :=
  str_eq (as_name r) name && str_eq (as_owner r) owner && (as_flag r =? 1).

(** [cleanInvalidStrategy]: a transaction of its own. *)
Definition cleanInvalidStrategy (name owner : string) : M unit :=
  processWithTransaction (then_commit (void (stmt_Exec (sql_delete (strategy_dead name owner))))).

(** [addStrategy]: a text where a column is listed. *)
Definition addStrategy (strategy : StrategyDetail) : M unit :=
  processWithTransaction (then_commit (
    addStrategyPrincipals (ID strategy) (Principals strategy) ;;;
    addStrategyResources (ID strategy) (Resources strategy) ;;;
    tx_refused syntax_error)).

Definition AddStrategy (strategy : StrategyDetail) : M unit :=
  if str_empty (ID strategy) || str_empty (Name strategy) || str_empty (Owner strategy) then
    Fail (EStatus EmptyParamsErr ("add auth_strategy missing some params, id is " +:+ ID strategy +:+
      ", name is " +:+ Name strategy +:+ ", owner is " +:+ Owner strategy))
  else
    map_err store_Error (cleanInvalidStrategy (Name strategy) (Owner strategy)) ;;;
    map_err store_Error (RetryTransaction (addStrategy strategy)).

Definition set_strategy (x : ModifyStrategyDetail) (mtime : Z) (r : auth_strategy_row) : auth_strategy_row :=
  AuthStrategyRow (as_id r) (as_name r) (m_Action x) (as_owner r) (m_Comment x) (as_default_status r)
    (as_source r) (as_revision r) (as_flag r) (as_ctime r) mtime.

(** [updateStrategy], [UpdateStrategy] *)
Definition updateStrategy_body (strategy : ModifyStrategyDetail) : M unit :=
  addStrategyPrincipals (m_ID strategy) (AddPrincipals strategy) ;;;
  deleteStrategyPrincipals (m_ID strategy) (RemovePrincipals strategy) ;;;
  addStrategyResources (m_ID strategy) (AddResources strategy) ;;;
  deleteStrategyResources (m_ID strategy) (RemoveResources strategy) ;;;
  tx_Prepare ;;;
  t <- time_Now ;;
  void (tx_Exec (sql_update (strategy_id_is (m_ID strategy)) (fun _ => set_strategy strategy (GetCurrentTimeFormat t)))).

Definition updateStrategy (strategy : ModifyStrategyDetail) : M unit :=
  processWithTransaction (then_commit (updateStrategy_body strategy)).

Definition UpdateStrategy (strategy : ModifyStrategyDetail) : M unit :=
  if str_empty (m_ID strategy) then
    Fail (EStatus EmptyParamsErr ("update auth_strategy missing some params, id is " +:+ m_ID strategy))
  else map_err store_Error (RetryTransaction (updateStrategy strategy)).

Definition touch (flag : option Z) (mtime : Z) (r : auth_strategy_row) : auth_strategy_row :=
  AuthStrategyRow (as_id r) (as_name r) (as_action r) (as_owner r) (as_comment r) (as_default_status r)
    (as_source r) (as_revision r) (default (as_flag r) flag) (as_ctime r) mtime.

(** [deleteStrategy], [DeleteStrategy]: the error of the last Prepare is not
    looked at. *)
Definition deleteStrategy_body (id : string) : M unit :=
  void (stmt_Exec (sql_update (strategy_id_is id) (touch (Some 1)))) ;;;
  void (stmt_Exec (sql_delete (fun r => str_eq (asr_strategy_id r) id))) ;;;
  or_nil_stmt tx_Prepare ;;;
  void (tx_Exec (sql_delete (fun r => str_eq (ap_strategy_id r) id))).

Definition deleteStrategy (id : string) : M unit :=
  processWithTransaction (then_commit (deleteStrategy_body id)).

Definition DeleteStrategy (id : string) : M unit :=
  if str_empty id then
    Fail (EStatus EmptyParamsErr ("delete auth_strategy missing some params, id is " +:+ id))
  else map_err store_Error (RetryTransaction (deleteStrategy id)).

(** ** Resources across strategies *)

(** An insert whose duplicate key error is passed over: [ok] follows a success,
    the next resource a duplicate. *)
Definition insert_or_continue (x : StrategyResource) (ok : M unit) : M unit := fun c =>
  match tx_Exec (sql_insert (fun now => [resource_row now (resource_args x)])) c with
  | (Ok _, c') => ok c'
  | (Err e, c') =>
      let err := store_Error e in
      if decide (store_Code err = DuplicateEntryErr) then (Ok tt, c') else (Err err, c')
  | (Panic w, c') => (Panic w, c')
  end.

Definition touch_strategy (id : string) : M unit :=
  void (stmt_Exec (sql_update (strategy_id_is id) (touch None))).

Definition loose_add (resources : list StrategyResource) : M unit :=
  each (fun resource =>
    tx_Prepare ;;; insert_or_continue resource (touch_strategy (StrategyID resource))) resources.

(** [LooseAddStrategyResources] *)
Definition LooseAddStrategyResources (resources : list StrategyResource) : M unit :=
  processWithTransaction (then_commit (loose_add resources)).

(** [RemoveStrategyResources]: without a strategy id the text has two
    placeholders, for five arguments. *)
Definition remove_one (resource : StrategyResource) : M unit :=
  (if str_empty (StrategyID resource) then stmt_wrong_args
   else void (stmt_Exec (sql_delete (resource_is resource)))) ;;;
  touch_strategy (StrategyID resource).

Definition RemoveStrategyResources (resources : list StrategyResource) : M unit :=
  processWithTransaction (then_commit (each remove_one resources)).

(** ** Reading *)

(** What the queries select of a strategy; all of them name ag.default. *)
Record strategy_cols := StrategyCols {
  sc_id : string; sc_name : string; sc_action : string; sc_owner : string; sc_default : Z; sc_comment : string;
  sc_revision : string; sc_flag : Z; sc_ctime : Z; sc_mtime : Z }.

(** [fetchRown2StrategyDetail] *)
Definition fetchRown2StrategyDetail (r : strategy_cols) : StrategyDetail :=
  mkStrategyDetail (sc_id r) (sc_name r) (sc_action r) (sc_comment r) [] (sc_default r =? 1) (sc_owner r) []
    (sc_flag r =? 0) (sc_revision r) (sc_ctime r) (sc_mtime r).

(** An error that no row was found gives an empty result. *)
Definition unless_no_rows {A} (m : M (list A)) : M (list A) := fun c =>
  match m c with
  | (Err ENoRows, c') => (Ok [], c')
  | (Err e, c') => (Err (store_Error e), c')
  | rc => rc
  end.

Definition read_resource (r : auth_strategy_resource_row) : StrategyResource :=
  mkStrategyResource "" (asr_res_type r) (asr_res_id r).
Definition read_principal (r : auth_principal_row) : Principal :=
  mkPrincipal (ap_principal_id r) (ap_principal_role r).

(** [getStrategyPrincipals], [getStrategyResources]: [rows.Err()] is not looked
    at. *)
Definition getStrategyPrincipals (view : conn database -> database) (id : string) : M (list Principal) :=
  unless_no_rows (
    rows <- Query view (fun _ d => Ok (sql_select (fun r => str_eq (ap_strategy_id r) id) d)) ;;
    Ret (map read_principal (r_data rows))).

Definition getStrategyResources (view : conn database -> database) (id : string) : M (list StrategyResource) :=
  unless_no_rows (
    rows <- Query view (fun _ d => Ok (sql_select (fun r => str_eq (asr_strategy_id r) id) d)) ;;
    Ret (map read_resource (r_data rows))).

Definition with_details (ret : StrategyDetail) (resArr : list StrategyResource) (principals : list Principal) :
    StrategyDetail :=
  mkStrategyDetail (ID ret) (Name ret) (Action ret) (Comment ret) principals (Default ret) (Owner ret) resArr
    (Valid ret) (Revision ret) (CreateTime ret) (ModifyTime ret).

Definition load_details (view : conn database -> database) (detail : StrategyDetail) : M StrategyDetail :=
  resArr <- map_err store_Error (getStrategyResources view (ID detail)) ;;
  principals <- map_err store_Error (getStrategyPrincipals view (ID detail)) ;;
  Ret (with_details detail resArr principals).

(** [getStrategyDetail] *)
Definition getStrategyDetail (row : M strategy_cols) : M (option StrategyDetail) := fun c =>
  match row c with
  | (Err ENoRows, c') => (Ok None, c')
  | (Err e, c') => (Err (store_Error e), c')
  | (Panic w, c') => (Panic w, c')
  | (Ok r, c') => (ret <- load_details replica (fetchRown2StrategyDetail r) ;; Ret (Some ret)) c'
  end.

(** [GetStrategyDetail] *)
Definition GetStrategyDetail (id : string) : M (option StrategyDetail) :=
  if str_empty id then
    Fail (EStatus EmptyParamsErr ("get auth_strategy missing some params, id is " +:+ id))
  else getStrategyDetail (QueryRow committed (fun _ _ => Err no_default)).

(** [GetDefaultStrategyDetailByPrincipal]: a parenthesis too many. *)
Definition GetDefaultStrategyDetailByPrincipal (principalId : string) (principalType : Z) :
    M (option StrategyDetail) :=
  if str_empty principalId then
    Fail (EStatus EmptyParamsErr ("get auth_strategy missing some params, principal_id is " +:+ principalId))
  else getStrategyDetail (QueryRow committed (fun _ _ => Err syntax_error)).

(** *** Lists *)

Definition RuleFilters (key : string) : option string :=
  if str_eq key "res_id" then Some "ar.res_id"%string
  else if str_eq key "res_type" then Some "ar.res_type"%string
  else if str_eq key "default" then Some "ag.default"%string
  else if str_eq key "owner" then Some "ag.owner"%string
  else if str_eq key "name" then Some "ag.name"%string
  else if str_eq key "principal_id" then Some "ap.principal_id"%string
  else if str_eq key "principal_type" then Some "ap.principal_role"%string
  else None.

Definition RuleNeedLikeFilters (key : string) : bool := str_eq key "name".

(** (auth_strategy ag left join auth_strategy_resource ar) left join
    auth_principal ap, and the columns that can be named in it without being
    ambiguous. *)
Definition joined : Type := auth_strategy_row * option auth_strategy_resource_row * option auth_principal_row.

Definition left_join {X Y} (on : X -> Y -> bool) (l : list X) (k : list Y) : list (X * option Y) :=
  concat (map (fun x =>
    match keep (on x) k with [] => [(x, None)] | ys => map (fun y => (x, Some y)) ys end) l).

Definition strategy_join (d : database) : list joined :=
  left_join (fun x p => str_eq (as_id x.1) (ap_strategy_id p))
    (left_join (fun s r => str_eq (as_id s) (asr_strategy_id r)) (tbl d) (tbl d)) (tbl d).

Definition strategy_join_cols (col : string) : option (column joined) :=
  let text (f : auth_strategy_row -> string) := Some (CText (fun x : joined => Some (f x.1.1))) in
  let int (f : auth_strategy_row -> Z) := Some (CInt (fun x : joined => Some (f x.1.1))) in
  if str_eq col "ag.id" || str_eq col "id" then text as_id
  else if str_eq col "ag.name" || str_eq col "name" then text as_name
  else if str_eq col "ag.action" || str_eq col "action" then text as_action
  else if str_eq col "ag.owner" || str_eq col "owner" then text as_owner
  else if str_eq col "ag.comment" || str_eq col "comment" then text as_comment
  else if str_eq col "ag.source" || str_eq col "source" then text as_source
  else if str_eq col "ag.revision" || str_eq col "revision" then text as_revision
  else if str_eq col "ag.default_status" || str_eq col "default_status" then int as_default_status
  else if str_eq col "ag.flag" || str_eq col "flag" then int as_flag
  else if str_eq col "ag.ctime" then Some (CTime (fun x => as_ctime x.1.1))
  else if str_eq col "ag.mtime" then Some (CTime (fun x => as_mtime x.1.1))
  else if str_eq col "ar.res_id" || str_eq col "res_id" then Some (CText (fun x => asr_res_id <$> x.1.2))
  else if str_eq col "ar.res_type" || str_eq col "res_type" then Some (CInt (fun x => asr_res_type <$> x.1.2))
  else if str_eq col "ar.strategy_id" then Some (CText (fun x => asr_strategy_id <$> x.1.2))
  else if str_eq col "ap.principal_id" || str_eq col "principal_id" then Some (CText (fun x => ap_principal_id <$> x.2))
  else if str_eq col "ap.principal_role" || str_eq col "principal_role" then
    Some (CInt (fun x => ap_principal_role <$> x.2))
  else if str_eq col "ap.strategy_id" then Some (CText (fun x => ap_strategy_id <$> x.2))
  else None.

(** The loop of [queryStrategies]. *)
Definition rule_step (k v : string) (idx : Z) : cond * list arg * Z :=
  let '(needLike, col) := match RuleFilters k with
                          | Some val => (RuleNeedLikeFilters k, val)
                          | None => (false, k) end in
  if needLike then
    let v := if IsPrefixWildName v then String.substring 0 (String.length v - 1) v else v in
    (CLike col idx, [AStr ("%" +:+ v +:+ "%")], idx + 1)
  else if str_eq col "ag.owner" then
    (CEither "ag.owner" idx "ap.principal_id" (idx + 1) (Some ("ap.principal_role", "1")%string),
     [AStr v; AStr v], idx + 2)
  else (CEq col idx, [AStr v], idx + 1).

(** The loop of [collectStrategies]: a strategy seen before is passed over. *)
Fixpoint collect_loop (rows : list strategy_cols) (idMap : gset string) (showDetail : bool) :
    M (list StrategyDetail) :=
  match rows with
  | [] => Ret []
  | r :: rows' =>
      let detail := fetchRown2StrategyDetail r in
      if bool_decide (ID detail ∈ idMap) then collect_loop rows' idMap showDetail
      else
        detail <- (if showDetail then load_details replica detail else Ret detail) ;;
        rest <- collect_loop rows' ({[ID detail]} ∪ idMap) showDetail ;;
        Ret (detail :: rest)
  end.

Definition collectStrategies (sel : Z -> database -> res (list strategy_cols)) (showDetail : bool) :
    M (list StrategyDetail) :=
  rows <- map_err store_Error (Query committed sel) ;;
  collect_loop (r_data rows) ∅ showDetail.

(** [queryStrategies], [listStrategies]: the count does not name ag.default,
    the list does. *)
Definition queryStrategies (filters : gmap string string) (offset limit : Z) (showDetail : bool) :
    M (Z * list StrategyDetail) :=
  let '(cs, args, idx) := filter_loop rule_step (range_map filters) [] [] 1 in
  count <- map_err store_Error (queryEntryCount committed (fun _ d =>
    l <-? where_list strategy_join_cols cs [] args (strategy_join d) ;;
    Ok (Z.of_nat (length (remove_dups (map (fun x : joined => as_id x.1.1) l)))))) ;;
  ret <- collectStrategies (fun _ d =>
    _ <-? where_list strategy_join_cols cs [idx; idx + 1] (args ++ [AInt limit; AInt offset]) (strategy_join d) ;;
    Err no_default) showDetail ;;
  Ret (count, ret).

(** [GetStrategies] *)
Definition GetStrategies (filters : gmap string string) (offset limit : Z) : M (Z * list StrategyDetail) :=
  let showDetail := default ""%string (filters !! "show_detail"%string) in
  let filters := <["ag.flag" := "0"]>%string (delete "show_detail"%string filters) in
  queryStrategies filters offset limit (str_eq showDetail "true").

(** [GetStrategyDetailsForCache]: a transaction on the replica that is
    committed either way. *)
Fixpoint detail_loop (rows : list strategy_cols) : M (list StrategyDetail) :=
  match rows with
  | [] => Ret []
  | r :: rows' =>
      detail <- load_details committed (fetchRown2StrategyDetail r) ;;
      rest <- detail_loop rows' ;;
      Ret (detail :: rest)
  end.

Definition GetStrategyDetailsForCache (mtime : Z) (firstUpdate : bool) : M (list StrategyDetail) :=
  on_slave (map_err store_Error Begin ;;; defer_commit (
    rows <- map_err store_Error (tx_Query (R:=strategy_cols) (fun _ _ => Err no_default)) ;;
    detail_loop (r_data rows))).

(** [GetStrategyResources]: the resources of the live strategies a principal
    is bound to. *)
Definition bound_to (principalId : string) (role : Z) (d : database) (strategy_id : string) : bool :=
  existsb (fun p => str_eq (ap_strategy_id p) strategy_id && str_eq (ap_principal_id p) principalId &&
    (ap_principal_role p =? role) &&
    existsb (fun s => str_eq (as_id s) (ap_strategy_id p) && (as_flag s =? 0)) (tbl d)) (tbl d).

Definition GetStrategyResources (principalId : string) (principalRole : Z) : M (list StrategyResource) :=
  unless_no_rows (
    rows <- Query committed (fun _ d => Ok (sql_select (fun r => bound_to principalId principalRole d (asr_strategy_id r)) d)) ;;
    Ret (map read_resource (r_data rows))).

(** ** Helpers of users and groups *)

(** [cleanLinkStrategy] *)
Definition cleanLinkStrategy (role : Z) (principalId owner : string) : M unit :=
  tx_refused no_default ;;;
  tx_refused no_set_target ;;;
  stmt_wrong_args ;;;
  void (stmt_Exec (sql_delete (fun r => str_eq (ap_principal_id r) principalId && (ap_principal_role r =? role)))).

(** [createDefaultStrategy]: the cleaning compares the text 'default' with the
    text of a boolean; the insert lists that text as a column. *)
Definition createDefaultStrategy (role : Z) (id name owner : string) : M unit :=
  let owner := if str_empty owner then id else owner in
  t <- time_Now ;;
  let strategyID := NewUUID t 0 in
  let strategyName := BuildDefaultStrategyName role name in
  void (stmt_Exec (sql_delete (fun r => strategy_dead strategyName owner r && str_eq "default" "true"))) ;;;
  tx_refused syntax_error ;;;
  void (stmt_Exec (sql_insert (fun _ => [AuthPrincipalRow strategyID id role]))).
End strategy.

(** ** What the operations do *)

Definition new_resource (now : Z) (x : StrategyResource) : auth_strategy_resource_row :=
  AuthStrategyResourceRow (StrategyID x) (ResType x) (ResID x) now now.

(** The rows that no element of a list of deletions hits. *)
Definition unhit {X R} (w : X -> R -> bool) (l : list X) (r : R) : bool := negb (existsb (fun x => w x r) l).

(** The content after an update, at the time of the transaction and the time
    of the program. *)
Definition strategy_updated (x : ModifyStrategyDetail) (t : Z * Z) (d : database) : database :=
  set_tbl (change (strategy_id_is (m_ID x)) (set_strategy x t.2) (tbl d))
    (set_tbl (keep (unhit resource_is (RemoveResources x)) (tbl d ++ map (new_resource t.1) (AddResources x)))
      (set_tbl (keep (unhit (principal_is (m_ID x)) (RemovePrincipals x)) (tbl d)) d)).

Definition strategy_deleted (id : string) (now : Z) (d : database) : database :=
  set_tbl (keep (fun r => negb (str_eq (ap_strategy_id r) id)) (tbl d))
    (set_tbl (keep (fun r => negb (str_eq (asr_strategy_id r) id)) (tbl d))
      (set_tbl (change (strategy_id_is id) (touch (Some 1) now) (tbl d)) d)).

(** The content after resources were added: every strategy of theirs carries
    the time. *)
Definition of_resource (x : StrategyResource) (r : auth_strategy_row) : bool := strategy_id_is (StrategyID x) r.

Definition touched (now : Z) (l : list StrategyResource) : list auth_strategy_row -> list auth_strategy_row :=
  change (fun r => existsb (fun x => of_resource x r) l) (touch None now).

Definition loose_added (now : Z) (l : list StrategyResource) (d : database) : database :=
  set_tbl (touched now l (tbl d)) (set_tbl (tbl d ++ map (new_resource now) l) d).

Definition resources_removed (now : Z) (l : list StrategyResource) (d : database) : database :=
  set_tbl (touched now l (tbl d)) (set_tbl (keep (unhit resource_is l) (tbl d)) d).

(** Deleting one condition after the other. *)
Lemma p_each_delete {R} `{!Table R} {X} (w : X -> R -> bool) l now d d' :
  p_each (fun x => p_void (sql_delete (w x))) l now d = Ok (tt, d') ->
  d' = set_tbl (keep (unhit w l) (tbl d)) d.
Proof.
  revert d. induction l as [|x l IH]; intros d.
  { intros [= <-]. by rewrite keep_all, set_tbl_id. }
  cbn [p_each]. intros ([] & d1 & (k & [= _ <-])%p_void_Ok & Hr)%p_bind_Ok. apply IH in Hr as ->.
  rewrite tbl_set, set_set, keep_keep. f_equal. apply keep_ext. intros r _. unfold unhit. simpl.
  by rewrite negb_orb.
Qed.

Lemma keep_map {A B} (p : B -> bool) (f : A -> B) l : keep p (map f l) = map f (keep (fun x => p (f x)) l).
Proof. induction l as [|x l IH]; [done|]. simpl. destruct (p (f x)); simpl; by rewrite IH. Qed.

(** Writing the three tables again overwrites what was written. *)
Lemma set_three_again (a a' : list auth_strategy_row) (b b' : list auth_strategy_resource_row)
    (k k' : list auth_principal_row) d :
  set_tbl a (set_tbl b (set_tbl k (set_tbl a' (set_tbl b' (set_tbl k' d))))) = set_tbl a (set_tbl b (set_tbl k d)).
Proof. reflexivity. Qed.

Lemma delete_three_again (a a' : list auth_strategy_row) (b b' : list auth_strategy_resource_row)
    (k k' : list auth_principal_row) d :
  set_tbl k (set_tbl b (set_tbl a (set_tbl k' (set_tbl b' (set_tbl a' d))))) = set_tbl k (set_tbl b (set_tbl a d)).
Proof. reflexivity. Qed.

Section strategy_facts.
Context `{Env} `{PolarisApi} `{Uuid} `{MapRange} `{PgInput} `{AuthApi}.
Implicit Types (c : conn database) (d : database).

Lemma insert_resources_Ok l now d n d' : insert_resources l now d = Ok (n, d') ->
  d' = set_tbl (tbl d ++ map (new_resource now) l) d /\
  distinct clash (tbl d ++ map (new_resource now) l) = true.
Proof.
  unfold insert_resources.
  pose proof (values_ok 3 (map resource_args l) ""
    [T "INSERT INTO auth_strategy_resource(strategy_id, res_type, res_id) VALUES "] eq_refl) as Hv.
  change (Z.of_nat 3) with 3 in Hv. destruct (values_loop 3 3 (map resource_args l) 1) as [groups args].
  destruct Hv as [Hp Hrows]; [apply Forall_forall; intros a (x & -> & _)%list_elem_of_fmap; done|].
  change (?a :: ?b) with ([a] ++ b). rewrite Hp. intros Hi%insert_Ok_inv.
  by rewrite <- (map_map (map (arg_at args)) (resource_row now)), Hrows, map_map in Hi.
Qed.

#[export] Instance impl_tx_refused e : Implements (tx_refused e) (fun _ _ => Err e).
Proof. unfold tx_refused. apply _. Qed.

#[export] Instance impl_addStrategyPrincipals id l : Implements (addStrategyPrincipals id l)
  (fun now d => match l with [] => Ok (tt, d) | _ => Err syntax_error end).
Proof. destruct l; unfold addStrategyPrincipals; [apply impl_ret|apply _]. Qed.

Definition p_addResources (l : list StrategyResource) : P database unit :=
  match l with [] => p_ret tt | _ => p_void (insert_resources l) end.

#[export] Instance impl_addStrategyResources id l : Implements (addStrategyResources id l) (p_addResources l).
Proof. destruct l; unfold addStrategyResources, p_addResources; apply _. Qed.

Lemma p_addResources_Ok l now d d' :
  distinct clash (tbl (R:=auth_strategy_resource_row) d) = true -> p_addResources l now d = Ok (tt, d') ->
  d' = set_tbl (tbl d ++ map (new_resource now) l) d /\
  distinct clash (tbl d ++ map (new_resource now) l) = true.
Proof.
  intros Hd. destruct l as [|x l]; simpl.
  - intros [= <-]. simpl. by rewrite app_nil_r, set_tbl_id.
  - by intros (n & Hi%insert_resources_Ok)%p_void_Ok.
Qed.

(** What one effective update does. *)
Definition does_update_strategy (x : ModifyStrategyDetail) (now : Z) (d : database) (_ : unit) (d' : database) : Prop :=
  AddPrincipals x = [] /\ exists t, d' = strategy_updated x (now, t) d /\
  (distinct clash (tbl (R:=auth_strategy_resource_row) d) = true ->
   distinct clash (tbl d ++ map (new_resource now) (AddResources x)) = true).

#[export] Instance does_updateStrategy x : Does (updateStrategy_body x) (does_update_strategy x).
Proof.
  unfold updateStrategy_body. eapply does_weaken.
  - apply does_bind; [apply does_implements, _|]. intros u1.
    apply does_bind; [apply does_implements; unfold deleteStrategyPrincipals; apply _|]. intros u2.
    apply does_bind; [apply does_implements, _|]. intros u3.
    apply does_bind; [apply does_implements; unfold deleteStrategyResources; apply _|]. intros u4.
    eapply does_after_ret; [apply _|]. apply does_now. intros t. apply does_implements, _.
  - intros now d [] d' (u1 & d1 & G1 & [] & d2 & Hdel%p_each_delete & [] & d3 & G3 & [] & d4 & G4%p_each_delete & t & G5).
    destruct (AddPrincipals x) as [|p l] eqn:E; [|done]. injection G1 as _ <-. split; [done|].
    apply p_void_Ok in G5 as (n & [-> _]%update_Ok_inv). exists (GetCurrentTimeFormat t).
    assert (d3 = set_tbl (tbl d2 ++ map (new_resource now) (AddResources x)) d2 /\
      (distinct clash (tbl (R:=auth_strategy_resource_row) d) = true ->
       distinct clash (tbl d ++ map (new_resource now) (AddResources x)) = true)) as [-> Hds].
    { destruct (AddResources x) as [|r l] eqn:Er; simpl in G3 |- *.
      - injection G3 as <-. rewrite !app_nil_r, set_tbl_id. done.
      - apply p_void_Ok in G3 as (k & [-> Hds]%insert_resources_Ok). split; [done|]. intros _.
        rewrite Hdel in Hds. autorewrite with tables in Hds. exact Hds. }
    split; [|done]. subst. unfold strategy_updated. by autorewrite with tables.
Qed.

Lemma set_set_strategy x t t' r : set_strategy x t (set_strategy x t' r) = set_strategy x t r.
Proof. done. Qed.

Lemma update_strategy_again x now t d a d' :
  distinct clash (tbl (R:=auth_strategy_resource_row) d) = true ->
  distinct clash (tbl (R:=auth_strategy_resource_row) (strategy_updated x t d)) = true ->
  does_update_strategy x now (strategy_updated x t d) a d' -> exists t', d' = strategy_updated x t' d.
Proof.
  intros Hd Hd1 (_ & m & -> & Hi). specialize (Hi Hd1). exists (t.1, m).
  unfold strategy_updated in *. autorewrite with tables in *. simpl in *.
  rewrite change_change, keep_keep by done.
  set (un := unhit resource_is (RemoveResources x)) in *.
  assert (forall s, keep un (map (new_resource s) (AddResources x)) = []) as Hnil.
  { intros s. apply keep_nil_iff. intros r (y & -> & Hy)%list_elem_of_fmap.
    destruct (un (new_resource s y)) eqn:E; [|done]. exfalso.
    apply distinct_app in Hi as (_ & _ & Hi).
    assert (clash (new_resource t.1 y) (new_resource now y) = false) as Hc.
    { apply Hi; [|by apply list_elem_of_fmap_2]. apply elem_of_keep. split; [|exact E].
      apply elem_of_app. right. by apply list_elem_of_fmap_2. }
    unfold clash in Hc. simpl in Hc. unfold clash_auth_strategy_resource in Hc. simpl in Hc.
    by rewrite !str_eq_refl, Z.eqb_refl in Hc. }
  rewrite set_three_again, !keep_app, !Hnil, !app_nil_r, keep_keep. f_equal.
  f_equal; [|f_equal]; apply keep_ext; intros r _; apply andb_diag.
Qed.

(** The tables keep their keys. *)
Lemma strategy_updated_wf x t d : db_wf d ->
  distinct clash (tbl d ++ map (new_resource t.1) (AddResources x)) = true -> db_wf (strategy_updated x t d).
Proof.
  intros Hd Hn. unfold strategy_updated. apply set_tbl_wf; [apply set_tbl_wf; [apply set_tbl_wf; [done|]|]|].
  - by apply distinct_keep, tbl_distinct.
  - by apply distinct_keep.
  - apply distinct_change; [done..|by apply tbl_distinct].
Qed.

(** The default strategy cannot be stored. *)
Lemma createDefaultStrategy_never role id name owner :
  Does (createDefaultStrategy role id name owner) (fun _ _ _ _ => False).
Proof.
  unfold createDefaultStrategy. cbv zeta. eapply does_weaken.
  - apply (does_now _ (fun _ _ _ _ _ => False)). intros t. eapply does_then_never; [apply does_implements, _|].
    intros u. eapply does_never_then; [|intros v; apply does_implements, _].
    eapply does_never; [apply _|]. done.
  - intros now d x d' (t & Hf). exact Hf.
Qed.

(** *** Deleting *)

#[export] Instance impl_deleteStrategy_body id : Implements (deleteStrategy_body id)
  (p_bind (p_void (sql_update (strategy_id_is id) (touch (Some 1)))) (fun _ =>
   p_bind (p_void (sql_delete (fun r => str_eq (asr_strategy_id r) id))) (fun _ =>
   p_bind (p_ret tt) (fun _ => p_void (sql_delete (fun r => str_eq (ap_strategy_id r) id)))))).
Proof. unfold deleteStrategy_body. apply _. Qed.

Lemma deleteStrategy_Ok id now d d' :
  p_bind (p_void (sql_update (strategy_id_is id) (touch (Some 1)))) (fun _ =>
   p_bind (p_void (sql_delete (fun r => str_eq (asr_strategy_id r) id))) (fun _ =>
   p_bind (p_ret tt) (fun _ => p_void (sql_delete (fun r => str_eq (ap_strategy_id r) id))))) now d = Ok (tt, d') ->
  d' = strategy_deleted id now d.
Proof.
  intros ([] & d1 & (n & [-> _]%update_Ok_inv)%p_void_Ok & ([] & d2 & (k & [= _ <-])%p_void_Ok &
    ([] & d3 & [= <-] & (m & [= _ <-])%p_void_Ok)%p_bind_Ok)%p_bind_Ok)%p_bind_Ok.
  unfold strategy_deleted. by autorewrite with tables.
Qed.

Lemma strategy_deleted_again id t t' d :
  strategy_deleted id t (strategy_deleted id t' d) = strategy_deleted id t d.
Proof.
  unfold strategy_deleted. autorewrite with tables. rewrite change_change, !keep_keep by done.
  etrans; [apply delete_three_again|]. f_equal; [|f_equal]; apply keep_ext; intros r _; apply andb_diag.
Qed.

(** *** Adding resources one by one *)

Lemma loose_added_nil now d : loose_added now [] d = d.
Proof.
  unfold loose_added, touched. simpl. rewrite app_nil_r, set_tbl_id, change_none by done. by rewrite set_tbl_id.
Qed.

Lemma touched_cons now x l rows : touched now l (touched now [x] rows) = touched now (x :: l) rows.
Proof.
  unfold touched, change. rewrite map_map. apply map_ext. intros r. simpl. rewrite orb_false_r.
  destruct (of_resource x r); simpl.
  - change (existsb _ l) with (existsb (fun x => of_resource x r) l).
    by destruct (existsb (fun x => of_resource x r) l).
  - done.
Qed.

Lemma set_two_again (a a' : list auth_strategy_row) (b b' : list auth_strategy_resource_row) d :
  set_tbl a (set_tbl b (set_tbl a' (set_tbl b' d))) = set_tbl a (set_tbl b d).
Proof. reflexivity. Qed.

Lemma loose_added_cons now x l d : loose_added now l (loose_added now [x] d) = loose_added now (x :: l) d.
Proof.
  unfold loose_added. autorewrite with tables. rewrite set_two_again, touched_cons.
  by rewrite <- app_assoc.
Qed.

#[export] Instance impl_touch_strategy id : Implements (touch_strategy id)
  (p_void (sql_update (strategy_id_is id) (touch None))).
Proof. unfold touch_strategy. apply _. Qed.

Lemma touch_Ok x now d u d' : p_void (sql_update (strategy_id_is (StrategyID x)) (touch None)) now d = Ok (u, d') ->
  d' = set_tbl (touched now [x] (tbl d)) d.
Proof.
  intros (n & [-> _]%update_Ok_inv)%p_void_Ok. f_equal. unfold touched, change. apply map_ext. intros r. simpl.
  by rewrite orb_false_r.
Qed.

(** One resource: it is added and its strategy touched, or the transaction is
    aborted, or it fails. *)
Lemma loose_one x c r c' :
  Bind tx_Prepare (fun _ => insert_or_continue x (touch_strategy (StrategyID x))) c = (r, c') ->
  same_but_work c c' /\ (txst c <> TxOpen -> r <> Ok tt) /\
  (r = Ok tt -> txst c' = TxAborted \/
     (txst c' = TxOpen /\ work c' = loose_added (tx_now c) [x] (work c) /\
      distinct clash (tbl (work c) ++ map (new_resource (tx_now c)) [x]) = true)).
Proof.
  unfold Bind. destruct (tx_Prepare c) as [[[]|e|w] c1] eqn:E1;
    pose proof (impl_frame _ _ _ E1) as F1; [|intros [= <- <-]; by split_and!..].
  destruct (txst c) eqn:Est; [|by unfold tx_Prepare, tx_Exec in E1; rewrite Est in E1..].
  destruct (impl_sound _ _ _ E1 Est) as [Hp Ho1]. injection Hp as Hw1.
  unfold insert_or_continue.
  set (ins := sql_insert (fun now => [resource_row now (resource_args x)])).
  destruct (tx_Exec ins c1) as [[n|e|w] c2] eqn:E2;
    pose proof (impl_frame _ _ _ E2) as F2.
  - destruct (impl_sound _ _ _ E2 Ho1) as [Hins Ho2]. intros E3. pose proof (impl_frame _ _ _ E3) as F3.
    assert (same_but_work c c') as F by (etrans; [exact F1|]; etrans; [exact F2|exact F3]).
    split_and!; [done..|]. intros ->. right. destruct (impl_sound _ _ _ E3 Ho2) as [Htouch Ho3].
    split; [done|]. apply touch_Ok in Htouch. apply insert_Ok_inv in Hins as [Hw2 Hd].
    destruct F1 as (_ & _ & N1). destruct F2 as (_ & _ & N2). rewrite N2, N1, <- Hw1 in *.
    rewrite Hw2 in Htouch. split; [|exact Hd]. rewrite Htouch. unfold loose_added. by autorewrite with tables.
  - assert (txst c2 = TxAborted) as Ha.
    { unfold tx_Exec in E2. rewrite Ho1 in E2. destruct (fault_at (calls c1)) as [[]|];
        try destruct (ins _ _) as [[]| |]; by simplify_eq. }
    destruct (decide _); intros [= <- <-]; (split_and!; [by etrans|done|]); [by left|done].
  - intros [= <- <-]. split_and!; [by etrans|done..].
Qed.

Lemma loose_add_spec l c r c' : loose_add l c = (r, c') ->
  same_but_work c c' /\ (txst c <> TxOpen -> r = Ok tt -> c' = c) /\
  (r = Ok tt -> txst c = TxOpen -> txst c' = TxAborted \/
     (txst c' = TxOpen /\ work c' = loose_added (tx_now c) l (work c) /\
      (distinct clash (tbl (R:=auth_strategy_resource_row) (work c)) = true ->
       distinct clash (tbl (work c) ++ map (new_resource (tx_now c)) l) = true))).
Proof.
  revert c. induction l as [|x l IH]; intros c Hr.
  { injection Hr as <- <-. split_and!; [done..|]. intros _ Ho. right. rewrite loose_added_nil. simpl.
    rewrite app_nil_r. auto. }
  unfold loose_add in Hr. cbn [each] in Hr. unfold Bind at 1 in Hr.
  destruct (Bind _ _ c) as [[[]|e|w] c1] eqn:E1; destruct (loose_one _ _ _ _ E1) as (F1 & Hn & Ho1);
    [|simplify_eq; by split_and!..].
  apply IH in Hr as (F2 & Hst & Ho2). split_and!.
  - by etrans.
  - intros Hno. by destruct (Hn Hno).
  - intros -> Hopen. destruct (Ho1 eq_refl) as [Ha|(Hop1 & Hw1 & Hd1)].
    + left. rewrite (Hst ltac:(by rewrite Ha) eq_refl). done.
    + destruct (Ho2 eq_refl Hop1) as [Ha|(Hop2 & Hw2 & Hd2)]; [by left|]. right. split; [done|].
      destruct F1 as (_ & _ & N1). rewrite N1, Hw1 in *. rewrite loose_added_cons in Hw2. split; [done|].
      intros _. unfold loose_added in Hd2. autorewrite with tables in Hd2. specialize (Hd2 Hd1).
      by rewrite <- app_assoc in Hd2.
Qed.

(** *** Removing them *)

Definition p_remove_one (x : StrategyResource) : P database unit :=
  p_bind (if str_empty (StrategyID x) then fun _ _ => Err param_error else p_void (sql_delete (resource_is x)))
    (fun _ => p_void (sql_update (strategy_id_is (StrategyID x)) (touch None))).

#[export] Instance impl_remove_one x : Implements (remove_one x) (p_remove_one x).
Proof.
  unfold remove_one, p_remove_one. destruct (str_empty (StrategyID x)); [|apply _].
  eapply impl_equiv; [unfold stmt_wrong_args; apply _|]. done.
Qed.

Lemma remove_all_Ok l now d d' : p_each p_remove_one l now d = Ok (tt, d') ->
  d' = resources_removed now l d /\ Forall (fun x => StrategyID x <> ""%string) l.
Proof.
  revert d. induction l as [|x l IH]; intros d.
  { intros [= <-]. split; [|constructor]. unfold resources_removed, touched. simpl.
    by rewrite keep_all, set_tbl_id, change_none, set_tbl_id. }
  cbn [p_each]. intros ([] & d1 & G1 & G2)%p_bind_Ok. apply IH in G2 as [-> Hl].
  unfold p_remove_one in G1. destruct (str_empty (StrategyID x)) eqn:E; [done|].
  apply p_bind_Ok in G1 as ([] & d2 & (k & [= _ <-])%p_void_Ok & ->%touch_Ok).
  split; [|constructor; [by apply bool_decide_eq_false in E|done]].
  unfold resources_removed. autorewrite with tables. rewrite set_two_again, touched_cons, keep_keep. f_equal.
  f_equal. apply keep_ext. intros r _. unfold unhit. simpl. by rewrite negb_orb.
Qed.
End strategy_facts.

(** ** Properties *)

Section strategy_properties.
Context `{Env} `{PolarisApi} `{Uuid} `{MapRange} `{PgInput} `{AuthApi}.
Implicit Types c : conn database.

(** C31: [UpdateStrategy]: without an id it fails at once; with principals to add
    it never succeeds and changes nothing (INSERT IGNORE); otherwise, after
    success, exactly the named principals and resources are gone, the new
    resources are there, and the strategy of that id has the new action,
    comment and time, as if the transaction had run once, whatever was
    retried; after an error that, or nothing. *)
Theorem UpdateStrategy_correct x c r c' :
  db_wf (committed c) -> UpdateStrategy x c = (r, c') ->
  replica c' = replica c /\
  (r = Ok tt -> AddPrincipals x = [] /\ exists t, committed c' = strategy_updated x t (committed c)) /\
  (committed c' = committed c \/ exists t, committed c' = strategy_updated x t (committed c)) /\
  (m_ID x = ""%string \/ AddPrincipals x <> [] -> is_Ok r = false /\ committed c' = committed c).
Proof.
  intros Hd Hr. unfold UpdateStrategy in Hr. destruct (str_empty (m_ID x)) eqn:Ee.
  { injection Hr as <- <-. split_and!; try done. by left. }
  apply bool_decide_eq_false in Ee.
  apply (map_err_retry_does store_Error (updateStrategy_body x) (does_update_strategy x)) in Hr as [Ho Hre].
  destruct (AddPrincipals x) as [|p l] eqn:Ea.
  2:{ apply retried_does_stuck in Ho as [Hc Hok].
      - split_and!; [done| |by left|done]. intros ->. done.
      - intros now a d [E _]. congruence. }
  apply (retried_does_overwrite db_wf (strategy_updated x)) in Ho as (Hd' & Hok & Hor).
  - split_and!; [done| |done|by intros [?|?]]. intros ->. split; [done|]. apply Hok. by exists tt.
  - intros now z [] y Hz (_ & t & -> & Hn). apply (strategy_updated_wf x (now, t)); [done|].
    by apply Hn, tbl_distinct.
  - done.
  - intros now a y (_ & t & -> & _). by eexists.
  - intros now t a y Hz Hy. eapply update_strategy_again; [by apply tbl_distinct|by apply tbl_distinct|exact Hy].
Qed.

(** [DeleteStrategy]: after success the strategy is marked deleted and all
    its resources and principals are gone, everything else is as it was; after
    an error that, or nothing.  When the server refuses to prepare the last
    statement it panics with nothing changed by that attempt. *)
Theorem DeleteStrategy_correct id c r c' : DeleteStrategy id c = (r, c') ->
  replica c' = replica c /\
  (r = Ok tt -> id <> ""%string /\ exists now, committed c' = strategy_deleted id now (committed c)) /\
  (committed c' = committed c \/ exists now, committed c' = strategy_deleted id now (committed c)) /\
  (r = Ok tt -> (forall x, x ∈ tbl (committed c') -> asr_strategy_id x <> id) /\
     (forall x, x ∈ tbl (committed c') -> ap_strategy_id x <> id)).
Proof.
  unfold DeleteStrategy. intros Hr. destruct (str_empty id) eqn:Ee.
  { injection Hr as <- <-. split_and!; try done. by left. }
  apply bool_decide_eq_false in Ee.
  eapply (map_err_retry_does store_Error (deleteStrategy_body id)) in Hr as [Ho Hre]; [|apply does_implements, _].
  apply (retried_does_overwrite (fun _ => True) (strategy_deleted id)) in Ho as (_ & Hok & Hor).
  - assert (r = Ok tt -> exists now, committed c' = strategy_deleted id now (committed c)) as Hok'
      by (intros ->; apply Hok; by exists tt).
    split_and!; auto. intros Hr. destruct (Hok' Hr) as [now ->]. unfold strategy_deleted.
    autorewrite with tables. split; intros x [_ Hx%negb_true_iff%str_eq_false]%elem_of_keep; done.
  - done.
  - done.
  - intros now [] y Hy. exists now. by eapply deleteStrategy_Ok.
  - intros now t [] y _ Hy. exists now. apply deleteStrategy_Ok in Hy as ->. apply strategy_deleted_again.
Qed.

(** [AddStrategy] never adds a strategy, because its INSERT lists the text
    'default' as a column; but it has by then purged, in a transaction of its
    own, the strategy of that name and owner that was marked deleted. *)
Theorem AddStrategy_fails x c r c' : AddStrategy x c = (r, c') ->
  is_Ok r = false /\ replica c' = replica c /\
  (committed c' = committed c \/
   committed c' = set_tbl (keep (fun s => negb (strategy_dead (Name x) (Owner x) s)) (tbl (committed c))) (committed c)).
Proof.
  unfold AddStrategy. intros Hr. destruct (_ || _ || _); [injection Hr as <- <-; split_and!; auto; done|].
  unfold Bind at 1, map_err at 1, cleanInvalidStrategy in Hr.
  destruct (processWithTransaction _ c) as [r1 c1] eqn:E1.
  eapply (process_spec (void (stmt_Exec (sql_delete (strategy_dead (Name x) (Owner x)))))) in E1 as [Ho1 Hre1]; [|apply _].
  assert (committed c1 = committed c \/
    committed c1 = set_tbl (keep (fun s => negb (strategy_dead (Name x) (Owner x) s)) (tbl (committed c))) (committed c)) as Hc1.
  { destruct r1 as [u|e|w]; simpl in Ho1; [right|destruct Ho1 as [?|(now & u & Ho1)]; [by left|right]|by left].
    - destruct Ho1 as (now & (k & [= _ <-])%p_void_Ok). done.
    - apply p_void_Ok in Ho1 as (k & [= _ <-]). done. }
  destruct r1 as [u|e|w]; [|injection Hr as <- <-; by split_and!..].
  assert (Does (Bind (addStrategyPrincipals (ID x) (Principals x)) (fun _ =>
    Bind (addStrategyResources (ID x) (Resources x)) (fun _ => tx_refused syntax_error))) (fun _ _ _ _ => False)) as Hn.
  { eapply does_then_never; [apply _|]. intros u1. eapply does_then_never; [apply _|]. intros u2.
    eapply does_never; [apply _|]. done. }
  apply (map_err_retry_does store_Error _ (fun _ _ _ _ => False)) in Hr as [Ho2 Hre2].
  apply retried_does_stuck in Ho2 as [Hc2 Hok]; [|by intros ??? []]. rewrite Hc2, Hre2. by split_and!.
Qed.

(** [LooseAddStrategyResources]: after success all resources are there and
    their strategies carry the time of the transaction; after an error nothing
    is changed, or that when only the reply was lost.  A resource that is there
    already makes the whole call fail, though its error is passed over: the
    transaction is aborted. *)
Theorem LooseAddStrategyResources_correct l c r c' :
  distinct clash (tbl (R:=auth_strategy_resource_row) (committed c)) = true ->
  LooseAddStrategyResources l c = (r, c') ->
  replica c' = replica c /\
  (r = Ok tt -> exists now, committed c' = loose_added now l (committed c)) /\
  (committed c' = committed c \/ exists now, committed c' = loose_added now l (committed c)) /\
  ((exists x y, x ∈ l /\ y ∈ tbl (committed c) /\ resource_is x y = true) ->
     r <> Ok tt /\ committed c' = committed c).
Proof.
  intros Hd Hr. unfold LooseAddStrategyResources in Hr.
  apply (process_may_abort _ (fun now d d' => d' = loose_added now l d /\
    (distinct clash (tbl (R:=auth_strategy_resource_row) d) = true ->
     distinct clash (tbl d ++ map (new_resource now) l) = true))) in Hr as (Hre & Hok & Hor).
  - split_and!; [done|intros [now [? _]]%Hok; eauto|destruct Hor as [?|(now & ? & _)]; eauto|].
    intros (x & y & Hx & Hy & Hxy).
    assert (forall now, distinct clash (tbl (committed c) ++ map (new_resource now) l) = true -> False) as Hno.
    { intros now (_ & _ & Hn)%distinct_app. specialize (Hn y _ Hy (list_elem_of_fmap_2 _ _ _ Hx)).
      unfold clash in Hn. simpl in Hn. unfold clash_auth_strategy_resource in Hn. simpl in Hn.
      unfold resource_is in Hxy. apply andb_prop in Hxy as [[E1 E2]%andb_prop E3].
      by rewrite E1, E2, E3 in Hn. }
    split; [intros Ht; destruct (Hok Ht) as (now & _ & Hn); eauto|].
    destruct Hor as [?|(now & _ & Hn)]; [done|]. destruct (Hno now). auto.
  - intros c0 r0 c1 Hl. by apply loose_add_spec in Hl as [? _].
  - intros c0 c1 Hl Ho. apply loose_add_spec in Hl as (_ & _ & Hl). by apply Hl.
Qed.

(** [RemoveStrategyResources]: all named resources are gone and their
    strategies touched, or nothing is changed; a resource without a strategy id
    makes it fail. *)
Theorem RemoveStrategyResources_correct l c r c' : RemoveStrategyResources l c = (r, c') ->
  replica c' = replica c /\
  (r = Ok tt -> exists now, committed c' = resources_removed now l (committed c)) /\
  (committed c' = committed c \/ exists now, committed c' = resources_removed now l (committed c)) /\
  ((exists x, x ∈ l /\ StrategyID x = ""%string) -> is_Ok r = false /\ committed c' = committed c).
Proof.
  intros [Ho Hre]%(process_spec (each remove_one l) (p_each p_remove_one l)).
  assert ((exists x, x ∈ l /\ StrategyID x = ""%string) -> forall now d d',
    p_each p_remove_one l now d = Ok (tt, d') -> False) as Hno.
  { intros (x & Hx & He) now d d' [_ Hl]%remove_all_Ok. rewrite Forall_forall in Hl. by destruct (Hl x Hx). }
  destruct r as [[]|e|w]; simpl in Ho.
  - destruct Ho as [now Ho]. pose proof Ho as [Hc _]%remove_all_Ok. split_and!; eauto.
    intros Hx. by destruct (Hno Hx _ _ _ Ho).
  - split; [done|]. split; [done|]. destruct Ho as [Hc|(now & [] & Ho)]; [auto|].
    pose proof Ho as [Hc _]%remove_all_Ok. split; [eauto|]. intros Hx. by destruct (Hno Hx _ _ _ Ho).
  - split_and!; auto; done.
Qed.

(** [GetStrategyResources] without faults: the resources of the live strategies
    the principal is bound to. *)
Theorem GetStrategyResources_correct id role c : reliable ->
  fst (GetStrategyResources id role c) = Ok (map read_resource
    (sql_select (fun r => bound_to id role (committed c) (asr_strategy_id r)) (committed c))).
Proof.
  intros Hr. unfold GetStrategyResources, unless_no_rows. erewrite Query_then; [|done|reflexivity]. done.
Qed.

(** Touching strategies does not change who is bound to them. *)
Lemma bound_to_touched id role now l d s : bound_to id role (loose_added now l d) s = bound_to id role d s.
Proof.
  unfold bound_to, loose_added. autorewrite with tables.
  assert (forall p : auth_principal_row, existsb (fun s => str_eq (as_id s) (ap_strategy_id p) && (as_flag s =? 0)) (touched now l (tbl d)) =
    existsb (fun s => str_eq (as_id s) (ap_strategy_id p) && (as_flag s =? 0)) (tbl d)) as He.
  { intros p. unfold touched, change. generalize (tbl (R:=auth_strategy_row) d). intros k.
    induction k as [|r k IH]; [done|]. simpl. rewrite IH. by destruct (existsb _ l). }
  generalize (tbl (R:=auth_principal_row) d). intros k. induction k as [|p k IH]; [done|]. simpl. by rewrite IH, He.
Qed.

(** C32: without faults a resource [LooseAddStrategyResources] opened is among
    those [GetStrategyResources] returns for every principal bound to its live
    strategy. *)
Theorem LooseAdd_GetStrategyResources l x id role c c1 : reliable ->
  distinct clash (tbl (R:=auth_strategy_resource_row) (committed c)) = true ->
  LooseAddStrategyResources l c = (Ok tt, c1) -> x ∈ l -> bound_to id role (committed c) (StrategyID x) = true ->
  exists out, fst (GetStrategyResources id role c1) = Ok out /\ mkStrategyResource "" (ResType x) (ResID x) ∈ out.
Proof.
  intros Hr Hd Hl Hx Hb. unfold LooseAddStrategyResources in Hl.
  apply (process_may_abort _ (fun now d d' => d' = loose_added now l d)) in Hl as (_ & Hok & _).
  - destruct (Hok eq_refl) as [now Hc]. eexists. split; [by apply GetStrategyResources_correct|].
    change (mkStrategyResource "" (ResType x) (ResID x)) with (read_resource (new_resource now x)).
    apply list_elem_of_fmap_2, elem_of_keep. split.
    + rewrite Hc. unfold loose_added. autorewrite with tables. apply elem_of_app. right. by apply list_elem_of_fmap_2.
    + by rewrite Hc, bound_to_touched.
  - intros c0 r0 c2 H0'. by apply loose_add_spec in H0' as [? _].
  - intros c0 c2 Ha Ho. apply loose_add_spec in Ha as (_ & _ & Ha).
    destruct (Ha eq_refl Ho) as [?|(? & ? & _)]; auto.
Qed.

Lemma getStrategyDetail_refused e c :
  (forall s, fst (getStrategyDetail (QueryRow committed (fun _ _ => Err e)) c) <> Ok (Some s)) /\
  same_dbs c (snd (getStrategyDetail (QueryRow committed (fun _ _ => Err e)) c)).
Proof.
  unfold getStrategyDetail. destruct (QueryRow committed _ c) as [[a|e'|w] c1] eqn:E;
    pose proof (QueryRow_frame _ _ _ _ _ E) as Hs; [exfalso|by destruct e'|done].
  unfold QueryRow, Bind in E. destruct (Query _ _ c) as [[l|e2|w] c2] eqn:E2; [|done..].
  by apply Query_refused in E2.
Qed.

(** Strategies cannot be read: [GetStrategyDetail] and
    [GetDefaultStrategyDetailByPrincipal] never return one, [GetStrategies] and
    [GetStrategyDetailsForCache] never succeed, whatever the database holds;
    nothing is changed. *)
Theorem strategy_reads_fail id role filters offset limit mtime firstUpdate c :
  (forall s, fst (GetStrategyDetail id c) <> Ok (Some s)) /\ same_dbs c (snd (GetStrategyDetail id c)) /\
  (forall s, fst (GetDefaultStrategyDetailByPrincipal id role c) <> Ok (Some s)) /\
  is_Ok (fst (GetStrategies filters offset limit c)) = false /\
  is_Ok (fst (GetStrategyDetailsForCache mtime firstUpdate c)) = false /\
  same_dbs c (snd (GetStrategyDetailsForCache mtime firstUpdate c)).
Proof.
  unfold GetStrategyDetail, GetDefaultStrategyDetailByPrincipal.
  destruct (slave_refused store_Error store_Error (fun _ _ => Err no_default) (fun rows => detail_loop (r_data rows))
    c _ _ (fun _ _ => ex_intro _ _ eq_refl) (surjective_pairing _)) as [G1 G2].
  split_and!; [..|exact G1|exact G2].
  - destruct (str_empty id); [done|]. apply getStrategyDetail_refused.
  - destruct (str_empty id); [done|]. apply getStrategyDetail_refused.
  - destruct (str_empty id); [done|]. apply getStrategyDetail_refused.
  - unfold GetStrategies, queryStrategies. destruct (filter_loop _ _ _ _ _) as [[cs args] idx].
    unfold Bind at 1. destruct (map_err _ _ c) as [[n|e|w] c1] eqn:E; [|done..].
    unfold Bind at 1. unfold collectStrategies at 1, Bind at 1, map_err.
    destruct (Query _ _ c1) as [rr c2] eqn:E2. apply Query_refused in E2; [by destruct rr|].
    intros now d. by destruct (where_list _ _ _ _ _).
Qed.
End strategy_properties.
