(* ===== verification/User.v ===== *)
(** * Users (store/postgresql/user.go)

    [userStore].  The statements that write users, and the listing of a
    group's users, leave the name of the table unquoted: user is a reserved
    word of PostgreSQL, so the server refuses to prepare them.  The other
    queries quote it and work. *)
From stdpp Require Import base list strings gmap.
From Stdlib Require Import ZArith Lia.
From S2P Require Import Prelude Driver Rows Schema Sql Common Where Strategy.
Open Scope Z_scope.
Open Scope store_scope.

(** [model.User] *)
Record User := mkUser {
  ID : string; Name : string; Password : string; Owner : string; Source : string; Type_ : Z; Token : string;
  TokenEnable : bool; Valid : bool; Comment : string; CreateTime : Z; ModifyTime : Z; Mobile : string;
  Email : string }.

(** LEFT JOIN user u: the function of that name, which has no column id. *)
Definition no_user_id : error := EDriver "pq: column u.id does not exist".

Definition GroupIDAttribute : string := "group_id".

(** The key of a condition on the link between users and groups. *)
Definition userLinkGroupAttributeMapping (key : string) : option string :=
  if str_eq key "user_id" then Some "ul.user_id"%string
  else if str_eq key "group_name" then Some "ug.name"%string
  else if str_eq key "group_id" then Some "ug.group_id"%string
  else if str_eq key "owner" then Some "ug.owner"%string
  else None.

(** [v[:len(v)-1]] of a name that ends with a star. *)
Definition without_star (v : string) : string := String.substring 0 (String.length v - 1) v.

Section user.
Context `{Env} `{PolarisApi} `{Uuid} `{MapRange} `{PgInput} `{AuthApi}.
Abbreviation M := (M database).

(** ** Writing *)

(** [cleanInValidUser]: the text is refused when it is prepared. *)
Definition cleanInValidUser (name owner : string) : M unit := DB_Exec (fun _ _ => Err syntax_error).

(** [addUser], [AddUser] *)
Definition addUser (user : User) : M unit :=
  processWithTransaction (commit_with store_Error (
    map_err store_Error (tx_refused syntax_error) ;;;
    map_err store_Error (createDefaultStrategy PrincipalUser (ID user) (Name user) (Owner user)))).

Definition incomplete (user : User) : bool :=
  str_empty (ID user) || str_empty (Name user) || str_empty (Token user) || str_empty (Password user).

Definition missing (what : string) (user : User) : error :=
  EStatus EmptyParamsErr (what +:+ " user missing some params, id is " +:+ ID user +:+ ", name is " +:+ Name user).

Definition AddUser (user : User) : M unit :=
  if incomplete user then Fail (missing "add" user)
  else
    cleanInValidUser (Name user) (Owner user) ;;;
    map_err store_Error (RetryTransaction (addUser user)).

(** [updateUser], [UpdateUser] *)
Definition updateUser (user : User) : M unit :=
  processWithTransaction (then_commit (tx_refused syntax_error)).

Definition UpdateUser (user : User) : M unit :=
  if incomplete user then Fail (missing "update" user)
  else map_err store_Error (RetryTransaction (updateUser user)).

(** The last steps of [deleteUser]: the groups of the user are touched, and
    it leaves them. *)
Definition in_group_of (id : string) (d : database) (g : user_group_row) : bool :=
  existsb (fun x => str_eq (ugr_group_id x) (ug_id g) && str_eq (ugr_user_id x) id) (tbl d).

Definition touch_group (now : Z) (g : user_group_row) : user_group_row :=
  UserGroupRow (ug_id g) (ug_name g) (ug_owner g) (ug_token g) (ug_comment g) (ug_token_enable g) (ug_flag g)
    (ug_ctime g) now.

(** [deleteUser], [DeleteUser]: the error of the third Prepare is not looked
    at. *)
Definition deleteUser_body (user : User) : M unit :=
  cleanLinkStrategy PrincipalUser (ID user) (Owner user) ;;;
  tx_refused syntax_error ;;;
  or_nil_stmt tx_Prepare ;;;
  void (tx_Exec (fun now d => sql_update (in_group_of (ID user) d) touch_group now d)) ;;;
  void (stmt_Exec (sql_delete (fun x => str_eq (ugr_user_id x) (ID user)))).

Definition deleteUser (user : User) : M unit := processWithTransaction (then_commit (deleteUser_body user)).

Definition DeleteUser (user : User) : M unit :=
  if str_empty (ID user) || str_empty (Name user) then
    Fail (EStatus EmptyParamsErr "delete user id parameter missing")
  else map_err store_Error (RetryTransaction (deleteUser user)).

(** ** Reading *)

(** [GetSubCount] *)
Definition GetSubCount (user : User) : M Z :=
  queryEntryCount committed (fun _ d =>
    Ok (Z.of_nat (count_rows (fun r => str_eq (us_owner r) (ID user) && (us_flag r =? 0)) d))).

(** The columns [GetUser] and [GetUserByName] select; the times keep the zero
    value of [time.Time]. *)
Definition scan_user (r : user_row) : User :=
  mkUser (us_id r) (us_name r) (us_password r) (us_owner r) (us_source r) (us_user_type r) (us_token r)
    (us_token_enable r =? 1) false (us_comment r) zero_time zero_time (us_mobile r) (us_email r).

Definition one_user (m : M user_row) : M (option User) := fun c =>
  match m c with
  | (Ok r, c') => (Ok (Some (scan_user r)), c')
  | (Err ENoRows, c') => (Ok None, c')
  | (Err e, c') => (Err (store_Error e), c')
  | (Panic w, c') => (Panic w, c')
  end.

(** [GetUser], [GetUserByName] *)
Definition GetUser (id : string) : M (option User) :=
  one_user (QueryRow committed (fun _ d => Ok (sql_select (fun r => (us_flag r =? 0) && str_eq (us_id r) id) d))).

Definition GetUserByName (name ownerId : string) : M (option User) :=
  one_user (QueryRow committed (fun _ d => Ok (sql_select (fun r =>
    (us_flag r =? 0) && str_eq (us_name r) name && str_eq (us_owner r) ownerId) d))).

(** [fetchRown2User] *)
Definition fetchRown2User (r : user_row) : User :=
  mkUser (us_id r) (us_name r) (us_password r) (us_owner r) (us_source r) (us_user_type r) (us_token r)
    (us_token_enable r =? 1) (us_flag r =? 0) (us_comment r) (us_ctime r) (us_mtime r) (us_mobile r) (us_email r).

(** [collectUsers]: on the master, whatever handler is given; [rows.Err()] is
    not looked at. *)
Definition collectUsers (sel : Z -> database -> res (list user_row)) : M (list User) :=
  rows <- map_err store_Error (Query committed sel) ;;
  Ret (map fetchRown2User (r_data rows)).

(** [GetUserByIds] *)
Definition users_in (ids : list string) (r : user_row) : bool := (us_flag r =? 0) && bool_decide (us_id r ∈ ids).

Definition GetUserByIds (ids : list string) : M (list User) :=
  match ids with
  | [] => Ret []
  | _ =>
      let n := Z.of_nat (length ids) in
      collectUsers (fun _ d =>
        if params_ok (T "SELECT ... WHERE u.flag = 0 AND u.id IN (" :: placeholders_sql (seqZ 1 n) ++ [T ")"]) (length ids)
        then Ok (sql_select (users_in ids) d) else Err param_error)
  end.

(** [listUsers] *)
Definition user_cols (col : string) : option (column user_row) :=
  if str_eq col "id" then Some (CText (fun r => Some (us_id r)))
  else if str_eq col "name" then Some (CText (fun r => Some (us_name r)))
  else if str_eq col "password" then Some (CText (fun r => Some (us_password r)))
  else if str_eq col "owner" then Some (CText (fun r => Some (us_owner r)))
  else if str_eq col "source" then Some (CText (fun r => Some (us_source r)))
  else if str_eq col "mobile" then Some (CText (fun r => Some (us_mobile r)))
  else if str_eq col "email" then Some (CText (fun r => Some (us_email r)))
  else if str_eq col "token" then Some (CText (fun r => Some (us_token r)))
  else if str_eq col "token_enable" then Some (CInt (fun r => Some (us_token_enable r)))
  else if str_eq col "user_type" then Some (CInt (fun r => Some (us_user_type r)))
  else if str_eq col "comment" then Some (CText (fun r => Some (us_comment r)))
  else if str_eq col "flag" then Some (CInt (fun r => Some (us_flag r)))
  else if str_eq col "ctime" then Some (CTime us_ctime)
  else if str_eq col "mtime" then Some (CTime us_mtime)
  else None.

Definition user_step (k v : string) (idx : Z) : cond * list arg * Z :=
  if str_eq k NameAttribute then
    if IsPrefixWildName v then (CLike k idx, [AStr ("%" +:+ without_star v +:+ "%")], idx + 1)
    else (CEq k idx, [AStr v], idx + 1)
  else if str_eq k OwnerAttribute then
    (CEither "id" idx "owner" (idx + 1) None, [AStr v; AStr v], idx + 2)
  else (CEq k idx, [AStr v], idx + 1).

(** The key hide_admin, when it says so, is taken out of the filter. *)
Definition hides_admin (filters : gmap string string) : bool :=
  match filters !! "hide_admin"%string with Some val => str_eq val "true" | None => false end.

Definition user_filters (filters : gmap string string) : gmap string string :=
  if hides_admin filters then delete "hide_admin"%string filters else filters.

Definition user_base (hide : bool) (r : user_row) : bool :=
  (us_flag r =? 0) && (negb hide || negb (us_user_type r =? 0)).

(** ORDER BY mtime, the oldest first *)
Definition oldest_first (r : user_row) : Z := - us_mtime r.

Definition listUsers (filters : gmap string string) (offset limit : Z) : M (Z * list User) :=
  let hide := hides_admin filters in
  let '(cs, args, idx) := filter_loop user_step (range_map (user_filters filters)) [] [] 1 in
  count <- map_err store_Error (queryEntryCount committed (fun _ d =>
    l <-? where_select user_cols (user_base hide) cs [] args d ;; Ok (Z.of_nat (length l)))) ;;
  users <- collectUsers (fun _ d =>
    l <-? where_select user_cols (user_base hide) cs [idx; idx + 1] (args ++ [AInt limit; AInt offset]) d ;;
    Ok (page oldest_first offset limit l)) ;;
  Ret (count, users).

(** [listGroupUsers] *)
Definition group_user_step (k v : string) (idx : Z) : cond * list arg * Z :=
  let k := default k (userLinkGroupAttributeMapping k) in
  let k := if str_eq k "ug.owner" then "u.owner"%string else k in
  if IsPrefixWildName v then (CLike k idx, [AStr (without_star v +:+ "%")], idx + 1)
  else (CEq k idx, [AStr v], idx + 1).

Definition listGroupUsers (filters : gmap string string) (offset limit : Z) : M (Z * list User) :=
  match filters !! GroupIDAttribute with
  | None => Fail (EStatus EmptyParamsErr "group_id is missing")
  | Some _ =>
      let '(cs, args, idx) := filter_loop group_user_step (range_map (user_filters filters)) [] [] 1 in
      count <- queryEntryCount replica (fun _ _ =>
        if params_ok (conds_sql " AND " cs) (length args) then Err no_user_id else Err param_error) ;;
      users <- collectUsers (fun _ _ =>
        if params_ok (conds_sql " AND " cs ++ placeholders_sql [idx; idx + 1]) (length (args ++ [AInt limit; AInt offset]))
        then Err no_user_id else Err param_error) ;;
      Ret (count, users)
  end.

(** [GetUsers] *)
Definition GetUsers (filters : gmap string string) (offset limit : Z) : M (Z * list User) :=
  match filters !! "group_id"%string with
  | Some _ => listGroupUsers filters offset limit
  | None => listUsers filters offset limit
  end.

(** [GetUsersForCache]: of the master. *)
Definition GetUsersForCache (mtime : Z) (firstUpdate : bool) : M (list User) :=
  collectUsers (fun _ d => Ok (sql_select (fun r => firstUpdate || (mtime <=? us_mtime r)) d)).
End user.

(** ** Properties *)

(** What a key of the filter of [GetUsers] asks for. *)
Definition user_entry `{PolarisApi} (k v : string) : bcond :=
  if str_eq k NameAttribute then
    if IsPrefixWildName v then BLike k ("%" +:+ without_star v +:+ "%") else BEq k v
  else if str_eq k OwnerAttribute then BEither "id" v "owner" v None
  else BEq k v.

Section user_properties.
Context `{Env} `{PolarisApi} `{Uuid} `{MapRange} `{PgInput} `{AuthApi}.
Implicit Types (c : conn database) (x : User).

Lemma user_step_means : step_means user_step user_entry.
Proof.
  intros k v args next Hn. unfold user_step, user_entry.
  destruct (str_eq k NameAttribute); [destruct (IsPrefixWildName v)|destruct (str_eq k OwnerAttribute)];
    try (split; [by apply one_cond|]; simpl; by rewrite arg_at_last).
  split; [by apply two_conds|]. simpl. destruct (arg_at_two args (AStr v) (AStr v) next Hn) as [-> ->]. done.
Qed.

(** Users are never written: [AddUser], [UpdateUser] and [DeleteUser] never
    succeed and never change anything, on any branch and with any faults. *)
Theorem users_never_written x c r c' :
  AddUser x c = (r, c') \/ UpdateUser x c = (r, c') \/ DeleteUser x c = (r, c') ->
  is_Ok r = false /\ committed c' = committed c /\ replica c' = replica c.
Proof.
  intros [Hr|[Hr|Hr]].
  - unfold AddUser in Hr. destruct (incomplete x); [by injection Hr as <- <-|].
    unfold Bind, cleanInValidUser, DB_Exec in Hr.
    destruct (fault_at (calls c)) as [[]|]; by simplify_eq/=.
  - unfold UpdateUser in Hr. destruct (incomplete x); [by injection Hr as <- <-|].
    eapply never_outcome; [|exact Hr]. eapply does_never; [apply _|]. done.
  - unfold DeleteUser in Hr. destruct (_ || _); [by injection Hr as <- <-|].
    eapply never_outcome; [|exact Hr]. unfold deleteUser_body.
    eapply does_never; [unfold cleanLinkStrategy, stmt_wrong_args; apply _|]. done.
Qed.

(** C34: [GetUsers] without faults, with a filter that names no group and that the
    server accepts: the number
    of live users, administrators left out when asked, that satisfy every key
    of the filter (a name with a star by LIKE, an owner as the account itself
    or its sub-accounts), and the page of them, the oldest first. *)
Theorem GetUsers_correct filters offset limit c l : reliable ->
  filters !! "group_id"%string = None ->
  where_rows user_cols (map (fun kv => user_entry kv.1 kv.2) (range_map (user_filters filters)))
    (sql_select (user_base (hides_admin filters)) (committed c)) = Ok l ->
  fst (GetUsers filters offset limit c) =
    Ok (Z.of_nat (length l), map fetchRown2User (page oldest_first offset limit l)).
Proof.
  intros Hr Hg Hl. unfold GetUsers, listUsers. rewrite Hg.
  pose proof (filter_loop_means user_step user_entry (range_map (user_filters filters)) [] [] 1
    user_step_means (in_order_nil 1)) as Hm.
  destruct (filter_loop _ _ _ _ _) as [[cs args] idx]. destruct Hm as [Ho Hf]. simpl in Hf.
  unfold map_err at 1, Bind at 1. erewrite (queryEntryCount_reliable committed); [|done|].
  2:{ by rewrite (where_select_count _ _ _ _ _ _ Ho), Hf, Hl. }
  unfold collectUsers, Bind, map_err. erewrite Query_reliable; [|done|].
  2:{ change (committed (tick c)) with (committed c).
      by rewrite (where_select_paged _ _ _ _ _ _ _ _ Ho), Hf, Hl. }
  done.
Qed.

(** [GetUsers] with a group in the filter never succeeds. *)
Theorem GetUsers_group_refused filters g offset limit c : filters !! "group_id"%string = Some g ->
  is_Ok (fst (GetUsers filters offset limit c)) = false.
Proof.
  intros Hg. unfold GetUsers, listGroupUsers, GroupIDAttribute. rewrite Hg.
  destruct (filter_loop _ _ _ _ _) as [[cs args] idx]. unfold Bind at 1.
  destruct (queryEntryCount _ _ c) as [[n|e|w] c1] eqn:E; [|done..].
  apply queryEntryCount_Ok in E as (now & d & E); [|apply _]. by destruct (params_ok _ _).
Qed.

(** [GetUser] without faults: the live user of that id, if there is one. *)
Theorem GetUser_correct id c : reliable -> db_wf (committed c) ->
  (forall r, r ∈ tbl (committed c) -> us_id r = id -> us_flag r = 0 -> fst (GetUser id c) = Ok (Some (scan_user r))) /\
  ((forall r, r ∈ tbl (committed c) -> us_id r = id -> us_flag r <> 0) -> fst (GetUser id c) = Ok None).
Proof.
  intros Hr Hd. set (p := fun r => (us_flag r =? 0) && str_eq (us_id r) id).
  assert (GetUser id c = one_user (fun _ => (first_row (Rows (sql_select p (committed c)) None), tick c)) c) as ->.
  { unfold GetUser, one_user, QueryRow, Bind. by erewrite Query_reliable. }
  unfold sql_select. split.
  - intros r Hin Hid Hf. rewrite (keep_unique clash p _ r); [done|by apply tbl_distinct|done| |].
    + unfold p. by rewrite Hf, Hid, str_eq_refl.
    + intros y z [_ Hy%str_eq_true]%andb_prop [_ Hz%str_eq_true]%andb_prop.
      unfold clash. simpl. unfold clash_user. by rewrite Hy, Hz, str_eq_refl.
  - intros Hno. replace (keep p (tbl (committed c))) with (@nil user_row); [done|].
    symmetry. apply keep_nil_iff. intros r Hin. unfold p.
    destruct (us_flag r =? 0) eqn:Ef; [|done]. destruct (str_eq (us_id r) id) eqn:Ei; [|done].
    apply Z.eqb_eq in Ef. apply str_eq_true in Ei. by destruct (Hno r Hin Ei).
Qed.

(** [GetUsersForCache] returns every user of the master, deleted ones
    included, that changed since the time given; when the connection breaks
    while rows are read, the beginning of that list without any error. *)
Theorem GetUsersForCache_correct mtime firstUpdate c :
  let all := map fetchRown2User (sql_select (fun r => firstUpdate || (mtime <=? us_mtime r)) (committed c)) in
  (fault_at (calls c) = None -> fst (GetUsersForCache mtime firstUpdate c) = Ok all) /\
  (forall n e, fault_at (calls c) = Some (FailRows n e) ->
     fst (GetUsersForCache mtime firstUpdate c) = Ok (take n all)).
Proof.
  intros all. unfold GetUsersForCache, collectUsers, Bind, map_err, Query.
  split; [intros Hf|intros n e Hf]; (erewrite Retry_once; [|by rewrite Hf|done]); [done|].
  simpl. by rewrite <- firstn_map.
Qed.
End user_properties.
