(* ===== verification/Group.v ===== *)
(** * User groups (store/postgresql/group.go)

    [groupStore].  A group is stored with the relation to its users and a
    default strategy.  Adding users is refused (VALUE for VALUES), so is the
    default strategy, and what is read of a group contains times as texts that
    are parsed as numbers. *)
From stdpp Require Import base list strings pretty gmap.
From Stdlib Require Import ZArith Lia.
From S2P Require Import Prelude Driver Rows Schema Sql Common Where Strategy User.
Open Scope Z_scope.
Open Scope store_scope.

(** [model.UserGroup], [model.UserGroupDetail] and [model.ModifyUserGroup]. *)
Record UserGroup := mkUserGroup {
  ID : string; Name : string; Owner : string; Token : string; TokenEnable : bool; Valid : bool;
  Comment : string; CreateTime : Z; ModifyTime : Z }.
Record UserGroupDetail := mkUserGroupDetail { group_of : UserGroup; UserIds : gset string }.
Record ModifyUserGroup := mkModifyUserGroup {
  m_ID : string; m_Token : string; m_TokenEnable : bool; m_Comment : string; AddUserIds : list string;
  RemoveUserIds : list string }.

(** [ToUserIdSlice]: the keys of a map. *)
Definition ToUserIdSlice (group : UserGroupDetail) : list string := elements (UserIds group).

Definition groupAttribute (key : string) : option string :=
  if str_eq key "name" then Some "ug.name"%string
  else if str_eq key "id" then Some "ug.id"%string
  else if str_eq key "owner" then Some "ug.owner"%string
  else None.

Section group.
Context `{Env} `{PolarisApi} `{Uuid} `{MapRange} `{PgInput} `{Strconv} `{AuthApi}.
Abbreviation M := (M database).

(** ** Writing *)

Definition group_dead (name : string) (r : user_group_row) : bool := str_eq (ug_name r) name && (ug_flag r =? 1).

(** [cleanInValidGroup]: whoever owns it. *)
Definition cleanInValidGroup (name owner : string) : M unit := void (stmt_Exec (sql_delete (group_dead name))).

Definition checked_relation (what groupId : string) (userIds : list string) (m : M unit) : M unit :=
  if str_empty groupId then
    Fail (EStatus EmptyParamsErr (what +:+ " user relation missing some params, groupid is " +:+ groupId))
  else if (MaxBatchSize <? length userIds)%nat then
    Fail (EStatus InvalidUserIDSlice ("user id slice is invalid, len=" +:+ pretty (length userIds)))
  else m.

(** [addGroupRelation]: the text is refused when it is prepared. *)
Definition addGroupRelation (groupId : string) (userIds : list string) : M unit :=
  checked_relation "add" groupId userIds (each (fun uid => tx_refused syntax_error) userIds).

Definition relation_is (groupId uid : string) (r : user_group_relation_row) : bool :=
  str_eq (ugr_group_id r) groupId && str_eq (ugr_user_id r) uid.

(** [removeGroupRelation] *)
Definition removeGroupRelation (groupId : string) (userIds : list string) : M unit :=
  checked_relation "delete" groupId userIds
    (each (fun uid => void (stmt_Exec (sql_delete (relation_is groupId uid)))) userIds).

Definition new_group (g : UserGroup) (now : Z) : user_group_row :=
  UserGroupRow (ID g) (Name g) (Owner g) (Token g) (Comment g) 1 0 now now.

(** [addGroup], [AddGroup] *)
Definition addGroup_body (group : UserGroupDetail) : M unit :=
  let g := group_of group in
  map_err store_Error (cleanInValidGroup (Name g) (Owner g)) ;;;
  void (stmt_Exec (sql_insert (fun now => [new_group g now]))) ;;;
  addGroupRelation (ID g) (ToUserIdSlice group) ;;;
  createDefaultStrategy PrincipalGroup (ID g) (Name g) (Owner g).

Definition addGroup (group : UserGroupDetail) : M unit := processWithTransaction (then_commit (addGroup_body group)).

Definition AddGroup (group : UserGroupDetail) : M unit :=
  let g := group_of group in
  if str_empty (ID g) || str_empty (Name g) || str_empty (Token g) then
    Fail (EStatus EmptyParamsErr ("add usergroup missing some params, groupId is " +:+ ID g +:+ ", name is " +:+ Name g))
  else map_err store_Error (RetryTransaction (addGroup group)).

Definition group_live (id : string) (r : user_group_row) : bool := str_eq (ug_id r) id && (ug_flag r =? 0).

Definition set_group (x : ModifyUserGroup) (now : Z) (r : user_group_row) : user_group_row :=
  UserGroupRow (ug_id r) (ug_name r) (ug_owner r) (m_Token x) (m_Comment x) (if m_TokenEnable x then 1 else 0)
    (ug_flag r) (ug_ctime r) now.

(** [updateGroup], [UpdateGroup] *)
Definition updateGroup_body (group : ModifyUserGroup) : M unit :=
  match AddUserIds group with [] => Ret tt | l => addGroupRelation (m_ID group) l end ;;;
  match RemoveUserIds group with [] => Ret tt | l => removeGroupRelation (m_ID group) l end ;;;
  void (stmt_Exec (sql_update (group_live (m_ID group)) (set_group group))).

Definition updateGroup (group : ModifyUserGroup) : M unit :=
  processWithTransaction (then_commit (updateGroup_body group)).

Definition UpdateGroup (group : ModifyUserGroup) : M unit :=
  if str_empty (m_ID group) then
    Fail (EStatus EmptyParamsErr ("update usergroup missing some params, groupId is " +:+ m_ID group))
  else map_err store_Error (RetryTransaction (updateGroup group)).

Definition set_group_deleted (now : Z) (r : user_group_row) : user_group_row :=
  UserGroupRow (ug_id r) (ug_name r) (ug_owner r) (ug_token r) (ug_comment r) (ug_token_enable r) 1 (ug_ctime r) now.

(** [deleteUserGroup], [DeleteGroup] *)
Definition deleteUserGroup_body (group : UserGroupDetail) : M unit :=
  let g := group_of group in
  void (stmt_Exec (sql_delete (fun r => str_eq (ugr_group_id r) (ID g)))) ;;;
  void (stmt_Exec (sql_update (fun r => str_eq (ug_id r) (ID g)) set_group_deleted)) ;;;
  cleanLinkStrategy PrincipalGroup (ID g) (Owner g).

Definition deleteUserGroup (group : UserGroupDetail) : M unit :=
  processWithTransaction (then_commit (deleteUserGroup_body group)).

Definition DeleteGroup (group : UserGroupDetail) : M unit :=
  let g := group_of group in
  if str_empty (ID g) || str_empty (Name g) then
    Fail (EStatus EmptyParamsErr ("delete usergroup missing some params, groupId is " +:+ ID g))
  else map_err store_Error (RetryTransaction (deleteUserGroup group)).

(** ** Reading *)

(** user u JOIN user_group_relation ug ON u.id = ug.user_id *)
Definition linked_ids (groupId : string) (d : database) : list string :=
  concat (map (fun u => map ugr_user_id
    (keep (fun x => str_eq (us_id u) (ugr_user_id x) && str_eq (ugr_group_id x) groupId) (tbl d))) (tbl d)).

(** [getGroupLinkUserIds]: [rows.Err()] is not looked at. *)
Definition getGroupLinkUserIds (view : conn database -> database) (groupId : string) : M (gset string) :=
  idRows <- Query view (fun _ d => Ok (linked_ids groupId d)) ;;
  Ret (list_to_set (r_data idRows)).

(** A timestamp scanned into a string is its RFC 3339 text. *)
Definition group_times (r : user_group_row) : res (Z * Z) :=
  scan_times (RFC3339Nano (ug_ctime r)) (RFC3339Nano (ug_mtime r)).

(** [GetGroup] *)
Definition GetGroup (groupId : string) : M (option UserGroupDetail) :=
  if str_empty groupId then
    Fail (EStatus EmptyParamsErr ("get usergroup missing some params, groupId is " +:+ groupId))
  else fun c =>
    match QueryRow committed (fun _ d => Ok (sql_select (fun r => (ug_flag r =? 0) && str_eq (ug_id r) groupId) d)) c with
    | (Err ENoRows, c') => (Ok None, c')
    | (Err e, c') => (Err (store_Error e), c')
    | (Panic w, c') => (Panic w, c')
    | (Ok r, c') =>
        (uids <- map_err store_Error (getGroupLinkUserIds replica (ug_id r)) ;;
         times <- lift (group_times r) ;;
         Ret (Some (mkUserGroupDetail (mkUserGroup (ug_id r) (ug_name r) (ug_owner r) (ug_token r)
           (ug_token_enable r =? 1) false (ug_comment r) times.1 times.2) uids))) c'
    end.

(** [GetGroupByName] *)
Definition GetGroupByName (name owner : string) : M (option UserGroup) :=
  if str_empty name || str_empty owner then
    Fail (EStatus EmptyParamsErr ("get usergroup missing some params, name=" +:+ name +:+ ", owner=" +:+ owner))
  else fun c =>
    match QueryRow committed (fun _ d => Ok (sql_select (fun r =>
      (ug_flag r =? 0) && str_eq (ug_name r) name && str_eq (ug_owner r) owner) d)) c with
    | (Err ENoRows, c') => (Ok None, c')
    | (Err e, c') => (Err (store_Error e), c')
    | (Panic w, c') => (Panic w, c')
    | (Ok r, c') =>
        (times <- lift (group_times r) ;;
         Ret (Some (mkUserGroup (ug_id r) (ug_name r) (ug_owner r) (ug_token r) false false (ug_comment r)
           times.1 times.2))) c'
    end.

(** [fetchRown2UserGroup] *)
Definition fetchRown2UserGroup (r : user_group_row) : res UserGroup :=
  times <-? group_times r ;;
  Ok (mkUserGroup (ug_id r) (ug_name r) (ug_owner r) (ug_token r) (ug_token_enable r =? 1) (ug_flag r =? 0)
        (ug_comment r) times.1 times.2).

(** [collectGroupsFromRows]: [rows.Err()] is not looked at. *)
Definition collectGroupsFromRows (sel : Z -> database -> res (list user_group_row)) : M (list UserGroup) :=
  rows <- Query committed sel ;;
  lift (scan_all fetchRown2UserGroup (r_data rows)).

Definition oldest_group (r : user_group_row) : Z := - ug_mtime r.

(** [listSimpleGroups]: only the id and the name of the filter count. *)
Definition simple_query (filters : gmap string string) : gmap string string :=
  let put (key : string) (query : gmap string string) :=
    match filters !! key with Some v => <[key := v]> query | None => query end in
  put "name"%string (put "id"%string ∅).

Definition simple_cols (col : string) : option (column user_group_row) :=
  if str_eq col "ug.id" then Some (CText (fun r => Some (ug_id r)))
  else if str_eq col "ug.name" then Some (CText (fun r => Some (ug_name r)))
  else if str_eq col "ug.owner" then Some (CText (fun r => Some (ug_owner r)))
  else None.

Definition simple_step (k v : string) (idx : Z) : cond * list arg * Z :=
  let k := default k (groupAttribute k) in
  if IsPrefixWildName v then (CLike k idx, [AStr ("%" +:+ without_star v +:+ "%")], idx + 1)
  else (CEq k idx, [AStr v], idx + 1).

Definition group_valid (r : user_group_row) : bool := ug_flag r =? 0.

Definition listSimpleGroups (filters : gmap string string) (offset limit : Z) : M (Z * list UserGroup) :=
  let '(cs, args, idx) := filter_loop simple_step (range_map (simple_query filters)) [] [] 1 in
  count <- queryEntryCount committed (fun _ d =>
    l <-? where_select simple_cols group_valid cs [] args d ;; Ok (Z.of_nat (length l))) ;;
  groups <- collectGroupsFromRows (fun _ d =>
    l <-? where_select simple_cols group_valid cs [idx; idx + 1] (args ++ [AInt limit; AInt offset]) d ;;
    Ok (page oldest_group offset limit l)) ;;
  Ret (count, groups).

(** [listGroupByUser]: user_group_relation ul left join user_group ug, of live
    groups, and the columns that can be named in it without being ambiguous. *)
Definition linked : Type := user_group_relation_row * user_group_row.

Definition link_join (d : database) : list linked :=
  concat (map (fun x => map (fun g => (x, g)) (keep (fun g => str_eq (ugr_group_id x) (ug_id g) && group_valid g) (tbl d)))
    (tbl d)).

Definition link_cols (col : string) : option (column linked) :=
  if str_eq col "ul.user_id" then Some (CText (fun x => Some (ugr_user_id x.1)))
  else if str_eq col "ul.group_id" then Some (CText (fun x => Some (ugr_group_id x.1)))
  else if str_eq col "ug.name" || str_eq col "name" then Some (CText (fun x => Some (ug_name x.2)))
  else if str_eq col "ug.owner" then Some (CText (fun x => Some (ug_owner x.2)))
  else if str_eq col "ug.id" || str_eq col "id" then Some (CText (fun x => Some (ug_id x.2)))
  else if str_eq col "ug.token" || str_eq col "token" then Some (CText (fun x => Some (ug_token x.2)))
  else if str_eq col "ug.comment" || str_eq col "comment" then Some (CText (fun x => Some (ug_comment x.2)))
  else if str_eq col "ug.token_enable" || str_eq col "token_enable" then Some (CInt (fun x => Some (ug_token_enable x.2)))
  else if str_eq col "ug.flag" || str_eq col "flag" then Some (CInt (fun x => Some (ug_flag x.2)))
  else if str_eq col "ul.ctime" then Some (CTime (fun x => ugr_ctime x.1))
  else if str_eq col "ul.mtime" then Some (CTime (fun x => ugr_mtime x.1))
  else if str_eq col "ug.ctime" then Some (CTime (fun x => ug_ctime x.2))
  else if str_eq col "ug.mtime" then Some (CTime (fun x => ug_mtime x.2))
  else None.

Definition link_step (k v : string) (idx : Z) : cond * list arg * Z :=
  let k := default k (userLinkGroupAttributeMapping k) in
  if IsPrefixWildName v then (CLike k idx, [AStr ("%" +:+ without_star v +:+ "%")], idx + 1)
  else if str_eq k "ug.owner" then
    (CEither "ug.owner" idx "ul.user_id" (idx + 1) None, [AStr v; AStr v], idx + 2)
  else (CEq k idx, [AStr v], idx + 1).

(** GROUP BY ug.id *)
Fixpoint one_per_group (seen : list string) (l : list linked) : list user_group_row :=
  match l with
  | [] => []
  | (_, g) :: l' =>
      if bool_decide (ug_id g ∈ seen) then one_per_group seen l'
      else g :: one_per_group (ug_id g :: seen) l'
  end.

Definition listGroupByUser (filters : gmap string string) (offset limit : Z) : M (Z * list UserGroup) :=
  let '(cs, args, idx) := filter_loop link_step (range_map filters) [] [] 1 in
  count <- queryEntryCount committed (fun _ d =>
    l <-? where_list link_cols cs [] args (link_join d) ;; Ok (Z.of_nat (length l))) ;;
  groups <- collectGroupsFromRows (fun _ d =>
    l <-? where_list link_cols cs [idx; idx + 1] (args ++ [AInt limit; AInt offset]) (link_join d) ;;
    Ok (page oldest_group offset limit (one_per_group [] l))) ;;
  Ret (count, groups).

(** [GetGroups] *)
Definition GetGroups (filters : gmap string string) (offset limit : Z) : M (Z * list UserGroup) :=
  match filters !! "user_id"%string with
  | Some _ => listGroupByUser filters offset limit
  | None => listSimpleGroups filters offset limit
  end.

(** [GetGroupsForCache]: a transaction on the replica that is committed either
    way; the users of a group are read outside of it. *)
Fixpoint group_loop (rows : list user_group_row) : M (list UserGroupDetail) :=
  match rows with
  | [] => Ret []
  | r :: rows' =>
      group <- map_err store_Error (lift (fetchRown2UserGroup r)) ;;
      uids <- map_err store_Error (getGroupLinkUserIds committed (ID group)) ;;
      rest <- group_loop rows' ;;
      Ret (mkUserGroupDetail group uids :: rest)
  end.

Definition GetGroupsForCache (mtime : Z) (firstUpdate : bool) : M (list UserGroupDetail) :=
  on_slave (map_err store_Error Begin ;;; defer_commit (
    rows <- map_err store_Error (tx_Query (fun _ d =>
      Ok (sql_select (fun r => firstUpdate || (mtime <=? ug_mtime r)) d))) ;;
    group_loop (r_data rows))).
End group.

(** ** What the operations do *)

(** The content after an update. *)
Definition group_updated (x : ModifyUserGroup) (now : Z) (d : database) : database :=
  set_tbl (change (group_live (m_ID x)) (set_group x now) (tbl d))
    (set_tbl (keep (unhit (relation_is (m_ID x)) (RemoveUserIds x)) (tbl d)) d).

Lemma group_updated_again x t t' d : group_updated x t (group_updated x t' d) = group_updated x t d.
Proof.
  unfold group_updated. autorewrite with tables. rewrite change_change, keep_keep by done.
  match goal with |- ?l = _ => change l with
    (set_tbl (change (group_live (m_ID x)) (set_group x t) (tbl d))
      (set_tbl (keep (fun r => unhit (relation_is (m_ID x)) (RemoveUserIds x) r &&
         unhit (relation_is (m_ID x)) (RemoveUserIds x) r) (tbl d)) d)) end.
  do 2 f_equal. apply keep_ext. intros r _. apply andb_diag.
Qed.

Section group_facts.
Context `{Env} `{PolarisApi} `{Uuid} `{MapRange} `{PgInput} `{Strconv} `{AuthApi}.
Implicit Types c : conn database.

(** Whom the checks let through. *)
Definition relation_error (what groupId : string) (userIds : list string) : option error :=
  if str_empty groupId then
    Some (EStatus EmptyParamsErr (what +:+ " user relation missing some params, groupid is " +:+ groupId))
  else if (MaxBatchSize <? length userIds)%nat then
    Some (EStatus InvalidUserIDSlice ("user id slice is invalid, len=" +:+ pretty (length userIds)))
  else None.

Lemma impl_fail_err e : Implements (D:=database) (A:=unit) (Fail e) (fun _ _ => Err e).
Proof. split; [by intros c r c' [= _ <-]|by intros ??? [=]|done]. Qed.

#[export] Instance impl_checked what gid uids m p : Implements m p ->
  Implements (checked_relation what gid uids m)
    (fun now d => match relation_error what gid uids with Some e => Err e | None => p now d end).
Proof.
  intros Hm. unfold checked_relation, relation_error. destruct (str_empty gid); [apply impl_fail_err|].
  destruct (_ <? _)%nat; [apply impl_fail_err|exact Hm].
Qed.

Definition p_update_group (x : ModifyUserGroup) : P database unit :=
  p_bind (match AddUserIds x with [] => p_ret tt | l => fun now d =>
    match relation_error "add" (m_ID x) l with Some e => Err e
    | None => p_each (fun _ => fun _ _ => Err syntax_error) l now d end end) (fun _ =>
  p_bind (match RemoveUserIds x with [] => p_ret tt | l => fun now d =>
    match relation_error "delete" (m_ID x) l with Some e => Err e
    | None => p_each (fun uid => p_void (sql_delete (relation_is (m_ID x) uid))) l now d end end) (fun _ =>
  p_void (sql_update (group_live (m_ID x)) (set_group x)))).

#[export] Instance impl_update_group x : Implements (updateGroup_body x) (p_update_group x).
Proof.
  unfold updateGroup_body, p_update_group, addGroupRelation, removeGroupRelation.
  destruct (AddUserIds x), (RemoveUserIds x); apply _.
Qed.

Lemma p_update_group_Ok x now d d' : p_update_group x now d = Ok (tt, d') ->
  AddUserIds x = [] /\ (length (RemoveUserIds x) <= MaxBatchSize)%nat /\ d' = group_updated x now d.
Proof.
  unfold p_update_group. intros ([] & d1 & G1 & G2)%p_bind_Ok. destruct (AddUserIds x) as [|u l].
  2:{ by destruct (relation_error _ _ _). }
  injection G1 as <-. split; [done|]. apply p_bind_Ok in G2 as ([] & d2 & G2 & (n & [-> _]%update_Ok_inv)%p_void_Ok).
  assert ((length (RemoveUserIds x) <= MaxBatchSize)%nat /\
    d2 = set_tbl (keep (unhit (relation_is (m_ID x)) (RemoveUserIds x)) (tbl d)) d) as [Hl ->].
  { destruct (RemoveUserIds x) as [|u l] eqn:E.
    - injection G2 as <-. split; [simpl; lia|]. by rewrite keep_all, set_tbl_id.
    - destruct (relation_error _ _ _) eqn:Ee; [done|]. split; [|by eapply p_each_delete].
      unfold relation_error in Ee. destruct (str_empty _); [done|].
      destruct (MaxBatchSize <? length (u :: l))%nat eqn:El; [done|]. by apply Nat.ltb_ge. }
  split; [done|]. unfold group_updated. by autorewrite with tables.
Qed.

Lemma fetchRown2UserGroup_fails r : is_Ok (fetchRown2UserGroup r) = false.
Proof.
  unfold fetchRown2UserGroup, group_times. pose proof (scan_times_fails (ug_ctime r) (RFC3339Nano (ug_mtime r))) as Hs.
  by destruct (scan_times _ _).
Qed.

Lemma scan_groups_Ok l gs : scan_all fetchRown2UserGroup l = Ok gs -> l = [] /\ gs = [].
Proof.
  destruct l as [|r l]; simpl; [by intros [= <-]|]. pose proof (fetchRown2UserGroup_fails r) as Hr.
  by destruct (fetchRown2UserGroup r).
Qed.

Lemma collect_groups_empty sel c gs c' : collectGroupsFromRows sel c = (Ok gs, c') -> gs = [].
Proof.
  unfold collectGroupsFromRows, Bind, lift. destruct (Query _ _ c) as [[rows|e|w] c1]; [|done..].
  intros [= E _]. by apply scan_groups_Ok in E as [_ ->].
Qed.
End group_facts.

(** ** Properties *)

Section group_properties.
Context `{Env} `{PolarisApi} `{Uuid} `{MapRange} `{PgInput} `{Strconv} `{AuthApi}.
Implicit Types c : conn database.

(** C33: [UpdateGroup]: with users to add it never succeeds and changes nothing;
    otherwise, after success, at most MaxBatchSize named users have left the
    group and the live group of that id has the new token, comment and mark,
    as if the transaction had run once; after an error that, or nothing. *)
Theorem UpdateGroup_correct x c r c' : UpdateGroup x c = (r, c') ->
  replica c' = replica c /\
  (r = Ok tt -> (length (RemoveUserIds x) <= MaxBatchSize)%nat /\
     exists now, committed c' = group_updated x now (committed c)) /\
  (committed c' = committed c \/ exists now, committed c' = group_updated x now (committed c)) /\
  (m_ID x = ""%string \/ AddUserIds x <> [] \/ (MaxBatchSize < length (RemoveUserIds x))%nat ->
     is_Ok r = false /\ committed c' = committed c).
Proof.
  unfold UpdateGroup. intros Hr. destruct (str_empty (m_ID x)) eqn:Ee.
  { injection Hr as <- <-. split_and!; try done. by left. }
  apply bool_decide_eq_false in Ee.
  eapply (map_err_retry_does store_Error (updateGroup_body x)) in Hr as [Ho Hre]; [|apply does_implements, _].
  assert (AddUserIds x <> [] \/ (MaxBatchSize < length (RemoveUserIds x))%nat -> is_Ok r = false /\ committed c' = committed c) as Hno.
  { intros Hx. apply retried_does_stuck in Ho as [? ?]; [done|].
    intros now [] d1 (Ha & Hl & _)%p_update_group_Ok. destruct Hx; [done|lia]. }
  pose proof Ho as Ho'. apply (retried_does_overwrite (fun _ => True) (group_updated x)) in Ho' as (_ & Hok & Hor).
  - split_and!; [done| |done|]; [|by intros [?|Hx]; [|apply Hno]]. intros ->. split; [|apply Hok; by exists tt].
    destruct (le_lt_dec (length (RemoveUserIds x)) MaxBatchSize) as [?|Hlt]; [done|]. by destruct (Hno (or_intror Hlt)).
  - done.
  - done.
  - intros now [] y (_ & _ & ->)%p_update_group_Ok. by exists now.
  - intros now t [] y _ (_ & _ & ->)%p_update_group_Ok. exists now. apply group_updated_again.
Qed.

(** Groups are neither created nor deleted: [AddGroup] and [DeleteGroup]
    never succeed and change nothing, because the default strategy can be
    neither inserted nor cleaned. *)
Theorem groups_never_written x c r c' : AddGroup x c = (r, c') \/ DeleteGroup x c = (r, c') ->
  is_Ok r = false /\ committed c' = committed c /\ replica c' = replica c.
Proof.
  intros [Hr|Hr].
  - unfold AddGroup in Hr. destruct (_ || _ || _); [by injection Hr as <- <-|].
    eapply never_outcome; [|exact Hr]. unfold addGroup_body, addGroupRelation.
    do 3 (eapply does_then_never; [apply does_implements; unfold cleanInValidGroup; apply _|]; intros ?).
    apply createDefaultStrategy_never.
  - unfold DeleteGroup in Hr. destruct (_ || _); [by injection Hr as <- <-|].
    eapply never_outcome; [|exact Hr]. unfold deleteUserGroup_body.
    do 2 (eapply does_then_never; [apply does_implements, _|]; intros ?).
    eapply does_never; [unfold cleanLinkStrategy, stmt_wrong_args; apply _|]. done.
Qed.

(** No group is ever read: whatever the database holds and whatever faults
    occur, [GetGroups] and [GetGroupsForCache] that succeed list nothing, and
    [GetGroup] and [GetGroupByName] never return one; the times scanned as
    texts are not numbers. *)
Theorem groups_never_read id name owner filters offset limit mtime firstUpdate c :
  (forall n gs, fst (GetGroups filters offset limit c) = Ok (n, gs) -> gs = []) /\
  (forall gs, fst (GetGroupsForCache mtime firstUpdate c) = Ok gs -> gs = []) /\
  (forall g, fst (GetGroup id c) <> Ok (Some g)) /\
  (forall g, fst (GetGroupByName name owner c) <> Ok (Some g)).
Proof.
  split_and!.
  - intros n gs. unfold GetGroups. destruct (filters !! _); [unfold listGroupByUser|unfold listSimpleGroups];
      destruct (filter_loop _ _ _ _ _) as [[cs args] idx]; unfold Bind;
      destruct (queryEntryCount _ _ c) as [[m|e|w] c1]; try done;
      match goal with |- context [collectGroupsFromRows ?s ?x] =>
        destruct (collectGroupsFromRows s x) as [[l|e|w] c2] eqn:E end; try done;
      apply collect_groups_empty in E as ->; by intros [= _ <-].
  - intros gs. unfold GetGroupsForCache, on_slave, Bind at 1.
    destruct (map_err _ _ _) as [[u|e|w] c1]; [|done..]. unfold defer_commit, Bind at 1, map_err at 1.
    destruct (tx_Query _ c1) as [[rows|e|w] c2]; [|done..].
    destruct (r_data rows) as [|r l]; simpl; [by intros [= <-]|]. unfold Bind at 1, map_err at 1, lift.
    pose proof (fetchRown2UserGroup_fails r) as Hf. by destruct (fetchRown2UserGroup r).
  - intros g. unfold GetGroup. destruct (str_empty id); [done|].
    destruct (QueryRow _ _ c) as [[r|e|w] c1]; [|by destruct e|done]. unfold Bind.
    destruct (map_err _ _ c1) as [[u|e|w] c2]; [|done..]. unfold lift, group_times.
    pose proof (scan_times_fails (ug_ctime r) (RFC3339Nano (ug_mtime r))) as Hs. by destruct (scan_times _ _).
  - intros g. unfold GetGroupByName. destruct (_ || _); [done|].
    destruct (QueryRow _ _ c) as [[r|e|w] c1]; [|by destruct e|done]. unfold Bind, lift, group_times.
    pose proof (scan_times_fails (ug_ctime r) (RFC3339Nano (ug_mtime r))) as Hs. by destruct (scan_times _ _).
Qed.
End group_properties.
