(* ===== verification/ConfigFile.v ===== *)
(** * Configuration files (store/postgresql/config_file.go)

    [configFileStore]: files keyed by namespace, group and name, with tags in
    a table of their own.  The operations with [Tx] in their name work in the
    transaction of the caller; creation, update and deletion commit it. *)
From stdpp Require Import base list strings pretty gmap sorting.
From Stdlib Require Import ZArith Lia.
From S2P Require Import Prelude Driver Rows Schema Sql Common Where RuleFilter.
Open Scope Z_scope.
Open Scope store_scope.

(** [model.ConfigFile], the fields the store touches; times in seconds. *)
Record ConfigFile := mkConfigFile {
  Id : Z; Name : string; Namespace : string; Group : string; Content : string; Comment : string;
  Format : string; CreateTime : Z; CreateBy : string; ModifyTime : Z; ModifyBy : string;
  Metadata : gmap string string }.

Record ConfigFileKey := mkConfigFileKey { k_Namespace : string; k_Group : string; k_Name : string }.

Definition set_Metadata (m : gmap string string) (f : ConfigFile) : ConfigFile :=
  mkConfigFile (Id f) (Name f) (Namespace f) (Group f) (Content f) (Comment f) (Format f)
    (CreateTime f) (CreateBy f) (ModifyTime f) (ModifyBy f) m.

(** The entries of [configFileStoreFieldMapping] for config_file; the
    backquotes are MySQL's. *)
Definition configFileStoreFieldMapping (key : string) : string :=
  if str_eq key "group" then "`group`" else if str_eq key "file_name" then "name" else key.

(** A column of type timestamp(0) rounds to the second. *)
Definition round_seconds (t : Z) : Z := (t + 500000) / 1000000 * 1000000.

(** The sequences of the ids. *)
Definition file_nextval : P database Z := fun _ d =>
  let k := x_config d in
  Ok (config_file_id_seq k, set_config (ConfigTables (t_config_file k) (t_config_file_tag k)
    (t_config_file_group k) (t_config_file_template k) (t_config_file_release_history k)
    (config_file_id_seq k + 1) (config_file_tag_id_seq k) (config_file_group_id_seq k)
    (config_file_template_id_seq k) (config_file_release_history_id_seq k)) d).

Definition tag_nextvals (n : nat) : P database (list Z) := fun _ d =>
  let k := x_config d in
  Ok (seqZ (config_file_tag_id_seq k) (Z.of_nat n),
      set_config (ConfigTables (t_config_file k) (t_config_file_tag k)
        (t_config_file_group k) (t_config_file_template k) (t_config_file_release_history k)
        (config_file_id_seq k) (config_file_tag_id_seq k + Z.of_nat n) (config_file_group_id_seq k)
        (config_file_template_id_seq k) (config_file_release_history_id_seq k)) d).

Section config_file.
Context `{Env} `{PolarisApi} `{Strconv} `{MapRange} `{PgInput}.
Abbreviation M := (M database).
Abbreviation P := (P database).

(** ** Statements *)

Definition of_key (namespace group name : string) (r : config_file_row) : bool :=
  str_eq (cf_namespace r) namespace && str_eq (cf_group r) group && str_eq (cf_name r) name.

Definition cf_dead (namespace group name : string) (r : config_file_row) : bool :=
  of_key namespace group name r && (cf_flag r =? 1).

Definition new_file_row (id : Z) (file : ConfigFile) (now : Z) : config_file_row :=
  ConfigFileRow id (Namespace file) (Group file) (Name file) (Content file) (Some (Format file))
    (Some (Comment file)) 0 (round_seconds now) (Some (CreateBy file)) (round_seconds now) (Some (ModifyBy file)).

Definition insert_file (file : ConfigFile) : P unit :=
  p_bind file_nextval (fun id => p_void (sql_insert (fun now => [new_file_row id file now]))).

Definition set_file (file : ConfigFile) (now : Z) (r : config_file_row) : config_file_row :=
  ConfigFileRow (cf_id r) (cf_namespace r) (cf_group r) (cf_name r) (Content file) (Some (Format file))
    (Some (Comment file)) (cf_flag r) (cf_create_time r) (cf_create_by r) (round_seconds now) (Some (ModifyBy file)).

Definition set_file_deleted (_ : Z) (r : config_file_row) : config_file_row :=
  ConfigFileRow (cf_id r) (cf_namespace r) (cf_group r) (cf_name r) (cf_content r) (cf_format r)
    (cf_comment r) 1 (cf_create_time r) (cf_create_by r) (cf_modify_time r) (cf_modify_by r).

(** ** Tags *)

Definition tags_of (namespace group name : string) (r : config_file_tag_row) : bool :=
  str_eq (cft_namespace r) namespace && str_eq (cft_group r) group && str_eq (cft_file_name r) name.

(** [batchCleanTags] *)
Definition batchCleanTags (file : ConfigFile) : M unit :=
  map_err store_Error (void (tx_Exec (sql_delete (tags_of (Namespace file) (Group file) (Name file))))).

(** One group of the VALUES list: the placeholders are the same for every
    tag. *)
Definition tag_values : sql :=
  [T "("; Ph 1; T ", "; Ph 2; T ", "; Ph 3; T ", "; Ph 4; T ", "; Ph 5; T ", current_timestamp, "; Ph 6;
   T ", current_timestamp, "; Ph 7; T ")"].

Fixpoint join_values (n : nat) : sql :=
  match n with
  | O => []
  | S O => tag_values
  | S n' => tag_values ++ T "," :: join_values n'
  end.

Definition tag_args (file : ConfigFile) (kv : string * string) : list arg :=
  [AStr (fst kv); AStr (snd kv); AStr (Namespace file); AStr (Group file); AStr (Name file);
   AStr (CreateBy file); AStr (ModifyBy file)].

Definition tag_row (args : list arg) (now : Z) (id : Z) : config_file_tag_row :=
  ConfigFileTagRow id (arg_str (arg_at args 1)) (arg_str (arg_at args 2)) (arg_str (arg_at args 3))
    (arg_str (arg_at args 4)) (arg_str (arg_at args 5)) now (Some (arg_str (arg_at args 6))) now
    (Some (arg_str (arg_at args 7))).

Definition insert_tags (args : list arg) (n : nat) : P Z :=
  p_bind (tag_nextvals n) (fun ids => sql_insert (fun now => map (tag_row args now) ids)).

(** [batchAddTags] *)
Definition batchAddTags (file : ConfigFile) : M unit :=
  let kvs := range_map (Metadata file) in
  if (length kvs =? 0)%nat then Ret tt
  else
    let args := concat (map (tag_args file) kvs) in
    map_err store_Error (void (tx_Exec (fun now d =>
      if params_ok (join_values (length kvs)) (length args)
      then insert_tags args (length kvs) now d
      else Err param_error))).

(** [loadFileTags] does not look at [rows.Err()]. *)
Definition tags_map (l : list config_file_tag_row) : gmap string string :=
  fold_left (fun m r => <[cft_key r := cft_value r]> m) l ∅.

Definition loadFileTags (file : ConfigFile) : M ConfigFile :=
  rs <- tx_Query (fun _ d => Ok (sql_select (tags_of (Namespace file) (Group file) (Name file)) d)) ;;
  Ret (set_Metadata (tags_map (r_data rs)) file).

(** ** Operations *)

(** [transferRows] *)
Definition scan_file (r : config_file_row) : res ConfigFile :=
  format <-? scan_string (cf_format r) ;;
  match ParseFloat (epoch_text (cf_create_time r)) with
  | Err e => Err (errorf "failed to parse create_time" e)
  | Panic w => Panic w
  | Ok ctime =>
  match ParseFloat (epoch_text (cf_modify_time r)) with
  | Err e => Err (errorf "failed to parse modify_time" e)
  | Panic w => Panic w
  | Ok mtime =>
      Ok (mkConfigFile (cf_id r) (cf_name r) (cf_namespace r) (cf_group r) (cf_content r)
            (default "" (cf_comment r)) format ctime (default "" (cf_create_by r)) mtime
            (default "" (cf_modify_by r)) ∅)
  end end.

Definition transferRows (rs : rows config_file_row) : res (list ConfigFile) := fetch_rows scan_file rs.

Definition live_file (namespace group name : string) (r : config_file_row) : bool :=
  of_key namespace group name r && (cf_flag r =? 0).

(** [LockConfigFile]: the row lock has no effect on the content. *)
Definition LockConfigFile (tx : option unit) (file : ConfigFileKey) : M (option ConfigFile) :=
  with_tx tx (
    rs <- map_err store_Error (tx_Query (fun _ d =>
            Ok (sql_select (live_file (k_Namespace file) (k_Group file) (k_Name file)) d))) ;;
    files <- lift (transferRows rs) ;;
    Ret (head files)).

(** [CreateConfigFileTx] *)
Definition create_file (file : ConfigFile) : M unit :=
  map_err store_Error (rolls_back (void (tx_Exec (sql_delete (cf_dead (Namespace file) (Group file) (Name file)))))) ;;;
  map_err store_Error (rolls_back (tx_Exec (insert_file file))) ;;;
  map_err store_Error (rolls_back (batchCleanTags file)) ;;;
  map_err store_Error (rolls_back (batchAddTags file)).

Definition CreateConfigFileTx (tx : option unit) (file : ConfigFile) : M unit :=
  with_tx tx (create_file file ;;; commit_tx).

(** [UpdateConfigFileTx] *)
Definition update_file (file : ConfigFile) : M unit :=
  map_err store_Error (rolls_back (void (tx_Exec
    (sql_update (of_key (Namespace file) (Group file) (Name file)) (set_file file))))) ;;;
  map_err store_Error (rolls_back (batchCleanTags file)) ;;;
  map_err store_Error (rolls_back (batchAddTags file)).

Definition UpdateConfigFileTx (tx : option unit) (file : ConfigFile) : M unit :=
  with_tx tx (update_file file ;;; commit_tx).

(** [DeleteConfigFileTx] *)
Definition delete_file (namespace group name : string) : M unit :=
  map_err store_Error (rolls_back (void (tx_Exec (sql_update (of_key namespace group name) set_file_deleted)))).

Definition DeleteConfigFileTx (tx : option unit) (namespace group name : string) : M unit :=
  with_tx tx (delete_file namespace group name ;;; commit_tx).

(** [CountConfigFiles] *)
Definition CountConfigFiles (namespace group : string) : M Z :=
  map_err store_Error (QueryRow replica (fun _ d => Ok [Z.of_nat (count_rows (fun r =>
    (cf_flag r =? 0) && str_eq (cf_namespace r) namespace && str_eq (cf_group r) group) d)])).

(** [GetConfigFileTx], [GetConfigFile] *)
Definition GetConfigFileTx (tx : option unit) (namespace group name : string) : M (option ConfigFile) :=
  with_tx tx (
    rs <- map_err store_Error (tx_Query (fun _ d => Ok (sql_select (live_file namespace group name) d))) ;;
    files <- map_err store_Error (lift (transferRows rs)) ;;
    match files with
    | [] => Ret None
    | file :: _ => file <- map_err store_Error (loadFileTags file) ;; Ret (Some file)
    end).

Definition GetConfigFile (namespace group name : string) : M (option ConfigFile) :=
  map_err store_Error Begin ;;; defer_rollback (GetConfigFileTx (Some tt) namespace group name).

(** [QueryConfigFiles] *)
Definition cf_cols (col : string) : option (column config_file_row) :=
  if str_eq col "id" then Some (CInt (fun r => Some (cf_id r)))
  else if str_eq col "namespace" then Some (CText (fun r => Some (cf_namespace r)))
  else if str_eq col "name" then Some (CText (fun r => Some (cf_name r)))
  else if str_eq col "content" then Some (CText (fun r => Some (cf_content r)))
  else if str_eq col "format" then Some (CText cf_format)
  else if str_eq col "comment" then Some (CText cf_comment)
  else if str_eq col "flag" then Some (CInt (fun r => Some (cf_flag r)))
  else if str_eq col "create_time" then Some (CTime cf_create_time)
  else if str_eq col "create_by" then Some (CText cf_create_by)
  else if str_eq col "modify_time" then Some (CTime cf_modify_time)
  else if str_eq col "modify_by" then Some (CText cf_modify_by)
  else None.

Fixpoint search_query (filter : list (string * string)) (searchQuery : list cond) (args : list arg) :
    list cond * list arg :=
  match filter with
  | [] => (searchQuery, args)
  | (k, v) :: filter' =>
      let k := configFileStoreFieldMapping k in
      let n := Z.of_nat (length args) + 1 in
      search_query filter' (searchQuery ++ [if IsWildName v then CLike k n else CEq k n])
        (args ++ [AStr (ParseWildNameForSql v)])
  end.

Fixpoint load_all (files : list ConfigFile) : M (list ConfigFile) :=
  match files with
  | [] => Ret []
  | item :: files' =>
      item <- loadFileTags item ;;
      rest <- load_all files' ;;
      Ret (item :: rest)
  end.

Definition cf_live (r : config_file_row) : bool := cf_flag r =? 0.

Definition QueryConfigFiles (filter : gmap string string) (offset limit : Z) : M (Z * list ConfigFile) :=
  let '(searchQuery, args) := search_query (range_map filter) [] [] in
  let n := Z.of_nat (length args) + 1 in
  count <- map_err store_Error (QueryRow committed (fun _ d =>
             l <-? where_select cf_cols cf_live searchQuery [] args d ;; Ok [Z.of_nat (length l)])) ;;
  rs <- map_err store_Error (Query committed (fun _ d =>
          l <-? where_select cf_cols cf_live searchQuery [n; n + 1] (args ++ [AInt limit; AInt offset]) d ;;
          Ok (page cf_id offset limit l))) ;;
  files <- map_err store_Error (lift (transferRows rs)) ;;
  files <- map_err store_Error (on_slave (processWithTransaction (load_all files))) ;;
  Ret (count, files).

(** [CountConfigFileEachGroup]: GROUP BY namespace, group; the rows in some
    order, [rows.Err()] not looked at. *)
Definition group_counts (d : database) : list (string * string * Z) :=
  let l := sql_select cf_live d in
  map (fun ng => (ng, Z.of_nat (count (fun r => str_eq (cf_namespace r) ng.1 && str_eq (cf_group r) ng.2) l)))
    (remove_dups (map (fun r => (cf_namespace r, cf_group r)) l)).

Definition add_count (ret : gmap string (gmap string Z)) (x : string * string * Z) : gmap string (gmap string Z) :=
  <[x.1.1 := <[x.1.2 := x.2]> (default ∅ (ret !! x.1.1))]> ret.

Definition CountConfigFileEachGroup : M (gmap string (gmap string Z)) :=
  rs <- map_err store_Error (Query replica (fun _ d => Ok (group_counts d))) ;;
  Ret (fold_left add_count (r_data rs) ∅).

(** [hardDeleteConfigFile] *)
Definition hardDeleteConfigFile (namespace group name : string) : M unit :=
  map_err store_Error (void (Exec (sql_delete (cf_dead namespace group name)))).
End config_file.

(** ** What the operations mean *)

Section config_file_facts.
Context `{Env} `{PolarisApi} `{Strconv} `{MapRange} `{PgInput}.
Abbreviation P := (P database).
Implicit Types (d : database) (x : ConfigFile) (c : conn database).

Definition p_clean x : P unit :=
  p_map_err store_Error (p_map_err store_Error (p_void
    (sql_delete (tags_of (Namespace x) (Group x) (Name x))))).

Definition p_add_rows x (n : nat) : P Z := fun now d =>
  if params_ok (join_values n) (length (concat (map (tag_args x) (range_map (Metadata x)))))
  then insert_tags (concat (map (tag_args x) (range_map (Metadata x)))) n now d
  else Err param_error.

Definition p_add x : P unit :=
  p_map_err store_Error (
    if (length (range_map (Metadata x)) =? 0)%nat then p_ret tt
    else p_map_err store_Error (p_void (p_add_rows x (length (range_map (Metadata x)))))).

Definition p_tags x : P unit := p_bind (p_clean x) (fun _ => p_add x).

Definition p_create x : P unit :=
  p_bind (p_map_err store_Error (p_void (sql_delete (cf_dead (Namespace x) (Group x) (Name x))))) (fun _ =>
  p_bind (p_map_err store_Error (insert_file x)) (fun _ => p_tags x)).

Definition p_update x : P unit :=
  p_bind (p_map_err store_Error (p_void
    (sql_update (of_key (Namespace x) (Group x) (Name x)) (set_file x)))) (fun _ => p_tags x).

#[export] Instance impl_batchAddTags x : Implements (map_err store_Error (rolls_back (batchAddTags x))) (p_add x).
Proof. unfold batchAddTags, p_add. apply _. Qed.

#[export] Instance impl_create_file x : Implements (create_file x) (p_create x).
Proof. unfold create_file, p_create, p_tags, p_clean, batchCleanTags. apply _. Qed.

#[export] Instance impl_update_file x : Implements (update_file x) (p_update x).
Proof. unfold update_file, p_update, p_tags, p_clean, batchCleanTags. apply _. Qed.

#[export] Instance impl_delete_file ns g n : Implements (delete_file ns g n)
  (p_map_err store_Error (p_void (sql_update (of_key ns g n) set_file_deleted))).
Proof. unfold delete_file. apply _. Qed.

(** *** Placeholders

    The groups of the VALUES list all name $1 to $7, so there is room for the
    arguments of one tag only. *)

Lemma phs_tag_values n p : p ∈ phs (join_values n) -> 1 <= p <= 7.
Proof.
  assert (forall p, p ∈ phs tag_values -> 1 <= p <= 7) as Hv.
  { simpl. intros q Hq. repeat (apply elem_of_cons in Hq as [->|Hq]; [lia|]). by apply elem_of_nil in Hq. }
  induction n as [|[|n] IH]; [by intros ?%elem_of_nil|apply Hv|].
  intros Hp. change (join_values (S (S n))) with (tag_values ++ T "," :: join_values (S n)) in Hp.
  rewrite phs_app in Hp. apply elem_of_app in Hp as [Hp|Hp]; [by apply Hv|]. by apply IH.
Qed.

Lemma length_tag_args x kvs : length (concat (map (tag_args x) kvs)) = (7 * length kvs)%nat.
Proof. induction kvs as [|kv kvs IH]; [done|]. simpl. rewrite IH. lia. Qed.

Lemma two_tags_refused x now d : (2 <= length (range_map (Metadata x)))%nat ->
  is_Ok (p_add x now d) = false.
Proof.
  intros Hn. unfold p_add. rewrite (proj2 (Nat.eqb_neq _ 0)) by lia.
  assert (params_ok (join_values (length (range_map (Metadata x))))
    (length (concat (map (tag_args x) (range_map (Metadata x))))) = false) as Hp.
  { apply not_true_iff_false. unfold params_ok. rewrite andb_true_iff. intros [_ Hp].
    rewrite forallb_forall in Hp. specialize (Hp 8). rewrite length_tag_args in Hp.
    rewrite <- list_elem_of_In, elem_of_seqZ in Hp.
    specialize (Hp ltac:(lia)). apply bool_decide_eq_true, phs_tag_values in Hp. lia. }
  unfold p_map_err, p_void, p_bind, p_add_rows. by rewrite Hp.
Qed.

(** *** Effects *)

(** The tags of the file become its metadata, all other tags stay. *)
Definition tags_set x (d d' : database) : Prop :=
  keep (fun r => negb (tags_of (Namespace x) (Group x) (Name x) r)) (tbl d') =
    keep (fun r => negb (tags_of (Namespace x) (Group x) (Name x) r)) (tbl d) /\
  tags_map (keep (tags_of (Namespace x) (Group x) (Name x)) (tbl d')) = Metadata x.

Lemma length_range_map m : length (range_map m) = size m.
Proof. by rewrite (range_map_perm m), length_map_to_list. Qed.

Lemma keep_other_same {A} (p : A -> bool) l :
  keep p (keep (fun r => negb (p r)) l) = [] /\
  keep (fun r => negb (p r)) (keep (fun r => negb (p r)) l) = keep (fun r => negb (p r)) l.
Proof.
  split; [|rewrite keep_keep; apply keep_ext; intros r _; apply andb_diag].
  apply keep_nil_iff. intros r [_ Hr]%elem_of_keep. by apply negb_true_iff.
Qed.

Lemma p_tags_Ok x now d d' : p_tags x now d = Ok (tt, d') ->
  (size (Metadata x) <= 1)%nat /\ tags_set x d d' /\ tbl (R:=config_file_row) d' = tbl d.
Proof.
  intros ([] & d1 & Hc & Ha)%p_bind_Ok. unfold p_clean in Hc. rewrite !p_map_err_Ok in Hc.
  apply p_void_Ok in Hc as (k & [= _ <-]).
  set (mine := tags_of (Namespace x) (Group x) (Name x)) in *.
  destruct (keep_other_same mine (tbl d)) as [Hmine Hother].
  destruct (decide (2 <= length (range_map (Metadata x)))%nat) as [Hn|Hn].
  { pose proof (two_tags_refused x now (set_tbl (keep (fun r => negb (mine r)) (tbl d)) d) Hn) as Hx.
    by rewrite Ha in Hx. }
  rewrite <- length_range_map. split; [lia|].
  pose proof (range_map_fold (Metadata x)) as Hm. unfold p_add in Ha. rewrite p_map_err_Ok in Ha.
  unfold tags_set. fold mine.
  destruct (range_map (Metadata x)) as [|[k0 v0] [|]] eqn:E; simpl in Ha; [| |simpl in Hn; lia].
  - injection Ha as <-. rewrite tbl_set, Hmine, Hother. by rewrite <- Hm.
  - rewrite p_map_err_Ok, p_void_Ok in Ha. destruct Ha as (n & Ha). unfold p_add_rows in Ha.
    rewrite E in Ha. destruct (params_ok _ _); [|done]. unfold insert_tags in Ha.
    apply p_bind_Ok in Ha as (ids & d2 & Hids & [-> _]%insert_Ok_inv).
    injection Hids as <- <-. cbn [map seqZ seq fmap list_fmap Z.of_nat].
    change (tbl (R:=config_file_tag_row) (set_config ?c ?d)) with (t_config_file_tag c).
    change (seqZ (config_file_tag_id_seq ?k) (Z.of_nat 1)) with [config_file_tag_id_seq k].
    rewrite tbl_set. cbn -[tbl set_tbl mine keep]. rewrite !keep_app, Hmine, Hother.
    cbn [keep map]. set (r := tag_row _ _ _).
    assert (mine r = true) as -> by (unfold mine, tags_of; simpl; by rewrite !str_eq_refl).
    split; [|done]. split; [apply app_nil_r|exact Hm].
Qed.

Definition file_created x (now : Z) (d d' : database) : Prop :=
  tbl d' = keep (fun r => negb (cf_dead (Namespace x) (Group x) (Name x) r)) (tbl d) ++
             [new_file_row (config_file_id_seq (x_config d)) x now] /\
  distinct clash (tbl (R:=config_file_row) d') = true /\ tags_set x d d'.

Definition file_updated x (now : Z) (d d' : database) : Prop :=
  tbl d' = change (of_key (Namespace x) (Group x) (Name x)) (set_file x now) (tbl d) /\ tags_set x d d'.

Lemma p_create_file_Ok x now d d' : p_create x now d = Ok (tt, d') ->
  (size (Metadata x) <= 1)%nat /\ file_created x now d d'.
Proof.
  intros ([] & d1 & Hdel & ([] & d2 & Hins & Ht)%p_bind_Ok)%p_bind_Ok.
  rewrite p_map_err_Ok, p_void_Ok in Hdel. destruct Hdel as (k & [= _ <-]).
  rewrite p_map_err_Ok in Hins. apply p_bind_Ok in Hins as (id & d3 & [= <- <-] & Hins).
  apply p_void_Ok in Hins as (n & [-> Hdist]%insert_Ok_inv).
  apply p_tags_Ok in Ht as (Hs & Ht & Hf). split; [done|]. rewrite tbl_set in Hf. unfold file_created.
  rewrite Hf. split; [done|]. split; [done|]. exact Ht.
Qed.

Lemma p_update_Ok x now d d' : p_update x now d = Ok (tt, d') ->
  (size (Metadata x) <= 1)%nat /\ file_updated x now d d'.
Proof.
  intros ([] & d1 & Hu & Ht)%p_bind_Ok. rewrite p_map_err_Ok, p_void_Ok in Hu.
  destruct Hu as (k & [-> _]%update_Ok_inv). apply p_tags_Ok in Ht as (Hs & Ht & Hf).
  rewrite tbl_set in Hf. split; [done|]. split; [done|]. exact Ht.
Qed.

Lemma scan_new_file id x now :
  0 <= round_seconds now < 4000000000000000 -> scan_file (new_file_row id x now) =
  Ok (mkConfigFile id (Name x) (Namespace x) (Group x) (Content x) (Comment x) (Format x)
        (unix_seconds (round_seconds now)) (CreateBy x) (unix_seconds (round_seconds now)) (ModifyBy x) ∅).
Proof. intros Hn. unfold scan_file. cbn -[epoch_text round_seconds]. by rewrite !ParseFloat_epoch. Qed.

(** The transaction of a read, without faults. *)
Lemma reading_reliable {A} (m : M database A) c : reliable ->
  fst ((map_err store_Error Begin ;;; defer_rollback m) c) =
  fst (m (tick (open_tx (current_timestamp c) c))).
Proof.
  intros Hr. unfold Bind, map_err. rewrite Begin_reliable by done. unfold defer_rollback.
  by destruct (m _).
Qed.
End config_file_facts.

(** ** Properties *)

Section config_file_properties.
Context `{Env} `{PolarisApi} `{Strconv} `{MapRange} `{PgInput}.
Implicit Types c : conn database.

(** C22: [CreateConfigFileTx] in an open transaction: after success (or a lost
    commit reply) the deleted row of that key is gone, the new one is there,
    and the tags of the file are its metadata; after an error the committed
    content is the old one.  Because all groups of the tags' VALUES list use
    $1 to $7, a file with two or more metadata entries is always refused. *)
Theorem CreateConfigFileTx_correct x c r c' :
  txst c = TxOpen -> CreateConfigFileTx (Some tt) x c = (r, c') ->
  replica c' = replica c /\
  (r = Ok tt -> file_created x (tx_now c) (work c) (committed c')) /\
  (committed c' = committed c \/ file_created x (tx_now c) (work c) (committed c')) /\
  ((2 <= size (Metadata x))%nat -> is_Ok r = false /\ committed c' = committed c).
Proof.
  intros Ho Hr. destruct (finish_spec (create_file x) _ _ _ _ Ho Hr) as (Hf & Hre & _).
  split; [done|]. split; [intros ->; by eapply p_create_file_Ok|].
  destruct r as [[]|e|w]; simpl in Hf.
  - apply p_create_file_Ok in Hf as [Hs Hf]. split; [by right|lia].
  - destruct Hf as [->|[[] Hf]]; [auto|]. apply p_create_file_Ok in Hf as [Hs Hf]. split; [by right|lia].
  - auto.
Qed.

(** [UpdateConfigFileTx] likewise: content, format, comment and author of the
    row change, the identity and the creation stay, the tags are replaced. *)
Theorem UpdateConfigFileTx_correct x c r c' :
  txst c = TxOpen -> UpdateConfigFileTx (Some tt) x c = (r, c') ->
  replica c' = replica c /\
  (r = Ok tt -> file_updated x (tx_now c) (work c) (committed c')) /\
  (committed c' = committed c \/ file_updated x (tx_now c) (work c) (committed c')) /\
  ((2 <= size (Metadata x))%nat -> is_Ok r = false /\ committed c' = committed c).
Proof.
  intros Ho Hr. destruct (finish_spec (update_file x) _ _ _ _ Ho Hr) as (Hf & Hre & _).
  split; [done|]. split; [intros ->; by eapply p_update_Ok|].
  destruct r as [[]|e|w]; simpl in Hf.
  - apply p_update_Ok in Hf as [Hs Hf]. split; [by right|lia].
  - destruct Hf as [->|[[] Hf]]; [auto|]. apply p_update_Ok in Hf as [Hs Hf]. split; [by right|lia].
  - auto.
Qed.

(** [DeleteConfigFileTx] marks the rows of the key deleted and leaves the tags
    and all other rows: afterwards no read finds the file. *)
Theorem DeleteConfigFileTx_correct ns g n c r c' :
  txst c = TxOpen -> DeleteConfigFileTx (Some tt) ns g n c = (r, c') ->
  let after := set_tbl (change (of_key ns g n) (set_file_deleted 0) (tbl (work c))) (work c) in
  replica c' = replica c /\ (r = Ok tt -> committed c' = after) /\
  (committed c' = committed c \/ committed c' = after) /\
  sql_select (live_file ns g n) after = [].
Proof.
  intros Ho Hr. destruct (finish_spec (delete_file ns g n) _ _ _ _ Ho Hr) as (Hf & Hre & _).
  assert (forall u d', p_map_err store_Error (p_void (sql_update (of_key ns g n) set_file_deleted))
    (tx_now c) (work c) = Ok (u, d') ->
    d' = set_tbl (change (of_key ns g n) (set_file_deleted 0) (tbl (work c))) (work c)) as Hd.
  { intros u d'. rewrite p_map_err_Ok, p_void_Ok. by intros (k & [-> _]%update_Ok_inv). }
  intros after. split; [done|]. split; [intros ->; by eapply Hd|]. split.
  - destruct r as [[]|e|w]; simpl in Hf; [right; by eapply Hd|destruct Hf as [->|[u Hf]]|by left];
      [by left|right; by eapply Hd].
  - unfold sql_select, after. rewrite tbl_set. apply keep_nil_iff. intros r0 (y & _ & ->)%elem_of_change.
    destruct (of_key ns g n y) eqn:E; unfold live_file; [by rewrite andb_false_r|by rewrite E].
Qed.

(** C23: what [CreateConfigFileTx] stored is what [GetConfigFile] returns: every
    field, the metadata, and the transaction's time rounded to the second
    (clock between 1970 and 2096). *)
Theorem Create_GetConfigFile x c c1 :
  reliable -> txst c = TxOpen -> 0 <= round_seconds (tx_now c) < 4000000000000000 ->
  CreateConfigFileTx (Some tt) x c = (Ok tt, c1) ->
  fst (GetConfigFile (Namespace x) (Group x) (Name x) c1) =
    Ok (Some (mkConfigFile (config_file_id_seq (x_config (work c))) (Name x) (Namespace x) (Group x)
      (Content x) (Comment x) (Format x) (unix_seconds (round_seconds (tx_now c))) (CreateBy x)
      (unix_seconds (round_seconds (tx_now c))) (ModifyBy x) (Metadata x))).
Proof.
  intros Hrel Ho Hnow Hr.
  destruct (finish_spec (create_file x) _ _ _ _ Ho Hr) as ([_ (Hd & Hdist & _ & Htags)]%p_create_file_Ok & _).
  set (new := new_file_row _ x (tx_now c)) in Hd.
  assert (sql_select (live_file (Namespace x) (Group x) (Name x)) (committed c1) = [new]) as Hsel.
  { apply (keep_unique clash); [done|rewrite Hd; apply elem_of_app; right; by left| |].
    - unfold live_file, of_key. simpl. by rewrite !str_eq_refl.
    - intros y z. unfold live_file, of_key, clash. simpl. unfold clash_config_file. intros. booleans.
      rewrite !str_eq_true in *. repeat match goal with E : _ = _ |- _ => rewrite E end.
      rewrite !str_eq_refl. apply orb_true_r. }
  unfold GetConfigFile. rewrite reading_reliable by done. set (c2 := tick _).
  unfold GetConfigFileTx, with_tx, map_err. unfold Bind at 1.
  erewrite tx_Query_reliable; [|done|done|exact (f_equal Ok Hsel)].
  unfold Bind at 1, lift, transferRows. erewrite fetch_rows_Ok; [|constructor; [by apply scan_new_file|constructor]].
  unfold loadFileTags, Bind, set_Metadata. erewrite tx_Query_reliable; [|done..]. cbn -[round_seconds tags_of keep].
  unfold tags_map in Htags. unfold sql_select. by rewrite Htags.
Qed.

(** A result set that breaks off is not noticed: the file is returned with the
    tags that came before. *)
Theorem loadFileTags_truncated file c n e :
  txst c = TxOpen -> fault_at (calls c) = Some (FailRows n e) ->
  fst (loadFileTags file c) = Ok (set_Metadata (tags_map (take n
    (sql_select (tags_of (Namespace file) (Group file) (Name file)) (work c)))) file).
Proof. intros Ho Hf. unfold loadFileTags, Bind, tx_Query. by rewrite Ho, Hf. Qed.

(** *** Queries *)

Definition wanted (filter : list (string * string)) : list bcond :=
  map (fun kv => let col := configFileStoreFieldMapping (fst kv) in
    if IsWildName (snd kv) then BLike col (ParseWildNameForSql (snd kv))
    else BEq col (ParseWildNameForSql (snd kv))) filter.

Lemma search_query_wanted filter cs args cs' args' :
  in_order 1 (cs, args, Z.of_nat (length args) + 1) -> search_query filter cs args = (cs', args') ->
  in_order 1 (cs', args', Z.of_nat (length args') + 1) /\
  map (fill args') cs' = map (fill args) cs ++ wanted filter.
Proof.
  revert cs args. induction filter as [|[k v] filter IH]; intros cs args Ho; simpl.
  { intros [= <- <-]. by rewrite app_nil_r. }
  set (n := Z.of_nat (length args) + 1) in *. set (col := configFileStoreFieldMapping k) in *.
  set (cd := if IsWildName v then CLike col n else CEq col n).
  set (a := AStr (ParseWildNameForSql v)). intros Hs.
  assert (in_order 1 (cs ++ [cd], args ++ [a], Z.of_nat (length (args ++ [a])) + 1)) as Ho'.
  { eapply in_order_app; [exact Ho|]. split; [unfold cd; by destruct (IsWildName v)|].
    rewrite length_app. unfold n. simpl. lia. }
  destruct (IH _ _ Ho' Hs) as [Hi Hf]. split; [done|]. rewrite Hf, map_app, <- app_assoc.
  rewrite (fill_all_app _ _ _ _ Ho). f_equal. unfold wanted. simpl. fold col. f_equal.
  assert (arg_at (args ++ [a]) n = a) as Hn by (apply arg_at_last; unfold n; lia).
  unfold cd. destruct (IsWildName v); simpl; by rewrite Hn.
Qed.

Definition with_tags (d : database) (file : ConfigFile) : ConfigFile :=
  set_Metadata (tags_map (sql_select (tags_of (Namespace file) (Group file) (Name file)) d)) file.

Lemma load_all_reliable files c : reliable -> txst c = TxOpen ->
  fst (load_all files c) = Ok (map (with_tags (work c)) files).
Proof.
  intros Hr. revert c. induction files as [|f files IH]; intros c Ho; [done|]. simpl.
  unfold Bind at 1. unfold loadFileTags at 1. unfold Bind at 1.
  erewrite tx_Query_reliable; [|done..]. unfold Ret at 1.
  set (c1 := set_work (work c) (tick c)). specialize (IH c1 Ho). unfold Bind.
  destruct (load_all files c1) as [[l|e|w] c2]; simplify_eq/=. done.
Qed.

(** [QueryConfigFiles] without faults, when the rows selected can be
    scanned: the number of live files that satisfy every condition of the
    filter, and the page of them by descending id; the tags are those of the
    replica, whatever the master holds. *)
Theorem QueryConfigFiles_correct filter offset limit c l out : reliable ->
  where_rows cf_cols (wanted (range_map filter)) (sql_select cf_live (committed c)) = Ok l ->
  Forall2 (fun r f => scan_file r = Ok f) (page cf_id offset limit l) out ->
  fst (QueryConfigFiles filter offset limit c) =
    Ok (Z.of_nat (length l), map (with_tags (replica c)) out).
Proof.
  intros Hr Hl Hs. unfold QueryConfigFiles.
  destruct (search_query (range_map filter) [] []) as [cs args] eqn:E.
  destruct (search_query_wanted _ _ _ _ _ (in_order_nil 1) E) as [Ho Hw]. simpl in Hw.
  unfold QueryRow, map_err. unfold Bind at 1. erewrite Query_then; [|done|].
  2:{ by rewrite (where_select_count _ _ _ _ _ _ Ho), Hw, Hl. }
  unfold lift at 1, first_row at 1, r_err, r_data. unfold Bind at 1. cbv beta iota.
  erewrite Query_reliable; [|done|].
  2:{ change (committed (tick c)) with (committed c).
      by rewrite (where_select_paged _ _ _ _ _ _ _ _ Ho), Hw, Hl. }
  unfold Bind at 1, lift, transferRows. erewrite fetch_rows_Ok by exact Hs.
  unfold Bind, on_slave, processWithTransaction, Bind. rewrite Begin_reliable by done.
  unfold defer_rollback. set (c1 := tick (open_tx _ _)).
  pose proof (load_all_reliable out c1 Hr eq_refl) as Hall.
  destruct (load_all out c1) as [[fs|e|w] c2]; simplify_eq/=. done.
Qed.

(** The column is called [`group`] in the generated text, which PostgreSQL
    does not know: every query with a condition on the group fails. *)
Theorem QueryConfigFiles_group_refused filter g offset limit c : reliable ->
  filter !! "group"%string = Some g -> is_Ok (fst (QueryConfigFiles filter offset limit c)) = false.
Proof.
  intros Hr Hg. unfold QueryConfigFiles.
  destruct (search_query (range_map filter) [] []) as [cs args] eqn:E.
  destruct (search_query_wanted _ _ _ _ _ (in_order_nil 1) E) as [Ho Hw]. simpl in Hw.
  assert (forall d, is_Ok (where_rows cf_cols (wanted (range_map filter)) (sql_select cf_live d)) = false) as Hno.
  { intros d. apply not_true_iff_false. intros Hok.
    destruct (where_rows _ _ _) as [l|e|w] eqn:El; [|done..]. unfold where_rows in El. res_steps.
    assert (("group"%string, g) ∈ range_map filter) as Hin.
    { by rewrite (range_map_perm filter), elem_of_map_to_list. }
    match goal with E : all_ok _ _ = Ok _ |- _ => rename E into Hall end.
    assert (is_Ok (cond_pred cf_cols (if IsWildName g then BLike "`group`" (ParseWildNameForSql g)
      else BEq "`group`" (ParseWildNameForSql g))) = true) as Hb; [|by destruct (IsWildName g)].
    eapply all_ok_elem; [exact Hall|]. unfold wanted. apply list_elem_of_In, in_map_iff.
    exists ("group"%string, g). split; [done|]. by apply list_elem_of_In. }
  unfold QueryRow, map_err. unfold Bind at 1.
  destruct (Bind (Query committed _) _ c) as [r c1] eqn:Eq.
  destruct r as [a|e|w]; [|done..]. exfalso.
  apply Query_fetch_Ok in Eq as (_ & now & rs & Hsel & _); [|apply _|apply first_row_err_checking].
  rewrite (where_select_count _ _ _ _ _ _ Ho), Hw in Hsel. res_steps.
  match goal with E : where_rows _ _ _ = Ok _ |- _ => pose proof (Hno (committed c)) as Hx; by rewrite E in Hx end.
Qed.
End config_file_properties.
