(* ===== verification/ConfigGroup.v ===== *)
(** * Configuration file groups (store/postgresql/config_file_group.go)

    [configFileGroupStore]: groups keyed by namespace and name.  Creation
    removes a row marked deleted, inserts the new one in the same transaction
    and reads the group back; update and deletion are single statements. *)
From stdpp Require Import base list strings gmap.
From Stdlib Require Import ZArith Lia.
From S2P Require Import Prelude Driver Rows Schema Sql Common ConfigFile.
Open Scope Z_scope.
Open Scope store_scope.

(** [model.ConfigFileGroup], the fields the store touches; times in seconds. *)
Record ConfigFileGroup := mkConfigFileGroup {
  Id : Z; Name : string; Namespace : string; Comment : string; Owner : string; Business : string;
  Department : string; Metadata : gmap string string; CreateTime : Z; CreateBy : string;
  ModifyTime : Z; ModifyBy : string; Valid : bool }.

(** The sequence of the ids. *)
Definition group_nextval : P database Z := fun _ d =>
  let k := x_config d in
  Ok (config_file_group_id_seq k, set_config (ConfigTables (t_config_file k) (t_config_file_tag k)
    (t_config_file_group k) (t_config_file_template k) (t_config_file_release_history k)
    (config_file_id_seq k) (config_file_tag_id_seq k) (config_file_group_id_seq k + 1)
    (config_file_template_id_seq k) (config_file_release_history_id_seq k)) d).

(** The microsecond of [time.Unix(0, 1)], for a program in UTC. *)
Definition unix_0_1 : Z := 0.

Section config_group.
Context `{Env} `{PolarisApi} `{Strconv}.
Abbreviation M := (M database).
Abbreviation P := (P database).

Definition of_group (namespace name : string) (r : config_file_group_row) : bool :=
  str_eq (cfg_namespace r) namespace && str_eq (cfg_name r) name.
Definition group_dead (namespace name : string) (r : config_file_group_row) : bool :=
  (cfg_flag r =? 1) && of_group namespace name r.
Definition group_live (namespace name : string) (r : config_file_group_row) : bool :=
  of_group namespace name r && (cfg_flag r =? 0).

Definition new_group_row (id : Z) (g : ConfigFileGroup) (now : Z) : config_file_group_row :=
  ConfigFileGroupRow id (Name g) (Namespace g) (Some (Comment g)) (Some (Owner g)) now (Some (CreateBy g))
    now (Some (ModifyBy g)) (Some (Business g)) (Some (Department g)) (Some (MustJson_map (Metadata g))) 0.

Definition insert_group (g : ConfigFileGroup) : P unit :=
  p_bind group_nextval (fun id => p_void (sql_insert (fun now => [new_group_row id g now]))).

(** [transferRows] *)
Definition scan_group (r : config_file_group_row) : res ConfigFileGroup :=
  match ParseFloat (epoch_text (cfg_create_time r)) with
  | Err e => Err (errorf "failed to parse create_time" e)
  | Panic w => Panic w
  | Ok ctime =>
  match ParseFloat (epoch_text (cfg_modify_time r)) with
  | Err e => Err (errorf "failed to parse modify_time" e)
  | Panic w => Panic w
  | Ok mtime =>
      metadata <-? Unmarshal_map (default "{}" (cfg_metadata r)) ;;
      Ok (mkConfigFileGroup (cfg_id r) (cfg_name r) (cfg_namespace r) (default "" (cfg_comment r))
            (default "" (cfg_owner r)) (default "" (cfg_business r)) (default "" (cfg_department r))
            metadata ctime (default "" (cfg_create_by r)) mtime (default "" (cfg_modify_by r))
            (cfg_flag r =? 0))
  end end.

Definition transferRows (rs : rows config_file_group_row) : res (list ConfigFileGroup) :=
  fetch_rows scan_group rs.

(** [GetConfigFileGroup] *)
Definition GetConfigFileGroup (namespace name : string) : M (option ConfigFileGroup) :=
  rs <- map_err store_Error (Query committed (fun _ d => Ok (sql_select (group_live namespace name) d))) ;;
  cfgs <- lift (transferRows rs) ;;
  Ret (head cfgs).

(** [CreateConfigFileGroup]: one attempt. *)
Definition create_group (fileGroup : ConfigFileGroup) : M unit :=
  map_err store_Error (void (tx_Exec (sql_delete (group_dead (Namespace fileGroup) (Name fileGroup))))) ;;;
  map_err store_Error (tx_Exec (insert_group fileGroup)).

Definition CreateConfigFileGroup (fileGroup : ConfigFileGroup) : M (option ConfigFileGroup) :=
  map_err store_Error (processWithTransaction (then_commit (create_group fileGroup))) ;;;
  GetConfigFileGroup (Namespace fileGroup) (Name fileGroup).

Definition set_group (g : ConfigFileGroup) (now : Z) (r : config_file_group_row) : config_file_group_row :=
  ConfigFileGroupRow (cfg_id r) (cfg_name r) (cfg_namespace r) (Some (Comment g)) (cfg_owner r)
    (cfg_create_time r) (cfg_create_by r) now (Some (ModifyBy g)) (Some (Business g)) (Some (Department g))
    (Some (MustJson_map (Metadata g))) (cfg_flag r).

(** [UpdateConfigFileGroup] *)
Definition UpdateConfigFileGroup (fileGroup : ConfigFileGroup) : M unit :=
  map_err store_Error (void (Exec (sql_update (of_group (Namespace fileGroup) (Name fileGroup)) (set_group fileGroup)))).

Definition set_group_deleted (_ : Z) (r : config_file_group_row) : config_file_group_row :=
  ConfigFileGroupRow (cfg_id r) (cfg_name r) (cfg_namespace r) (cfg_comment r) (cfg_owner r)
    (cfg_create_time r) (cfg_create_by r) (cfg_modify_time r) (cfg_modify_by r) (cfg_business r)
    (cfg_department r) (cfg_metadata r) 1.

(** [DeleteConfigFileGroup] leaves modify_time alone. *)
Definition DeleteConfigFileGroup (namespace name : string) : M unit :=
  void (Exec (sql_update (of_group namespace name) set_group_deleted)).

(** [GetMoreConfigGroup] *)
Definition GetMoreConfigGroup (firstUpdate : bool) (mtime : Z) : M (list ConfigFileGroup) :=
  let mtime := if firstUpdate then unix_0_1 else mtime in
  rs <- Query replica (fun _ d => Ok (sql_select (fun r => mtime <=? cfg_modify_time r) d)) ;;
  lift (transferRows rs).

(** [CountConfigGroups] *)
Definition CountConfigGroups (namespace : string) : M Z :=
  map_err store_Error (QueryRow committed (fun _ d => Ok [Z.of_nat (count_rows (fun r =>
    (cfg_flag r =? 0) && str_eq (cfg_namespace r) namespace) d)])).
End config_group.

(** ** Properties *)

Section config_group_properties.
Context `{Env} `{PolarisApi} `{Strconv}.
Implicit Types (c : conn database) (x : ConfigFileGroup).

Definition p_create_group x : P database unit :=
  p_bind (p_map_err store_Error (p_void (sql_delete (group_dead (Namespace x) (Name x))))) (fun _ =>
  p_map_err store_Error (insert_group x)).

#[export] Instance impl_create_group x : Implements (create_group x) (p_create_group x).
Proof. unfold create_group, p_create_group. apply _. Qed.

(** What one effective creation does. *)
Definition group_created x (now : Z) (d d' : database) : Prop :=
  let kept := keep (fun r => negb (group_dead (Namespace x) (Name x) r)) (tbl d) in
  let new := new_group_row (config_file_group_id_seq (x_config d)) x now in
  tbl d' = kept ++ [new] /\ distinct clash (kept ++ [new]) = true.

Lemma p_create_group_Ok x now d u d' : p_create_group x now d = Ok (u, d') -> group_created x now d d'.
Proof.
  intros ([] & d1 & Hdel & Hins)%p_bind_Ok. rewrite p_map_err_Ok, p_void_Ok in Hdel.
  destruct Hdel as (k & [= _ <-]). rewrite p_map_err_Ok in Hins.
  apply p_bind_Ok in Hins as (id & d2 & [= <- <-] & Hins).
  apply p_void_Ok in Hins as (n & [-> Hdist]%insert_Ok_inv). unfold group_created. by rewrite tbl_set.
Qed.

Lemma group_key_clash ns n (a b : config_file_group_row) :
  of_group ns n a = true -> of_group ns n b = true -> clash a b = true.
Proof.
  unfold of_group, clash. simpl. unfold clash_config_file_group. intros. booleans.
  rewrite !str_eq_true in *. repeat match goal with E : _ = _ |- _ => rewrite E end.
  rewrite !str_eq_refl. apply orb_true_r.
Qed.

#[export] Instance read_GetConfigFileGroup ns n : ReadOnly (GetConfigFileGroup ns n).
Proof. unfold GetConfigFileGroup. apply _. Qed.

(** [CreateConfigFileGroup] stores the group in place of a deleted one of the
    same key, or changes nothing; while a live group has the key it fails. *)
Theorem CreateConfigFileGroup_correct x c r c' : CreateConfigFileGroup x c = (r, c') ->
  replica c' = replica c /\
  (is_Ok r = true -> exists now, group_created x now (committed c) (committed c')) /\
  (committed c' = committed c \/ exists now, group_created x now (committed c) (committed c')) /\
  ((exists old, old ∈ tbl (committed c) /\ group_live (Namespace x) (Name x) old = true) ->
     committed c' = committed c /\ is_Ok r = false).
Proof.
  unfold CreateConfigFileGroup, Bind, map_err. intros Hr.
  destruct (processWithTransaction _ c) as [r1 c1] eqn:E.
  destruct (process_spec (create_group x) (p_create_group x) _ _ _ E) as [Ho Hre].
  assert (replica c' = replica c1 /\ committed c' = committed c1) as [Hre' Hco].
  { destruct r1; [|by simplify_eq..]. by apply read_GetConfigFileGroup in Hr as [? ?]. }
  rewrite Hre', Hco.
  assert (forall now u d', p_create_group x now (committed c) = Ok (u, d') ->
    ~ exists old, old ∈ tbl (committed c) /\ group_live (Namespace x) (Name x) old = true) as Hlive.
  { intros now u d' [_ Hd]%p_create_group_Ok (old & Hold & Hl). apply distinct_app in Hd as (_ & _ & Hd).
    unfold group_live in Hl. booleans.
    assert (clash old (new_group_row (config_file_group_id_seq (x_config (committed c))) x now) = false) as Hc.
    { apply Hd; [|by left]. apply elem_of_keep. split; [done|]. unfold group_dead.
      match goal with E : (cfg_flag old =? 0) = true |- _ => apply Z.eqb_eq in E; by rewrite E end. }
    rewrite (group_key_clash (Namespace x) (Name x)) in Hc; [done|done|].
    unfold of_group. simpl. by rewrite !str_eq_refl. }
  split; [done|]. destruct r1 as [u|e|w]; simpl in Ho; simplify_eq; simpl.
  - destruct Ho as [now Hp]. pose proof (p_create_group_Ok _ _ _ _ _ Hp) as Hg.
    split; [by eexists|]. split; [right; by eexists|]. intros Hl. by destruct (Hlive _ _ _ Hp).
  - split; [done|]. destruct Ho as [Ho|(now & u & Hp)]; [by auto|].
    split; [right; exists now; by eapply p_create_group_Ok|]. intros Hl. by destruct (Hlive _ _ _ Hp).
  - split; [done|]. split; [by left|]. by intros _.
Qed.

(** Without faults a successful [CreateConfigFileGroup] returns the group as
    stored: every field, the metadata, live, stamped with the transaction's
    time to the second (clock between 1970 and 2096, JSON round trip). *)
Theorem CreateConfigFileGroup_roundtrip x c o c' :
  reliable -> 0 <= current_timestamp c < 4000000000000000 ->
  Unmarshal_map (MustJson_map (Metadata x)) = Ok (Metadata x) ->
  CreateConfigFileGroup x c = (Ok o, c') ->
  o = Some (mkConfigFileGroup (config_file_group_id_seq (x_config (committed c))) (Name x) (Namespace x)
    (Comment x) (Owner x) (Business x) (Department x) (Metadata x) (unix_seconds (current_timestamp c))
    (CreateBy x) (unix_seconds (current_timestamp c)) (ModifyBy x) true).
Proof.
  intros Hrel Hnow Hj Hr. unfold CreateConfigFileGroup, map_err in Hr.
  apply Bind_Ok in Hr as (u & c1 & Hp & Hget). destruct (processWithTransaction _ c) as [[a|e|w] c2] eqn:E; simplify_eq.
  apply (process_reliable_Ok (create_group x) (p_create_group x)) in E as [Hp _]; [|done].
  apply p_create_group_Ok in Hp as [Hd Hdist]. set (new := new_group_row _ x _) in *.
  assert (sql_select (group_live (Namespace x) (Name x)) (committed c1) = [new]) as Hsel.
  { unfold sql_select. apply (keep_unique clash); [by rewrite Hd|rewrite Hd; apply elem_of_app; right; by left| |].
    - unfold group_live, of_group. simpl. by rewrite !str_eq_refl.
    - unfold group_live. intros y z [Hy _]%andb_true_iff [Hz _]%andb_true_iff. by eapply group_key_clash. }
  unfold GetConfigFileGroup, map_err in Hget. unfold Bind at 1 in Hget.
  erewrite Query_reliable in Hget; [|done|exact (f_equal Ok Hsel)]. unfold Bind, lift, transferRows in Hget.
  assert (scan_group new = Ok (mkConfigFileGroup (config_file_group_id_seq (x_config (committed c))) (Name x)
    (Namespace x) (Comment x) (Owner x) (Business x) (Department x) (Metadata x)
    (unix_seconds (current_timestamp c)) (CreateBy x) (unix_seconds (current_timestamp c)) (ModifyBy x) true)) as Hs.
  { unfold scan_group. cbn -[epoch_text current_timestamp]. rewrite !ParseFloat_epoch by done. by rewrite Hj. }
  rewrite (fetch_rows_one _ _ _ Hs) in Hget.
  injection Hget as <- _. done.
Qed.

(** [UpdateConfigFileGroup] and [DeleteConfigFileGroup] change the rows of the
    key only; repetitions do not show. *)
Theorem UpdateConfigFileGroup_correct x c r c' :
  db_wf (committed c) -> UpdateConfigFileGroup x c = (r, c') ->
  db_wf (committed c') /\ replica c' = replica c /\
  (r = Ok tt -> updated (of_group (Namespace x) (Name x)) (set_group x) (committed c) (committed c')) /\
  (committed c' = committed c \/ updated (of_group (Namespace x) (Name x)) (set_group x) (committed c) (committed c')).
Proof.
  intros Hd Hr. eapply (refines_map_err store_Error) in Hr as [Ho Hre]; [|apply _].
  apply update_row_outcome in Ho as (Hd' & Hok & Hor); auto.
Qed.

Theorem DeleteConfigFileGroup_correct ns n c r c' :
  db_wf (committed c) -> DeleteConfigFileGroup ns n c = (r, c') ->
  db_wf (committed c') /\ replica c' = replica c /\
  (r = Ok tt -> updated (of_group ns n) set_group_deleted (committed c) (committed c')) /\
  (committed c' = committed c \/ updated (of_group ns n) set_group_deleted (committed c) (committed c')).
Proof.
  intros Hd Hr. eapply refines_void in Hr as [Ho Hre]; [|apply _].
  apply update_row_outcome in Ho as (Hd' & Hok & Hor); auto.
Qed.

(** The cache does not learn of a deletion: the flag is set without touching
    modify_time, so an incremental read from an instant after the last change
    of the group never returns it, whatever the replica has caught up with. *)
Theorem DeleteConfigFileGroup_unseen ns n c c1 mtime c2 l c3 :
  db_wf (committed c) -> DeleteConfigFileGroup ns n c = (Ok tt, c1) ->
  (forall r : config_file_group_row, r ∈ tbl (committed c) -> of_group ns n r = true -> cfg_modify_time r < mtime) ->
  replica c2 = committed c1 -> GetMoreConfigGroup false mtime c2 = (Ok l, c3) ->
  forall g, g ∈ l -> ~ (Namespace g = ns /\ Name g = n).
Proof.
  intros Hd Hdel Hold Hrep Hr g Hg Hk.
  apply DeleteConfigFileGroup_correct in Hdel as (_ & _ & Hu & _); [|done].
  destruct (Hu eq_refl) as [now Hc1]. unfold GetMoreConfigGroup in Hr.
  apply Query_fetch_Ok in Hr as (_ & t & rs & [= <-] & Hf); [|apply _|apply fetch_rows_err_checking].
  unfold transferRows, fetch_rows in Hf. apply res_bind_Ok in Hf as (out & Hf & [= ->]).
  apply scan_all_Ok in Hf. eapply Forall2_elem_r in Hg as (row & Hrow & Hs); [|exact Hf].
  apply elem_of_keep in Hrow as [Hin Hm%Z.leb_le]. rewrite Hrep, Hc1, tbl_set in Hin.
  apply elem_of_change in Hin as (r0 & Hr0 & ->). unfold scan_group in Hs.
  destruct (of_group ns n r0) eqn:E; [specialize (Hold _ Hr0 E); simpl in Hm; lia|].
  repeat (case_match; [|done..]). res_steps. injection Hs as <-. destruct Hk as [<- <-]. simpl in E.
  unfold of_group in E. by rewrite !str_eq_refl in E.
Qed.
End config_group_properties.
