(* ===== verification/ConfigTemplate.v ===== *)
(** * Configuration file templates (store/postgresql/config_file_template.go)

    [configFileTemplateStore]: templates keyed by name, inserted by one
    prepared statement on the pool, without retry, and read back by name. *)
From stdpp Require Import base list strings sorting.
From Stdlib Require Import ZArith Lia.
From S2P Require Import Prelude Driver Rows Schema Common Where.
Open Scope Z_scope.
Open Scope store_scope.

(** [model.ConfigFileTemplate], the fields the store touches; times in
    microseconds. *)
Record ConfigFileTemplate := mkConfigFileTemplate {
  Id : Z; Name : string; Content : string; Comment : string; Format : string;
  CreateTime : Z; CreateBy : string; ModifyTime : Z; ModifyBy : string }.

(** The identity column. *)
Definition template_nextval : P database Z := fun _ d =>
  let k := x_config d in
  Ok (config_file_template_id_seq k, set_config (ConfigTables (t_config_file k) (t_config_file_tag k)
    (t_config_file_group k) (t_config_file_template k) (t_config_file_release_history k)
    (config_file_id_seq k) (config_file_tag_id_seq k) (config_file_group_id_seq k)
    (config_file_template_id_seq k + 1) (config_file_release_history_id_seq k)) d).

Section template.
Context `{Env} `{PolarisApi}.
Abbreviation M := (M database).
Abbreviation P := (P database).

Definition new_template_row (id : Z) (t : ConfigFileTemplate) (now : Z) : config_file_template_row :=
  ConfigFileTemplateRow id (Name t) (Content t) (Some (Format t)) (Some (Comment t)) now
    (Some (CreateBy t)) now (Some (ModifyBy t)).

Definition insert_template (t : ConfigFileTemplate) : P Z :=
  p_bind template_nextval (fun id => sql_insert (fun now => [new_template_row id t now])).

(** [transferRows]: the nullable columns are scanned into strings. *)
Definition scan_template (r : config_file_template_row) : res ConfigFileTemplate :=
  comment <-? scan_string (tpl_comment r) ;;
  format <-? scan_string (tpl_format r) ;;
  create_by <-? scan_string (tpl_create_by r) ;;
  modify_by <-? scan_string (tpl_modify_by r) ;;
  Ok (mkConfigFileTemplate (tpl_id r) (tpl_name r) (tpl_content r) comment format (tpl_create_time r)
        create_by (tpl_modify_time r) modify_by).

Definition transferRows (rs : rows config_file_template_row) : res (list ConfigFileTemplate) :=
  fetch_rows scan_template rs.

Definition template_named (name : string) (r : config_file_template_row) : bool := str_eq (tpl_name r) name.

(** [GetConfigFileTemplate] *)
Definition GetConfigFileTemplate (name : string) : M (option ConfigFileTemplate) :=
  rs <- map_err store_Error (Query committed (fun _ d => Ok (sql_select (template_named name) d))) ;;
  templates <- lift (transferRows rs) ;;
  Ret (head templates).

(** [CreateConfigFileTemplate] *)
Definition CreateConfigFileTemplate (template : ConfigFileTemplate) : M (option ConfigFileTemplate) :=
  map_err store_Error DB_Prepare ;;;
  map_err store_Error (DB_Exec (insert_template template)) ;;;
  GetConfigFileTemplate (Name template).

(** ORDER BY id DESC *)
Definition by_id_desc (l : list config_file_template_row) : list config_file_template_row :=
  merge_sort (desc tpl_id) l.

(** [QueryAllConfigFileTemplates] *)
Definition QueryAllConfigFileTemplates : M (list ConfigFileTemplate) :=
  rs <- map_err store_Error (Query committed (fun _ d => Ok (by_id_desc (tbl d)))) ;;
  lift (transferRows rs).
End template.

(** ** Properties *)

Section template_properties.
Context `{Env} `{PolarisApi}.
Implicit Types (c : conn database) (x : ConfigFileTemplate).

Definition template_created x (now : Z) (d d' : database) : Prop :=
  let new := new_template_row (config_file_template_id_seq (x_config d)) x now in
  tbl d' = tbl d ++ [new] /\ distinct clash (tbl d ++ [new]) = true.

Lemma insert_template_Ok x now d n d' : insert_template x now d = Ok (n, d') -> template_created x now d d'.
Proof.
  intros (id & d1 & [= <- <-] & [-> Hd]%insert_Ok_inv)%p_bind_Ok. unfold template_created.
  by rewrite tbl_set.
Qed.

Lemma template_clash x now id r : template_named (Name x) r = true -> clash r (new_template_row id x now) = true.
Proof. intros Hn. unfold clash. simpl. unfold clash_config_file_template. simpl. unfold template_named in Hn. by rewrite Hn, orb_true_r. Qed.

(** The row a stored template is read as. *)
Definition template_shown x (id now : Z) : ConfigFileTemplate :=
  mkConfigFileTemplate id (Name x) (Content x) (Comment x) (Format x) now (CreateBy x) now (ModifyBy x).

(** [CreateConfigFileTemplate] stores one row, or nothing; an error may follow
    a stored row, when the reply or the read back was lost.  A name in use is
    refused.  Without faults it returns the template with its new id and the
    time of the server. *)
Theorem CreateConfigFileTemplate_correct x c r c' : CreateConfigFileTemplate x c = (r, c') ->
  replica c' = replica c /\
  (is_Ok r = true -> exists now, template_created x now (committed c) (committed c')) /\
  (committed c' = committed c \/ exists now, template_created x now (committed c) (committed c')) /\
  ((exists old, old ∈ tbl (committed c) /\ template_named (Name x) old = true) ->
     committed c' = committed c /\ is_Ok r = false) /\
  (reliable -> is_Ok r = true -> exists now, r =
     Ok (Some (template_shown x (config_file_template_id_seq (x_config (committed c))) now))).
Proof.
  intros Hr.
  assert (forall now n d', insert_template x now (committed c) = Ok (n, d') ->
    ~ exists old, old ∈ tbl (committed c) /\ template_named (Name x) old = true) as Hfree.
  { intros now n d' [_ Hd]%insert_template_Ok (old & Hold & Hl). apply distinct_app in Hd as (_ & _ & Hd).
    specialize (Hd old _ Hold (list_elem_of_here _ _)). by rewrite template_clash in Hd. }
  unfold CreateConfigFileTemplate in Hr. unfold Bind at 1, map_err at 1, DB_Prepare in Hr.
  destruct (fault_at (calls c)); [simplify_eq; split_and!; auto; done|].
  unfold Bind at 1, map_err at 1 in Hr. destruct (DB_Exec _ _) as [r1 c1] eqn:E.
  apply DB_Exec_spec in E as [Ho Hre]. simpl in Ho, Hre.
  destruct r1 as [n|e|w]; simplify_eq; simpl in Ho.
  - destruct Ho as [now Hp]. pose proof (insert_template_Ok _ _ _ _ _ Hp) as Hg.
    assert (ReadOnly (GetConfigFileTemplate (Name x))) as Hro by (unfold GetConfigFileTemplate; apply _).
    destruct (Hro _ _ _ Hr) as [Hc Hre']. rewrite Hc, Hre'. split; [done|]. split; [by eexists|].
    split; [right; by eexists|]. split; [intros Hl; by destruct (Hfree _ _ _ Hp)|].
    intros Hrel _. exists now. destruct Hg as [Ht Hd]. set (new := new_template_row _ x now) in *.
    assert (sql_select (template_named (Name x)) (committed c1) = [new]) as Hsel.
    { unfold sql_select. rewrite Ht. apply (keep_unique clash); [done|apply elem_of_app; right; by left|apply str_eq_refl|].
      unfold template_named. intros y z Hy%str_eq_true Hz%str_eq_true. unfold clash. simpl.
      unfold clash_config_file_template. by rewrite Hy, Hz, str_eq_refl, orb_true_r. }
    unfold GetConfigFileTemplate, map_err in Hr. unfold Bind at 1 in Hr.
    erewrite Query_reliable in Hr; [|done|exact (f_equal Ok Hsel)]. unfold Bind, lift, transferRows in Hr.
    erewrite fetch_rows_one in Hr by reflexivity. by injection Hr as <- _.
  - split; [done|]. split; [done|]. destruct Ho as [Ho|(now & n & Hp)].
    + split; [by left|]. split; [by intros _|done].
    + split; [right; exists now; by eapply insert_template_Ok|]. split; [|done].
      intros Hl. by destruct (Hfree _ _ _ Hp).
  - split; [done|]. split; [done|]. split; [by left|]. split; [by intros _|done].
Qed.
End template_properties.
