(* ===== verification/ConfigHistory.v ===== *)
(** * Release history (store/postgresql/config_file_release_history.go)

    [configFileReleaseHistoryStore].  The INSERT has eighteen placeholders and
    sixteen arguments, the cleaning statement uses LIMIT in a DELETE, and the
    query parses timestamps as numbers: none of the three can succeed, except
    a query that selects no row. *)
From stdpp Require Import base list strings gmap sorting.
From Stdlib Require Import ZArith Lia Ascii.
From S2P Require Import Prelude Driver Rows Schema Sql Common Where ConfigRelease.
Open Scope Z_scope.
Open Scope store_scope.

(** [model.ConfigFileReleaseHistory], the fields the store touches. *)
Record ConfigFileReleaseHistory := mkHistory {
  Id : Z; Name : string; Namespace : string; Group : string; FileName : string; Format : string;
  Metadata : gmap string string; Content : string; Comment : string; Md5 : string; Version : Z;
  Type_ : string; Status : string; CreateTime : Z; CreateBy : string; ModifyTime : Z; ModifyBy : string;
  Reason : string; ReleaseDescription : string }.

(** [strconv.ParseUint(s, 10, 64)] with its error ignored: zero after a syntax
    error, the largest uint64 after an overflow. *)
Fixpoint parse_uint_loop (n : Z) (s : string) : Z :=
  match s with
  | EmptyString => n
  | String ch s' =>
      let k := Z.of_nat (nat_of_ascii ch) in
      if (48 <=? k) && (k <=? 57) then
        let n := 10 * n + (k - 48) in
        if 2 ^ 64 <=? n then 2 ^ 64 - 1 else parse_uint_loop n s'
      else 0
  end.
Definition ParseUint (s : string) : Z := if str_empty s then 0 else parse_uint_loop 0 s.

Section history.
Context `{Env} `{PolarisApi} `{Strconv} `{PgInput}.
Abbreviation M := (M database).
Abbreviation P := (P database).

(** ** Writing *)

Definition history_nextval : P Z := fun _ d =>
  let k := x_config d in
  Ok (config_file_release_history_id_seq k, set_config (ConfigTables (t_config_file k) (t_config_file_tag k)
    (t_config_file_group k) (t_config_file_template k) (t_config_file_release_history k)
    (config_file_id_seq k) (config_file_tag_id_seq k) (config_file_group_id_seq k)
    (config_file_template_id_seq k) (config_file_release_history_id_seq k + 1)) d).

Definition history_args (h : ConfigFileReleaseHistory) : list arg :=
  [AStr (Name h); AStr (Namespace h); AStr (Group h); AStr (FileName h); AStr (Content h); AStr (Comment h);
   AStr (Md5 h); AStr (Type_ h); AStr (Status h); AStr (Format h); AStr (MustJson_map (Metadata h));
   AStr (CreateBy h); AStr (ModifyBy h); AInt (Version h); AStr (Reason h); AStr (ReleaseDescription h)].

(** The row of the eighteen values in the order of the columns. *)
Definition history_row (id : Z) (args : list arg) : res config_file_release_history_row :=
  let s n := arg_text (arg_at args n) in
  ctime <-? pg_timestamp (s 12) ;;
  mtime <-? pg_timestamp (s 14) ;;
  version <-? pg_int (s 16) ;;
  Ok (ConfigFileReleaseHistoryRow id (Some (s 1)) (s 2) (s 3) (s 4) (s 5) (Some (s 10)) (Some (s 6)) (s 7)
        (s 8) (s 9) ctime (Some (s 13)) mtime (Some (s 15)) (Some (s 11)) (Some version) (Some (s 17)) (Some (s 18))).

Definition insert_history (args : list arg) : P Z :=
  p_bind history_nextval (fun id now d =>
    row <-? history_row id args ;; sql_insert (fun _ => [row]) now d).

(** The VALUES list of [CreateConfigFileReleaseHistory]. *)
Definition history_values : sql := placeholders_sql (seqZ 1 18).

Definition CreateConfigFileReleaseHistory (history : ConfigFileReleaseHistory) : M unit :=
  map_err store_Error DB_Prepare ;;;
  map_err store_Error (void (DB_Exec (fun now d =>
    if params_ok history_values (length (history_args history)) then insert_history (history_args history) now d
    else Err param_error))).

(** [CleanConfigFileReleaseHistory]: PostgreSQL has no DELETE ... LIMIT. *)
Definition CleanConfigFileReleaseHistory (endTime limit : Z) : M unit :=
  void (Exec (A:=Z) (fun _ _ => _ <-? uint64_arg limit ;; Err syntax_error)).

(** ** Reading *)

(** [transferRows]: a timestamp scanned into a string is its RFC 3339 text. *)
Definition scan_history (r : config_file_release_history_row) : res ConfigFileReleaseHistory :=
  name <-? scan_string (crh_name r) ;;
  comment <-? scan_string (crh_comment r) ;;
  format <-? scan_string (crh_format r) ;;
  tags <-? scan_string (crh_tags r) ;;
  create_by <-? scan_string (crh_create_by r) ;;
  modify_by <-? scan_string (crh_modify_by r) ;;
  reason <-? scan_string (crh_reason r) ;;
  description <-? scan_string (crh_description r) ;;
  version <-? (match crh_version r with
               | Some v => if 0 <=? v then Ok v else Err (EMsg "sql: Scan error: value out of range")
               | None => Err (EMsg "sql: Scan error: converting NULL to uint64 is unsupported") end) ;;
  match ParseFloat (RFC3339Nano (crh_create_time r)) with
  | Err e => Err (errorf "failed to parse create_time" e)
  | Panic w => Panic w
  | Ok ctime =>
  match ParseFloat (RFC3339Nano (crh_modify_time r)) with
  | Err e => Err (errorf "failed to parse modify_time" e)
  | Panic w => Panic w
  | Ok mtime =>
      Ok (mkHistory (crh_id r) name (crh_namespace r) (crh_group r) (crh_file_name r) format
            (match Unmarshal_map tags with Ok m => m | _ => ∅ end) (crh_content r) comment (crh_md5 r) version
            (crh_type r) (crh_status r) ctime create_by mtime modify_by reason description)
  end end.

Definition transferRows (rs : rows config_file_release_history_row) : res (list ConfigFileReleaseHistory) :=
  fetch_rows scan_history rs.

(** The conditions of [QueryConfigFileReleaseHistories], with their arguments
    and the next index; the column name group is quoted in the source. *)
Definition filter_value (filter : gmap string string) (key : string) : string := default "" (filter !! key).

Definition history_conds (filter : gmap string string) : sql * list arg * Z :=
  let namespace := filter_value filter "namespace" in
  let endId := ParseUint (filter_value filter "endId") in
  let '(str, queryParams, idx) :=
    if str_empty namespace then ([], [], 1) else ([T " namespace = "; Ph 1; T " AND "], [AStr namespace], 2) in
  let '(str, queryParams, idx) :=
    if 0 <? endId then (str ++ [T " id < "; Ph idx; T " AND "], queryParams ++ [AInt endId], idx + 1)
    else (str, queryParams, idx) in
  (str ++ [T "group like "; Ph idx; T " and file_name like "; Ph (idx + 1)],
   queryParams ++ [AStr ("%" +:+ filter_value filter "group" +:+ "%");
                   AStr ("%" +:+ filter_value filter "name" +:+ "%")], idx + 2).

(** What they select. *)
Definition history_where (filter : gmap string string) (r : config_file_release_history_row) : bool :=
  let namespace := filter_value filter "namespace" in
  let endId := ParseUint (filter_value filter "endId") in
  (str_empty namespace || str_eq (crh_namespace r) namespace) &&
  (negb (0 <? endId) || (crh_id r <? endId)) &&
  like ("%" +:+ filter_value filter "group" +:+ "%") (crh_group r) &&
  like ("%" +:+ filter_value filter "name" +:+ "%") (crh_file_name r).

(** The driver refuses an id beyond int64, the server wrong placeholders. *)
Definition history_select (filter : gmap string string) (tail : list Z) (extra : list arg) (d : database) :
    res (list config_file_release_history_row) :=
  let '(str, queryParams, _) := history_conds filter in
  _ <-? uint64_arg (ParseUint (filter_value filter "endId")) ;;
  if params_ok (str ++ placeholders_sql tail) (length (queryParams ++ extra))
  then Ok (sql_select (history_where filter) d) else Err param_error.

(** [QueryConfigFileReleaseHistories] *)
Definition QueryConfigFileReleaseHistories (filter : gmap string string) (offset limit : Z) :
    M (Z * list ConfigFileReleaseHistory) :=
  let '(_, _, idx) := history_conds filter in
  count <- QueryRow committed (fun _ d =>
             l <-? history_select filter [] [] d ;; Ok [Z.of_nat (length l)]) ;;
  rs <- Query committed (fun _ d =>
          l <-? history_select filter [idx; idx + 1] [AInt limit; AInt offset] d ;;
          Ok (page crh_id offset limit l)) ;;
  fileReleaseHistories <- lift (transferRows rs) ;;
  Ret (count, fileReleaseHistories).
End history.

(** ** Properties *)

Section history_properties.
Context `{Env} `{PolarisApi} `{Strconv} `{PgInput}.
Implicit Types c : conn database.

(** [CreateConfigFileReleaseHistory] never stores anything: there are two
    placeholders more than arguments. *)
Theorem CreateConfigFileReleaseHistory_fails h c r c' :
  CreateConfigFileReleaseHistory h c = (r, c') ->
  is_Ok r = false /\ committed c' = committed c /\ replica c' = replica c.
Proof.
  assert (params_ok history_values (length (history_args h)) = false) as Hp by reflexivity.
  unfold CreateConfigFileReleaseHistory. unfold Bind at 1, map_err at 1, DB_Prepare.
  destruct (fault_at (calls c)); [intros; by simplify_eq|]. rewrite Hp.
  unfold map_err, void, Bind. destruct (DB_Exec _ _) as [r1 c1] eqn:E.
  unfold DB_Exec in E. destruct (fault_at (calls (tick c))) as [[]|]; simplify_eq; intros; by simplify_eq.
Qed.

(** [CleanConfigFileReleaseHistory] never removes anything. *)
Theorem CleanConfigFileReleaseHistory_fails endTime limit c r c' :
  CleanConfigFileReleaseHistory endTime limit c = (r, c') ->
  is_Ok r = false /\ committed c' = committed c /\ replica c' = replica c.
Proof.
  intros Hr. eapply refines_void in Hr as [Ho Hre]; [|apply _].
  apply retried_outcome_stuck in Ho as [Hd Hok]; [done|]. intros now. unfold p_void, p_bind, uint64_arg.
  by destruct (limit <? 2 ^ 63).
Qed.

(** The placeholders of the two queries are right, whatever the filter. *)
Lemma history_conds_params filter :
  let '(str, queryParams, idx) := history_conds filter in
  params_ok (str ++ placeholders_sql []) (length (queryParams ++ [])) = true /\
  forall a b, params_ok (str ++ placeholders_sql [idx; idx + 1]) (length (queryParams ++ [a; b])) = true.
Proof.
  unfold history_conds. destruct (str_empty _), (0 <? _); (split; [reflexivity|intros; reflexivity]).
Qed.

Lemma history_select_Ok filter tail extra d l : history_select filter tail extra d = Ok l ->
  l = sql_select (history_where filter) d.
Proof.
  unfold history_select. destruct (history_conds filter) as [[str ps] idx]. intros Hl.
  apply res_bind_Ok in Hl as (u & _ & Hl). destruct (params_ok _ _); by simplify_eq.
Qed.

Lemma scan_history_fails r : is_Ok (scan_history r) = false.
Proof.
  apply not_true_iff_false. intros Hok. destruct (scan_history r) as [h|e|w] eqn:E; [|done..].
  unfold scan_history in E. res_steps.
  destruct (ParseFloat_colon _ (RFC3339Nano_colon (crh_create_time r))) as [msg Hm]. by rewrite Hm in E.
Qed.

(** [QueryConfigFileReleaseHistories] succeeds only with an empty page: the
    timestamps of a row are never numbers.  Without faults, and with an endId
    that fits int64, it then reports the number of matching rows. *)
Theorem QueryConfigFileReleaseHistories_empty filter offset limit c r c' :
  QueryConfigFileReleaseHistories filter offset limit c = (r, c') ->
  same_dbs c c' /\
  (forall n l, r = Ok (n, l) -> l = [] /\
     page crh_id offset limit (sql_select (history_where filter) (committed c)) = []) /\
  (reliable -> ParseUint (filter_value filter "endId") < 2 ^ 63 ->
     page crh_id offset limit (sql_select (history_where filter) (committed c)) = [] ->
     r = Ok (Z.of_nat (length (sql_select (history_where filter) (committed c))), [])).
Proof.
  unfold QueryConfigFileReleaseHistories. pose proof (history_conds_params filter) as Hp.
  destruct (history_conds filter) as [[str ps] idx] eqn:Ec. destruct Hp as [Hp0 Hp2]. intros Hr.
  split; [|split].
  - revert Hr. match goal with |- ?m c = _ -> _ => assert (ReadOnly m) as Hm by apply _ end. apply Hm.
  - intros n l ->. apply Bind_Ok in Hr as (count & c1 & Hc & Hr).
    apply QueryRow_frame in Hc as Hs.
    apply Query_fetch_then_Ok in Hr as (out & c2 & _ & Hret & now & rows & Hrows & Hf);
      [|apply _|apply fetch_rows_err_checking].
    apply res_bind_Ok in Hrows as (sel & ->%history_select_Ok & [= <-]). destruct Hs as [Hs _]. rewrite Hs in Hf.
    injection Hret as _ <- _. unfold transferRows, fetch_rows in Hf. simpl in Hf.
    apply res_bind_Ok in Hf as (out' & Hf & [= ->]). destruct (page _ _ _ _) as [|row rest]; simpl in Hf; [by simplify_eq|].
    pose proof (scan_history_fails row) as Hx. by destruct (scan_history row).
  - intros Hrel Hid He.
    assert (forall tail extra d, params_ok (str ++ placeholders_sql tail) (length (ps ++ extra)) = true ->
      history_select filter tail extra d = Ok (sql_select (history_where filter) d)) as Hsel.
    { intros tail extra d Hok. unfold history_select, uint64_arg. rewrite Ec, (proj2 (Z.ltb_lt _ _) Hid). simpl.
      by rewrite Hok. }
    unfold QueryRow in Hr. unfold Bind at 1 in Hr. erewrite Query_then in Hr; [|done|by rewrite Hsel].
    unfold lift at 1 in Hr. cbn [first_row r_err r_data] in Hr.
    erewrite Query_then in Hr; [|done|by rewrite Hsel].
    change (committed (tick c)) with (committed c) in Hr. rewrite He in Hr.
    unfold Bind, lift, Ret in Hr. by simplify_eq/=.
Qed.
End history_properties.
