(* ===== verification/Publish.v ===== *)
(** * Publishing: operations of several stores in one transaction

    The operations of the configuration stores that take a [store.Tx] are made
    to be composed: a file, its release and its gray resource are written in
    one transaction of the caller.  Each of them commits that transaction
    itself.  This file shows what becomes of the composition: a transaction
    carries at most one of them, whatever faults occur.  An operation that
    fails ends the transaction too, with one exception: an activation refused
    for its version leaves the transaction open with the releases it has
    deactivated, and the next operation commits those. *)
From stdpp Require Import base list strings gmap.
From Stdlib Require Import ZArith Lia.
From S2P Require Import Prelude Driver Rows Schema Sql Common Where Guards ConfigFile ConfigRelease Gray Store Transaction.
Open Scope Z_scope.
Open Scope store_scope.

(** ** Parts that leave the decision to the caller *)

(** [m] commits nothing and does not reopen a transaction that is over. *)
Class Within `{Env} {A} (m : M database A) : Prop :=
  within : forall c r c', m c = (r, c') ->
    committed c' = committed c /\ (txst c <> TxOpen -> txst c' <> TxOpen).
#[export] Hint Mode Within - - ! : typeclass_instances.

Section within.
Context `{Env} `{PolarisApi}.

#[export] Instance within_ret {A} (a : A) : Within (Ret a).
Proof. by intros c r c' [= _ <-]. Qed.
#[export] Instance within_lift {A} (x : res A) : Within (lift x).
Proof. by intros c r c' [= _ <-]. Qed.

#[export] Instance within_bind {A B} (m : M database A) (f : A -> M database B) :
  Within m -> (forall a, Within (f a)) -> Within (Bind m f).
Proof.
  intros Hm Hf c r c'. unfold Bind. destruct (m c) as [[a|e|w] c1] eqn:E; intros Hr;
    destruct (Hm _ _ _ E) as [H1 H2]; simplify_eq; [|done..].
  destruct (Hf _ _ _ _ Hr) as [H3 H4]. split; [congruence|auto].
Qed.

#[export] Instance within_map_err {A} f (m : M database A) : Within m -> Within (map_err f m).
Proof. intros Hm c r c'. unfold map_err. destruct (m c) as [[a|e|w] c1] eqn:E; intros; simplify_eq; by eapply Hm. Qed.

#[export] Instance within_void {A} (m : M database A) : Within m -> Within (void m).
Proof. intros. unfold void. apply _. Qed.

#[export] Instance within_tx_Exec {A} (p : P database A) : Within (tx_Exec p).
Proof.
  intros c r c'. unfold tx_Exec. destruct (txst c) eqn:Es; [|intros; simplify_eq; simpl; split; congruence..].
  destruct (fault_at (calls c)) as [[]|]; try (destruct (p (tx_now c) (work c)) as [[]|e'|w]);
    intros; simplify_eq; by split.
Qed.

#[export] Instance within_tx_Query {R} (sel : Z -> database -> res (list R)) : Within (tx_Query sel).
Proof.
  intros c r c' Hr. unfold tx_Query in Hr. destruct (txst c) eqn:Es.
  - destruct (fault_at (calls c)) as [[e|e|n e]|]; [by eapply within_tx_Exec in Hr; rewrite ?Es in Hr..| |
      by eapply within_tx_Exec in Hr; rewrite ?Es in Hr]. by simplify_eq.
  - eapply within_tx_Exec in Hr. by rewrite Es in Hr.
  - eapply within_tx_Exec in Hr. by rewrite Es in Hr.
Qed.

#[export] Instance within_tx_QueryRow {R} (sel : Z -> database -> res (list R)) : Within (tx_QueryRow sel).
Proof. unfold tx_QueryRow. apply _. Qed.

Lemma rollback_within (c : conn database) :
  committed (snd (Rollback c)) = committed c /\ txst (snd (Rollback c)) <> TxOpen.
Proof. unfold Rollback. destruct (txst c) eqn:Es; simpl; split; congruence. Qed.

#[export] Instance within_rolls_back {A} (m : M database A) : Within m -> Within (rolls_back m).
Proof.
  intros Hm c r c'. unfold rolls_back. destruct (m c) as [[a|e|w] c1] eqn:E; intros [= <- <-];
    destruct (Hm _ _ _ E) as [H1 H2]; [done|..]; destruct (rollback_within c1) as [H3 H4]; (split; [congruence|done]).
Qed.
End within.

#[export] Hint Extern 6 (Within (match ?x with _ => _ end)) => destruct x : typeclass_instances.

(** ** Operations that end the transaction *)

(** An error, or a panic, of [m] leaves no open transaction. *)
Class EndsOnError `{Env} {A} (m : M database A) : Prop :=
  ends_on_error : forall c r c', m c = (r, c') -> is_Ok r = false -> txst c' <> TxOpen.
#[export] Hint Mode EndsOnError - - ! : typeclass_instances.

Section ends.
Context `{Env} `{PolarisApi} `{Strconv}.

#[export] Instance runs_upsert_gray x : Runs (upsert_gray x).
Proof. intros now d. unfold upsert_gray. destruct (existsb _ _); by apply runs_void; try apply _. Qed.

#[export] Instance ends_tx_Exec {A} (p : P database A) : Runs p -> EndsOnError (tx_Exec p).
Proof.
  intros Hp c r c' Hr Herr. pose proof (Hp (tx_now c) (work c)) as Hs. unfold tx_Exec in Hr.
  destruct (txst c) eqn:Es; [|simplify_eq; simpl; congruence..].
  destruct (fault_at (calls c)) as [[]|]; try (by simplify_eq);
    destruct (p (tx_now c) (work c)) as [[]|e'|w]; simplify_eq/=; try done; by match goal with H : Settled (Panic ?v) |- _ => destruct (H v) end.
Qed.
#[export] Instance ends_void {A} (m : M database A) : EndsOnError m -> EndsOnError (void m).
Proof.
  intros Hm c r c'. unfold void, Bind, Ret. destruct (m c) as [[a|e|w] c1] eqn:E; intros [= <- <-];
    [done|intros _; by apply (Hm _ _ _ E)..].
Qed.
#[export] Instance ends_map_err {A} f (m : M database A) : EndsOnError m -> EndsOnError (map_err f m).
Proof.
  intros Hm c r c'. unfold map_err. destruct (m c) as [[a|e|w] c1] eqn:E; intros [= <- <-];
    [done|intros _; by apply (Hm _ _ _ E)..].
Qed.
#[export] Instance ends_rolls_back {A} (m : M database A) : EndsOnError (rolls_back m) | 0.
Proof.
  intros c r c'. unfold rolls_back. destruct (m c) as [[a|e|w] c1]; intros [= <- <-]; [done|intros _; apply rollback_within..].
Qed.
#[export] Instance ends_bind {A B} (m : M database A) (f : A -> M database B) :
  EndsOnError m -> (forall a, EndsOnError (f a)) -> EndsOnError (Bind m f).
Proof.
  intros Hm Hf c r c'. unfold Bind. destruct (m c) as [[a|e|w] c1] eqn:E; intros Hr; simplify_eq.
  - by apply (Hf a _ _ _ Hr).
  - intros _. by apply (Hm _ _ _ E).
  - intros _. by apply (Hm _ _ _ E).
Qed.

Lemma commit_tx_spec (c c' : conn database) r : commit_tx c = (r, c') ->
  txst c' <> TxOpen /\ (txst c <> TxOpen -> is_Ok r = false /\ committed c' = committed c).
Proof.
  unfold commit_tx, map_err, rolls_back, Commit, Rollback. destruct (txst c) eqn:Es.
  - destruct (fault_at (calls c)) as [[e|e|n e]|]; intros [= <- <-]; by split.
  - intros [= <- <-]. by split.
  - rewrite Es. intros [= <- <-]. split; [congruence|done].
Qed.

(** A body and its commit, in a transaction that is over. *)
Lemma finish_after_end (body : M database unit) c r c' `{!Within body} :
  with_tx (Some tt) (body ;;; commit_tx) c = (r, c') -> txst c <> TxOpen ->
  is_Ok r = false /\ committed c' = committed c /\ txst c' <> TxOpen.
Proof.
  unfold with_tx, Bind. intros Hr Ht. destruct (body c) as [[a|e|w] c1] eqn:E;
    destruct (within _ _ _ E) as [H1' H2']; simplify_eq; try (split_and!; auto; fail).
  apply commit_tx_spec in Hr as [H3' H4']. destruct (H4' (H2' Ht)) as [? ?]. split_and!; [done|congruence|done].
Qed.

(** If the transaction is still open then the body has failed in it. *)
Lemma finish_still_open (body : M database unit) c r c' :
  with_tx (Some tt) (body ;;; commit_tx) c = (r, c') -> txst c' = TxOpen -> body c = (r, c') /\ is_Ok r = false.
Proof.
  unfold with_tx, Bind. intros Hr Ho. destruct (body c) as [[a|e|w] c1] eqn:E; simplify_eq; [|done..].
  by apply commit_tx_spec in Hr as [? _].
Qed.

Lemma finish_ends (body : M database unit) c r c' `{!EndsOnError body} :
  with_tx (Some tt) (body ;;; commit_tx) c = (r, c') -> txst c' <> TxOpen.
Proof. intros Hr Ho. destruct (finish_still_open _ _ _ _ Hr Ho) as [Hb Hf]. by apply (ends_on_error _ _ _ Hb Hf). Qed.
End ends.

(** ** The operations *)

Inductive handed_operation :=
| HandCreateConfigFile (x : ConfigFile.ConfigFile)
| HandUpdateConfigFile (x : ConfigFile.ConfigFile)
| HandDeleteConfigFile (namespace group name : string)
| HandRelease (op : release_op)
| HandCreateGrayResource (x : GrayResource)
| HandCleanGrayResource (x : GrayResource).

Section handed.
Context `{Env} `{PolarisApi} `{Strconv} `{MapRange} `{PgInput} `{ReleaseTypes}.

(** Each on the transaction [StartTx] returned. *)
Definition run_handed (op : handed_operation) : M database unit :=
  match op with
  | HandCreateConfigFile x => CreateConfigFileTx (Some tt) x
  | HandUpdateConfigFile x => UpdateConfigFileTx (Some tt) x
  | HandDeleteConfigFile namespace group name => DeleteConfigFileTx (Some tt) namespace group name
  | HandRelease op => run_op op
  | HandCreateGrayResource x => CreateGrayResourceTx (Some tt) x
  | HandCleanGrayResource x => CleanGrayResource (Some tt) x
  end.


(** What each is meant to do to the content. *)
Definition release_program (op : release_op) : P database unit :=
  match op with
  | OpCreate x => ConfigRelease.p_create x
  | OpDelete key => p_map_err store_Error (p_void (sql_update
      (of_release (k_Namespace key) (k_Group key) (k_FileName key) (k_Name key)) set_deleted))
  | OpClean namespace group fileName =>
      p_map_err store_Error (p_void (sql_update (of_file namespace group fileName) set_deleted))
  | OpActive x => p_activate x
  | OpInactive x => p_map_err store_Error (p_void (sql_update (fun r =>
      of_release (Namespace x) (Group x) (FileName x) (ConfigRelease.Name x) r && str_eq (cfr_release_type r) (ReleaseType x))
      (set_active 0)))
  end.

Definition handed_program (op : handed_operation) : P database unit :=
  match op with
  | HandCreateConfigFile x => ConfigFile.p_create x
  | HandUpdateConfigFile x => ConfigFile.p_update x
  | HandDeleteConfigFile namespace group name =>
      p_map_err store_Error (p_void (sql_update (of_key namespace group name) set_file_deleted))
  | HandRelease op => release_program op
  | HandCreateGrayResource x => p_map_err store_Error (upsert_gray x)
  | HandCleanGrayResource x => p_map_err store_Error (p_void (sql_update (named (Gray.Name x)) mark_gray))
  end.

Lemma handed_finish op c r c' : txst c = TxOpen -> run_handed op c = (r, c') ->
  finish_outcome (handed_program op) c r (committed c').
Proof.
  intros Ho Hr. destruct op as [x|x|namespace group name|[]|x|x]; by destruct (finish_spec _ _ _ _ _ Ho Hr).
Qed.

Lemma handed_after op c r c' : run_handed op c = (r, c') -> txst c <> TxOpen ->
  is_Ok r = false /\ committed c' = committed c /\ txst c' <> TxOpen.
Proof.
  destruct op as [x|x|namespace group name|[]|x|x]; intros Hr Ht; simpl in Hr;
    (refine (finish_after_end _ _ _ _ Hr Ht);
     unfold create_file, update_file, delete_file, batchCleanTags, batchAddTags, create_release, mark_deleted,
       activate, inactiveConfigFileRelease, selectMaxVersion; apply _).
Qed.


(** *** The activation that is refused *)

(** The next version of the file does not fit the driver's int64. *)
Definition version_refused (x : ConfigFileRelease) (d : database) : Prop := 2 ^ 63 <= max_version (file_rows x d) + 1.

Definition version_error : error := store_Error (EMsg "uint64 values with high bit set are not supported").


Lemma activate_still_open x c r c' : activate x c = (r, c') -> txst c = TxOpen -> txst c' = TxOpen -> is_Ok r = false ->
  r = Err version_error /\ version_refused x (work c') /\ same_but_work c c' /\
  work c' = set_tbl (deactivated x (tx_now c) (tbl (work c))) (work c).
Proof.
  intros Hr Ho Ho' Hf. unfold activate in Hr. unfold Bind at 1 in Hr.
  destruct (rolls_back (inactiveConfigFileRelease x) c) as [[v|e|w] c1] eqn:E.
  2-3: exfalso; simplify_eq; by apply (ends_rolls_back _ _ _ _ E).
  pose proof (impl_frame _ _ _ E) as (Hc & Hre & Hn). destruct (impl_sound _ _ _ E Ho) as [Hp Ho1].
  apply p_inactive_Ok in Hp as [Hw Hv]. unfold Bind, lift, uint64_arg, map_err in Hr.
  destruct (v + 1 <? 2 ^ 63) eqn:Hlt.
  - exfalso. destruct (void _ c1) as [[u|e|w] c2] eqn:E2; simplify_eq/=; try done;
      by refine (ends_void _ _ _ _ _ E2 _ Ho').
  - simplify_eq. apply Z.ltb_ge in Hlt. by split_and!.
Qed.

(** The only way an operation leaves the transaction open. *)
Lemma handed_still_open op c r c' : run_handed op c = (r, c') -> txst c = TxOpen -> txst c' = TxOpen ->
  exists x, op = HandRelease (OpActive x) /\ r = Err version_error /\ version_refused x (work c') /\
    same_but_work c c' /\ work c' = set_tbl (deactivated x (tx_now c) (tbl (work c))) (work c).
Proof.
  intros Hr Ho Ho'. destruct op as [x|x|namespace group name|[]|x|x]; simpl in Hr;
    try (exfalso; refine (finish_ends _ _ _ _ Hr Ho'); unfold create_file, update_file, delete_file, create_release,
      mark_deleted; apply _).
  destruct (finish_still_open _ _ _ _ Hr Ho') as [Hb Hf]. eexists. split; [done|]. by apply activate_still_open.
Qed.



(** The exception is real: an activation that returned its error has
    deactivated the active release of the file, and the next operation of the
    same transaction, here that of a gray resource, commits this. *)
Theorem refused_activation_committed x g c c0 c1 c2 r d : StartTx c = (Ok tt, c0) ->
  d = set_tbl (deactivated x (tx_now c0) (tbl (committed c))) (committed c) ->
  run_handed (HandRelease (OpActive x)) c0 = (r, c1) -> run_handed (HandCreateGrayResource g) c1 = (Ok tt, c2) ->
  r = Err version_error /\ version_refused x d /\ committed c1 = committed c /\
  upsert_gray g (tx_now c0) d = Ok (tt, committed c2).
Proof.
  intros Hs Hd H1r H2r. destruct (Begin_spec _ _ _ Hs) as ([Hc0 _] & _ & Ho0). destruct (Ho0 eq_refl) as [Hopen Hwork].
  assert (txst c1 = TxOpen) as Ho1.
  { destruct (decide (txst c1 = TxOpen)) as [|Hne]; [done|]. by destruct (handed_after _ _ _ _ H2r Hne). }
  destruct (handed_still_open _ _ _ _ H1r Hopen Ho1) as (y & [= <-] & -> & Hv & (Hc1 & _ & Hn) & Hw).
  rewrite Hwork in Hw. rewrite <- Hd in Hw. rewrite Hw in Hv. pose proof (handed_finish _ _ _ _ Ho1 H2r) as Hfin.
  simpl in Hfin. apply p_map_err_Ok in Hfin. rewrite Hn, Hw in Hfin. split_and!; [done|done|congruence|done].
Qed.
End handed.
