(* ===== verification/ReadCommitted.v ===== *)
(** * Overlapping transactions (base_db.go, [BaseDB.Begin])

    [BaseDB.Begin] passes nil options to [BeginTx], so every transaction of
    the package runs at the default level of the server, read committed; the
    field [txIsolationLevel] of the configuration is never read.  This file
    says what sessions do to each other at that level, in an executable form.

    The rows of the tables that transactions compete for lie in slots.  A slot
    has the version that was committed last and, while a transaction holds its
    row lock, the version this transaction will leave ([held]).  A transaction
    body is a term of type [prog], one constructor per call of the source, and
    [denote] says which sequential program of the other files it is.  [exec]
    runs one step of one session: the schedule is a list of [action]s.

    - A plain SELECT sees the committed versions and the session's own.
    - UPDATE, DELETE and SELECT ... FOR UPDATE take the rows that match when
      the statement starts, then visit them one by one in any order.  A row
      that another session holds cannot be visited: the session waits.  When
      it gets there the condition is evaluated again on the version that is
      current then.
    - An INSERT waits for the other session when a version it may leave
      behind has the same key, and fails when the clash is with a row nobody
      else can take away.
    - Anything may go wrong at any time ([Break]): a deadlock, a timeout, a
      lost connection, an error of a statement.  The server rolls back then.

    The theorem of this file: whatever the schedule, the committed rows respect
    the keys of the tables. *)
From stdpp Require Import base list strings relations.
From Stdlib Require Import ZArith Lia.
From S2P Require Import Prelude Driver Rows Schema Common ConfigFile ConfigRelease L5.
Open Scope Z_scope.
Open Scope store_scope.

(** ** Rows and slots *)

Inductive row :=
| RFile (r : config_file_row)
| RRelease (r : config_file_release_row)
| RModule (r : cl5_module_row).

Definition file_of (r : row) : option config_file_row := match r with RFile r => Some r | _ => None end.
Definition release_of (r : row) : option config_file_release_row :=
  match r with RRelease r => Some r | _ => None end.
Definition module_of (r : row) : option cl5_module_row := match r with RModule r => Some r | _ => None end.

Definition row_clash (a b : row) : bool :=
  match a, b with
  | RFile a, RFile b => clash a b
  | RRelease a, RRelease b => clash a b
  | RModule a, RModule b => clash a b
  | _, _ => false
  end.

Record slot := Slot {
  latest : option row;                   (* committed last; None: no such row *)
  held : option (nat * option row)       (* the session with the lock, and its version *)
}.

(** What the content is once the sessions in [S] have committed and the
    others have rolled back. *)
Definition view (S : nat -> bool) (x : slot) : option row :=
  match held x with
  | Some (s, v) => if S s then v else latest x
  | None => latest x
  end.

Definition visible (s : nat) : slot -> option row := view (Nat.eqb s).
Definition visible_rows (s : nat) (h : list slot) : list row := omap (visible s) h.
Definition committed_rows (h : list slot) : list row := omap latest h.

Definition may_write (s : nat) (x : slot) : bool :=
  match held x with Some (s', _) => (s =? s')%nat | None => true end.

(** The versions that may be there when [s] commits. *)
Definition versions (s : nat) (x : slot) : list row :=
  match held x with
  | None => option_list (latest x)
  | Some (s', v) =>
      if (s =? s')%nat then option_list v else option_list (latest x) ++ option_list v
  end.

(** No row besides the one in slot [l] can stand in the way of [r]. *)
Definition admits (s l : nat) (r : row) (h : list slot) : bool :=
  forallb (fun iv => (iv.1 =? l)%nat || forallb (fun u => negb (row_clash r u)) (versions s iv.2))
    (imap pair h).

(** A row that is there for good has the key of [r]. *)
Definition taken (s : nat) (r : row) (h : list slot) : bool :=
  existsb (fun x => may_write s x &&
    match visible s x with Some u => row_clash r u | None => false end) h.

(** ** Statements *)

Inductive effect (T : Type) :=
| Lock                                   (* SELECT ... FOR UPDATE *)
| Set_ (f : Z -> T -> T)                 (* UPDATE; the argument is CURRENT_TIMESTAMP *)
| Remove.                                (* DELETE *)
Arguments Lock {T}. Arguments Set_ {T}. Arguments Remove {T}.

Inductive statement :=
| OnFiles (w : config_file_row -> bool) (e : effect config_file_row)
| OnReleases (w : config_file_release_row -> bool) (e : effect config_file_release_row)
| OnModules (w : cl5_module_row -> bool) (e : effect cl5_module_row).

Definition matches (st : statement) (r : row) : bool :=
  match st, r with
  | OnFiles w _, RFile r => w r
  | OnReleases w _, RRelease r => w r
  | OnModules w _, RModule r => w r
  | _, _ => false
  end.

Definition run_effect {T} (e : effect T) (now : Z) (r : T) : option T :=
  match e with Lock => Some r | Set_ f => Some (f now r) | Remove => None end.

(** The version a visited row that matches gets. *)
Definition result (st : statement) (now : Z) (r : row) : option row :=
  match st, r with
  | OnFiles _ e, RFile r => RFile <$> run_effect e now r
  | OnReleases _ e, RRelease r => RRelease <$> run_effect e now r
  | OnModules _ e, RModule r => RModule <$> run_effect e now r
  | _, _ => Some r
  end.

Inductive insertion :=
| NewFile (mk : Z -> Z -> config_file_row)         (* id and CURRENT_TIMESTAMP *)
| NewRelease (mk : Z -> Z -> config_file_release_row).

(** ** Transaction bodies *)

(** What the source does with the error of a call. *)
Inductive handling := Plain | ToStore | RollsBack | RollsBackToStore.

Inductive prog (A : Type) :=
| Finish (r : res A)                               (* commit, or return the error *)
| Checked (hd : handling) (r : res Z) (k : Z -> prog A)      (* a check in Go *)
| Prepared (hd : handling) (p : prog A)
| Write (hd : handling) (args : res unit) (st : statement) (k : Z -> prog A)
| AddRow (hd : handling) (i : insertion) (p : prog A)
| MaxVersion (hd : handling) (w : config_file_release_row -> bool) (k : Z -> prog A)
| FirstModule (hd : handling) (k : cl5_module_row -> prog A).
Arguments Finish {A}. Arguments Checked {A}. Arguments Prepared {A}. Arguments Write {A}.
Arguments AddRow {A}. Arguments MaxVersion {A}. Arguments FirstModule {A}.

Section denote.
Context `{Env} `{PolarisApi}.

Definition handle {A} (hd : handling) (m : M database A) : M database A :=
  match hd with
  | Plain => m
  | ToStore => map_err store_Error m
  | RollsBack => rolls_back m
  | RollsBackToStore => map_err store_Error (rolls_back m)
  end.

Definition sql_effect {T} `{!Table T} (w : T -> bool) (e : effect T) : P database Z :=
  match e with
  | Lock => p_read (fun d => Ok (Z.of_nat (count w (tbl d))))
  | Set_ f => sql_update w f
  | Remove => sql_delete w
  end.

Definition sql_statement (st : statement) : P database Z :=
  match st with
  | OnFiles w e => sql_effect w e
  | OnReleases w e => sql_effect w e
  | OnModules w e => sql_effect w e
  end.

Definition sql_insertion (i : insertion) : P database unit :=
  match i with
  | NewFile mk => p_bind file_nextval (fun id => p_void (sql_insert (fun now => [mk id now])))
  | NewRelease mk => p_bind nextval (fun id => p_void (sql_insert (fun now => [mk id now])))
  end.

(** The body as a sequential program. *)
Fixpoint denote {A} (p : prog A) : M database A :=
  match p with
  | Finish r => lift r
  | Checked hd r k => n <- handle hd (lift r) ;; denote (k n)
  | Prepared hd p => handle hd tx_Prepare ;;; denote p
  | Write hd args st k =>
      n <- handle hd (tx_Exec (fun now d => _ <-? args ;; sql_statement st now d)) ;; denote (k n)
  | AddRow hd i p => handle hd (tx_Exec (sql_insertion i)) ;;; denote p
  | MaxVersion hd w k =>
      n <- handle hd (n <- tx_QueryRow (fun _ d => Ok [max_version (sql_select w d)]) ;; lift (scan_uint64 n)) ;;
      denote (k n)
  | FirstModule hd k =>
      r <- handle hd (tx_QueryRow (fun _ d => Ok (take 1 (tbl d)))) ;; denote (k r)
  end.
End denote.

(** ** Sessions *)

Inductive state (A : Type) :=
| Running (p : prog A)
| Writing (st : statement) (todo : list nat) (n : Z) (k : Z -> prog A)
| Over (r : option A).
Arguments Running {A}. Arguments Writing {A}. Arguments Over {A}.

Record session (A : Type) := Session { s_now : Z; s_state : state A }.
Arguments Session {A}. Arguments s_now {A}. Arguments s_state {A}.

Record system (A : Type) := System {
  heap : list slot;
  file_ids : Z;                          (* the sequences of the id columns *)
  release_ids : Z;
  sessions : list (session A)
}.
Arguments System {A}. Arguments heap {A}. Arguments file_ids {A}.
Arguments release_ids {A}. Arguments sessions {A}.

Inductive action (A : Type) :=
| Open_ (now : Z) (p : prog A)           (* one more transaction begins *)
| Next (s : nat)                         (* a session goes on to its next call *)
| Visit (s l : nat)                      (* its statement visits the row of a slot *)
| Break (s : nat).                       (* its transaction fails *)
Arguments Open_ {A}. Arguments Next {A}. Arguments Visit {A}. Arguments Break {A}.

(** What commit and rollback of [s] do to a slot. *)
Definition settle (s : nat) (x : slot) : slot :=
  match held x with Some (s', v) => if (s =? s')%nat then Slot v None else x | None => x end.
Definition release_lock (s : nat) (x : slot) : slot :=
  match held x with Some (s', _) => if (s =? s')%nat then Slot (latest x) None else x | None => x end.

Definition put (s l : nat) (v : option row) (h : list slot) : list slot :=
  alter (fun x => Slot (latest x) (Some (s, v))) l h.

(** The slots whose row the statement will visit. *)
Definition is_target (s : nat) (st : statement) (h : list slot) (l : nat) : bool :=
  match h !! l ≫= visible s with Some r => matches st r | None => false end.
Definition targets (s : nat) (st : statement) (h : list slot) : list nat :=
  filter (fun l => is_target s st h l = true) (seq 0 (length h)).

Lemma elem_of_imap_pair {A} (l : list A) i (x : A) : (i, x) ∈ imap pair l <-> l !! i = Some x.
Proof.
  rewrite list_elem_of_lookup. setoid_rewrite list_lookup_imap. split.
  - intros (j & (y & Hy & [= -> ->])%fmap_Some). done.
  - intros Hx. exists i. by rewrite Hx.
Qed.

Section exec.
Context {A : Type}.
Implicit Types (σ : system A) (p : prog A).

Definition become (s : nat) (now : Z) (st : state A) σ : system A :=
  System (heap σ) (file_ids σ) (release_ids σ) (<[s := Session now st]> (sessions σ)).
Definition with_heap (h : list slot) σ : system A :=
  System h (file_ids σ) (release_ids σ) (sessions σ).

Definition commit (s : nat) (now : Z) (r : option A) σ : system A :=
  become s now (Over r) (with_heap (map (settle s) (heap σ)) σ).
Definition abort (s : nat) (now : Z) σ : system A :=
  become s now (Over None) (with_heap (map (release_lock s) (heap σ)) σ).

(** A call that returned an error without the server having failed: the
    deferred function rolls back, or the caller decides. *)
Definition fail_call (s : nat) (now : Z) (hd : handling) (e : error) σ : system A :=
  match hd with
  | RollsBack | RollsBackToStore => abort s now σ
  | _ => become s now (Running (Finish (Err e))) σ
  end.

(** The row of an insertion and the sequences after it. *)
Definition new_row (i : insertion) (now : Z) σ : row * system A :=
  match i with
  | NewFile mk => (RFile (mk (file_ids σ) now),
      System (heap σ) (file_ids σ + 1) (release_ids σ) (sessions σ))
  | NewRelease mk => (RRelease (mk (release_ids σ) now),
      System (heap σ) (file_ids σ) (release_ids σ + 1) (sessions σ))
  end.

Definition exec_next (s : nat) (now : Z) (st : state A) σ : option (system A) :=
  match st with
  | Running (Finish r) => Some (commit s now (match r with Ok a => Some a | _ => None end) σ)
  | Running (Checked hd r k) =>
      Some (match r with
            | Ok n => become s now (Running (k n)) σ
            | Err e => fail_call s now hd e σ
            | Panic _ => abort s now σ
            end)
  | Running (Prepared _ p) => Some (become s now (Running p) σ)
  | Running (Write hd args st k) =>
      Some (match args with
            | Ok _ => become s now (Writing st (targets s st (heap σ)) 0 k) σ
            | _ => abort s now σ
            end)
  | Running (AddRow hd i p) =>
      let '(r, σ) := new_row i now σ in
      let l := length (heap σ) in
      if admits s l r (heap σ)
      then Some (become s now (Running p) (with_heap (put s l (Some r) (heap σ ++ [Slot None None])) σ))
      else if taken s r (heap σ) then Some (abort s now σ) else None
  | Running (MaxVersion hd w k) =>
      Some (match scan_uint64 (max_version (keep w (omap release_of (visible_rows s (heap σ))))) with
            | Ok n => become s now (Running (k n)) σ
            | Err e => fail_call s now hd e σ
            | Panic _ => abort s now σ
            end)
  | Running (FirstModule hd k) =>
      Some (match omap module_of (visible_rows s (heap σ)) with
            | r :: _ => become s now (Running (k r)) σ
            | [] => fail_call s now hd ENoRows σ
            end)
  | Writing st [] n k => Some (become s now (Running (k n)) σ)
  | Writing _ _ _ _ | Over _ => None
  end.

Definition exec_visit (s l : nat) (now : Z) (st : state A) σ : option (system A) :=
  match st, heap σ !! l with
  | Writing st todo n k, Some x =>
      let rest := filter (fun i => i <> l) todo in
      if bool_decide (l ∈ todo) && may_write s x then
        match visible s x with
        | Some r =>
            if matches st r then
              let v := result st now r in
              if match v with Some r' => admits s l r' (heap σ) | None => true end
              then Some (become s now (Writing st rest (n + 1) k) (with_heap (put s l v (heap σ)) σ))
              else if match v with Some r' => taken s r' (delete l (heap σ)) | None => false end
              then Some (abort s now σ) else None
            else Some (become s now (Writing st rest n k) σ)
        | None => Some (become s now (Writing st rest n k) σ)
        end
      else None
  | _, _ => None
  end.

Definition exec (a : action A) σ : option (system A) :=
  match a with
  | Open_ now p =>
      Some (System (heap σ) (file_ids σ) (release_ids σ) (sessions σ ++ [Session now (Running p)]))
  | Next s => x ← sessions σ !! s; exec_next s (s_now x) (s_state x) σ
  | Visit s l => x ← sessions σ !! s; exec_visit s l (s_now x) (s_state x) σ
  | Break s =>
      x ← sessions σ !! s;
      match s_state x with Over _ => None | _ => Some (abort s (s_now x) σ) end
  end%stdpp.

Fixpoint run (l : list (action A)) σ : option (system A) :=
  match l with
  | [] => Some σ
  | a :: l' => σ' ← exec a σ; run l' σ'
  end%stdpp.

(** One step of a system in which the transactions that begin satisfy [ok]. *)
Definition step (ok : prog A -> Prop) σ σ' : Prop :=
  exists a, exec a σ = Some σ' /\ match a with Open_ _ p => ok p | _ => True end.

(** A system at rest with the rows [rs]. *)
Definition at_rest (rs : list row) (fid rid : Z) : system A :=
  System (map (fun r => Slot (Some r) None) rs) fid rid [].

Definition reachable (ok : prog A -> Prop) (rs : list row) σ : Prop :=
  distinct row_clash rs = true /\ exists fid rid, rtc (step ok) (at_rest rs fid rid) σ.

Lemma run_app l1 l2 σ : run (l1 ++ l2) σ = (run l1 σ ≫= run l2).
Proof. revert σ. induction l1 as [|a l1 IH]; intros σ; simpl; [done|]. destruct (exec a σ); simpl; auto. Qed.

(** A schedule is a way to reach a state. *)
Lemma run_reaches (ok : prog A -> Prop) l σ σ' : run l σ = Some σ' ->
  Forall (fun a => match a with Open_ _ p => ok p | _ => True end) l -> rtc (step ok) σ σ'.
Proof.
  revert σ. induction l as [|a l IH]; intros σ Hr Hl; simpl in Hr; [by simplify_eq|].
  apply Forall_cons in Hl as [Ha Hl]. destruct (exec a σ) as [σ1|] eqn:E; [|done]. simpl in Hr.
  eapply rtc_l; [by exists a|]. by apply IH.
Qed.

(** What a schedule leads to, as far as [f] shows it. *)
Lemma run_observe {B} (f : system A -> B) l σ b : f <$> run l σ = Some b ->
  exists σ', run l σ = Some σ' /\ f σ' = b.
Proof. intros (σ' & -> & Hr)%fmap_Some. eauto. Qed.

(** The result of a session that is over. *)
Definition outcome (x : session A) : option (option A) :=
  match s_state x with Over r => Some r | _ => None end.

(** Every session is over or waits for rows others hold. *)
Definition waits (s : nat) (h : list slot) (x : session A) : bool :=
  match s_state x with
  | Writing _ (l :: todo) _ _ =>
      forallb (fun l => match h !! l with Some x => negb (may_write s x) | None => true end) (l :: todo)
  | Over _ => true
  | _ => false
  end.

Definition deadlocked σ : bool :=
  existsb (fun x => match outcome x with None => true | _ => false end) (sessions σ) &&
  forallb (fun sx => waits sx.1 (heap σ) sx.2) (imap pair (sessions σ)).

(** Then no session can go on: only a failure gets one of them out. *)
Lemma deadlocked_stuck σ s l : deadlocked σ = true -> exec (Next s) σ = None /\ exec (Visit s l) σ = None.
Proof.
  unfold deadlocked. rewrite andb_true_iff, forallb_forall. setoid_rewrite <- list_elem_of_In. intros [_ Hw]. simpl.
  destruct (sessions σ !! s) as [x|] eqn:Ex; [|done]. simpl.
  specialize (Hw (s, x)). rewrite elem_of_imap_pair in Hw. specialize (Hw Ex). unfold waits in Hw. cbn [fst snd] in Hw.
  destruct (s_state x) as [p|q [|i todo] n k|r]; try done. split; [done|]. unfold exec_visit.
  destruct (heap σ !! l) as [y|] eqn:Ey; [|done]. case_bool_decide as Hl; [|done]. simpl.
  rewrite forallb_forall in Hw. specialize (Hw l). rewrite <- list_elem_of_In, Ey in Hw.
  specialize (Hw Hl). by destruct (may_write s y).
Qed.
End exec.

(** ** Slots after a step *)

Section slots.
Implicit Types (h : list slot) (x : slot).

Lemma row_clash_sym a b : row_clash a b = row_clash b a.
Proof.
  destruct a, b; try done; simpl; unfold clash; simpl;
    unfold clash_config_file, clash_config_file_release, clash_cl5_module, str_eq;
    rewrite Z.eqb_sym; repeat f_equal; apply bool_decide_ext; split; congruence.
Qed.

Lemma view_settle S s x : view S (settle s x) = view (fun s' => (s =? s')%nat || S s') x.
Proof.
  unfold view, settle. destruct (held x) as [[s' v]|] eqn:E; [|by rewrite E].
  destruct (s =? s')%nat eqn:Es; simpl; [done|]. by rewrite E.
Qed.

Lemma view_release S s x : view S (release_lock s x) = view (fun s' => negb (s =? s')%nat && S s') x.
Proof.
  unfold view, release_lock. destruct (held x) as [[s' v]|] eqn:E; [|by rewrite E].
  destruct (s =? s')%nat eqn:Es; simpl; [done|]. by rewrite E.
Qed.

Lemma visible_settle s x : visible s x = latest (settle s x).
Proof.
  unfold visible, view, settle. destruct (held x) as [[s' v]|]; [|done]. by destruct (s =? s')%nat.
Qed.

Lemma latest_view x : latest x = view (fun _ => false) x.
Proof. unfold view. by destruct (held x) as [[]|]. Qed.

Lemma visible_not_held s x : (forall v, held x <> Some (s, v)) -> visible s x = latest x.
Proof.
  intros Hn. unfold visible, view. destruct (held x) as [[s' v]|]; [|done].
  destruct (s =? s')%nat eqn:Es; [|done]. apply Nat.eqb_eq in Es as <-. by destruct (Hn v).
Qed.

(** Lookup in a heap with one slot rewritten. *)
Lemma lookup_put s l v h i y : put s l v h !! i = Some y ->
  (i <> l /\ h !! i = Some y) \/
  (i = l /\ exists x, h !! l = Some x /\ y = Slot (latest x) (Some (s, v))).
Proof.
  unfold put. destruct (decide (l = i)) as [->|Hn].
  - rewrite list_lookup_alter_eq. intros (x & Hx & ->)%fmap_Some. right. eauto.
  - rewrite list_lookup_alter_ne by done. left. split; congruence.
Qed.

Lemma put_at s l v h x : h !! l = Some x -> put s l v h !! l = Some (Slot (latest x) (Some (s, v))).
Proof. intros Hx. unfold put. by rewrite list_lookup_alter_eq, Hx. Qed.

Lemma put_other s l v h i : i <> l -> put s l v h !! i = h !! i.
Proof. intros. unfold put. by rewrite list_lookup_alter_ne. Qed.

Lemma lookup_map_Some {A B} (f : A -> B) l i y : map f l !! i = Some y -> exists a, l !! i = Some a /\ y = f a.
Proof. change (map f l) with (f <$> l). rewrite list_lookup_fmap. intros (x & ? & ->)%fmap_Some. eauto. Qed.

Lemma lookup_fresh h i y : (h ++ [Slot None None]) !! i = Some y -> h !! i = Some y \/ y = Slot None None.
Proof. intros [?|[_ [_ <-]%list_lookup_singleton_Some]]%lookup_app_Some; auto. Qed.

Lemma admits_true s l r h : admits s l r h = true <->
  forall i x u, i <> l -> h !! i = Some x -> u ∈ versions s x -> row_clash r u = false.
Proof.
  unfold admits. rewrite forallb_forall. setoid_rewrite <- list_elem_of_In. split.
  - intros Ha i x u Hi Hx Hu. specialize (Ha (i, x)). rewrite elem_of_imap_pair in Ha. specialize (Ha Hx).
    apply orb_true_iff in Ha as [?%Nat.eqb_eq|Ha]; [done|]. rewrite forallb_forall in Ha.
    apply negb_true_iff, Ha. by apply list_elem_of_In.
  - intros Ha [i x] Hx%elem_of_imap_pair. simpl. destruct (i =? l)%nat eqn:E; [done|]. simpl.
    apply forallb_forall. intros u Hu%list_elem_of_In. apply negb_true_iff.
    apply (Ha i x); [by apply Nat.eqb_neq|done..].
Qed.

Lemma elem_of_targets s st h l : l ∈ targets s st h <->
  exists x r, h !! l = Some x /\ visible s x = Some r /\ matches st r = true.
Proof.
  unfold targets, is_target. rewrite list_elem_of_filter, elem_of_seq. split.
  - intros [Ht _]. destruct (h !! l ≫= visible s) as [r|] eqn:E; [|done].
    apply bind_Some in E as (x & Hx & Hv). eauto.
  - intros (x & r & Hx & Hv & Hm). rewrite Hx. simpl. rewrite Hv. split; [done|].
    apply lookup_lt_Some in Hx. lia.
Qed.

(** *** Keys *)

(** Whichever of the open transactions commit, no two rows clash. *)
Definition keys_hold h : Prop := forall S i j x y a b, i <> j -> h !! i = Some x -> h !! j = Some y ->
  view S x = Some a -> view S y = Some b -> row_clash a b = false.

Lemma view_versions S s x u : S s = true -> view S x = Some u -> u ∈ versions s x.
Proof.
  unfold view, versions. intros Hs. destruct (held x) as [[s' v]|]; [|by intros ->; left].
  destruct (s =? s')%nat eqn:E.
  - apply Nat.eqb_eq in E as <-. rewrite Hs. intros ->. by left.
  - rewrite elem_of_app. destruct (S s'); intros ->; [right|left]; by left.
Qed.

Lemma keys_settle s h : keys_hold h -> keys_hold (map (settle s) h).
Proof.
  intros Hk S i j x y a b Hij (x' & Hx & ->)%lookup_map_Some (y' & Hy & ->)%lookup_map_Some.
  rewrite !view_settle. by eapply Hk.
Qed.

Lemma keys_release s h : keys_hold h -> keys_hold (map (release_lock s) h).
Proof.
  intros Hk S i j x y a b Hij (x' & Hx & ->)%lookup_map_Some (y' & Hy & ->)%lookup_map_Some.
  rewrite !view_release. by eapply Hk.
Qed.

Lemma keys_fresh h : keys_hold h -> keys_hold (h ++ [Slot None None]).
Proof.
  intros Hk S i j x y a b Hij [Hx| ->]%lookup_fresh [Hy| ->]%lookup_fresh; [by eapply Hk|done..].
Qed.

(** One side of [keys_put]. *)
Lemma put_clash s l v h S x y a b j : keys_hold h -> h !! l = Some x -> may_write s x = true ->
  (forall r, v = Some r -> admits s l r h = true) -> j <> l -> h !! j = Some y ->
  view S (Slot (latest x) (Some (s, v))) = Some a -> view S y = Some b -> row_clash a b = false.
Proof.
  intros Hk Hx Hw Ha Hj Hy Hva Hb. unfold view in Hva. simpl in Hva. destruct (S s) eqn:Es.
  - specialize (Ha a Hva). rewrite admits_true in Ha.
    eapply Ha; [done..|]. by eapply view_versions.
  - apply (Hk S l j x y); [done..| |done]. unfold view, may_write in *.
    destruct (held x) as [[s' w]|]; [|done]. apply Nat.eqb_eq in Hw as <-. by rewrite Es.
Qed.

Lemma keys_put s l v h x : keys_hold h -> h !! l = Some x -> may_write s x = true ->
  (forall r, v = Some r -> admits s l r h = true) -> keys_hold (put s l v h).
Proof.
  intros Hk Hx Hw Ha S i j y z a b Hij Hi Hj Hva Hvb.
  apply lookup_put in Hi as [[Hil Hi]|[-> (x1 & E1 & ->)]],
    Hj as [[Hjl Hj]|[-> (x2 & E2 & ->)]]; simplify_eq.
  - by apply (Hk S i j y z).
  - rewrite row_clash_sym. by eapply (put_clash s l v h S).
  - by eapply (put_clash s l v h S).
Qed.

Lemma keys_at_rest rs : distinct row_clash rs = true -> keys_hold (map (fun r => Slot (Some r) None) rs).
Proof.
  intros Hd S i j x y a b Hij (p & Hp & ->)%lookup_map_Some (q & Hq & ->)%lookup_map_Some [= <-] [= <-].
  revert i j Hij Hp Hq. induction rs as [|r rs IH]; intros i j Hij Hp Hq; [done|].
  apply distinct_cons in Hd as [Hr Hd]. destruct i as [|i], j as [|j]; simplify_eq/=.
  - by eapply Hr, list_elem_of_lookup_2.
  - rewrite row_clash_sym. by eapply Hr, list_elem_of_lookup_2.
  - apply (IH Hd i j); [congruence|done..].
Qed.

(** In particular the committed rows are distinct. *)
Lemma keys_distinct h : keys_hold h -> distinct row_clash (committed_rows h) = true.
Proof.
  unfold committed_rows. induction h as [|x h IH]; intros Hk; [done|]. simpl.
  assert (keys_hold h) as Hh.
  { intros S i j y z a b Hij Hy Hz. apply (Hk S (Datatypes.S i) (Datatypes.S j)); [congruence|done..]. }
  destruct (latest x) as [r|] eqn:E; [|by apply IH]. apply distinct_cons. split; [|by apply IH].
  intros u (y & Hy & Hu)%list_elem_of_omap. apply list_elem_of_lookup in Hy as [j Hj].
  apply (Hk (fun _ => false) 0%nat (Datatypes.S j) x y); [done..| |]; by rewrite <- latest_view.
Qed.
End slots.

(** ** Steps of the heap *)

Section steps.
Context {A : Type}.
Implicit Types (σ : system A) (h : list slot).

(** What a step of session [s] does to the heap: nothing, a version put in
    place, a commit or a rollback. *)
Inductive heap_step (s : nat) h : list slot -> Prop :=
| heap_same : heap_step s h h
| heap_put l v x : h !! l = Some x -> may_write s x = true ->
    (forall r, v = Some r -> admits s l r h = true) -> heap_step s h (put s l v h)
| heap_new r : admits s (length h) r h = true ->
    heap_step s h (put s (length h) (Some r) (h ++ [Slot None None]))
| heap_commit : heap_step s h (map (settle s) h)
| heap_rollback : heap_step s h (map (release_lock s) h).

Lemma admits_fresh s l r h : admits s l r h = true -> admits s l r (h ++ [Slot None None]) = true.
Proof.
  rewrite !admits_true. intros Ha i x u Hi [Hx| ->]%lookup_fresh Hu; [by eapply Ha|].
  by apply elem_of_nil in Hu.
Qed.

Lemma heap_step_keys s h h' : heap_step s h h' -> keys_hold h -> keys_hold h'.
Proof.
  intros [|l v x Hx Hw Ha|r Ha| |] Hk; [done| | |by apply keys_settle|by apply keys_release].
  - by eapply keys_put.
  - apply (keys_put _ _ _ _ (Slot None None)); [by apply keys_fresh| |done|].
    + by rewrite lookup_app_r, Nat.sub_diag by lia.
    + intros r' [= <-]. by apply admits_fresh.
Qed.

(** The session an action belongs to. *)
Definition actor (a : action A) σ : nat :=
  match a with Open_ _ _ => length (sessions σ) | Next s | Visit s _ | Break s => s end.

Lemma fail_call_heap s now hd e σ : heap_step s (heap σ) (heap (fail_call s now hd e σ)).
Proof. destruct hd; simpl; constructor. Qed.

Lemma exec_next_heap s now st σ σ' : exec_next s now st σ = Some σ' -> heap_step s (heap σ) (heap σ').
Proof.
  unfold exec_next. destruct st as [[r|hd r k|hd p|hd args st k|hd i p|hd w k|hd k]|st [|l todo] n k|r];
    intros Hx; simplify_eq/=; try (by constructor).
  - destruct r; [constructor|apply fail_call_heap|constructor].
  - destruct args; constructor.
  - destruct (new_row i now σ) as [r σ1] eqn:En.
    assert (heap σ1 = heap σ) as Hh by (destruct i; by simplify_eq/=). rewrite Hh in *.
    destruct (admits s (length (heap σ)) r (heap σ)) eqn:Ea; simplify_eq/=; [by constructor|].
    destruct (taken s r (heap σ)); simplify_eq/=. rewrite Hh. constructor.
  - destruct (scan_uint64 _); [constructor|apply fail_call_heap|constructor].
  - destruct (omap _ _); [apply fail_call_heap|constructor].
Qed.

Lemma exec_visit_heap s l now st σ σ' : exec_visit s l now st σ = Some σ' -> heap_step s (heap σ) (heap σ').
Proof.
  unfold exec_visit. destruct st as [p|st todo n k|r]; [done| |done].
  destruct (heap σ !! l) as [x|] eqn:El; [|done]. destruct (bool_decide (l ∈ todo)); [|done]. simpl.
  destruct (may_write s x) eqn:Ew; [|done].
  destruct (visible s x) as [r|] eqn:Ev; [|intros; simplify_eq; constructor].
  destruct (matches st r); [|intros; simplify_eq; constructor].
  destruct (result st now r) as [r'|].
  - destruct (admits s l r' (heap σ)) eqn:Ea; [intros; simplify_eq/=|destruct (taken _ _ _); intros; simplify_eq; constructor].
    eapply heap_put; [done..|]. by intros ? [= <-].
  - intros; simplify_eq/=. by eapply heap_put.
Qed.

Lemma exec_heap a σ σ' : exec a σ = Some σ' -> heap_step (actor a σ) (heap σ) (heap σ').
Proof.
  destruct a as [now p|s|s l|s]; simpl; [intros; simplify_eq; constructor|..];
    destruct (sessions σ !! s) as [x|]; try done; simpl.
  - apply exec_next_heap.
  - apply exec_visit_heap.
  - destruct (s_state x); intros; simplify_eq; constructor.
Qed.

Lemma reachable_keys ok rs σ : reachable ok rs σ -> keys_hold (heap σ).
Proof.
  intros (Hd & fid & rid & Hr). assert (keys_hold (heap (at_rest (A:=A) rs fid rid))) as Hk by by apply keys_at_rest.
  revert Hk. induction Hr as [|σ1 σ2 σ3 (a & Ha & _) _ IH]; intros Hk; [done|].
  apply IH. eapply heap_step_keys; [by eapply exec_heap|done].
Qed.
End steps.

(** The keys of the tables survive every interleaving: whatever transactions
    run at the same time, in whatever order their calls are scheduled and
    wherever they fail, no two committed rows share a primary key or a unique
    key (ids of files and releases, namespace, group and name of a file,
    the file and the name of a release, the module id). *)
Theorem committed_rows_distinct {A} (ok : prog A -> Prop) rs σ : reachable ok rs σ ->
  distinct row_clash (committed_rows (heap σ)) = true.
Proof. intros Hr. by eapply keys_distinct, reachable_keys. Qed.
