(* ===== verification/LockDiscipline.v ===== *)
(** * Row locks that protect a critical section

    A discipline for transactions that overlap (file ReadCommitted): a session
    may make a release of a file active only after it has locked the live row
    of the file and has then deactivated the releases of that type.
    [follows g p] says that the body [p] keeps to it from the stage [g] on,
    one clause per kind of call; sessions that never activate anything are
    free to do what they like.  The theorem of this file is about systems all
    of whose sessions follow the discipline: in every state they reach there
    is at most one active release of each type of each file.

    The proof is an invariant of the system.  What it says of one session is
    kept in [facts]; a step of another session preserves them ([holds_frame]),
    a step of the session itself moves to other facts ([holds_put]), and two
    sessions never hold the row of the same file ([owns_exclusive]). *)
From stdpp Require Import base list strings relations.
From Stdlib Require Import ZArith Lia.
From S2P Require Import Prelude Driver Rows Schema ReadCommitted.
Open Scope Z_scope.

(** ** What is activated *)

Definition file_key : Type := string * string * string.
Definition key_of (r : config_file_row) : file_key := (cf_namespace r, cf_group r, cf_name r).

(** The file, the type and the name under which a row is an active release. *)
Definition active_key : Type := file_key * string * string.
Definition active_as (r : row) : option active_key :=
  match r with
  | RRelease r =>
      if cfr_active r =? 1
      then Some ((cfr_namespace r, cfr_group r, cfr_file_name r), cfr_release_type r, cfr_name r)
      else None
  | _ => None
  end.

(** The committed rows have at most one active release per file and type. *)
Definition one_active (h : list slot) : Prop := forall i j x y rx ry k t n m, i <> j ->
  h !! i = Some x -> h !! j = Some y -> latest x = Some rx -> latest y = Some ry ->
  active_as rx = Some (k, t, n) -> active_as ry = Some (k, t, m) -> False.

(** ** The discipline *)

(** Statements that activate nothing, lock the row of a file, deactivate the
    releases of a type, activate the release of one name. *)
Definition quiet (st : statement) : Prop := forall now r r' a, matches st r = true ->
  result st now r = Some r' -> active_as r' = Some a -> active_as r = Some a.
Definition locks (k : file_key) (st : statement) : Prop :=
  exists w, st = OnFiles w Lock /\ forall r, w r = true -> key_of r = k.
Definition clears (k : file_key) (t : string) (st : statement) : Prop :=
  (forall r n, active_as r = Some (k, t, n) -> matches st r = true) /\
  (forall now r r', matches st r = true -> result st now r = Some r' -> active_as r' = None).
Definition raises (k : file_key) (t n : string) (st : statement) : Prop := forall now r r' a,
  matches st r = true -> result st now r = Some r' -> active_as r' = Some a -> a = (k, t, n).

Definition inserted (i : insertion) (id now : Z) : row :=
  match i with NewFile mk => RFile (mk id now) | NewRelease mk => RRelease (mk id now) end.
Definition quiet_insertion (i : insertion) : Prop := forall id now, active_as (inserted i id now) = None.
Definition raising_insertion (k : file_key) (t n : string) (i : insertion) : Prop :=
  forall id now a, active_as (inserted i id now) = Some a -> a = (k, t, n).

(** How far a session has come. *)
Inductive stage :=
| Free                                   (* has no lock, may take one *)
| Quiet                                  (* activates nothing *)
| Holding (k : file_key)                 (* holds the row of the file *)
| Cleared (k : file_key) (t : string)    (* and has deactivated the type *)
| Raised (k : file_key) (t n : string).  (* and has activated [n] *)

Inductive follows {A} : stage -> prog A -> Prop :=
| follows_finish g r : follows g (Finish r)
| follows_checked g hd r k : (forall n, follows g (k n)) -> follows g (Checked hd r k)
| follows_prepared g hd p : follows g p -> follows g (Prepared hd p)
| follows_version g hd w k : (forall n, follows g (k n)) -> follows g (MaxVersion hd w k)
| follows_module g hd k : (forall r, follows g (k r)) -> follows g (FirstModule hd k)
| follows_quiet g hd args st k : g <> Free -> quiet st -> (forall n, follows g (k n)) ->
    follows g (Write hd args st k)
| follows_lock key hd args st k : locks key st -> (forall n, 0 < n -> follows (Holding key) (k n)) ->
    follows Free (k 0) -> follows Free (Write hd args st k)
| follows_clear key t hd args st k : clears key t st -> (forall n, follows (Cleared key t) (k n)) ->
    follows (Holding key) (Write hd args st k)
| follows_raise key t m hd args st k : raises key t m st -> (forall n, follows (Raised key t m) (k n)) ->
    follows (Cleared key t) (Write hd args st k)
| follows_add g hd i p : g <> Free -> quiet_insertion i -> follows g p -> follows g (AddRow hd i p)
| follows_add_raise key t m hd i p : raising_insertion key t m i -> follows (Raised key t m) p ->
    follows (Cleared key t) (AddRow hd i p).

(** Every session begins free or quiet. *)
Definition disciplined {A} (p : prog A) : Prop := follows Free p \/ follows Quiet p.

(** ** What is known of one session *)

Section session_facts.
Implicit Types (s : nat) (h : list slot) (x : slot).

Definition only_locks s h : Prop := forall l x v, h !! l = Some x -> held x = Some (s, v) -> v = latest x.
Definition raises_but (E : active_key -> Prop) s h : Prop := forall l x r a, h !! l = Some x ->
  held x = Some (s, Some r) -> active_as r = Some a ->
  E a \/ exists r0, latest x = Some r0 /\ active_as r0 = Some a.
Definition owns (k : file_key) s h : Prop := exists l x r v,
  h !! l = Some x /\ latest x = Some (RFile r) /\ key_of r = k /\ held x = Some (s, v).
Definition sees_only (k : file_key) (t : string) (P : nat -> string -> Prop) s h : Prop :=
  forall l x r n, h !! l = Some x -> visible s x = Some r -> active_as r = Some (k, t, n) -> P l n.

Record facts := Facts {
  f_locks : Prop;                                (* it has only taken locks *)
  f_raises : active_key -> Prop;                 (* what it will make active *)
  f_owns : option file_key;                      (* the file whose row it holds *)
  f_sees : option (file_key * string * (nat -> string -> Prop))
                                                 (* the active rows of a type it sees *)
}.

Record holds (F : facts) s h : Prop := Holds {
  holds_locks : f_locks F -> only_locks s h;
  holds_raises : raises_but (f_raises F) s h;
  holds_owns : forall k, f_owns F = Some k -> owns k s h;
  holds_sees : forall k t P, f_sees F = Some (k, t, P) -> f_owns F = Some k /\ sees_only k t P s h
}.

Definition nothing (a : active_key) : Prop := False.

Definition facts_of (g : stage) : facts :=
  match g with
  | Free => Facts True nothing None None
  | Quiet => Facts False nothing None None
  | Holding k => Facts False nothing (Some k) None
  | Cleared k t => Facts False nothing (Some k) (Some (k, t, fun _ _ => False))
  | Raised k t n => Facts False (fun a => a = (k, t, n)) (Some k) (Some (k, t, fun _ m => m = n))
  end.

(** What a session activates is of the file it holds, and it sees nothing else
    active of that type. *)
Definition consistent (F : facts) : Prop := forall k t n, f_raises F (k, t, n) ->
  f_owns F = Some k /\ f_sees F = Some (k, t, fun _ m => m = n).

Lemma consistent_stage g : consistent (facts_of g).
Proof. destruct g; intros k' t' n' Hr; simpl in *; try done. by simplify_eq. Qed.

Lemma held_cases s x : (exists v, held x = Some (s, v)) \/ (forall v, held x <> Some (s, v)).
Proof.
  destruct (held x) as [[s' v]|] eqn:E; [|by right].
  destruct (decide (s = s')) as [->|Hn]; [left; by eauto|right; congruence].
Qed.

(** A row the session sees is active under a key it raises or was before. *)
Lemma visible_raises E s h l x r a : raises_but E s h -> h !! l = Some x -> visible s x = Some r ->
  active_as r = Some a -> E a \/ exists r0, latest x = Some r0 /\ active_as r0 = Some a.
Proof.
  intros Hr Hx Hv Ha. unfold visible, view in Hv. destruct (held x) as [[s' v]|] eqn:Eh; [|by right; eauto].
  destruct (s =? s')%nat eqn:Es; [|by right; eauto]. apply Nat.eqb_eq in Es as <-. subst v. by eapply Hr.
Qed.

Lemma visible_only_locks s h l x : only_locks s h -> h !! l = Some x -> visible s x = latest x.
Proof.
  intros Ho Hx. unfold visible, view. destruct (held x) as [[s' v]|] eqn:Eh; [|done].
  destruct (s =? s')%nat eqn:Es; [|done]. apply Nat.eqb_eq in Es as <-. by eapply Ho.
Qed.

(** *** The lock is exclusive *)

Lemma owns_exclusive k s s' h : keys_hold h -> owns k s h -> owns k s' h -> s = s'.
Proof.
  intros Hk (l & x & r & v & Hx & Hl & Hr & Hh) (l' & x' & r' & v' & Hx' & Hl' & Hr' & Hh').
  destruct (decide (l = l')) as [->|Hn]; [congruence|].
  assert (row_clash (RFile r) (RFile r') = false) as Hc.
  { apply (Hk (fun _ => false) l l' x x'); rewrite <- ?latest_view; done. }
  simpl in Hc. unfold clash in Hc. simpl in Hc. unfold clash_config_file in Hc. unfold key_of in *.
  rewrite <- Hr in Hr'. injection Hr' as E1 E2 E3. rewrite E1, E2, E3 in Hc.
  unfold str_eq in Hc. rewrite !bool_decide_true in Hc by done. by rewrite orb_true_r in Hc.
Qed.

(** *** Steps of other sessions *)

(** The heap changes for [s] only in that rows it does not hold are
    deactivated or go away; rows of the file [o] are not activated. *)
Record frame (s : nat) (o : option file_key) (h h' : list slot) : Prop := Frame {
  frame_keeps : forall l x v, h !! l = Some x -> held x = Some (s, v) -> h' !! l = Some x;
  frame_no_more : forall l x v, h' !! l = Some x -> held x = Some (s, v) -> h !! l = Some x;
  frame_raises : forall l x' r' a, h' !! l = Some x' -> (forall v, held x' <> Some (s, v)) ->
    latest x' = Some r' -> active_as r' = Some a -> o = Some a.1.1 ->
    exists x r, h !! l = Some x /\ (forall v, held x <> Some (s, v)) /\ latest x = Some r /\
      active_as r = Some a
}.

Lemma holds_frame F s h h' : frame s (f_owns F) h h' -> holds F s h -> holds F s h'.
Proof.
  intros [Fk Fn Fr] [Hl Hr Ho Hs]. split.
  - intros Hf l x v Hx Hh. eapply (Hl Hf); [|done]. by eapply Fn.
  - intros l x r a Hx Hh. eapply Hr; [|done]. by eapply Fn.
  - intros k Hk. destruct (Ho k Hk) as (l & x & r & v & Hx & ? & ? & Hh).
    exists l, x, r, v. split_and!; try done. by eapply Fk.
  - intros k t P Hf. destruct (Hs k t P Hf) as [Hk Hsee]. split; [done|].
    intros l x r n Hx Hv Ha. destruct (held_cases s x) as [[v Hh]|Hn].
    + eapply Hsee; [|done..]. by eapply Fn.
    + rewrite visible_not_held in Hv by done.
      destruct (Fr l x r (k, t, n) Hx Hn Hv Ha) as (x0 & r0 & Hx0 & Hn0 & Hl0 & Ha0); [done|].
      eapply Hsee; [done| |done]. by rewrite visible_not_held.
Qed.

Lemma frame_same s o h : frame s o h h.
Proof. split; eauto 10. Qed.

Lemma frame_fresh s o h : frame s o h (h ++ [Slot None None]).
Proof.
  split.
  - intros l x v Hx _. by apply lookup_app_l_Some.
  - by intros l x v [Hx| ->]%lookup_fresh Hh.
  - intros l x r a [Hx| ->]%lookup_fresh Hn Hl Ha _; [|done]. eauto 10.
Qed.

Lemma frame_trans s o h1 h2 h3 : frame s o h1 h2 -> frame s o h2 h3 -> frame s o h1 h3.
Proof.
  intros [K1 N1 R1] [K2 N2 R2]. split; [eauto..|].
  intros l x r a Hx Hn Hl Ha Ho. destruct (R2 l x r a Hx Hn Hl Ha Ho) as (x' & r' & ? & ? & ? & ?). eauto.
Qed.

Lemma frame_put s o s' l v h x : s <> s' -> h !! l = Some x -> may_write s' x = true ->
  frame s o h (put s' l v h).
Proof.
  intros Hs Hx Hw.
  assert (forall w, held x <> Some (s, w)) as Hf.
  { intros w Hh. unfold may_write in Hw. rewrite Hh in Hw. by apply Nat.eqb_eq in Hw. }
  split.
  - intros i y w Hy Hh. rewrite put_other; [done|]. intros ->. simplify_eq. by destruct (Hf w).
  - intros i y w [[Hi Hy]|[-> (z & Hz & ->)]]%lookup_put Hh; [done|]. simplify_eq/=.
  - intros i y r a [[Hi Hy]|[-> (z & Hz & ->)]]%lookup_put Hn Hl Ha _; [by eauto 10|].
    simplify_eq/=. eauto 10.
Qed.

Lemma held_settle s s' x v : s <> s' -> held (settle s' x) = Some (s, v) <-> held x = Some (s, v).
Proof.
  intros Hs. unfold settle. destruct (held x) as [[s1 w]|] eqn:E; [|by rewrite E].
  destruct (s' =? s1)%nat eqn:Es; simpl; [|by rewrite E]. apply Nat.eqb_eq in Es as ->.
  split; [done|congruence].
Qed.

Lemma held_release s s' x v : s <> s' -> held (release_lock s' x) = Some (s, v) <-> held x = Some (s, v).
Proof.
  intros Hs. unfold release_lock. destruct (held x) as [[s1 w]|] eqn:E; [|by rewrite E].
  destruct (s' =? s1)%nat eqn:Es; simpl; [|by rewrite E]. apply Nat.eqb_eq in Es as ->.
  split; [done|congruence].
Qed.

(** A slot of another session is left alone. *)
Lemma settle_other s s' x v : s <> s' -> held x = Some (s, v) -> settle s' x = x.
Proof. intros Hs Hh. unfold settle. rewrite Hh. by destruct (Nat.eqb_spec s' s). Qed.
Lemma release_other s s' x v : s <> s' -> held x = Some (s, v) -> release_lock s' x = x.
Proof. intros Hs Hh. unfold release_lock. rewrite Hh. by destruct (Nat.eqb_spec s' s). Qed.
Lemma latest_release s x : latest (release_lock s x) = latest x.
Proof. unfold release_lock. destruct (held x) as [[s' w]|]; [|done]. by destruct (s =? s')%nat. Qed.

Lemma frame_release s o s' h : s <> s' -> frame s o h (map (release_lock s') h).
Proof.
  intros Hs. split.
  - intros l x v Hx Hh. change (map (release_lock s') h) with (release_lock s' <$> h).
    rewrite list_lookup_fmap, Hx. simpl. by rewrite (release_other s s' x v).
  - intros l x v (y & Hy & ->)%lookup_map_Some Hh. rewrite held_release in Hh by done.
    by rewrite (release_other s s' y v).
  - intros l x r a (y & Hy & ->)%lookup_map_Some Hn Hl Ha _. rewrite latest_release in Hl.
    exists y, r. split_and!; try done. intros v Hh. apply (Hn v). by apply held_release.
Qed.

(** The commit of a session that does not activate releases of the file. *)
Lemma frame_settle s o s' E h : s <> s' -> raises_but E s' h ->
  (forall a, E a -> o <> Some a.1.1) -> frame s o h (map (settle s') h).
Proof.
  intros Hs HE Ho. split.
  - intros l x v Hx Hh. change (map (settle s') h) with (settle s' <$> h).
    rewrite list_lookup_fmap, Hx. simpl. by rewrite (settle_other s s' x v).
  - intros l x v (y & Hy & ->)%lookup_map_Some Hh. rewrite held_settle in Hh by done.
    by rewrite (settle_other s s' y v).
  - intros l x r a (y & Hy & ->)%lookup_map_Some Hn Hl Ha Ha1. rewrite <- visible_settle in Hl.
    destruct (visible_raises E s' h l y r a HE Hy Hl Ha) as [HEa|(r0 & Hr0 & Ha0)]; [by destruct (Ho a)|].
    exists y, r0. split_and!; try done. intros v Hh. apply (Hn v). by apply held_settle.
Qed.

(** A step of [s'], as [s] sees it. *)
Lemma frame_step s o s' E h h' : s <> s' -> heap_step s' h h' -> raises_but E s' h ->
  (forall a, E a -> o <> Some a.1.1) -> frame s o h h'.
Proof.
  intros Hs [|l v x Hx Hw _|r _| |] HE Ho.
  - apply frame_same.
  - by eapply frame_put.
  - eapply frame_trans; [apply frame_fresh|]. apply (frame_put _ _ _ _ _ _ (Slot None None)); [done| |done].
    by rewrite lookup_app_r, Nat.sub_diag by lia.
  - by eapply frame_settle.
  - by apply frame_release.
Qed.
End session_facts.

(** ** Steps of the session itself *)

Section own_steps.
Implicit Types (s : nat) (h : list slot) (x : slot) (F : facts).

(** Other facts that follow from those known. *)
Lemma holds_weaken F F' s h : (f_locks F' -> f_locks F) ->
  (forall a, f_raises F a -> f_raises F' a) ->
  (forall k, f_owns F' = Some k -> f_owns F = Some k) ->
  (forall k t P', f_sees F' = Some (k, t, P') -> f_owns F' = Some k /\ sees_only k t P' s h) ->
  holds F s h -> holds F' s h.
Proof.
  intros Hl Hr Ho Hs [L R O S]. split; [auto| |auto|done].
  intros l x r a Hx Hh Ha. destruct (R l x r a Hx Hh Ha); auto.
Qed.

(** A version put into slot [l], of which [x] says what it was before. *)
Lemma holds_put F F' s l v h x : h !! l = Some x -> may_write s x = true -> holds F s h ->
  (f_locks F' -> f_locks F /\ v = latest x) ->
  (forall a, f_raises F a -> f_raises F' a) ->
  (forall r a, v = Some r -> active_as r = Some a ->
    f_raises F' a \/ exists r0, latest x = Some r0 /\ active_as r0 = Some a) ->
  (forall k, f_owns F' = Some k -> f_owns F = Some k \/
    exists r, latest x = Some (RFile r) /\ key_of r = k) ->
  (forall k t P', f_sees F' = Some (k, t, P') -> f_owns F' = Some k /\ exists P, f_sees F = Some (k, t, P) /\
    (forall i n, i <> l -> P i n -> P' i n) /\
    (forall r n, v = Some r -> active_as r = Some (k, t, n) -> P' l n)) ->
  holds F' s (put s l v h).
Proof.
  intros Hx Hw [L R O S] Hl Hr Hv Ho Hs. split.
  - intros HF i y w [[Hi Hy]|[-> (z & Hz & ->)]]%lookup_put Hh; simplify_eq/=; [by eapply L; [apply Hl|..]|].
    by apply Hl.
  - intros i y r a [[Hi Hy]|[-> (z & Hz & ->)]]%lookup_put Hh Ha; simplify_eq/=; [|by eapply Hv].
    destruct (R i y r a Hy Hh Ha); auto.
  - intros k Hk. destruct (Ho k Hk) as [Hk'|(r & Hr1 & Hr2)].
    + destruct (O k Hk') as (i & y & r & w & Hy & Hly & Hky & Hhy). destruct (decide (i = l)) as [->|Hi].
      * simplify_eq. eexists l, _, r, v. split; [by apply put_at|done].
      * exists i, y, r, w. by rewrite put_other.
    + eexists l, _, r, v. split; [by apply put_at|done].
  - intros k t P' HF. destruct (Hs k t P' HF) as (Hk & P & HP & Hsame & Hnew). split; [done|].
    destruct (S k t P HP) as [_ Hsee].
    intros i y r n [[Hi Hy]|[-> (z & Hz & ->)]]%lookup_put Hvis Ha.
    + apply Hsame; [done|]. by eapply Hsee.
    + unfold visible, view in Hvis. simpl in Hvis. rewrite Nat.eqb_refl in Hvis. by eapply Hnew.
Qed.

(** After the end of a transaction its session holds nothing. *)
Lemma holds_over s h : (forall l x v, h !! l = Some x -> held x <> Some (s, v)) -> holds (facts_of Quiet) s h.
Proof. intros Hn. split; [done| |done|done]. intros l x r a Hx Hh. by destruct (Hn l x (Some r)). Qed.

Lemma settled s h l x v : map (settle s) h !! l = Some x -> held x <> Some (s, v).
Proof.
  intros (y & _ & ->)%lookup_map_Some. unfold settle. destruct (held y) as [[s' w]|] eqn:E; [|congruence].
  destruct (Nat.eqb_spec s s'); [done|]. rewrite E. congruence.
Qed.

Lemma released s h l x v : map (release_lock s) h !! l = Some x -> held x <> Some (s, v).
Proof.
  intros (y & _ & ->)%lookup_map_Some. unfold release_lock. destruct (held y) as [[s' w]|] eqn:E; [|congruence].
  destruct (Nat.eqb_spec s s'); [done|]. rewrite E. congruence.
Qed.
End own_steps.

(** What a session knows where it is: between two calls the facts of its
    stage, within a statement those of the part done. *)
Inductive state_ok {A} : facts -> state A -> Prop :=
| ok_running g p : follows g p -> state_ok (facts_of g) (Running p)
| ok_over r : state_ok (facts_of Quiet) (Over r)
| ok_quiet g st todo n k : g <> Free -> quiet st -> (forall n, follows g (k n)) ->
    state_ok (facts_of g) (Writing st todo n k)
| ok_lock key st todo n k : locks key st -> 0 <= n -> (forall n, 0 < n -> follows (Holding key) (k n)) ->
    follows Free (k 0) ->
    state_ok (Facts True nothing (if 0 <? n then Some key else None) None) (Writing st todo n k)
| ok_clear key t st todo n k : clears key t st -> (forall n, follows (Cleared key t) (k n)) ->
    state_ok (Facts False nothing (Some key) (Some (key, t, fun l _ => l ∈ todo))) (Writing st todo n k)
| ok_raise key t m st todo n k : raises key t m st -> (forall n, follows (Raised key t m) (k n)) ->
    state_ok (facts_of (Raised key t m)) (Writing st todo n k).

Lemma state_ok_consistent {A} F (st : state A) : state_ok F st -> consistent F.
Proof. destruct 1; try apply consistent_stage; intros k' t' n' []. Qed.

Definition session_ok {A} (s : nat) (h : list slot) (st : state A) : Prop :=
  exists F, holds F s h /\ state_ok F st.

Section own_progress.
Context {A : Type}.
Implicit Types (s : nat) (h : list slot) (x : slot) (F : facts).

(** A statement begins. *)
Lemma start_statement g s h hd args st k : holds (facts_of g) s h -> follows g (Write (A:=A) hd args st k) ->
  session_ok s h (Writing st (targets s st h) 0 k).
Proof.
  intros Hh Hf. inversion Hf; subst.
  - eexists. split; [exact Hh|]. by constructor.
  - eexists. split; [|by apply (ok_lock key)]. exact Hh.
  - eexists. split; [|by apply (ok_clear key t)]. eapply holds_weaken, Hh; [done..|].
    intros k' t' P' [= <- <- <-]. split; [done|]. intros l x r n Hx Hv Ha. apply elem_of_targets.
    exists x, r. split_and!; [done..|]. rename select (clears _ _ _) into Hc. by eapply Hc.
  - eexists. split; [|by apply (ok_raise key t m)]. eapply holds_weaken, Hh; [done|by intros a []|done|].
    intros k' t' P' [= <- <- <-]. split; [done|].
    destruct (holds_sees _ _ _ Hh key t (fun _ _ => False) eq_refl) as [_ Hsee].
    intros l x r n Hx Hv Ha. by destruct (Hsee l x r n Hx Hv Ha).
Qed.

(** A statement that has visited all its rows is over. *)
Lemma end_statement F s h st n (k : Z -> prog A) : holds F s h -> state_ok F (Writing st [] n k) ->
  session_ok s h (Running (k n)).
Proof.
  intros Hh Hok. inversion Hok; subst; try (eexists; split; [exact Hh|]; by constructor).
  - rename select (forall n, 0 < n -> _) into Hk. destruct (0 <? n) eqn:En.
    + exists (facts_of (Holding key)). split; [|constructor; apply Hk; lia].
      eapply holds_weaken, Hh; simpl; try done.
    + replace n with 0 by lia. exists (facts_of Free). split; [exact Hh|by constructor].
  - exists (facts_of (Cleared key t)). split; [|by constructor]. eapply holds_weaken, Hh; [done..|].
    intros k' t' P' [= <- <- <-]. split; [done|].
    destruct (holds_sees _ _ _ Hh key t _ eq_refl) as [_ Hsee].
    intros l x r m Hx Hv Ha. specialize (Hsee l x r m Hx Hv Ha). by apply elem_of_nil in Hsee.
Qed.

(** It passes a row that does not match any more. *)
Lemma pass_row F s h st todo n (k : Z -> prog A) l x : holds F s h -> state_ok F (Writing st todo n k) ->
  h !! l = Some x -> (forall r, visible s x = Some r -> matches st r = false) ->
  session_ok s h (Writing st (filter (fun i => i <> l) todo) n k).
Proof.
  intros Hh Hok Hx Hm. inversion Hok; subst; try (eexists; split; [exact Hh|]; by econstructor).
  eexists. split; [|by apply (ok_clear key t)]. eapply holds_weaken, Hh; [done..|].
  intros k' t' P' [= <- <- <-]. split; [done|].
  destruct (holds_sees _ _ _ Hh key t _ eq_refl) as [_ Hsee].
  intros i y r m Hy Hv Ha. apply list_elem_of_filter. split; [|by eapply Hsee].
  intros ->. simplify_eq. rename select (clears _ _ _) into Hc. destruct Hc as [Hc _]. specialize (Hc r m Ha). by rewrite Hm in Hc.
Qed.

(** It gives a row that matches its new version. *)
Lemma write_row F s h st todo n (k : Z -> prog A) l x r now : holds F s h ->
  state_ok F (Writing st todo n k) -> h !! l = Some x -> may_write s x = true ->
  visible s x = Some r -> matches st r = true ->
  session_ok s (put s l (result st now r) h) (Writing st (filter (fun i => i <> l) todo) (n + 1) k).
Proof.
  intros Hh Hok Hx Hw Hv Hm. pose proof (holds_raises _ _ _ Hh) as HE. inversion Hok; subst.
  - rename select (quiet _) into Hq.
    eexists. split; [|by constructor]. eapply holds_put; [done..| |done| |by left|].
    + destruct g; done.
    + intros r' a Hr' Ha. eapply visible_raises; [done..|]. by eapply Hq.
    + intros k' t' P' HP. destruct (holds_sees _ _ _ Hh k' t' P' HP) as [Hk Hsee]. split; [done|].
      exists P'. split_and!; [done..|]. intros r' m Hr' Ha. eapply Hsee; [done..|]. by eapply Hq.
  - rename select (locks _ _) into Hlk. destruct Hlk as (w & -> & Hkey). pose proof (holds_locks _ _ _ Hh I) as Hlocks.
    assert (visible s x = latest x) as Hlat by by eapply visible_only_locks.
    destruct r as [r|r|r]; try done. simpl.
    eexists. split; [|apply (ok_lock key); [by exists w|lia|done..]].
    rewrite (proj2 (Z.ltb_lt 0 (n + 1))) by lia.
    eapply holds_put; [done..| |done| | |done]; simpl.
    + intros _. split; [done|congruence].
    + intros r' a [= <-]. done.
    + intros k' [= <-]. right. exists r. split; [congruence|]. by apply Hkey.
  - rename select (clears _ _ _) into Hc. destruct Hc as [Hc1 Hc2]. eexists. split; [|by apply (ok_clear key t)].
    eapply holds_put; [done..|done|done| |by left|]; simpl.
    + intros r' a Hr' Ha. by rewrite (Hc2 now r r' Hm Hr') in Ha.
    + intros k' t' P' [= <- <- <-]. split; [done|]. eexists. split_and!; [done| |].
      * intros i m Hi Hin. by apply list_elem_of_filter.
      * intros r' m Hr' Ha. by rewrite (Hc2 now r r' Hm Hr') in Ha.
  - rename select (raises _ _ _ _) into Hrs. eexists. split; [|by apply (ok_raise key t m)].
    eapply holds_put; [done..|done|done| |by left|]; simpl.
    + intros r' a Hr' Ha. left. by eapply Hrs.
    + intros k' t' P' [= <- <- <-]. split; [done|]. eexists. split_and!; [done|done|].
      intros r' m' Hr' Ha. specialize (Hrs now r r' _ Hm Hr' Ha). by simplify_eq.
Qed.

(** It adds a row. *)
Lemma add_row g s h hd i (p : prog A) id now : holds (facts_of g) s h -> follows g (AddRow hd i p) ->
  session_ok s (put s (length h) (Some (inserted i id now)) (h ++ [Slot None None])) (Running p).
Proof.
  intros Hh Hf.
  assert (holds (facts_of g) s (h ++ [Slot None None])) as Hh1 by (eapply holds_frame, Hh; apply frame_fresh).
  assert ((h ++ [Slot None None]) !! length h = Some (Slot None None)) as Hx
    by by rewrite lookup_app_r, Nat.sub_diag by lia.
  inversion Hf; subst.
  - rename select (quiet_insertion _) into Hq.
    exists (facts_of g). split; [|by constructor]. eapply holds_put; [done..| |done| |by left|].
    + by destruct g.
    + intros r a [= <-] Ha. by rewrite Hq in Ha.
    + intros k' t' P' HP. destruct (holds_sees _ _ _ Hh k' t' P' HP) as [Hk _]. split; [done|].
      exists P'. split_and!; [done..|]. intros r n [= <-] Ha. by rewrite Hq in Ha.
  - rename select (raising_insertion _ _ _ _) into Hrs. exists (facts_of (Raised key t m)). split; [|by constructor].
    eapply holds_put; [done..| | | |by left|]; simpl; [done|by intros a []| |].
    + intros r a [= <-] Ha. left. by eapply Hrs.
    + intros k' t' P' [= <- <- <-]. split; [done|]. eexists. split_and!; [done|by intros ? ? _ []|].
      intros r n [= <-] Ha. specialize (Hrs _ _ _ Ha). by simplify_eq.
Qed.
End own_progress.

(** ** One active release *)

Lemma one_active_settle F s h : keys_hold h -> one_active h -> holds F s h -> consistent F ->
  one_active (map (settle s) h).
Proof.
  intros Hk Ha [_ HE _ Hs] Hc i j x y rx ry k t n m Hij (x' & Hx & ->)%lookup_map_Some
    (y' & Hy & ->)%lookup_map_Some Hlx Hly Hax Hay. rewrite <- visible_settle in Hlx, Hly.
  destruct (visible_raises _ _ _ _ _ _ _ HE Hx Hlx Hax) as [Hr|(r1 & Hr1 & Ha1)];
    [|destruct (visible_raises _ _ _ _ _ _ _ HE Hy Hly Hay) as [Hr|(r2 & Hr2 & Ha2)]; [|by eapply (Ha i j)]].
  all: destruct (Hc _ _ _ Hr) as [_ Hf]; destruct (Hs _ _ _ Hf) as [_ Hsee];
    pose proof (Hsee _ _ _ _ Hx Hlx Hax); pose proof (Hsee _ _ _ _ Hy Hly Hay); subst;
    assert (row_clash rx ry = false) as Hcl by (by eapply (Hk (Nat.eqb s) i j));
    destruct rx as [|rx|], ry as [|ry|]; simplify_eq/=;
    destruct (cfr_active rx =? 1), (cfr_active ry =? 1); simplify_eq;
    unfold clash in Hcl; simpl in Hcl; unfold clash_config_file_release, str_eq in Hcl;
    rewrite !bool_decide_true in Hcl by congruence; by rewrite orb_true_r in Hcl.
Qed.

(** Other steps commit nothing. *)
Lemma one_active_latest h h' : (forall l x r, h' !! l = Some x -> latest x = Some r ->
    exists y, h !! l = Some y /\ latest y = Some r) -> one_active h -> one_active h'.
Proof.
  intros Hl Ha i j x y rx ry k t n m Hij Hx Hy Hrx Hry.
  destruct (Hl i x rx Hx Hrx) as (x' & Hx' & Hrx'), (Hl j y ry Hy Hry) as (y' & Hy' & Hry').
  by eapply (Ha i j).
Qed.

Lemma one_active_put s l v h : one_active h -> one_active (put s l v h).
Proof.
  apply one_active_latest. intros i x r [[Hi Hx]|[-> (y & Hy & ->)]]%lookup_put Hr; eauto.
Qed.

Lemma one_active_step F s h h' : keys_hold h -> holds F s h -> consistent F -> heap_step s h h' ->
  one_active h -> one_active h'.
Proof.
  intros Hk Hh Hc [|l v x _ _ _|r _| |] Ha; [done|by apply one_active_put| |by eapply one_active_settle|].
  - apply one_active_put. eapply one_active_latest, Ha. intros l x r' [Hx| ->]%lookup_fresh Hr; [eauto|done].
  - eapply one_active_latest, Ha. intros l x r (y & Hy & ->)%lookup_map_Some Hr.
    rewrite latest_release in Hr. eauto.
Qed.

(** ** The system *)

Section system_invariant.
Context {A : Type}.
Implicit Types (σ : system A) (s : nat) (h : list slot) (st : state A).

Record system_ok σ : Prop := SystemOk {
  ok_keys : keys_hold (heap σ);
  ok_one : one_active (heap σ);
  ok_sessions : forall s x, sessions σ !! s = Some x -> session_ok s (heap σ) (s_state x);
  ok_holders : forall l x s v, heap σ !! l = Some x -> held x = Some (s, v) -> (s < length (sessions σ))%nat
}.

(** The session that takes the step is well afterwards. *)
Lemma over_ok s h r : (forall l x v, h !! l = Some x -> held x <> Some (s, v)) -> session_ok s h (Over (A:=A) r).
Proof. intros Hn. eexists. split; [by apply holds_over|constructor]. Qed.

Lemma abort_ok s h : session_ok s (map (release_lock s) h) (Over (A:=A) None).
Proof. apply over_ok. intros l x v. apply released. Qed.

Lemma running_ok g s h (p : prog A) : holds (facts_of g) s h -> follows g p -> session_ok s h (Running p).
Proof. intros Hh Hf. eexists. split; [exact Hh|by constructor]. Qed.

Lemma become_lookup s now st σ x : sessions σ !! s = Some x ->
  sessions (become s now st σ) !! s = Some (Session now st).
Proof. intros Hx. simpl. apply list_lookup_insert_eq. by eapply lookup_lt_Some. Qed.

(** [σ'] is [σ] with session [s] at [st]. *)
Definition moves (s : nat) (now : Z) st (h : list slot) σ σ' : Prop :=
  sessions σ' = <[s := Session now st]> (sessions σ) /\ heap σ' = h.

Lemma fail_call_ok g s now hd e σ : holds (facts_of g) s (heap σ) ->
  exists st, moves s now st (heap (fail_call s now hd e σ)) σ (fail_call s now hd e σ) /\
    session_ok s (heap (fail_call s now hd e σ)) st.
Proof.
  intros Hh. destruct hd; simpl; eexists; (split; [by split|]);
    first [apply abort_ok | eapply running_ok; [exact Hh|constructor]].
Qed.

Lemma exec_next_ok s now st σ σ' : session_ok s (heap σ) st -> exec_next s now st σ = Some σ' ->
  exists st', moves s now st' (heap σ') σ σ' /\ session_ok s (heap σ') st'.
Proof.
  intros (F & Hh & Hok) Hx. unfold exec_next in Hx.
  destruct st as [p|st [|l todo] n k|r]; [|simplify_eq/=; eexists; (split; [by split|]); by eapply end_statement|done..].
  inversion Hok as [g p' Hf| | | | |]; subst.
  destruct p as [r|hd r k|hd p|hd args st k|hd i p|hd w k|hd k]; simplify_eq/=.
  - eexists. split; [by split|]. apply over_ok. intros l x v. apply settled.
  - destruct r as [n|e|w]; simpl in *; [|by eapply fail_call_ok|eexists; split; [by split|apply abort_ok]].
    eexists. split; [by split|]. eapply running_ok; [exact Hh|]. by inversion Hf.
  - eexists. split; [by split|]. eapply running_ok; [exact Hh|]. by inversion Hf.
  - destruct args as [u|e|w]; simplify_eq/=; eexists; (split; [by split|]); try apply abort_ok.
    by eapply start_statement.
  - destruct i as [mk|mk]; simpl in Hx;
      (case_match; [|case_match; [|done]]); simplify_eq/=; eexists; (split; [by split|]); try apply abort_ok.
    + by eapply (add_row g _ _ hd (NewFile mk)).
    + by eapply (add_row g _ _ hd (NewRelease mk)).
  - destruct (ConfigRelease.scan_uint64 _) as [n|e|why]; simpl in *;
      [|by eapply fail_call_ok|eexists; split; [by split|apply abort_ok]].
    eexists. split; [by split|]. eapply running_ok; [exact Hh|]. by inversion Hf.
  - destruct (omap _ _) as [|r l]; [by eapply fail_call_ok|].
    eexists. split; [by split|]. eapply running_ok; [exact Hh|]. by inversion Hf.
Qed.

Lemma exec_visit_ok s l now st σ σ' : session_ok s (heap σ) st -> exec_visit s l now st σ = Some σ' ->
  exists st', moves s now st' (heap σ') σ σ' /\ session_ok s (heap σ') st'.
Proof.
  intros (F & Hh & Hok) Hx. unfold exec_visit in Hx. destruct st as [p|st todo n k|r]; [done| |done].
  destruct (heap σ !! l) as [x|] eqn:El; [|done]. destruct (bool_decide (l ∈ todo)); [|done].
  destruct (may_write s x) eqn:Ew; [|done]. simpl in Hx.
  destruct (visible s x) as [r|] eqn:Ev; [destruct (matches st r) eqn:Em|].
  - destruct (match result st now r with Some _ => _ | None => _ end) in Hx;
      [|destruct (match result st now r with Some _ => _ | None => _ end) in Hx; [|done]]; simplify_eq/=;
      eexists; (split; [by split|]); [by eapply write_row|apply abort_ok].
  - simplify_eq/=. eexists. split; [by split|]. eapply pass_row; [done..|]. intros r' Hr'. congruence.
  - simplify_eq/=. eexists. split; [by split|]. eapply pass_row; [done..|]. congruence.
Qed.

(** A step keeps the slots within the sessions there are. *)
Lemma heap_step_holders s h h' n : heap_step s h h' -> (s < n)%nat ->
  (forall l x s v, h !! l = Some x -> held x = Some (s, v) -> (s < n)%nat) ->
  forall l x s v, h' !! l = Some x -> held x = Some (s, v) -> (s < n)%nat.
Proof.
  intros [|l v x _ _ _|r _| |] Hs Hh; [done|..]; intros i y s' w.
  - intros [[_ Hy]|[-> (z & _ & ->)]]%lookup_put Hw; [by eauto|by simplify_eq/=].
  - intros [[_ [Hy| ->]%lookup_fresh]|[-> (z & _ & ->)]]%lookup_put Hw; [by eauto|done|by simplify_eq/=].
  - intros (z & Hz & ->)%lookup_map_Some Hw. destruct (decide (s' = s)) as [->|Hn]; [done|].
    apply held_settle in Hw; [by eauto|done].
  - intros (z & Hz & ->)%lookup_map_Some Hw. destruct (decide (s' = s)) as [->|Hn]; [done|].
    apply held_release in Hw; [by eauto|done].
Qed.

(** The step of an existing session. *)
Lemma step_ok s now st st' σ σ' : system_ok σ -> sessions σ !! s = Some (Session now st) ->
  heap_step s (heap σ) (heap σ') -> moves s now st' (heap σ') σ σ' -> session_ok s (heap σ') st' ->
  system_ok σ'.
Proof.
  intros [Hk H1 Hs Hh] Hx Hstep [Hses _] Hok'.
  destruct (Hs s _ Hx) as (F & HF & Hok). simpl in Hok. pose proof (state_ok_consistent F st Hok) as Hc.
  assert (s < length (sessions σ))%nat as Hlt by by eapply lookup_lt_Some.
  split.
  - by eapply heap_step_keys.
  - by eapply one_active_step.
  - intros s' x Hx'. rewrite Hses in Hx'. destruct (decide (s' = s)) as [->|Hn].
    + rewrite list_lookup_insert_eq in Hx' by done. by injection Hx' as <-.
    + rewrite list_lookup_insert_ne in Hx' by done. destruct (Hs s' x Hx') as (F' & HF' & Hok2).
      exists F'. split; [|done]. eapply holds_frame, HF'. eapply frame_step; [done..|apply HF|].
      intros [[k t] n] Ha Ho. simpl in Ho. destruct (Hc k t n Ha) as [Hk1 _].
      apply Hn. eapply owns_exclusive; [exact Hk|by eapply holds_owns|by eapply holds_owns].
  - rewrite Hses, length_insert. by eapply heap_step_holders.
Qed.

Lemma exec_ok a σ σ' : system_ok σ -> exec a σ = Some σ' ->
  match a with Open_ _ p => disciplined p | _ => True end -> system_ok σ'.
Proof.
  intros Hok Hx Hd. pose proof (exec_heap a σ σ' Hx) as Hstep.
  destruct a as [now p|s|s l|s]; simpl in *.
  - simplify_eq. destruct Hok as [Hk H1 Hs Hh]. split; simpl; [done..| |].
    + intros s x [Hx|[Hl [_ <-]%list_lookup_singleton_Some]]%lookup_app_Some; [by apply Hs|]. simpl.
      assert (forall l x v, heap σ !! l = Some x -> held x <> Some (s, v)) as Hn.
      { intros l x v Hx Hv. specialize (Hh l x s v Hx Hv). lia. }
      destruct Hd as [Hf|Hf]; (eapply running_ok; [|exact Hf]); [|by apply holds_over].
      split; [| |done|done]; [intros _ l x v Hx Hv|intros l x r a Hx Hv]; by destruct (Hn _ _ _ Hx Hv).
    + intros l x s v Hx Hv. rewrite length_app. specialize (Hh l x s v Hx Hv). simpl. lia.
  - destruct (sessions σ !! s) as [[now st]|] eqn:Es; [|done]. simpl in Hx.
    destruct (exec_next_ok s now st σ σ' (ok_sessions _ Hok s _ Es) Hx) as (st' & Hm & Hst).
    by eapply step_ok.
  - destruct (sessions σ !! s) as [[now st]|] eqn:Es; [|done]. simpl in Hx.
    destruct (exec_visit_ok s l now st σ σ' (ok_sessions _ Hok s _ Es) Hx) as (st' & Hm & Hst).
    by eapply step_ok.
  - destruct (sessions σ !! s) as [[now st]|] eqn:Es; [|done]. simpl in Hx.
    destruct st; simplify_eq/=; (eapply step_ok; [done..| |apply abort_ok]; by split).
Qed.

Lemma at_rest_ok rs fid rid : distinct row_clash rs = true ->
  one_active (heap (at_rest (A:=A) rs fid rid)) -> system_ok (at_rest rs fid rid).
Proof.
  intros Hd Ha. split; [by apply keys_at_rest|done|done|].
  intros l x s v (r & _ & ->)%lookup_map_Some. done.
Qed.

Lemma reachable_ok rs σ : reachable disciplined rs σ ->
  (forall fid rid, one_active (heap (at_rest (A:=A) rs fid rid))) -> system_ok σ.
Proof.
  intros (Hd & fid & rid & Hr) H1.
  assert (system_ok (at_rest rs fid rid)) as Hok by by apply at_rest_ok.
  revert Hok. induction Hr as [|σ1 σ2 σ3 (a & Ha & Hp) _ IH]; intros Hok; [done|].
  apply IH. by eapply exec_ok.
Qed.
End system_invariant.
