(* ===== verification/SessionAlone.v ===== *)
(** * A session that is alone (config_file_release.go, l5.go)

    What the interleaved model (file ReadCommitted) makes of one session when
    nobody else holds a row: it never waits, and statement by statement,
    visiting the rows one by one, it does what the sequential model of the
    other files does at once.  [goes] is "some schedule of this session leads
    from here to there"; [p_denote] is the body as a pure program on the
    content of the database, and [alone_commits] says that a session alone
    reaches its commit with the content [p_denote] computes. *)
From stdpp Require Import base list strings sets.
From Stdlib Require Import ZArith Lia.
From S2P Require Import Prelude Driver Rows Schema Common ConfigFile ConfigRelease ReadCommitted.
Open Scope Z_scope.
Open Scope store_scope.

(** ** Schedules of one session *)

Section goes.
Context {A : Type}.
Implicit Types (σ : system A) (s : nat) (st : state A).

(** An action of session [s]. *)
Definition of_session (s : nat) (a : action A) : bool :=
  match a with Next s' | Visit s' _ => (s =? s')%nat | _ => false end.

Definition goes (s : nat) (now : Z) st σ st' σ' : Prop := exists l,
  forallb (of_session s) l = true /\ run l (become s now st σ) = Some (become s now st' σ').

Lemma goes_refl s now st σ : goes s now st σ st σ.
Proof. by exists []. Qed.

Lemma goes_trans s now st1 σ1 st2 σ2 st3 σ3 :
  goes s now st1 σ1 st2 σ2 -> goes s now st2 σ2 st3 σ3 -> goes s now st1 σ1 st3 σ3.
Proof.
  intros (l1 & F1 & R1) (l2 & F2 & R2). exists (l1 ++ l2). split.
  - by rewrite forallb_app, F1, F2.
  - by rewrite run_app, R1.
Qed.

Lemma become_become s now st now' st' σ : become s now st (become s now' st' σ) = become s now st σ.
Proof. unfold become. simpl. by rewrite list_insert_insert_eq. Qed.

Lemma become_with_heap s now st now' st' h σ :
  become s now st (with_heap h (become s now' st' σ)) = become s now st (with_heap h σ).
Proof. unfold become, with_heap. simpl. by rewrite list_insert_insert_eq. Qed.

(** One call. *)
Lemma goes_next s now st σ st' σ' : (s < length (sessions σ))%nat ->
  exec_next s now st (become s now st σ) = Some (become s now st' σ') -> goes s now st σ st' σ'.
Proof.
  intros Hs Hx. exists [Next s]. split; [simpl; by rewrite Nat.eqb_refl|].
  simpl. rewrite list_lookup_insert_eq by done. simpl. by rewrite Hx.
Qed.

Lemma goes_visit s now st σ l st' σ' : (s < length (sessions σ))%nat ->
  exec_visit s l now st (become s now st σ) = Some (become s now st' σ') -> goes s now st σ st' σ'.
Proof.
  intros Hs Hx. exists [Visit s l]. split; [simpl; by rewrite Nat.eqb_refl|].
  simpl. rewrite list_lookup_insert_eq by done. simpl. by rewrite Hx.
Qed.

Lemma run_keys l σ σ' : run l σ = Some σ' -> keys_hold (heap σ) -> keys_hold (heap σ').
Proof.
  revert σ. induction l as [|a l IH]; intros σ Hr Hk; simpl in Hr; [by simplify_eq|].
  destruct (exec a σ) as [σ1|] eqn:E; [|done]. eapply IH; [exact Hr|].
  eapply heap_step_keys; [by eapply exec_heap|done].
Qed.

Lemma goes_keys s now st σ st' σ' : goes s now st σ st' σ' -> keys_hold (heap σ) -> keys_hold (heap σ').
Proof. intros (l & _ & Hr) Hk. by apply run_keys in Hr. Qed.

Section one_call.
Context (s : nat) (now : Z) (σ : system A) (Hs : (s < length (sessions σ))%nat).

Lemma goes_checked hd n k : goes s now (Running (Checked hd (Ok n) k)) σ (Running (k n)) σ.
Proof. apply goes_next; [done|]. simpl. by rewrite become_become. Qed.
Lemma goes_prepared hd p : goes s now (Running (Prepared hd p)) σ (Running p) σ.
Proof. apply goes_next; [done|]. simpl. by rewrite become_become. Qed.
Lemma goes_version hd w k n :
  ConfigRelease.scan_uint64 (ConfigRelease.max_version (keep w (omap release_of (visible_rows s (heap σ))))) = Ok n ->
  goes s now (Running (MaxVersion hd w k)) σ (Running (k n)) σ.
Proof. intros E. apply goes_next; [done|]. simpl. by rewrite E, become_become. Qed.
Lemma goes_module hd k r l : omap module_of (visible_rows s (heap σ)) = r :: l ->
  goes s now (Running (FirstModule hd k)) σ (Running (k r)) σ.
Proof. intros E. apply goes_next; [done|]. simpl. by rewrite E, become_become. Qed.
Lemma goes_write hd (q : statement) k : goes s now (Running (Write hd (Ok tt) q k)) σ
  (Writing q (targets s q (heap σ)) 0 k) σ.
Proof. apply goes_next; [done|]. simpl. by rewrite become_become. Qed.
Lemma goes_end (q : statement) n k : goes s now (Writing q [] n k) σ (Running (k n)) σ.
Proof. apply goes_next; [done|]. simpl. by rewrite become_become. Qed.
Lemma goes_finish a : goes s now (Running (Finish (Ok a))) σ (Over (Some a))
  (with_heap (map (settle s) (heap σ)) σ).
Proof. apply goes_next; [done|]. simpl. unfold commit. by rewrite become_with_heap. Qed.
Lemma goes_add hd i p r σ1 : new_row i now σ = (r, σ1) -> admits s (length (heap σ)) r (heap σ) = true ->
  goes s now (Running (AddRow hd i p)) σ (Running p)
    (with_heap (put s (length (heap σ)) (Some r) (heap σ ++ [Slot None None])) σ1).
Proof.
  intros En Ha. apply goes_next; [done|].
  destruct i; simpl in *; injection En as <- <-; rewrite Ha; unfold become, with_heap; simpl;
    by rewrite list_insert_insert_eq.
Qed.
Lemma goes_row (q : statement) l todo n k x r : heap σ !! l = Some x -> may_write s x = true -> visible s x = Some r ->
  matches q r = true ->
  (forall r', result q now r = Some r' -> admits s l r' (heap σ) = true) ->
  goes s now (Writing q (l :: todo) n k) σ (Writing q (filter (fun i => i <> l) todo) (n + 1) k)
    (with_heap (put s l (result q now r) (heap σ)) σ).
Proof.
  intros Hx Hw Hv Hm Ha. apply (goes_visit _ _ _ _ l); [done|]. unfold exec_visit. simpl.
  rewrite Hx. rewrite (bool_decide_true (l ∈ l :: todo)) by left. rewrite Hw, Hv, Hm. simpl.
  rewrite (filter_cons_False (fun i => i <> l)) by auto.
  destruct (result q now r) as [r'|]; [rewrite (Ha r' eq_refl)|]; by rewrite become_with_heap.
Qed.
End one_call.
End goes.

(** ** A statement, row by row *)

(** Nobody else holds a row. *)
Definition mine (s : nat) (h : list slot) : Prop := forall l x s' v, h !! l = Some x ->
  held x = Some (s', v) -> s' = s.

(** The statement changes no key. *)
Definition keeps_keys (q : statement) : Prop := forall now r r' b, matches q r = true ->
  result q now r = Some r' -> row_clash r' b = row_clash r b.

Definition after_statement (s : nat) (q : statement) (now : Z) (x : slot) : slot :=
  match visible s x with
  | Some r => if matches q r then Slot (latest x) (Some (s, result q now r)) else x
  | None => x
  end.

Lemma mine_may_write s h l x : mine s h -> h !! l = Some x -> may_write s x = true.
Proof.
  intros Hm Hx. unfold may_write. destruct (held x) as [[s' v]|] eqn:E; [|done].
  rewrite (Hm l x s' v) by done. apply Nat.eqb_refl.
Qed.

Lemma mine_versions s h l x : mine s h -> h !! l = Some x -> versions s x = option_list (visible s x).
Proof.
  intros Hm Hx. unfold versions, visible, view. destruct (held x) as [[s' v]|] eqn:E; [|done].
  rewrite (Hm l x s' v) by done. by rewrite Nat.eqb_refl.
Qed.

Lemma mine_put s l v h : mine s h -> mine s (put s l v h).
Proof.
  intros Hm i x s' w [[Hi Hx]|[-> (y & Hy & ->)]]%lookup_put Hh; [by eapply Hm|]. by simplify_eq/=.
Qed.

(** Alone, a row with an old key is admitted. *)
Lemma alone_admits s l r r' h x : mine s h -> keys_hold h -> h !! l = Some x -> visible s x = Some r ->
  (forall b, row_clash r' b = row_clash r b) -> admits s l r' h = true.
Proof.
  intros Hm Hk Hx Hv Hc. apply admits_true. intros i y u Hi Hy Hu. rewrite Hc.
  rewrite (mine_versions s h i y) in Hu by done. destruct (visible s y) as [u'|] eqn:E; [|by apply elem_of_nil in Hu].
  apply list_elem_of_singleton in Hu as ->. by apply (Hk (Nat.eqb s) l i x y).
Qed.

Section rows.
Context {A : Type}.
Implicit Types (σ : system A) (s : nat).

Lemma targets_NoDup s q h : NoDup (targets s q h).
Proof. apply NoDup_filter, NoDup_seq. Qed.

Lemma goes_rows_from s now q k h todo n σ : (s < length (sessions σ))%nat -> keeps_keys q -> NoDup todo ->
  mine s (heap σ) -> keys_hold (heap σ) ->
  (forall l, l ∈ todo -> heap σ !! l = h !! l /\ is_target s q h l = true) ->
  (forall l, l ∉ todo -> heap σ !! l = after_statement s q now <$> h !! l) ->
  goes s now (Writing q todo n k) σ (Writing q [] (n + Z.of_nat (length todo)) k)
    (with_heap (map (after_statement s q now) h) σ).
Proof.
  intros Hs Hq. revert n σ Hs. induction todo as [|l todo IH]; intros n σ Hs Hd Hm Hk Hin Hout.
  - replace (with_heap (map (after_statement s q now) h) σ) with σ.
    { simpl. rewrite Z.add_0_r. apply goes_refl. }
    destruct σ as [hp f r ss]. unfold with_heap. simpl in *. f_equal. apply list_eq. intros i.
    rewrite Hout by apply not_elem_of_nil. symmetry. apply list_lookup_fmap.
  - apply NoDup_cons in Hd as [Hl Hd]. destruct (Hin l) as [Hlh Ht]; [by left|]. unfold is_target in Ht.
    destruct (h !! l ≫= visible s) as [r|] eqn:E; [|done]. apply bind_Some in E as (x & Hx & Hv).
    rewrite Hx in Hlh.
    assert (filter (fun i => i <> l) todo = todo) as Hfil.
    { clear -Hl. induction todo as [|i todo IH]; [done|]. rewrite filter_cons_True by set_solver.
      f_equal. apply IH. set_solver. }
    eapply goes_trans.
    { eapply goes_row; [done|exact Hlh|by eapply mine_may_write|exact Hv|exact Ht|].
      intros r' Hr'. eapply alone_admits; [done..|]. intros b. by eapply Hq. }
    rewrite Hfil. replace (n + Z.of_nat (length (l :: todo))) with (n + 1 + Z.of_nat (length todo))
      by (simpl length; lia).
    change (with_heap (map (after_statement s q now) h) σ) with
      (with_heap (map (after_statement s q now) h) (with_heap (put s l (result q now r) (heap σ)) σ)).
    apply IH; simpl; [done|done|by apply mine_put| | |].
    + eapply keys_put; [done|exact Hlh|by eapply mine_may_write|].
      intros r' Hr'. eapply alone_admits; [done..|]. intros b. by eapply Hq.
    + intros i Hi. rewrite put_other by (intros ->; done). apply Hin. by right.
    + intros i Hi. destruct (decide (i = l)) as [->|Hn].
      * rewrite (put_at _ _ _ _ x) by done. rewrite Hx. simpl. unfold after_statement. by rewrite Hv, Ht.
      * rewrite put_other by done. apply Hout. by intros [?|?]%elem_of_cons.
Qed.

Lemma goes_rows s now q k σ : (s < length (sessions σ))%nat -> keeps_keys q -> mine s (heap σ) ->
  keys_hold (heap σ) ->
  goes s now (Writing q (targets s q (heap σ)) 0 k) σ
    (Writing q [] (Z.of_nat (length (targets s q (heap σ)))) k)
    (with_heap (map (after_statement s q now) (heap σ)) σ).
Proof.
  intros Hs Hq Hm Hk. apply (goes_rows_from s now q k (heap σ) _ 0); [done..|apply targets_NoDup|done|done| |].
  - intros l Hl. split; [done|]. by apply list_elem_of_filter in Hl as [? _].
  - intros l Hl. destruct (heap σ !! l) as [x|] eqn:Hx; [|done]. simpl. unfold after_statement.
    destruct (visible s x) as [r|] eqn:Hv; [|done]. destruct (matches q r) eqn:Hmt; [|done].
    destruct Hl. apply elem_of_targets. eauto.
Qed.

(** The number of rows visited. *)
Lemma filter_same {B} (P Q : B -> Prop) `{!forall x, Decision (P x), !forall x, Decision (Q x)} (l : list B) :
  (forall x, x ∈ l -> P x <-> Q x) -> filter P l = filter Q l.
Proof.
  intros Hpq. induction l as [|x l IH]; [done|]. rewrite !filter_cons.
  pose proof (Hpq x ltac:(by left)) as Hx. assert (filter P l = filter Q l) as -> by (apply IH; set_solver).
  destruct (decide (P x)), (decide (Q x)); tauto.
Qed.

Lemma targets_length s q h : length (targets s q h) = count (matches q) (visible_rows s h).
Proof.
  induction h as [|x h IH] using rev_ind; [done|]. unfold targets, visible_rows in *.
  rewrite length_app. simpl length. rewrite seq_app, filter_app, length_app, omap_app.
  unfold count in *. rewrite keep_app, length_app. f_equal.
  - rewrite <- IH. f_equal. apply filter_same. intros l Hl%elem_of_seq. unfold is_target.
    by rewrite lookup_app_l by lia.
  - simpl. rewrite filter_cons. unfold is_target. rewrite lookup_app_r, Nat.sub_diag by lia. simpl.
    destruct (visible s x) as [r|]; simpl; [|done]. by destruct (matches q r).
Qed.
End rows.

(** ** The content a session sees *)

Record represents {A} (s : nat) (σ : system A) (d : database) : Prop := Represents {
  rep_files : tbl d = omap file_of (visible_rows s (heap σ));
  rep_releases : tbl d = omap release_of (visible_rows s (heap σ));
  rep_modules : tbl d = omap module_of (visible_rows s (heap σ));
  rep_file_ids : config_file_id_seq (x_config d) = file_ids σ;
  rep_release_ids : config_file_release_id_seq d = release_ids σ
}.

(** The rows a statement leaves of those a session sees. *)
Definition changed (q : statement) (now : Z) (r : row) : option row :=
  if matches q r then result q now r else Some r.

Lemma visible_after s q now h :
  visible_rows s (map (after_statement s q now) h) = omap (changed q now) (visible_rows s h).
Proof.
  unfold visible_rows. induction h as [|x h IH]; [done|]. simpl. unfold after_statement at 1.
  destruct (visible s x) as [r|] eqn:Hv.
  - simpl. unfold changed at 1. destruct (matches q r); [|rewrite Hv; by f_equal].
    unfold visible at 1, view. simpl. rewrite Nat.eqb_refl. destruct (result q now r); [by f_equal|exact IH].
  - rewrite Hv. exact IH.
Qed.

Definition effect_on {T} (w : T -> bool) (e : effect T) (now : Z) (l : list T) : list T :=
  match e with Lock => l | Set_ f => change w (f now) l | Remove => keep (fun r => negb (w r)) l end.

(** Row by row: each is of the table and matches, or is left alone. *)
Ltac row_by_row rs := intros e; induction rs as [|[r|r|r] rs IH]; [by destruct e|..];
  rewrite !omap_cons; unfold changed at 1; simpl; rewrite ?omap_cons; simpl; try exact IH;
  match goal with w : _ -> bool |- _ => destruct e; simpl; destruct (w r) end;
  simpl; first [exact IH | f_equal; exact IH].

Lemma changed_files w now rs : forall e, omap file_of (omap (changed (OnFiles w e) now) rs) =
  effect_on w e now (omap file_of rs).
Proof. row_by_row rs. Qed.
Lemma changed_releases w now rs : forall e, omap release_of (omap (changed (OnReleases w e) now) rs) =
  effect_on w e now (omap release_of rs).
Proof. row_by_row rs. Qed.
Lemma changed_modules w now rs : forall e, omap module_of (omap (changed (OnModules w e) now) rs) =
  effect_on w e now (omap module_of rs).
Proof. row_by_row rs. Qed.

(** Rows of the other tables are left alone. *)
Lemma changed_apart {T} (proj : row -> option T) q now (rs : list row) :
  (forall r r', matches q r = true -> result q now r = Some r' -> proj r' = None) ->
  (forall r, matches q r = true -> proj r = None) ->
  omap proj (omap (changed q now) rs) = omap proj rs.
Proof.
  intros Hr Hp. induction rs as [|r rs IH]; [done|]. rewrite !omap_cons. unfold changed at 1.
  destruct (matches q r) eqn:E; [|rewrite omap_cons; destruct (proj r); [by f_equal|done]].
  rewrite (Hp r E). destruct (result q now r) as [r'|] eqn:E'; [|done]. by rewrite omap_cons, (Hr r r' E E').
Qed.

(** What a statement does to the table of its rows. *)
Lemma sql_effect_Ok {T} `{!Table T} (w : T -> bool) e now d n d' : sql_effect w e now d = Ok (n, d') ->
  d' = set_tbl (effect_on w e now (tbl d)) d /\ n = Z.of_nat (count w (tbl d)).
Proof.
  destruct e as [|f|]; simpl.
  - unfold p_read. simpl. intros [= <- <-]. by rewrite set_tbl_id.
  - apply update_Ok_inv.
  - unfold sql_delete. by intros [= <- <-].
Qed.

Lemma count_files w e rs : count (matches (OnFiles w e)) rs = count w (omap file_of rs).
Proof.
  unfold count. induction rs as [|[r|r|r] rs IH]; [done|..]; rewrite omap_cons; simpl; [|exact IH..].
  destruct (w r); simpl; congruence.
Qed.
Lemma count_releases w e rs : count (matches (OnReleases w e)) rs = count w (omap release_of rs).
Proof.
  unfold count. induction rs as [|[r|r|r] rs IH]; [done|..]; rewrite omap_cons; simpl; [exact IH| |exact IH].
  destruct (w r); simpl; congruence.
Qed.
Lemma count_modules w e rs : count (matches (OnModules w e)) rs = count w (omap module_of rs).
Proof.
  unfold count. induction rs as [|[r|r|r] rs IH]; [done|..]; rewrite omap_cons; simpl; [exact IH..|].
  destruct (w r); simpl; congruence.
Qed.

Section statements.
Context {A : Type}.
Implicit Types (σ : system A) (s : nat).

(** The statement of the sequential model and the visits agree. *)
Lemma represents_statement s q now σ d n d' : represents s σ d -> sql_statement q now d = Ok (n, d') ->
  represents s (with_heap (map (after_statement s q now) (heap σ)) σ) d' /\
  n = Z.of_nat (length (targets s q (heap σ))).
Proof.
  intros [Rf Rr Rm If Ir] Hq. rewrite targets_length. destruct q as [w e|w e|w e];
    apply sql_effect_Ok in Hq as [-> ->]; (split; [|by rewrite ?count_files, ?count_releases, ?count_modules, ?Rf, ?Rr, ?Rm]);
    split; simpl; try done; rewrite visible_after; rewrite ?tbl_set, ?apart by apply _.
  all: rewrite ?changed_files, ?changed_releases, ?changed_modules, <- ?Rf, <- ?Rr, <- ?Rm; try done.
  all: rewrite changed_apart; [done|intros [r|r|r] r'; try done; destruct e; intros _ ?; by simplify_eq/=
    |by intros [r|r|r]].
Qed.

Lemma visible_empty s h : visible_rows s (h ++ [Slot None None]) = visible_rows s h.
Proof. unfold visible_rows. rewrite omap_app. simpl. by rewrite app_nil_r. Qed.

Lemma visible_added s r h :
  visible_rows s (put s (length h) (Some r) (h ++ [Slot None None])) = visible_rows s h ++ [r].
Proof.
  unfold visible_rows, put. rewrite alter_app_r_alt, Nat.sub_diag by lia. simpl. rewrite omap_app. simpl.
  unfold visible at 2, view. simpl. by rewrite Nat.eqb_refl.
Qed.

(** An INSERT that the sequential model accepts is admitted. *)
Lemma alone_admits_new s r h : mine s h -> (forall u, u ∈ visible_rows s h -> row_clash u r = false) ->
  admits s (length h) r h = true.
Proof.
  intros Hm Hc. apply admits_true. intros i x u _ Hx Hu. rewrite (mine_versions s h i x) in Hu by done.
  destruct (visible s x) as [u'|] eqn:E; [|by apply elem_of_nil in Hu].
  apply list_elem_of_singleton in Hu as ->. rewrite row_clash_sym. apply Hc. unfold visible_rows.
  apply list_elem_of_omap. exists x. split; [by eapply list_elem_of_lookup_2|done].
Qed.

Lemma represents_insertion s i now σ d u d' r σ1 : represents s σ d -> sql_insertion i now d = Ok (u, d') ->
  new_row i now σ = (r, σ1) ->
  (forall v, v ∈ visible_rows s (heap σ) -> row_clash v r = false) /\
  represents s (with_heap (put s (length (heap σ)) (Some r) (heap σ ++ [Slot None None])) σ1) d'.
Proof.
  intros [Rf Rr Rm If Ir] Hi Hn. destruct i as [mk|mk]; simpl in Hi, Hn;
    apply p_bind_Ok in Hi as (id & d1 & E & (m & [-> Hd]%insert_Ok_inv)%p_void_Ok); injection Hn as <- <-.
  - unfold file_nextval in E. injection E as <- <-.
    change (tbl (R:=config_file_row) (set_config _ d)) with (tbl (R:=config_file_row) d) in *.
    rewrite Rf, If in *. split.
    + apply distinct_app in Hd as (_ & _ & Hd). intros [v|v|v] Hv; [|done..]. apply Hd; [|by left].
      apply list_elem_of_omap. by exists (RFile v).
    + split; simpl; rewrite ?visible_added, ?tbl_set, ?omap_app; simpl; rewrite ?app_nil_r; try done.
  - unfold nextval in E. injection E as <- <-. rewrite tbl_set_seq in *. rewrite Rr, Ir in *. split.
    + apply distinct_app in Hd as (_ & _ & Hd). intros [v|v|v] Hv; [done| |done]. apply Hd; [|by left].
      apply list_elem_of_omap. by exists (RRelease v).
    + split; simpl; rewrite ?visible_added, ?tbl_set, ?omap_app; simpl; rewrite ?app_nil_r; try done.
Qed.
End statements.

(** ** Bodies *)

Section alone.
Context `{Env} `{PolarisApi}.

Definition p_handle {A} (hd : handling) (p : P database A) : P database A :=
  match hd with Plain | RollsBack => p | _ => p_map_err store_Error p end.

(** The body as a pure program. *)
Fixpoint p_denote {A} (p : prog A) : P database A :=
  match p with
  | Finish r => p_lift r
  | Checked hd r k => p_bind (p_handle hd (p_lift r)) (fun n => p_denote (k n))
  | Prepared hd p => p_bind (p_handle hd (p_ret tt)) (fun _ => p_denote p)
  | Write hd args q k =>
      p_bind (p_handle hd (fun now d => _ <-? args ;; sql_statement q now d)) (fun n => p_denote (k n))
  | AddRow hd i p => p_bind (p_handle hd (sql_insertion i)) (fun _ => p_denote p)
  | MaxVersion hd w k =>
      p_bind (p_handle hd (p_read (fun d => scan_uint64 (max_version (sql_select w d))))) (fun n => p_denote (k n))
  | FirstModule hd k =>
      p_bind (p_handle hd (p_read (fun d => first_row (Rows (tbl d) None)))) (fun r => p_denote (k r))
  end.

#[export] Instance impl_handle {A} hd (m : M database A) p : Implements m p -> Implements (handle hd m) (p_handle hd p).
Proof. intros Hm. destruct hd; simpl; apply _. Qed.

#[export] Instance impl_denote {A} (p : prog A) : Implements (denote p) (p_denote p).
Proof.
  induction p as [r|hd r k IH|hd p IH|hd args q k IH|hd i p IH|hd w k IH|hd k IH]; simpl; try apply _.
  all: apply impl_bind; [|done]; apply impl_handle; implement.
  - done.
  - unfold p_read, first_row. simpl. by destruct (tbl d).
Qed.

(** No statement of the body changes a key. *)
Fixpoint body_keeps_keys {A} (p : prog A) : Prop :=
  match p with
  | Finish _ => True
  | Checked _ _ k => forall n, body_keeps_keys (k n)
  | Prepared _ p => body_keeps_keys p
  | Write _ _ q k => keeps_keys q /\ forall n, body_keeps_keys (k n)
  | AddRow _ _ p => body_keeps_keys p
  | MaxVersion _ _ k => forall n, body_keeps_keys (k n)
  | FirstModule _ k => forall r, body_keeps_keys (k r)
  end.

Lemma p_handle_Ok {A} hd (p : P database A) now d x : p_handle hd p now d = Ok x <-> p now d = Ok x.
Proof. destruct hd; simpl; rewrite ?p_map_err_Ok; done. Qed.

Lemma mine_after s q now h : mine s h -> mine s (map (after_statement s q now) h).
Proof.
  intros Hm l x s' v (y & Hy & ->)%lookup_map_Some. unfold after_statement.
  destruct (visible s y) as [r|]; [destruct (matches q r)|]; simpl; [by intros [= <- _]|by eapply Hm..].
Qed.

Lemma mine_fresh s h : mine s h -> mine s (h ++ [Slot None None]).
Proof. intros Hm l x s' v [Hx| ->]%lookup_fresh; [by eapply Hm|done]. Qed.

Lemma represents_settled {A} s (σ : system A) d : represents s σ d ->
  represents s (with_heap (map (settle s) (heap σ)) σ) d.
Proof.
  assert (forall h, visible_rows s (map (settle s) h) = visible_rows s h) as Hv.
  { unfold visible_rows. induction h as [|x h IH]; [done|]. simpl.
    assert (visible s (settle s x) = visible s x) as ->; [|by destruct (visible s x); [f_equal|]].
    unfold visible. rewrite view_settle. unfold view. destruct (held x) as [[s' v]|]; [|done].
    by destruct (s =? s')%nat. }
  intros [Rf Rr Rm If Ir]. split; simpl; by rewrite ?Hv.
Qed.

Lemma settled_free s h l x : mine s h -> map (settle s) h !! l = Some x -> held x = None.
Proof.
  intros Hm (y & Hy & ->)%lookup_map_Some. unfold settle. destruct (held y) as [[s' v]|] eqn:E; [|done].
  rewrite (Hm l y s' v) by done. by rewrite Nat.eqb_refl.
Qed.

(** Alone a session reaches its commit, with the content the sequential
    program computes. *)
Lemma alone_runs {A} (p : prog A) : body_keeps_keys p -> forall s now σ d a d',
  (s < length (sessions σ))%nat -> mine s (heap σ) -> keys_hold (heap σ) -> represents s σ d ->
  p_denote p now d = Ok (a, d') ->
  exists σ', goes s now (Running p) σ (Over (Some a)) σ' /\ represents s σ' d' /\ sessions σ' = sessions σ /\
    forall l x, heap σ' !! l = Some x -> held x = None.
Proof.
  induction p as [r|hd r k IH|hd p IH|hd args q k IH|hd i p IH|hd w k IH|hd k IH]; simpl;
    intros Hq s now σ d a d' Hs Hm Hk Hrep Hp.
  - unfold p_lift in Hp. destruct r as [a'|e|w]; simplify_eq/=. eexists. split; [by apply goes_finish|].
    split; [by apply represents_settled|]. split; [done|]. intros l x. by apply settled_free.
  - apply p_bind_Ok in Hp as (n & d1 & Hr%p_handle_Ok & Hp). unfold p_lift in Hr.
    destruct r as [n'|e|w]; simplify_eq/=.
    destruct (IH n (Hq n) s now σ d1 a d') as (σ' & Hg & Hrest); [done..|].
    exists σ'. split; [|done]. eapply goes_trans, Hg. by apply goes_checked.
  - apply p_bind_Ok in Hp as (u & d1 & Hr%p_handle_Ok & Hp). unfold p_ret in Hr. simplify_eq.
    destruct (IH Hq s now σ d1 a d') as (σ' & Hg & Hrest); [done..|].
    exists σ'. split; [|done]. eapply goes_trans, Hg. by apply goes_prepared.
  - apply p_bind_Ok in Hp as (n & d1 & Hr%p_handle_Ok & Hp). destruct args as [[]|e|w]; [|done..].
    destruct Hq as [Hq1 Hq2]. destruct (represents_statement s q now σ d n d1 Hrep Hr) as [Hrep1 ->].
    pose proof (goes_rows s now q k σ Hs Hq1 Hm Hk) as Hg1.
    destruct (IH _ (Hq2 _) s now (with_heap (map (after_statement s q now) (heap σ)) σ) d1 a d' Hs (mine_after s q now _ Hm) (goes_keys _ _ _ _ _ _ Hg1 Hk) Hrep1 Hp)
      as (σ' & Hg & Hrest).
    exists σ'. split; [|done]. eapply goes_trans; [by apply goes_write|].
    eapply goes_trans; [exact Hg1|]. eapply goes_trans, Hg. by apply goes_end.
  - apply p_bind_Ok in Hp as (u & d1 & Hr%p_handle_Ok & Hp). destruct (new_row i now σ) as [r σ1] eqn:En.
    destruct (represents_insertion s i now σ d u d1 r σ1 Hrep Hr En) as [Hc Hrep1].
    assert (sessions σ1 = sessions σ) as Hses by (destruct i; by simplify_eq/=).
    pose proof (goes_add s now σ Hs hd i p r σ1 En (alone_admits_new s r _ Hm Hc)) as Hg1.
    destruct (IH Hq s now (with_heap (put s (length (heap σ)) (Some r) (heap σ ++ [Slot None None])) σ1)
      d1 a d' (eq_ind_r (fun l => (s < length l)%nat) Hs Hses)
      (mine_put s _ _ _ (mine_fresh s _ Hm)) (goes_keys _ _ _ _ _ _ Hg1 Hk) Hrep1 Hp) as (σ' & Hg & Hrep' & Hses' & Hh).
    exists σ'. split; [by eapply goes_trans|]. split; [done|]. split; [|done]. rewrite Hses'. exact Hses.
  - apply p_bind_Ok in Hp as (n & d1 & Hr%p_handle_Ok & Hp). unfold p_read, sql_select in Hr.
    rewrite (rep_releases _ _ _ Hrep) in Hr. destruct (scan_uint64 _) as [n'|e|why] eqn:E; simplify_eq/=.
    destruct (IH _ (Hq _) s now σ d1 a d' Hs Hm Hk Hrep Hp) as (σ' & Hg & Hrest).
    exists σ'. split; [|done]. eapply goes_trans, Hg. by apply goes_version.
  - apply p_bind_Ok in Hp as (r & d1 & Hr%p_handle_Ok & Hp). unfold p_read, first_row in Hr. simpl in Hr.
    rewrite (rep_modules _ _ _ Hrep) in Hr. destruct (omap module_of _) as [|r' l] eqn:E; simplify_eq/=.
    destruct (IH _ (Hq _) s now σ d1 a d' Hs Hm Hk Hrep Hp) as (σ' & Hg & Hrest).
    exists σ'. split; [|done]. eapply goes_trans, Hg. by eapply goes_module.
Qed.

(** The rows of the three tables of a database. *)
Definition rows_of (d : database) : list row :=
  map RFile (tbl d) ++ map RRelease (tbl d) ++ map RModule (tbl d).

(** The system at rest with the content [d]. *)
Definition system_of {A} (d : database) : system A :=
  at_rest (rows_of d) (config_file_id_seq (x_config d)) (config_file_release_id_seq d).

Lemma visible_at_rest s rs : visible_rows s (map (fun r => Slot (Some r) None) rs) = rs.
Proof. unfold visible_rows. rewrite omap_map. apply omap_all. Qed.

Lemma represents_system_of {A} s (d : database) : represents s (system_of (A:=A) d) d.
Proof.
  split; try done; unfold system_of, at_rest; simpl; rewrite visible_at_rest; unfold rows_of;
    rewrite !omap_app, !omap_map; simpl; rewrite ?omap_all, ?omap_none, ?app_nil_r; done.
Qed.

Lemma distinct_rows_of d : db_wf d -> distinct row_clash (rows_of d) = true.
Proof.
  intros Hd. unfold rows_of. rewrite !distinct_app.
  split_and!; try (eapply distinct_map; [|by apply tbl_distinct]; done);
    setoid_rewrite elem_of_app || idtac;
    intros x y (x' & -> & _)%list_elem_of_fmap; setoid_rewrite list_elem_of_fmap; naive_solver.
Qed.

(** The committed rows of the system are those of the database. *)
Definition committed_content {A} (σ : system A) (d : database) : Prop :=
  tbl d = omap file_of (committed_rows (heap σ)) /\
  tbl d = omap release_of (committed_rows (heap σ)) /\
  tbl d = omap module_of (committed_rows (heap σ)).

Lemma visible_free s h : (forall l x, h !! l = Some x -> held x = None) -> visible_rows s h = committed_rows h.
Proof.
  unfold visible_rows, committed_rows. induction h as [|x h IH]; intros Hf; [done|]. rewrite !omap_cons.
  assert (visible s x = latest x) as ->.
  { apply visible_not_held. intros v. by rewrite (Hf 0%nat x). }
  rewrite IH; [done|]. intros l y Hy. by apply (Hf (S l)).
Qed.
End alone.

(** When a body and the commit after it succeed in the sequential model and
    nobody else is there, the session reaches its commit without waiting, and
    the rows it leaves are those of the sequential model. *)
Lemma alone_commits `{Env} `{PolarisApi} (p : prog unit) (c c' : conn database) : body_keeps_keys p ->
  db_wf (committed c) -> txst c = TxOpen -> work c = committed c ->
  Bind (denote p) (fun _ => commit_tx) c = (Ok tt, c') ->
  exists l σ, forallb (of_session 0) l = true /\
    run (Open_ (tx_now c) p :: l) (system_of (committed c)) = Some σ /\
    map outcome (sessions σ) = [Some (Some tt)] /\ committed_content σ (committed c').
Proof.
  intros Hp Hd Ho Hw Hr. apply (finish_spec (denote p) (p_denote p)) in Hr as [Hc _]; [|done].
  simpl in Hc. rewrite Hw in Hc.
  set (σ0 := System (heap (system_of (A:=unit) (committed c))) (file_ids (system_of (A:=unit) (committed c)))
    (release_ids (system_of (A:=unit) (committed c))) [Session (tx_now c) (Running p)]).
  destruct (alone_runs p Hp 0%nat (tx_now c) σ0 (committed c) tt (committed c')) as (σ' & (l & Hl & Hrun) & Hrep & Hses & Hf);
    [simpl; lia| |by apply keys_at_rest, distinct_rows_of|by destruct (represents_system_of (A:=unit) 0 (committed c))|done|].
  { intros l x s' v (r & _ & ->)%lookup_map_Some. done. }
  exists l. eexists. split; [done|]. split; [exact Hrun|]. simpl. rewrite Hses. split; [done|].
  destruct Hrep as [Rf Rr Rm _ _]. rewrite visible_free in Rf, Rr, Rm by done. done.
Qed.
