(* ===== verification/Publishers.v ===== *)
(** * Publishers at the same time (config_file_release.go, l5.go)

    The transactions of [configFileReleaseStore] and of the L5 generator as
    bodies that overlap (file ReadCommitted), each proved to be, call by call
    and fault by fault, the operation of ConfigRelease and L5.  What becomes
    of "one active release per type" when several of them run at once:

    - Sessions that lock the row of the file first, with [LockConfigFile], keep
      it, whatever else runs and however the steps interleave.
    - The lock [CreateConfigFileReleaseTx] takes itself is not enough: it looks
      for a file with the name of the release.
    - Two runs of [genNextL5Sid] hand out the same id. *)
From stdpp Require Import base list strings relations pretty.
From Stdlib Require Import ZArith Lia.
From S2P Require Import Prelude Driver Rows Schema Common ConfigFile ConfigRelease L5 ReadCommitted LockDiscipline SessionAlone.
Open Scope Z_scope.
Open Scope store_scope.

(** ** The operations as bodies *)

Section bodies.
Context `{Env} `{PolarisApi} `{Strconv} `{ReleaseTypes} `{ModelInt}.

Definition uint64_check (n : Z) : res Z := res_map (fun _ => n) (uint64_arg n).

(** [CreateConfigFileReleaseTx], with the lock it takes: the file whose name
    is [data.Name]. *)
Definition create_body (data : ConfigFileRelease) : prog unit :=
  Write RollsBackToStore (Ok tt) (OnFiles (of_key (Namespace data) (Group data) (Name data)) Lock) (fun _ =>
  Write ToStore (Ok tt) (OnReleases (dead_release data) Remove) (fun _ =>
  Write RollsBackToStore (Ok tt) (OnReleases (is_active data) (Set_ (set_active 0))) (fun _ =>
  MaxVersion RollsBackToStore (of_file (Namespace data) (Group data) (FileName data)) (fun maxVersion =>
  Checked RollsBackToStore (uint64_check (maxVersion + 1)) (fun version =>
  AddRow RollsBackToStore (NewRelease (fun id now => new_release_row id version data now))
  (Finish (Ok tt))))))).

(** [ActiveConfigFileReleaseTx] *)
Definition activate_body (release : ConfigFileRelease) : prog unit :=
  Write RollsBack (Ok tt) (OnReleases (is_active release) (Set_ (set_active 0))) (fun _ =>
  MaxVersion RollsBack (of_file (Namespace release) (Group release) (FileName release)) (fun maxVersion =>
  Checked ToStore (uint64_check (maxVersion + 1)) (fun version =>
  Write ToStore (Ok tt)
    (OnReleases (of_release (Namespace release) (Group release) (FileName release) (Name release))
      (Set_ (set_activated version (ReleaseType release)))) (fun _ =>
  Finish (Ok tt))))).

(** [InactiveConfigFileReleaseTx] *)
Definition inactivate_body (release : ConfigFileRelease) : prog unit :=
  Write ToStore (Ok tt) (OnReleases (fun r =>
      of_release (Namespace release) (Group release) (FileName release) (Name release) r &&
      str_eq (cfr_release_type r) (ReleaseType release)) (Set_ (set_active 0))) (fun _ =>
  Finish (Ok tt)).

(** [DeleteConfigFileReleaseTx], [CleanConfigFileReleasesTx] *)
Definition mark_deleted_body (where_ : config_file_release_row -> bool) : prog unit :=
  Write RollsBackToStore (Ok tt) (OnReleases where_ (Set_ set_deleted)) (fun _ => Finish (Ok tt)).

(** [DeleteConfigFileTx] *)
Definition delete_file_body (namespace group name : string) : prog unit :=
  Write RollsBackToStore (Ok tt) (OnFiles (of_key namespace group name) (Set_ set_file_deleted)) (fun _ =>
  Finish (Ok tt)).

(** The transaction of [genNextL5Sid]. *)
Definition sid_after (layoutID : Z) (r : cl5_module_row) : prog string :=
  Checked Plain (scan_uint32 (cl5_module_id r)) (fun mid =>
  Checked Plain (scan_uint32 (cl5_interface_id r)) (fun iid =>
  Checked Plain (scan_uint32 (cl5_range_num r)) (fun rnum =>
  let m := next_module (mid, iid, rnum) in
  Prepared Plain (
  Write Plain (_ <-? int4_arg m.1.1 ;; _ <-? int4_arg m.1.2 ;; _ <-? int4_arg m.2 ;; Ok tt)
    (OnModules (fun _ => true) (Set_ (set_module m))) (fun _ =>
  Finish (Ok (sid_text layoutID m))))))).

Definition sid_body (layoutID : Z) : prog string := FirstModule Plain (sid_after layoutID).

(** An operation after [LockConfigFile] in the same transaction.  The statement
    is that of [LockConfigFile]; that a caller stops when it returns no live
    file is what the theorems about [locked] bodies ask of callers. *)
Definition locked (namespace group name : string) (p : prog unit) : prog unit :=
  Write ToStore (Ok tt) (OnFiles (live_file namespace group name) Lock) (fun n =>
  if n =? 0 then Finish (Err (EMsg "config file not found")) else p).

(** *** They are the operations of the other files *)

(** The same call: the same result and the same connection afterwards,
    whatever faults the environment has. *)
Record same_call {A} (m n : M database A) : Prop := SameCall { same_at : forall c, m c = n c }.
Local Infix "≡m" := same_call (at level 70).

#[local] Instance same_call_equivalence {A} : Equivalence (@same_call A).
Proof.
  split; [by intros m; constructor|by intros m n [E]; constructor|].
  intros m n k [E] [F]. constructor. intros c. by rewrite E.
Qed.

#[local] Instance same_call_bind {A B} :
  Proper (same_call ==> pointwise_relation A same_call ==> same_call) (@Bind database A B).
Proof.
  intros m n [E] f g F. constructor. intros c. unfold Bind. rewrite E.
  destruct (n c) as [[a|e|w] c']; [apply F|done..].
Qed.

#[local] Instance same_call_handle {A} hd : Proper (same_call ==> same_call) (@handle _ _ A hd).
Proof. intros m n [E]. constructor. intros c. destruct hd; simpl; unfold map_err, rolls_back; by rewrite E. Qed.

Lemma bind_bind {A B C} (m : M database A) (f : A -> M database B) (g : B -> M database C) :
  Bind (Bind m f) g ≡m Bind m (fun a => Bind (f a) g).
Proof. constructor. intros c. unfold Bind. by destruct (m c) as [[a|e|w] c']. Qed.

Lemma bind_Ret {A B} (a : A) (f : A -> M database B) : Bind (Ret a) f ≡m f a.
Proof. done. Qed.

(** Statements with the same effect are the same call. *)
Lemma tx_Exec_ext {A} (p q : P database A) c : (forall now d, p now d = q now d) -> tx_Exec p c = tx_Exec q c.
Proof. intros E. unfold tx_Exec. by rewrite E. Qed.

(** Calls under one deferred function, or with one way to treat their errors,
    can be treated one by one. *)
Lemma handle_bind {A B} hd (m : M database A) (f : A -> M database B) :
  handle hd (Bind m f) ≡m Bind (handle hd m) (fun a => handle hd (f a)).
Proof.
  constructor. intros c. destruct hd; simpl; unfold map_err, rolls_back, Bind; [done|..];
    destruct (m c) as [[a|e|w] c']; simpl; try done; by destruct (f a c') as [[] ?].
Qed.

Lemma handle_Ret {A} hd (a : A) : handle hd (Ret a) ≡m Ret a.
Proof. by destruct hd. Qed.

(** A row lock leaves the content as it is. *)
Lemma lock_call (f : database -> Z) :
  void (tx_Exec (p_read (fun d => Ok (f d)))) ≡m void (tx_Exec (p_ret 0)).
Proof.
  constructor. intros c. unfold void, Bind, tx_Exec, p_read, p_ret, res_map, Ret.
  by destruct (txst c), (fault_at (calls c)) as [[]|].
Qed.

(** The wrappers of the source as [handle]. *)
Lemma map_err_handle {A} (m : M database A) : map_err store_Error m = handle ToStore m.
Proof. done. Qed.
Lemma rolls_back_handle {A} (m : M database A) : rolls_back m = handle RollsBack m.
Proof. done. Qed.
Lemma map_err_rolls_back_handle {A} (m : M database A) :
  map_err store_Error (rolls_back m) = handle RollsBackToStore m.
Proof. done. Qed.

Lemma checked_call hd n {B} (f : Z -> M database B) (g : unit -> M database B) :
  (f n ≡m g tt) -> Bind (handle hd (lift (uint64_check n))) f ≡m Bind (handle hd (lift (uint64_arg n))) g.
Proof.
  intros [E]. constructor. intros c. unfold uint64_check, uint64_arg. destruct (_ <? _); simpl.
  - destruct hd; unfold handle, map_err, rolls_back, Bind, lift; simpl; apply E.
  - by destruct hd.
Qed.

Lemma handle_void_bind {A B} hd (m : M database A) (f : unit -> M database B) :
  Bind (handle hd (void m)) f ≡m Bind (handle hd m) (fun _ => f tt).
Proof. unfold void. rewrite handle_bind, bind_bind. f_equiv. intros a. by rewrite handle_Ret. Qed.

Lemma bind_tt hd (m : M database unit) : Bind (handle hd m) (fun _ => lift (Ok tt)) ≡m handle hd m.
Proof. constructor. intros c. unfold Bind. by destruct (handle hd m c) as [[[]|e|w] c']. Qed.

(** The lock of the source, whose result nobody uses. *)
Lemma denote_lock {B} hd w (p : prog B) :
  denote (Write hd (Ok tt) (OnFiles w Lock) (fun _ => p)) ≡m
  Bind (handle hd (void (tx_Exec (p_ret 0)))) (fun _ => denote p).
Proof. rewrite <- (lock_call (fun d => Z.of_nat (count w (tbl d)))), handle_void_bind. done. Qed.

Lemma create_body_denote data : denote (create_body data) ≡m create_release data.
Proof.
  unfold create_release, inactiveConfigFileRelease, create_body.
  rewrite denote_lock, !map_err_rolls_back_handle, !map_err_handle. f_equiv. intros _.
  rewrite handle_void_bind. simpl denote. fold (selectMaxVersion data). f_equiv. intros _.
  rewrite handle_bind, bind_bind. f_equiv. intros _.
  f_equiv. intros v. rewrite !map_err_rolls_back_handle, handle_bind.
  apply checked_call. by rewrite map_err_rolls_back_handle, bind_tt.
Qed.

Lemma activate_body_denote release : denote (activate_body release) ≡m activate release.
Proof.
  unfold activate, inactiveConfigFileRelease, activate_body. simpl denote. fold (selectMaxVersion release).
  rewrite !rolls_back_handle, handle_bind, bind_bind. f_equiv. intros _.
  f_equiv. intros v. rewrite !map_err_handle, handle_bind.
  apply checked_call. unfold void. rewrite handle_bind, map_err_handle. f_equiv. intros _. by rewrite handle_Ret.
Qed.

Lemma sid_body_denote layoutID : denote (sid_body layoutID) ≡m genNextL5Sid_body layoutID.
Proof.
  unfold genNextL5Sid_body, select_module, write_module, sid_body, sid_after. simpl denote.
  rewrite !bind_bind. f_equiv. intros r. rewrite !bind_bind. f_equiv. intros mid.
  rewrite !bind_bind. f_equiv. intros iid. rewrite !bind_bind. f_equiv. intros rnum.
  rewrite bind_Ret. unfold stmt_Exec. rewrite bind_bind. f_equiv. intros _.
  set (m := next_module (mid, iid, rnum)).
  assert (forall now d, update_module m now d =
    (_ <-? (_ <-? int4_arg m.1.1 ;; _ <-? int4_arg m.1.2 ;; _ <-? int4_arg m.2 ;; Ok tt) ;;
     sql_update (fun _ => true) (set_module m) now d)) as E.
  { intros now d. unfold update_module, int4_arg. destruct m as [[a b] k]. simpl.
    by destruct (a <? _), (b <? _), (k <? _). }
  constructor. intros c. unfold Bind. by rewrite (tx_Exec_ext _ _ c E).
Qed.
Lemma one_write_denote hd st (p : M database unit) :
  p ≡m handle hd (void (tx_Exec (sql_statement st))) ->
  denote (Write hd (Ok tt) st (fun _ => Finish (Ok tt))) ≡m p.
Proof. intros ->. rewrite <- (bind_tt hd (void _)), handle_void_bind. done. Qed.

(** The operations of [configFileReleaseStore] that write, as bodies. *)
Definition body_of (op : release_op) : prog unit :=
  match op with
  | OpCreate data => create_body data
  | OpDelete key =>
      mark_deleted_body (of_release (k_Namespace key) (k_Group key) (k_FileName key) (k_Name key))
  | OpClean namespace group fileName => mark_deleted_body (of_file namespace group fileName)
  | OpActive release => activate_body release
  | OpInactive release => inactivate_body release
  end.

Lemma then_commit_same (p q : M database unit) c : p ≡m q ->
  Bind q (fun _ => commit_tx) c = Bind p (fun _ => commit_tx) c.
Proof. intros [E]. unfold Bind. by rewrite E. Qed.

Lemma bodies_run_op op c : run_op op c = Bind (denote (body_of op)) (fun _ => commit_tx) c.
Proof.
  destruct op; apply then_commit_same;
    first [apply create_body_denote | apply activate_body_denote | by apply one_write_denote].
Qed.

(** The bodies that are interleaved below are the operations of the source:
    followed by the commit of the transaction each returns the same result and
    leaves the same connection as the operation, for every state of the
    connection and every sequence of faults. *)
Lemma bodies_are_the_operations (c : conn database) op (ns g f : string) layoutID :
  run_op op c = Bind (denote (body_of op)) (fun _ => commit_tx) c /\
  DeleteConfigFileTx (Some tt) ns g f c = Bind (denote (delete_file_body ns g f)) (fun _ => commit_tx) c /\
  genNextL5Sid layoutID c = Bind Begin (fun _ => defer_rollback (then_commit (denote (sid_body layoutID)))) c.
Proof.
  split_and!; [apply bodies_run_op|by apply then_commit_same, one_write_denote|].
  assert (then_commit (denote (sid_body layoutID)) ≡m then_commit (genNextL5Sid_body layoutID)) as [Es].
  { unfold then_commit. by rewrite sid_body_denote. }
  unfold genNextL5Sid, Bind. destruct (Begin c) as [[u|e|w] c1]; [|done..].
  unfold defer_rollback. by rewrite Es.
Qed.

(** The release operations change no key. *)
Lemma keeps_keys_releases w f : (forall now r, cfr_id (f now r) = cfr_id r /\
    cfr_namespace (f now r) = cfr_namespace r /\ cfr_group (f now r) = cfr_group r /\
    cfr_file_name (f now r) = cfr_file_name r /\ cfr_name (f now r) = cfr_name r) ->
  keeps_keys (OnReleases w (Set_ f)).
Proof.
  intros Hf now [r|r|r] r' b; [done| |done]. intros _ Hr. injection Hr as <-.
  destruct (Hf now r) as (E1 & E2 & E3 & E4 & E5). destruct b as [b|b|b]; [done| |done].
  simpl. unfold clash. simpl. unfold clash_config_file_release. by rewrite E1, E2, E3, E4, E5.
Qed.

Lemma keeps_keys_lock w : keeps_keys (OnFiles w Lock).
Proof. intros now [r|r|r] r' b; [|done..]. intros _ Hr. by injection Hr as <-. Qed.
Lemma keeps_keys_remove w : keeps_keys (OnReleases w Remove).
Proof. by intros now [r|r|r] r' b. Qed.

Lemma body_of_keeps_keys op : body_keeps_keys (body_of op).
Proof.
  assert (forall (q : statement) (P : Prop), keeps_keys q -> P -> keeps_keys q /\ (Z -> P)) as Hw by auto.
  assert (forall w (n : Z), keeps_keys (OnReleases w (Set_ (set_active n)))) as Ha
    by (intros; by apply keeps_keys_releases).
  destruct op; simpl; repeat first [apply Hw | done | apply keeps_keys_lock | apply keeps_keys_remove | apply Ha
    | by apply keeps_keys_releases | intros ?].
Qed.

(** The interleaved model agrees with the sequential one where they meet:
    when a release operation succeeds in the sequential model and nobody else
    is there, its session reaches the commit without waiting, and the rows it
    leaves are those the operation leaves. *)
Lemma operation_alone op (c c' : conn database) :
  db_wf (committed c) -> txst c = TxOpen -> work c = committed c -> run_op op c = (Ok tt, c') ->
  exists l σ, forallb (of_session 0) l = true /\
    run (Open_ (tx_now c) (body_of op) :: l) (system_of (committed c)) = Some σ /\
    map outcome (sessions σ) = [Some (Some tt)] /\ committed_content σ (committed c').
Proof.
  intros Hd Ho Hw Hr. apply alone_commits; [apply body_of_keeps_keys|done..|].
  by rewrite <- Hr, bodies_run_op.
Qed.
End bodies.

(** ** Publishers that lock the file first *)

Section publishers.
Context `{Env} `{PolarisApi} `{Strconv} `{ReleaseTypes}.

Lemma active_as_iff ns g f t r : is_active_of ns g f t r = true <->
  active_as (RRelease r) = Some ((ns, g, f), t, cfr_name r).
Proof.
  unfold is_active_of, of_file. simpl. rewrite !andb_true_iff, !str_eq_true. destruct (cfr_active r =? 1).
  - naive_solver.
  - naive_solver.
Qed.

(** A statement on the rows of config_file, and a DELETE, activate nothing. *)
Lemma quiet_files w e : quiet (OnFiles w e).
Proof. intros now [r|r|r] r' a; [|done..]. destruct e; simpl; intros _ Hr; by simplify_eq/=. Qed.

Lemma quiet_remove w : quiet (OnReleases w Remove).
Proof. intros now [r|r|r] r' a; done. Qed.

(** An UPDATE that leaves the key columns and activates nothing. *)
Lemma quiet_update w f : (forall now r a, active_as (RRelease (f now r)) = Some a -> active_as (RRelease r) = Some a) ->
  quiet (OnReleases w (Set_ f)).
Proof. intros Hf now [r|r|r] r' a; [done| |done]. intros _ Hr. injection Hr as <-. apply Hf. Qed.

Lemma quiet_deactivate w : quiet (OnReleases w (Set_ (set_active 0))).
Proof. apply quiet_update. by intros now r a. Qed.
Lemma quiet_set_deleted w : quiet (OnReleases w (Set_ set_deleted)).
Proof. apply quiet_update. by intros now r a. Qed.

Lemma locks_live_file ns g f : locks (ns, g, f) (OnFiles (live_file ns g f) Lock).
Proof.
  eexists. split; [done|]. intros r. unfold live_file, of_key, key_of.
  rewrite !andb_true_iff, !str_eq_true. by intros [[[-> ->] ->] _].
Qed.

Lemma clears_active x :
  clears (Namespace x, Group x, FileName x) (ReleaseType x) (OnReleases (is_active x) (Set_ (set_active 0))).
Proof.
  split.
  - intros [r|r|r] n Ha; [done| |done]. simpl. rewrite <- is_active_of_same. apply active_as_iff.
    simpl in *. destruct (cfr_active r =? 1); congruence.
  - intros now [r|r|r] r' Hm; [done| |done]. intros Hr. by injection Hr as <-.
Qed.

Lemma raises_activated x v : raises (Namespace x, Group x, FileName x) (ReleaseType x) (Name x)
  (OnReleases (of_release (Namespace x) (Group x) (FileName x) (Name x)) (Set_ (set_activated v (ReleaseType x)))).
Proof.
  intros now [r|r|r] r' a; [done| |done]. simpl. unfold of_release, of_file.
  rewrite !andb_true_iff, !str_eq_true. intros [[[E1 E2] E3] E4] [= <-] Ha. simpl in Ha. injection Ha as <-. by rewrite E1, E2, E3, E4.
Qed.

Lemma raising_new_release x v : raising_insertion (Namespace x, Group x, FileName x) (ReleaseType x) (Name x)
  (NewRelease (fun id now => new_release_row id v x now)).
Proof. intros id now a [= <-]. done. Qed.

Lemma follows_create x : follows (Holding (Namespace x, Group x, FileName x)) (create_body x).
Proof.
  apply follows_quiet; [done|apply quiet_files|]. intros _.
  apply follows_quiet; [done|apply quiet_remove|]. intros _.
  eapply follows_clear; [apply clears_active|]. intros _. apply follows_version. intros v.
  apply follows_checked. intros n. eapply follows_add_raise; [apply raising_new_release|constructor].
Qed.

Lemma follows_activate x : follows (Holding (Namespace x, Group x, FileName x)) (activate_body x).
Proof.
  eapply follows_clear; [apply clears_active|]. intros _. apply follows_version. intros v.
  apply follows_checked. intros n. eapply follows_raise; [apply raises_activated|]. constructor.
Qed.

Lemma follows_locked ns g f p : follows (Holding (ns, g, f)) p -> follows Free (locked ns g f p).
Proof.
  intros Hp. eapply follows_lock; [apply locks_live_file| |constructor].
  intros n Hn. by destruct (Z.eqb_spec n 0); [lia|].
Qed.

(** The transactions of the theorem: publications under the lock of their
    file, and whatever activates no release (deleting, cleaning and
    deactivating releases, anything on files, reads). *)
Inductive well_behaved : prog unit -> Prop :=
| locked_create x : well_behaved (locked (Namespace x) (Group x) (FileName x) (create_body x))
| locked_activate x : well_behaved (locked (Namespace x) (Group x) (FileName x) (activate_body x))
| activates_nothing p : follows Quiet p -> well_behaved p.

Lemma inactivate_quiet x : follows Quiet (inactivate_body x).
Proof. apply follows_quiet; [done|apply quiet_deactivate|constructor]. Qed.
Lemma mark_deleted_quiet w : follows Quiet (mark_deleted_body w).
Proof. apply follows_quiet; [done|apply quiet_set_deleted|constructor]. Qed.
Lemma delete_file_quiet ns g f : follows Quiet (delete_file_body ns g f).
Proof. apply follows_quiet; [done|apply quiet_files|constructor]. Qed.

Lemma well_behaved_disciplined p : well_behaved p -> disciplined p.
Proof.
  intros [x|x|q Hq]; [left; apply follows_locked, follows_create|left; apply follows_locked, follows_activate|by right].
Qed.

(** *** Counting *)

(** Active releases among the rows. *)
Definition active_releases (ns g f t : string) (rs : list row) : nat :=
  count (is_active_of ns g f t) (omap release_of rs).

Lemma one_active_count h : one_active h <->
  forall ns g f t, (active_releases ns g f t (committed_rows h) <= 1)%nat.
Proof.
  unfold active_releases, committed_rows. setoid_rewrite omap_omap. setoid_rewrite count_omap_le.
  setoid_rewrite active_as_iff. split.
  - intros Ho ns g f t i j x y a b Hij Hx Hy (rx & Hlx & Hrx)%bind_Some (ry & Hly & Hry)%bind_Some Ha Hb.
    destruct rx, ry; simplify_eq/=. by eapply (Ho i j).
  - intros Hc i j x y rx ry [[ns g] f] t n m Hij Hx Hy Hlx Hly Ha Hb.
    destruct rx as [|rx|], ry as [|ry|]; try done.
    assert (n = cfr_name rx /\ m = cfr_name ry) as [-> ->].
    { simpl in Ha, Hb. destruct (cfr_active rx =? 1), (cfr_active ry =? 1); simplify_eq. done. }
    apply (Hc ns g f t i j x y rx ry); rewrite ?Hlx, ?Hly; done.
Qed.

Lemma committed_at_rest rs : committed_rows (map (fun r => Slot (Some r) None) rs) = rs.
Proof. unfold committed_rows. induction rs as [|r rs IH]; [done|]. simpl. f_equal. exact IH. Qed.

(** C9: a file has at most one active release of each type in the committed
    content, however many transactions run at the same time and wherever they
    fail, when every transaction that creates or activates a release has
    locked the row of the live file first, with [LockConfigFile] in the same
    transaction.  The others may deactivate, delete and clean releases, change
    files and read: nothing is asked of them except that they activate
    nothing. *)
Theorem locked_publishers_one_active rs σ : reachable well_behaved rs σ ->
  (forall ns g f t, (active_releases ns g f t rs <= 1)%nat) ->
  forall ns g f t, (active_releases ns g f t (committed_rows (heap σ)) <= 1)%nat.
Proof.
  intros Hr Hrs. apply one_active_count, ok_one, (reachable_ok rs).
  - destruct Hr as (Hd & fid & rid & Hr). split; [done|]. exists fid, rid.
    eapply rtc_subrel, Hr. intros σ1 σ2 (a & Ha & Hp). exists a. split; [done|].
    destruct a; [by apply well_behaved_disciplined|done..].
  - intros fid rid. apply one_active_count. unfold at_rest. simpl. by rewrite committed_at_rest.
Qed.

(** ** The lock [CreateConfigFileReleaseTx] takes *)

(** The file and two releases of it, neither named like the file. *)
Definition shared_file : config_file_row :=
  ConfigFileRow 1 "default" "app" "app.yaml" "a: 1" None None 0 0 None 0 None.
Definition release_named (name : string) : ConfigFileRelease :=
  mkConfigFileRelease 0 name "default" "app" "app.yaml" "a: 1" "" "md5" 0 0 "dev" 0 "dev" 0 true true ∅ ""
    "full".

(** Both sessions get past their deactivation before either inserts. *)
Definition to_insert (s : nat) : list (action unit) :=
  [Next s; Next s; Next s; Next s; Next s; Next s; Next s; Next s].
Definition both_create : list (action unit) :=
  [Open_ 10 (create_body (release_named "v1")); Open_ 10 (create_body (release_named "v2"))] ++
  to_insert 0 ++ to_insert 1 ++ [Next 0; Next 0; Next 1; Next 1]%nat.

(** The lock that [CreateConfigFileReleaseTx] takes itself does not keep two
    publishers of a file apart: it is taken on the file whose name is that of
    the release.  From a database with one live file and no releases, two
    creations without [LockConfigFile] run to their commits, both report
    success, and the file has two active releases of the same type. *)
Theorem create_locks_another_file : exists σ,
  reachable (fun p => exists x, p = create_body x) [RFile shared_file] σ /\
  map outcome (sessions σ) = [Some (Some tt); Some (Some tt)] /\
  active_releases "default" "app" "app.yaml" "full" (committed_rows (heap σ)) = 2%nat.
Proof.
  destruct (run_observe (fun σ => (map outcome (sessions σ),
    active_releases "default" "app" "app.yaml" "full" (committed_rows (heap σ))))
    both_create (at_rest [RFile shared_file] 2 1) ([Some (Some tt); Some (Some tt)], 2%nat)) as (σ & Hr & [= E1 E2]);
    [by vm_compute|].
  exists σ. split; [|exact (conj E1 E2)]. split; [done|]. exists 2, 1. eapply run_reaches; [exact Hr|]. repeat constructor; eauto.
Qed.

(** [ActiveConfigFileReleaseTx] takes no lock at all: two activations of
    releases of one file, without [LockConfigFile], leave both active. *)
Definition stored_release (id : Z) (name : string) (version : Z) : config_file_release_row :=
  ConfigFileReleaseRow id name "default" "app" "app.yaml" "a: 1" None "md5" version 0 0 None 0 None None 0 None "full".
Definition both_activate : list (action unit) :=
  [Open_ 10 (activate_body (release_named "v1")); Open_ 10 (activate_body (release_named "v2"));
   Next 0; Next 0; Next 0; Next 0; Next 0; Visit 0 0; Next 0;
   Next 1; Next 1; Next 1; Next 1; Next 1; Visit 1 1; Next 1; Next 0; Next 1]%nat.

Theorem activate_takes_no_lock : exists σ,
  reachable (fun p => exists x, p = activate_body x)
    [RRelease (stored_release 1 "v1" 1); RRelease (stored_release 2 "v2" 2)] σ /\
  map outcome (sessions σ) = [Some (Some tt); Some (Some tt)] /\
  active_releases "default" "app" "app.yaml" "full" (committed_rows (heap σ)) = 2%nat.
Proof.
  destruct (run_observe (fun σ => (map outcome (sessions σ),
    active_releases "default" "app" "app.yaml" "full" (committed_rows (heap σ)))) both_activate
    (at_rest [RRelease (stored_release 1 "v1" 1); RRelease (stored_release 2 "v2" 2)] 1 3)
    ([Some (Some tt); Some (Some tt)], 2%nat)) as (σ & Hr & [= E1 E2]); [by vm_compute|].
  exists σ. split; [|exact (conj E1 E2)]. split; [done|]. exists 1, 3. eapply run_reaches; [exact Hr|]. repeat constructor; eauto.
Qed.

(** The row [CreateConfigFileReleaseTx] locks is the wrong one even for
    callers that have locked the right one: two publications, each under its
    lock, of releases named after each other's files wait for each other. *)
Definition file_named (id : Z) (name : string) : config_file_row :=
  ConfigFileRow id "default" "app" name "a: 1" None None 0 0 None 0 None.
Definition release_of_named (file name : string) : ConfigFileRelease :=
  mkConfigFileRelease 0 name "default" "app" file "a: 1" "" "md5" 0 0 "dev" 0 "dev" 0 true true ∅ "" "full".
Definition locked_creation (x : ConfigFileRelease) : prog unit :=
  locked (Namespace x) (Group x) (FileName x) (create_body x).

Definition lock_both : list (action unit) :=
  [Open_ 10 (locked_creation (release_of_named "a.yaml" "b.yaml"));
   Open_ 10 (locked_creation (release_of_named "b.yaml" "a.yaml"));
   Next 0; Visit 0 0; Next 0; Next 1; Visit 1 1; Next 1; Next 0; Next 1]%nat.

Theorem create_can_deadlock : exists σ,
  reachable well_behaved [RFile (file_named 1 "a.yaml"); RFile (file_named 2 "b.yaml")] σ /\ deadlocked σ = true.
Proof.
  destruct (run_observe deadlocked lock_both
    (at_rest [RFile (file_named 1 "a.yaml"); RFile (file_named 2 "b.yaml")] 3 1) true) as (σ & Hr & E); [by vm_compute|].
  exists σ. split; [|exact E]. split; [done|]. exists 3, 1. eapply run_reaches; [exact Hr|].
  repeat (apply List.Forall_cons; [first [exact I | apply locked_create]|]). apply List.Forall_nil.
Qed.
End publishers.

(** ** Two runs of the L5 generator *)

Section generators.
Context `{Env} `{PolarisApi}.

Lemma int4_arg_ok n : n < 2 ^ 31 -> int4_arg n = Ok n.
Proof. intros Hn. unfold int4_arg. by apply Z.ltb_lt in Hn as ->. Qed.

(** What follows the SELECT, when nobody holds the row: the counters after
    those that were read are written, whatever is in the row by then. *)
Lemma sid_after_goes s now layout m t r0 (σ : system string) : (s < length (sessions σ))%nat ->
  heap σ = [Slot (Some (RModule r0)) None] -> module_ok m -> position m < last_position ->
  goes s now (Running (sid_after layout (Cl5ModuleRow m.1.1 m.1.2 m.2 t))) σ
    (Over (Some (sid_text layout (next_module m))))
    (with_heap [Slot (Some (RModule (set_module (next_module m) now r0))) None] σ).
Proof.
  intros Hs Hh Hm Hp. destruct (next_module_ok m Hm Hp) as [(Hn1 & Hn2 & Hn3) _].
  unfold module_ok in Hm. unfold sid_after. cbn [cl5_module_id cl5_interface_id cl5_range_num].
  rewrite !scan_uint32_ok by lia.
  eapply goes_trans; [by apply goes_checked|]. eapply goes_trans; [by apply goes_checked|].
  eapply goes_trans; [by apply goes_checked|]. eapply goes_trans; [by apply goes_prepared|].
  replace (m.1.1, m.1.2, m.2) with m by by destruct m as [[]].
  generalize dependent (next_module m). intros m' Hn1 Hn2 Hn3.
  rewrite !int4_arg_ok by lia. simpl res_bind.
  eapply goes_trans; [by apply goes_write|]. rewrite Hh. simpl targets.
  eapply goes_trans.
  { eapply (goes_row s now σ Hs _ 0); [by rewrite Hh|done|done|done|].
    intros r' _. apply admits_true. rewrite Hh. intros [|i] x u Hi Hx; [done|by destruct i]. }
  eapply goes_trans; [by apply goes_end|]. rewrite Hh.
  eapply goes_trans; [by apply goes_finish|]. simpl. unfold settle. simpl. rewrite Nat.eqb_refl. apply goes_refl.
Qed.

(** Two sessions that run [genNextL5Sid] at the same time can both commit
    and return the same id, from every state of the counters: the SELECT takes
    no lock, and the UPDATE of the second writes what the first has written. *)
Theorem genNextL5Sid_same_id l1 l2 m t : module_ok m -> position m < last_position ->
  exists σ, reachable (fun p => exists l, p = sid_body l) [RModule (Cl5ModuleRow m.1.1 m.1.2 m.2 t)] σ /\
    map s_state (sessions σ) =
      [Over (Some (sid_text l1 (next_module m))); Over (Some (sid_text l2 (next_module m)))] /\
    exists t', committed_rows (heap σ) =
      [RModule (Cl5ModuleRow (next_module m).1.1 (next_module m).1.2 (next_module m).2 t')].
Proof.
  intros Hm Hp. set (r := Cl5ModuleRow m.1.1 m.1.2 m.2 t).
  set (σ0 := System [Slot (Some (RModule r)) None] 0 0
    [Session 10 (Running (sid_after l1 r)); Session 10 (Running (sid_after l2 r))]).
  destruct (sid_after_goes 0 10 l1 m t r σ0) as (s1 & Hs1 & Hr1); [simpl; lia|done..|].
  set (σ1 := become 0 10 (Over (Some (sid_text l1 (next_module m))))
    (with_heap [Slot (Some (RModule (set_module (next_module m) 10 r))) None] σ0)).
  destruct (sid_after_goes 1 10 l2 m t (set_module (next_module m) 10 r) σ1) as (s2 & Hs2 & Hr2); [simpl; lia|done..|].
  eexists. split; [|split].
  - split; [done|]. exists 0, 0.
    eapply (run_reaches _ ([Open_ 10 (sid_body l1); Open_ 10 (sid_body l2); Next 0; Next 1]%nat ++ s1 ++ s2)).
    + rewrite run_app. transitivity (run (s1 ++ s2) σ0); [reflexivity|].
      rewrite run_app. exact (eq_trans (f_equal (fun x => x ≫= run s2) Hr1) Hr2).
    + rewrite !Forall_app. split; [repeat constructor; eauto|].
      assert (forall s l, forallb (of_session s) l = true -> Forall (fun a : action string =>
        match a with Open_ _ p => exists l, p = sid_body l | _ => True end) l) as Hs.
      { intros s l Hl. apply Forall_forall. intros a Ha%list_elem_of_In. rewrite forallb_forall in Hl.
        by destruct a; [specialize (Hl _ Ha)|..]. }
      by split; eapply Hs.
  - done.
  - by eexists.
Qed.
End generators.
