(* ===== verification/Serial.v ===== *)
(** * Critical sections one after the other (config_file.go, [LockConfigFile])

    Transactions that lock the live row of a file and then read and write
    releases of this file only ([inside]), in any number and interleaved in
    any way (file ReadCommitted).  [run_serial_ok] says that such a system is
    serialisable: the committed releases are those the bodies that committed
    compute, one after the other, each on the committed releases of its turn
    ([history]).  ReleaseTurns applies it to the operations of the store.

    The invariant of a session in its critical section says that whatever its
    body still computes from the releases of the file it sees, the whole body
    computes from the committed ones ([computes]); a statement that is being
    executed counts as finished ([progress]), so visiting a row changes
    nothing. *)
From stdpp Require Import base list strings sets relations.
From Stdlib Require Import ZArith Lia.
From S2P Require Import Prelude Driver Rows Schema Common ConfigFile ConfigRelease ReadCommitted.
From S2P Require Import LockDiscipline SessionAlone Publishers.
Open Scope Z_scope.

Implicit Types (s : nat) (h : list slot) (x : slot) (K : file_key).
Abbreviation release := config_file_release_row.

(** ** Slots by index *)

Definition rows_at {B} (f : nat -> slot -> option B) (h : list slot) : list B :=
  omap (fun l => h !! l ≫= f l) (seq 0 (length h)).

(** Heaps that show the same slot by slot, up to new slots that show nothing. *)
Lemma rows_at_ext {B} (f f' : nat -> slot -> option B) h h' : (length h <= length h')%nat ->
  (forall l x', h' !! l = Some x' ->
    (exists x, h !! l = Some x /\ f l x = f' l x') \/ (h !! l = None /\ f' l x' = None)) ->
  rows_at f' h' = rows_at f h.
Proof.
  intros Hlen Hf. unfold rows_at. replace (length h') with (length h + (length h' - length h))%nat by lia.
  rewrite seq_app, omap_app. simpl. rewrite (omap_nothing _ (seq (length h) _)).
  - rewrite app_nil_r. apply omap_ext_in. intros l Hl%elem_of_seq.
    destruct (lookup_lt_is_Some_2 h' l ltac:(lia)) as [x' Hx']. rewrite Hx'.
    destruct (Hf l x' Hx') as [(x & -> & E)|[Hn _]]; [done|]. apply lookup_ge_None in Hn. lia.
  - intros l Hl%elem_of_seq. destruct (h' !! l) as [x'|] eqn:Hx'; [|done]. simpl.
    destruct (Hf l x' Hx') as [(x & Hx & _)|[_ Hn]]; [|done]. apply lookup_lt_Some in Hx. lia.
Qed.

Lemma rows_at_omap {B} (f : slot -> option B) h : rows_at (fun _ => f) h = omap f h.
Proof.
  unfold rows_at. induction h as [|x h IH] using rev_ind; [done|].
  rewrite length_app. simpl length. rewrite seq_app, !omap_app. f_equal.
  - rewrite <- IH. apply omap_ext_in. intros l Hl%elem_of_seq. by rewrite lookup_app_l by lia.
  - simpl. rewrite lookup_app_r, Nat.sub_diag by lia. simpl. by destruct (f x).
Qed.

(** ** The releases of one file *)

Definition in_file K (r : release) : bool := of_file K.1.1 K.1.2 K.2 r.
Definition row_of K (r : row) : option release :=
  match r with RRelease r => if in_file K r then Some r else None | _ => None end.

(** What the session sees, what is committed, and what it will see once the
    statement has visited the rows it has still to do. *)
Definition seen K s h : list release := rows_at (fun _ x => visible s x ≫= row_of K) h.
Definition stored K h : list release := rows_at (fun _ x => latest x ≫= row_of K) h.
Definition finished (q : statement) (now : Z) (todo : list nat) (l : nat) (r : row) : option row :=
  if bool_decide (l ∈ todo) then changed q now r else Some r.
Definition progress K s (q : statement) (now : Z) (todo : list nat) h : list release :=
  rows_at (fun l x => (visible s x ≫= finished q now todo l) ≫= row_of K) h.

(** The statement on the releases of the file. *)
Definition effect_rows (q : statement) (now : Z) (rows : list release) : list release :=
  match q with OnReleases w e => effect_on w e now rows | _ => rows end.

(** The releases a body may leave of those it starts from.  A refused check
    whose error is only returned leaves the decision to the caller. *)
Inductive computes {A} (now : Z) : prog A -> list release -> list release -> Prop :=
| computes_finish r rows : computes now (Finish r) rows rows
| computes_checked hd n k rows rows' : computes now (k n) rows rows' ->
    computes now (Checked hd (Ok n) k) rows rows'
| computes_refused hd e k rows : hd = Plain \/ hd = ToStore -> computes now (Checked hd (Err e) k) rows rows
| computes_prepared hd p rows rows' : computes now p rows rows' -> computes now (Prepared hd p) rows rows'
| computes_write hd q n k rows rows' : computes now (k n) (effect_rows q now rows) rows' ->
    computes now (Write hd (Ok tt) q k) rows rows'
| computes_add hd mk id p rows rows' : computes now p (rows ++ [mk id now]) rows' ->
    computes now (AddRow hd (NewRelease mk) p) rows rows'
| computes_version hd w k n rows rows' : scan_uint64 (max_version (keep w rows)) = Ok n ->
    computes now (k n) rows rows' -> computes now (MaxVersion hd w k) rows rows'
| computes_unscanned hd w k e rows : hd = Plain \/ hd = ToStore ->
    scan_uint64 (max_version (keep w rows)) = Err e -> computes now (MaxVersion hd w k) rows rows.

(** The body reads and writes releases of the file only, and files only to
    lock them. *)
Definition inside_statement K (q : statement) : Prop :=
  match q with
  | OnFiles _ e => e = Lock
  | OnReleases w e => (forall r, w r = true -> in_file K r = true) /\
      forall f, e = Set_ f -> forall now r, in_file K (f now r) = in_file K r
  | OnModules _ _ => False
  end.

Fixpoint inside {A} K (p : prog A) : Prop :=
  match p with
  | Finish _ => True
  | Checked _ _ k => forall n, inside K (k n)
  | Prepared _ p => inside K p
  | Write _ _ q k => inside_statement K q /\ forall n, inside K (k n)
  | AddRow _ (NewRelease mk) p => (forall id now, in_file K (mk id now) = true) /\ inside K p
  | AddRow _ (NewFile _) _ => False
  | MaxVersion _ w k => (forall r, w r = true -> in_file K r = true) /\ forall n, inside K (k n)
  | FirstModule _ _ => False
  end.

Section rows_of_file.
Context K (q : statement) (now : Z) (Hq : inside_statement K q).

(** Rows that match are changed within the file or stay what they are. *)
Lemma changed_outside r : row_of K r = None -> changed q now r ≫= row_of K = None.
Proof.
  intros Hr. unfold changed. destruct (matches q r) eqn:Hm; [|done].
  destruct q as [w e|w e|w e], r as [r|r|r]; try done; simpl in *.
  - by rewrite Hq.
  - destruct Hq as [Hw _]. by rewrite (Hw r Hm) in Hr.
Qed.

Lemma result_inside r r' : matches q r = true -> result q now r = Some r' ->
  (exists f, r = RFile f /\ r' = RFile f) \/ (row_of K r <> None /\ row_of K r' <> None).
Proof.
  intros Hm Hr. destruct q as [w e|w e|w e], r as [r|r|r]; try done; simpl in *.
  - rewrite Hq in Hr. injection Hr as <-. left. eauto.
  - destruct Hq as [Hw He]. right. specialize (Hw r Hm). rewrite Hw. split; [done|].
    destruct e as [|f|]; simplify_eq/=; [by rewrite Hw|]. by rewrite (He f eq_refl now r), Hw.
Qed.

Lemma effect_rows_spec rs : omap (row_of K) (omap (changed q now) rs) = effect_rows q now (omap (row_of K) rs).
Proof.
  induction rs as [|r rs IH]; [by destruct q as [| w []|]|]. rewrite !omap_cons.
  destruct q as [w e|w e|w e]; [| |done].
  - simpl in Hq. subst e.
    assert (changed (OnFiles w Lock) now r = Some r) as -> by (unfold changed; destruct r as [r|r|r]; simpl; try done; by destruct (w r)).
    rewrite omap_cons. simpl in *. by rewrite IH.
  - destruct Hq as [Hw He]. destruct r as [r|r|r]; [exact IH| |exact IH]. unfold changed at 1. simpl.
    destruct (w r) eqn:E.
    + rewrite (Hw r E). destruct e as [|f|]; simpl; rewrite ?omap_cons; simpl; rewrite ?E, ?(He f eq_refl), ?(Hw r E); simpl;
        first [exact IH | f_equal; exact IH].
    + rewrite omap_cons. simpl. destruct (in_file K r); [|exact IH].
      destruct e as [|f|]; simpl; rewrite ?E; simpl; f_equal; exact IH.
Qed.
End rows_of_file.

(** The other releases do not matter to such a body. *)
Lemma keep_added (p : release -> bool) (l : list release) r :
  keep p (l ++ [r]) = if p r then keep p l ++ [r] else keep p l.
Proof. rewrite keep_app. simpl. destruct (p r); [done|]. apply app_nil_r. Qed.

Lemma keep_inside K w (l : list release) : (forall r, w r = true -> in_file K r = true) ->
  keep w (keep (in_file K) l) = keep w l.
Proof.
  intros Hw. rewrite keep_keep. apply keep_ext. intros r _. destruct (w r) eqn:E; [by rewrite (Hw r E)|apply andb_false_r].
Qed.

Definition in_others K (r : release) : bool := negb (in_file K r).

Lemma effect_rows_inside K q now (l : list release) : inside_statement K q ->
  keep (in_file K) (effect_rows q now l) = effect_rows q now (keep (in_file K) l) /\
  keep (in_others K) (effect_rows q now l) = keep (in_others K) l.
Proof.
  intros Hq. destruct q as [w e|w e|w e]; [done| |done]. destruct Hq as [Hw He]. unfold in_others.
  induction l as [|r l [IH1 IH2]]; [by destruct e|].
  destruct e as [|f|]; [done|..]; simpl in *; destruct (w r) eqn:E; simpl;
    rewrite ?(Hw r E), ?(He f eq_refl), ?(Hw r E); simpl; rewrite ?E; simpl; rewrite ?IH1, ?IH2;
    destruct (in_file K r); simpl; rewrite ?E; simpl; done.
Qed.

Lemma computes_from_file {A} K now (p : prog A) (l l' : list release) : inside K p ->
  computes now p (keep (in_file K) l) l' -> exists l1, computes now p l l1 /\
    keep (in_others K) l1 = keep (in_others K) l /\ keep (in_file K) l1 = l'.
Proof.
  intros Hi Hc. remember (keep (in_file K) l) as m eqn:Hm. revert l Hi Hm.
  induction Hc as [r m|hd n k m m' _ IH|hd e k m He|hd p m m' _ IH|hd q n k m m' _ IH|hd mk id p m m' _ IH
    |hd w k n m m' Hn _ IH|hd w k e m He Hn]; intros l Hi ->; simpl in Hi.
  - exists l. by split; [constructor|].
  - destruct (IH l (Hi n) eq_refl) as (l1 & Hl & Ho). exists l1. by split; [constructor|].
  - exists l. by split; [constructor|].
  - destruct (IH l Hi eq_refl) as (l1 & Hl & Ho). exists l1. by split; [constructor|].
  - destruct Hi as [Hq Hi]. destruct (effect_rows_inside K q now l Hq) as [E1 E2].
    destruct (IH (effect_rows q now l) (Hi n) (eq_sym E1)) as (l1 & Hl & Ho & Hk). exists l1.
    split; [by econstructor|]. by rewrite Ho, E2.
  - destruct Hi as [Hmk Hi].
    destruct (IH (l ++ [mk id now]) Hi) as (l1 & Hl & Ho & Hk); [by rewrite keep_added, Hmk|]. exists l1.
    split; [by econstructor|]. split; [|done]. rewrite Ho, keep_added. unfold in_others at 1. by rewrite Hmk.
  - destruct Hi as [Hw Hi]. rewrite keep_inside in Hn by done.
    destruct (IH l (Hi _) eq_refl) as (l1 & Hl & Ho). exists l1. by split; [by econstructor|].
  - destruct Hi as [Hw Hi]. rewrite keep_inside in Hn by done. exists l. by split; [by econstructor|].
Qed.

(** ** What a session holds *)

(** Row locks on files, and nothing else. *)
Definition file_lock x (v : option row) : Prop := exists r, latest x = Some (RFile r) /\ v = latest x.
(** Releases of the file. *)
Definition file_release K x (v : option row) : Prop :=
  (forall r, latest x = Some r -> row_of K r <> None) /\ (forall r, v = Some r -> row_of K r <> None).

(** Before the critical section, within it, and after the end. *)
Inductive tenure := Outside | Inside (K : file_key) | Gone.

Definition tidy (t : tenure) s h : Prop := forall l x v, h !! l = Some x -> held x = Some (s, v) ->
  match t with
  | Outside => file_lock x v
  | Inside K => file_lock x v \/ file_release K x v
  | Gone => False
  end.

Definition owns_if (t : tenure) s h : Prop := match t with Inside K => owns K s h | _ => True end.

(** Nothing a session holds is a release of a file it does not own. *)
Lemma tidy_apart t s h K l x v : tidy t s h -> t <> Inside K -> (forall K', t = Inside K' -> K' <> K) ->
  h !! l = Some x -> held x = Some (s, v) -> latest x ≫= row_of K = None /\ v ≫= row_of K = None.
Proof.
  intros Ht Hn1 Hn2 Hx Hv. specialize (Ht l x v Hx Hv).
  assert (file_lock x v -> latest x ≫= row_of K = None /\ v ≫= row_of K = None) as Hf.
  { intros (r & Hr & ->). by rewrite Hr. }
  destruct t as [|K'|]; [by apply Hf| |done]. destruct Ht as [Ht|[H1 H2]]; [by apply Hf|].
  specialize (Hn2 K' eq_refl).
  assert (forall r, row_of K' r <> None -> row_of K r = None) as Ha.
  { intros [r|r|r]; [done| |done]. simpl. unfold in_file, of_file.
    destruct K as [[a b] c], K' as [[a' b'] c']. simpl. case_match eqn:E1; [|done]. intros _.
    case_match eqn:E2; [|done]. rewrite !andb_true_iff, !str_eq_true in E1, E2. destruct Hn2.
    destruct E1 as [[<- <-] <-], E2 as [[-> ->] ->]. done. }
  split; [destruct (latest x) as [r|]|destruct v as [r|]]; simpl; try done; apply Ha; [by apply H1|by apply H2].
Qed.

(** *** Steps of other sessions *)

(** For a session that owns [K], another session's step keeps what it holds,
    what it sees of the file, and what is committed of it. *)
Record untouched K s h h' : Prop := Untouched {
  u_frame : frame s None h h';
  u_length : (length h <= length h')%nat;
  u_rows : forall l x', h' !! l = Some x' ->
    (exists x, h !! l = Some x /\ visible s x ≫= row_of K = visible s x' ≫= row_of K /\
       latest x ≫= row_of K = latest x' ≫= row_of K /\
       (visible s x = visible s x' \/ (visible s x ≫= row_of K = None))) \/
    (h !! l = None /\ visible s x' = None /\ latest x' = None)
}.

Lemma length_put s l v h : length (put s l v h) = length h.
Proof. unfold put. apply length_alter. Qed.

(** A slot another session holds shows its committed version. *)
Lemma visible_other s s' x v : s <> s' -> held x = Some (s', v) -> visible s x = latest x.
Proof. intros Hs Hh. unfold visible, view. rewrite Hh. by destruct (Nat.eqb_spec s s'). Qed.

Lemma visible_writable s s' x : s <> s' -> may_write s' x = true -> visible s x = latest x.
Proof.
  intros Hs Hw. unfold may_write in Hw. unfold visible, view. destruct (held x) as [[s1 v]|]; [|done].
  apply Nat.eqb_eq in Hw as <-. by destruct (Nat.eqb_spec s s').
Qed.

Lemma frame_other s s' h h' : s <> s' -> heap_step s' h h' -> frame s None h h'.
Proof. intros Hs Hstep. by eapply (frame_step s None s' (fun _ => True)); [|exact Hstep|intros l x r a _ _ _; left|]. Qed.

Lemma untouched_step K s s' t h h' : s <> s' -> heap_step s' h h' -> tidy t s' h ->
  t <> Inside K -> (forall K', t = Inside K' -> K' <> K) -> untouched K s h h'.
Proof.
  intros Hs Hstep Ht Hn1 Hn2. split.
  { by eapply frame_other. }
  { destruct Hstep; rewrite ?length_put, ?length_app, ?length_map; lia. }
  destruct Hstep as [|l v x Hx Hw _|r _| |].
  - intros l x Hx. left. exists x. split_and!; auto.
  - intros i y [[Hi Hy]|[-> (z & Hz & ->)]]%lookup_put; left; [exists y; split_and!; auto|]. simplify_eq.
    exists x. rewrite (visible_writable s s' x) by done. split_and!; try done; [|left];
      symmetry; by erewrite (visible_other s s') by done.
  - intros i y [[Hi Hy]|[-> (z & Hz & ->)]]%lookup_put.
    + apply lookup_app_Some in Hy as [Hy|[Hlen Hy]]; [left; exists y; split_and!; auto|].
      apply list_lookup_singleton_Some in Hy as [Hi0 <-]. lia.
    + rewrite lookup_app_r, Nat.sub_diag in Hz by lia. injection Hz as <-. right.
      split; [by apply lookup_ge_None|]. by erewrite (visible_other s s') by done.
  - intros l y (x & Hx & ->)%lookup_map_Some. left. exists x. split; [done|].
    destruct (held_cases s' x) as [[v Hv]|Hv].
    + destruct (tidy_apart t s' h K l x v Ht Hn1 Hn2 Hx Hv) as [H1 H2].
      assert (settle s' x = Slot v None) as -> by (unfold settle; by rewrite Hv, Nat.eqb_refl).
      rewrite (visible_other s s' x v) by done. change (visible s (Slot v None)) with v. simpl.
      rewrite H1, H2. auto.
    + assert (settle s' x = x) as ->; [|auto]. unfold settle. destruct (held x) as [[s1 w]|]; [|done].
      destruct (Nat.eqb_spec s' s1) as [<-|]; [by destruct (Hv w)|done].
  - intros l y (x & Hx & ->)%lookup_map_Some. left. exists x. split; [done|]. rewrite latest_release.
    assert (visible s (release_lock s' x) = visible s x) as ->; [|auto].
    unfold visible. rewrite view_release. unfold view. destruct (held x) as [[s1 v]|]; [|done].
    destruct (Nat.eqb_spec s s1) as [<-|]; [|by rewrite andb_false_r].
    by destruct (Nat.eqb_spec s' s) as [->|].
Qed.

Lemma untouched_seen K s h h' : untouched K s h h' -> seen K s h' = seen K s h.
Proof.
  intros [_ Hl Hr]. apply rows_at_ext; [done|]. intros l x' Hx'.
  destruct (Hr l x' Hx') as [(x & Hx & Hv & _)|(Hn & Hv & _)]; [left; eauto|right]. by rewrite Hv.
Qed.

Lemma untouched_stored K s h h' : untouched K s h h' -> stored K h' = stored K h.
Proof.
  intros [_ Hl Hr]. apply rows_at_ext; [done|]. intros l x' Hx'.
  destruct (Hr l x' Hx') as [(x & Hx & _ & Hv & _)|(Hn & _ & Hv)]; [left; eauto|right]. by rewrite Hv.
Qed.

Lemma finished_outside K q now todo l r : inside_statement K q -> row_of K r = None ->
  finished q now todo l r ≫= row_of K = None.
Proof. intros Hq Hr. unfold finished. case_bool_decide; [by apply changed_outside|done]. Qed.

Lemma untouched_progress K s q now todo h h' : inside_statement K q -> untouched K s h h' ->
  progress K s q now todo h' = progress K s q now todo h.
Proof.
  intros Hq [_ Hl Hr]. apply rows_at_ext; [done|]. intros l x' Hx'.
  destruct (Hr l x' Hx') as [(x & Hx & Hv & _ & [E|Hn])|(Hn & Hv & _)]; [left; exists x; split; [done|]; by rewrite E| |right; by rewrite Hv].
  left. exists x. split; [done|]. rewrite Hn in Hv. symmetry in Hv. clear -Hq Hn Hv.
  destruct (visible s x) as [r|], (visible s x') as [r'|]; simpl in *; try done;
    by rewrite ?(finished_outside K q now todo l r), ?(finished_outside K q now todo l r').
Qed.

Lemma frame_tidy t s h h' : frame s None h h' -> tidy t s h -> tidy t s h'.
Proof. intros [_ Fn _] Ht l x v Hx Hv. eapply Ht; [|done]. by eapply Fn. Qed.

Lemma frame_owns K s h h' : frame s None h h' -> owns K s h -> owns K s h'.
Proof. intros [Fk _ _] (l & x & r & v & Hx & ? & ? & Hv). exists l, x, r, v. split; [|done]. by eapply Fk. Qed.

(** *** Steps of the session itself *)

Lemma rows_at_slots {B} (f : nat -> slot -> option B) h h' : length h' = length h ->
  (forall l x', h' !! l = Some x' -> exists x, h !! l = Some x /\ f l x = f l x') -> rows_at f h' = rows_at f h.
Proof.
  intros Hl Hf. apply rows_at_ext; [lia|]. intros l x' Hx'. left. destruct (Hf l x' Hx') as (x & ? & ?). eauto.
Qed.

Lemma stored_latest K h h' : length h' = length h ->
  (forall l x', h' !! l = Some x' -> exists x, h !! l = Some x /\ latest x = latest x') -> stored K h' = stored K h.
Proof.
  intros Hl Hf. apply rows_at_slots; [done|]. intros l x' Hx'. destruct (Hf l x' Hx') as (x & ? & E).
  exists x. split; [done|]. by rewrite E.
Qed.

Lemma put_latest s l v h i x' : put s l v h !! i = Some x' -> exists x, h !! i = Some x /\ latest x = latest x'.
Proof. intros [[_ ?]|[-> (x & ? & ->)]]%lookup_put; eauto. Qed.

Lemma stored_put K s l v h : stored K (put s l v h) = stored K h.
Proof. apply stored_latest; [apply length_put|apply put_latest]. Qed.

(** Where the statement starts, and where it ends. *)
Lemma progress_start K s q now h : inside_statement K q ->
  progress K s q now (targets s q h) h = effect_rows q now (seen K s h).
Proof.
  intros Hq. assert (progress K s q now (targets s q h) h = omap (row_of K) (omap (changed q now) (visible_rows s h))) as ->.
  { unfold visible_rows. rewrite !omap_omap. rewrite <- rows_at_omap. apply rows_at_ext; [done|].
    intros l x Hx. left. exists x. split; [done|]. destruct (visible s x) as [r|] eqn:Hv; [|done]. simpl. f_equal.
    unfold finished. case_bool_decide as Hl; [done|]. unfold changed.
    destruct (matches q r) eqn:Hm; [|done]. destruct Hl. apply elem_of_targets. eauto. }
  rewrite effect_rows_spec by done. unfold seen, visible_rows. by rewrite rows_at_omap, omap_omap.
Qed.

Lemma progress_end K s q now h : progress K s q now [] h = seen K s h.
Proof.
  apply rows_at_ext; [done|]. intros l x Hx. left. exists x. split; [done|].
  cbv beta. by destruct (visible s x).
Qed.

Lemma finished_rest q now todo l i r : i <> l ->
  finished q now (filter (fun i => i <> l) todo) i r = finished q now todo i r.
Proof.
  intros Hi. unfold finished. erewrite bool_decide_ext; [done|]. rewrite list_elem_of_filter. naive_solver.
Qed.

Lemma finished_visited q now todo l r : finished q now (filter (fun i => i <> l) todo) l r = Some r.
Proof. unfold finished. rewrite bool_decide_false; [done|]. rewrite list_elem_of_filter. naive_solver. Qed.

(** A row that is passed over or rewritten has its final value. *)
Lemma progress_pass K s q now todo l h x : h !! l = Some x ->
  (forall r, visible s x = Some r -> matches q r = false) ->
  progress K s q now (filter (fun i => i <> l) todo) h = progress K s q now todo h.
Proof.
  intros Hx Hm. apply rows_at_ext; [done|]. intros i y Hy. left. exists y. split; [done|].
  cbv beta. f_equal. destruct (visible s y) as [r|] eqn:Hv; [|done]. simpl. destruct (decide (i = l)) as [->|Hi].
  - rewrite finished_visited. simplify_eq. unfold finished, changed. rewrite (Hm r Hv). by case_bool_decide.
  - by rewrite finished_rest.
Qed.

Lemma progress_write K s q now todo l h x r : h !! l = Some x -> l ∈ todo -> visible s x = Some r ->
  matches q r = true ->
  progress K s q now (filter (fun i => i <> l) todo) (put s l (result q now r) h) = progress K s q now todo h.
Proof.
  intros Hx Hl Hv Hm. apply rows_at_ext; [by rewrite length_put|].
  intros i y [[Hi Hy]|[-> (z & Hz & ->)]]%lookup_put; left.
  - exists y. split; [done|]. f_equal. destruct (visible s y) as [r'|]; [|done]. simpl. by rewrite finished_rest.
  - simplify_eq. exists x. split; [done|]. f_equal. rewrite Hv. unfold visible, view. simpl. rewrite Nat.eqb_refl.
    unfold finished at 1, changed. rewrite bool_decide_true, Hm by done.
    destruct (result q now r) as [r'|]; [|done]. simpl. by rewrite finished_visited.
Qed.

(** An inserted release comes last. *)
Lemma seen_add K s r h r0 : row_of K r = Some r0 ->
  seen K s (put s (length h) (Some r) (h ++ [Slot None None])) = seen K s h ++ [r0].
Proof.
  intros Hr. unfold seen. rewrite !rows_at_omap, <- !omap_omap.
  change (omap (visible s) ?h) with (visible_rows s h). rewrite visible_added, omap_app. simpl. by rewrite Hr.
Qed.

Lemma stored_add K s v h : stored K (put s (length h) v (h ++ [Slot None None])) = stored K h.
Proof. rewrite stored_put. unfold stored. rewrite !rows_at_omap, omap_app. simpl. by rewrite app_nil_r. Qed.

(** The row a session gives a new version was a row lock, or is a release of
    the file now. *)
Lemma visible_held s x v : held x = Some (s, v) -> visible s x = v.
Proof. intros Hv. unfold visible, view. by rewrite Hv, Nat.eqb_refl. Qed.

Lemma matched_release K q r : inside_statement K q -> matches q r = true ->
  (exists f, r = RFile f) \/ row_of K r <> None.
Proof.
  intros Hq Hm. destruct q as [w e|w e|w e], r as [r|r|r]; try done; [left; eauto|right].
  simpl in *. destruct Hq as [Hw _]. by rewrite (Hw r Hm).
Qed.

Lemma tidy_put t s l h x v : h !! l = Some x -> tidy t s h ->
  match t with Outside => file_lock (Slot (latest x) (Some (s, v))) v
  | Inside K => file_lock (Slot (latest x) (Some (s, v))) v \/ file_release K (Slot (latest x) (Some (s, v))) v
  | Gone => False end -> tidy t s (put s l v h).
Proof.
  intros Hx Ht Hv i y w [[Hi Hy]|[-> (z & Hz & ->)]]%lookup_put Hw; [by eapply Ht|]. by simplify_eq/=.
Qed.

Lemma tidy_write K s q now l h x r : inside_statement K q -> tidy (Inside K) s h -> h !! l = Some x ->
  visible s x = Some r -> matches q r = true -> tidy (Inside K) s (put s l (result q now r) h).
Proof.
  intros Hq Ht Hx Hv Hm. eapply tidy_put; [done..|]. unfold file_lock, file_release. simpl.
  assert (latest x = Some r \/ file_release K x (Some r)) as Hl.
  { destruct (held_cases s x) as [[v Hh]|Hn].
    - rewrite (visible_held s x v Hh) in Hv. subst v. destruct (Ht l x _ Hx Hh) as [(f & _ & E)|Hf]; [by left|by right].
    - left. by rewrite <- (visible_not_held s x). }
  destruct (result q now r) as [r'|] eqn:Hr.
  - destruct (result_inside K q now Hq r r' Hm Hr) as [(f & -> & ->)|[H1 H2]].
    + destruct Hl as [Hl|[_ Hl]]; [left; eauto|]. by destruct (Hl (RFile f) eq_refl).
    + right. split; [|by intros ? [= <-]]. destruct Hl as [->|[Hl _]]; [by intros ? [= <-]|done].
  - right. split; [|done]. destruct (matched_release K q r Hq Hm) as [(f & ->)|H1].
    + destruct q as [w e|w e|w e]; try done. simpl in *. by subst e.
    + destruct Hl as [->|[Hl _]]; [by intros ? [= <-]|done].
Qed.

Lemma tidy_lock s q now l h x r : (exists w, q = OnFiles w Lock) -> tidy Outside s h -> h !! l = Some x ->
  visible s x = Some r -> matches q r = true -> tidy Outside s (put s l (result q now r) h).
Proof.
  intros [w ->] Ht Hx Hv Hm. destruct r as [r|r|r]; [|done..]. eapply tidy_put; [done..|].
  exists r. simpl. assert (latest x = Some (RFile r)) as ->; [|done]. destruct (held_cases s x) as [[v Hh]|Hn].
  - rewrite (visible_held s x v Hh) in Hv. subst v. by destruct (Ht l x _ Hx Hh) as (f & _ & E).
  - by rewrite <- (visible_not_held s x).
Qed.

Lemma tidy_add K s r h : row_of K r <> None -> tidy (Inside K) s h ->
  tidy (Inside K) s (put s (length h) (Some r) (h ++ [Slot None None])).
Proof.
  intros Hr Ht i y w [[Hi [Hy| ->]%lookup_fresh]|[-> (z & Hz & ->)]]%lookup_put Hw; [by eapply Ht|done|].
  rewrite lookup_app_r, Nat.sub_diag in Hz by lia. simplify_eq/=. right. split; [done|]. by intros ? [= <-].
Qed.

Lemma owns_put K s l v h : owns K s h -> owns K s (put s l v h).
Proof.
  intros (i & x & r & w & Hx & Hl & Hk & Hw). destruct (decide (i = l)) as [->|Hi].
  - eexists l, _, r, v. split; [by apply put_at|done].
  - exists i, x, r, w. by rewrite put_other.
Qed.

Lemma owns_add K s v h : owns K s h -> owns K s (put s (length h) v (h ++ [Slot None None])).
Proof.
  intros (i & x & r & w & Hx & ?). apply owns_put. exists i, x, r, w. split; [by apply lookup_app_l_Some|done].
Qed.

(** Before its critical section a session sees what is committed. *)
Lemma outside_visible s h l x : tidy Outside s h -> h !! l = Some x -> visible s x = latest x.
Proof.
  intros Ht Hx. destruct (held_cases s x) as [[v Hh]|Hn]; [|by apply visible_not_held].
  rewrite (visible_held s x v Hh). by destruct (Ht l x v Hx Hh) as (r & _ & ->).
Qed.

Lemma outside_seen K s h : tidy Outside s h -> seen K s h = stored K h.
Proof.
  intros Ht. apply rows_at_ext; [done|]. intros l x Hx. left. exists x. split; [done|].
  cbv beta. by rewrite (outside_visible s h l x).
Qed.

Lemma outside_inside K s h : tidy Outside s h -> tidy (Inside K) s h.
Proof. intros Ht l x v Hx Hv. left. by eapply Ht. Qed.

(** ** Commits *)

Definition releases (h : list slot) : list release := omap release_of (committed_rows h).

Lemma stored_releases K h : stored K h = keep (in_file K) (releases h).
Proof.
  unfold stored, releases, committed_rows. rewrite rows_at_omap, <- omap_omap.
  induction (omap latest h) as [|r rs IH]; [done|]. rewrite !omap_cons, IH.
  destruct r as [r|r|r]; [done| |done]. simpl. by destruct (in_file K r).
Qed.

(** A commit replaces the committed releases of the file by those seen. *)
Lemma releases_settle K s h : tidy (Inside K) s h ->
  releases (map (settle s) h) ≡ₚ keep (in_others K) (releases h) ++ seen K s h.
Proof.
  intros Ht. assert (committed_rows (map (settle s) h) = visible_rows s h) as E.
  { unfold committed_rows, visible_rows. rewrite omap_map. apply omap_ext_in. intros x _. by rewrite visible_settle. }
  unfold releases at 1. rewrite E. rewrite (keep_split (in_file K)) at 1. f_equiv; apply reflexive_eq.
  - unfold releases, visible_rows, committed_rows. rewrite !omap_omap, !keep_omap. apply omap_same. intros l x Hx.
    destruct (held_cases s x) as [[v Hv]|Hn]; [|by rewrite visible_not_held by done].
    rewrite (visible_held s x v Hv). destruct (Ht l x v Hx Hv) as [(r & Hr & ->)|[H1 H2]]; [done|].
    assert (forall o : option row, (forall r, o = Some r -> row_of K r <> None) ->
      (o ≫= release_of) ≫= (fun y => if negb (in_file K y) then Some y else None) = None) as Hnone.
    { intros [[r|r|r]|] Ho; [done| |done..]. simpl. specialize (Ho _ eq_refl). simpl in Ho. by destruct (in_file K r). }
    by rewrite !Hnone.
  - unfold seen, visible_rows. rewrite rows_at_omap, omap_omap, keep_omap. apply omap_ext_in. intros x _.
    destruct (visible s x) as [[r|r|r]|]; done.
Qed.

(** Every other step leaves the committed releases as they are. *)
Lemma releases_put s l v h : releases (put s l v h) = releases h.
Proof.
  unfold releases, committed_rows, put. f_equal. revert l. induction h as [|x h IH]; intros [|l]; [done..|].
  change (alter ?f (S l) (x :: h)) with (x :: alter f l h). rewrite !omap_cons. by rewrite IH.
Qed.

Lemma releases_add s v h : releases (put s (length h) v (h ++ [Slot None None])) = releases h.
Proof. rewrite releases_put. unfold releases, committed_rows. rewrite omap_app. simpl. by rewrite app_nil_r. Qed.

Lemma releases_rollback s h : releases (map (release_lock s) h) = releases h.
Proof.
  unfold releases, committed_rows. f_equal. rewrite omap_map. apply omap_ext_in. intros x _. apply latest_release.
Qed.

Lemma releases_outside s h : tidy Outside s h -> releases (map (settle s) h) = releases h.
Proof.
  intros Ht. unfold releases, committed_rows. f_equal. rewrite omap_map. apply omap_same. intros l x Hx.
  rewrite <- visible_settle. by eapply outside_visible.
Qed.

(** ** The invariant *)

(** The history of a system: the sessions in the order of their commits, with
    the committed releases before and after each. *)
Record entry := Entry { e_session : nat; e_now : Z; e_before : list release; e_after : list release }.

Section serial.
(** [op s now K b]: session [s] begins at [now] to lock the file [K] for the
    body [b]. *)
Context (op : nat -> Z -> file_key -> prog unit -> Prop).
Context (op_inside : forall s now K b, op s now K b -> inside K b).

(** Its body, alone, on the committed releases. *)
Definition takes_turn s (now : Z) (rows rows' : list release) : Prop := exists K b mine,
  op s now K b /\ computes now b (keep (in_file K) rows) mine /\
  rows' ≡ₚ keep (in_others K) rows ++ mine.

Inductive doing s (now : Z) h : tenure -> state unit -> Prop :=
| doing_begin K b : op s now K b -> doing s now h Outside (Running (locked K.1.1 K.1.2 K.2 b))
| doing_lock K b todo n e : op s now K b -> 0 <= n -> (0 < n -> owns K s h) ->
    doing s now h Outside (Writing (OnFiles (live_file K.1.1 K.1.2 K.2) Lock) todo n
      (fun n => if n =? 0 then Finish (Err e) else b))
| doing_refused e : doing s now h Outside (Running (Finish (Err e)))
| doing_work K b p : op s now K b -> inside K p ->
    (forall rows, computes now p (seen K s h) rows -> computes now b (stored K h) rows) ->
    doing s now h (Inside K) (Running p)
| doing_write K b q todo n k : op s now K b -> inside_statement K q -> (forall n, inside K (k n)) ->
    (forall n rows, computes now (k n) (progress K s q now todo h) rows -> computes now b (stored K h) rows) ->
    doing s now h (Inside K) (Writing q todo n k)
| doing_over r : doing s now h Gone (Over r).

Record at_work s (now : Z) h (st : state unit) (t : tenure) : Prop := AtWork {
  aw_tidy : tidy t s h;
  aw_owns : owns_if t s h;
  aw_doing : doing s now h t st
}.

Lemma at_work_over s now h r : (forall l x v, h !! l = Some x -> held x <> Some (s, v)) ->
  at_work s now h (Over r) Gone.
Proof. intros Hn. split; [|done|constructor]. intros l x v Hx Hv. by destruct (Hn l x v). Qed.

(** Where a step of a session leads. *)
Definition leads s now (σ σ' : system unit) : Prop := exists st t, moves s now st (heap σ') σ σ' /\
  at_work s now (heap σ') st t /\
  ((releases (heap σ') = releases (heap σ) /\ forall a, st <> Over (Some a)) \/
   (takes_turn s now (releases (heap σ)) (releases (heap σ')) /\ exists r, st = Over r)).

Lemma leads_abort s now σ : leads s now σ (abort s now σ).
Proof.
  exists (Over None), Gone. split; [by split|]. split; [|left; split; [apply releases_rollback|done]].
  apply at_work_over. intros l x v. apply released.
Qed.

Lemma leads_on s now st t σ : (forall r, st <> Over r) -> at_work s now (heap σ) st t ->
  leads s now σ (become s now st σ).
Proof. intros Hr Ha. exists st, t. split; [by split|]. split; [exact Ha|left]. split; [done|]. intros a. apply Hr. Qed.

Lemma leads_commit s now r σ K b : op s now K b -> tidy (Inside K) s (heap σ) ->
  computes now b (stored K (heap σ)) (seen K s (heap σ)) -> leads s now σ (commit s now r σ).
Proof.
  intros Hb Ht Hc. exists (Over r), Gone. split; [by split|]. split.
  - apply at_work_over. intros l x v. apply settled.
  - right. split; [|by exists r]. exists K, b, (seen K s (heap σ)). split; [done|]. rewrite <- stored_releases.
    split; [exact Hc|by apply releases_settle].
Qed.

Lemma leads_commit_outside s now σ : tidy Outside s (heap σ) -> leads s now σ (commit s now None σ).
Proof.
  intros Ht. exists (Over None), Gone. split; [by split|]. split; [|left; split; [by apply releases_outside|done]].
  apply at_work_over. intros l x v. apply settled.
Qed.

(** A check the body makes in Go. *)
Lemma work_check s now σ K b (p : prog unit) hd (r : res Z) (k : Z -> prog unit) : op s now K b -> tidy (Inside K) s (heap σ) -> owns K s (heap σ) ->
  (forall n, inside K (k n)) ->
  (forall rows, computes now p (seen K s (heap σ)) rows -> computes now b (stored K (heap σ)) rows) ->
  (forall n rows, r = Ok n -> computes now (k n) (seen K s (heap σ)) rows -> computes now p (seen K s (heap σ)) rows) ->
  (forall e, r = Err e -> hd = Plain \/ hd = ToStore -> computes now p (seen K s (heap σ)) (seen K s (heap σ))) ->
  leads s now σ (match r with
                 | Ok n => become s now (Running (k n)) σ
                 | Err e => fail_call s now hd e σ
                 | Panic _ => abort s now σ
                 end).
Proof.
  intros Hb Ht Ho Hi Hc Hok Herr. destruct r as [n|e|w]; simpl; [| |apply leads_abort].
  - apply (leads_on s now _ (Inside K)); [done|]. split; [done..|]. eapply doing_work; [done..|]. eauto.
  - assert (hd = Plain \/ hd = ToStore -> leads s now σ (become s now (Running (Finish (Err e))) σ)) as Hl.
    { intros Hhd. apply (leads_on s now _ (Inside K)); [done|]. split; [done..|]. eapply doing_work; [done..|].
      intros rows Hk. apply Hc. inversion Hk; subst. by eapply Herr. }
    destruct hd; simpl; try apply leads_abort; apply Hl; auto.
Qed.

(** What the session sees of the file is what the query selects from. *)
Lemma keep_seen K s h w : (forall r, w r = true -> in_file K r = true) ->
  keep w (seen K s h) = keep w (omap release_of (visible_rows s h)).
Proof.
  intros Hw. unfold seen. rewrite rows_at_omap, <- omap_omap. change (omap (visible s) ?h) with (visible_rows s h).
  rewrite !keep_omap. apply omap_ext_in. intros [r|r|r] _; [done| |done]. simpl.
  destruct (w r) eqn:E; [rewrite (Hw r E); simpl; by rewrite E|]. destruct (in_file K r); simpl; by rewrite ?E.
Qed.

(** A call of the body. *)
Lemma work_next s now σ σ' K b p : op s now K b -> tidy (Inside K) s (heap σ) -> owns K s (heap σ) -> inside K p ->
  (forall rows, computes now p (seen K s (heap σ)) rows -> computes now b (stored K (heap σ)) rows) ->
  exec_next s now (Running p) σ = Some σ' -> leads s now σ σ'.
Proof.
  intros Hb Ht Ho Hi Hc Hx.
  destruct p as [r|hd r k|hd p|hd args q k|hd i p|hd w k|hd k]; simpl in *; [..|done].
  - simplify_eq. eapply leads_commit; [done..|]. apply Hc. constructor.
  - simplify_eq. eapply work_check; [done..| |]; [intros n rows -> ?; by constructor|intros e -> ?; by constructor].
  - simplify_eq. apply (leads_on s now _ (Inside K)); [done|]. split; [done..|]. eapply doing_work; [done..|]. intros rows Hk. apply Hc. by constructor.
  - destruct args as [[]|e|w]; simplify_eq/=; [|apply leads_abort..].
    apply (leads_on s now _ (Inside K)); [done|]. split; [done..|]. destruct Hi as [Hq Hk].
    eapply doing_write; [done..|]. intros n rows Hn. apply Hc. rewrite progress_start in Hn by done. by econstructor.
  - destruct i as [mk|mk]; simpl in *; [done|]. destruct Hi as [Hmk Hi].
    case_match; [|case_match; [|done]]; simplify_eq/=;
      [|exact (leads_abort s now (System (heap σ) (file_ids σ) (release_ids σ + 1) (sessions σ)))].
    set (r := mk (release_ids σ) now). assert (row_of K (RRelease r) = Some r) as Hr by (simpl; unfold r; by rewrite Hmk).
    exists (Running p), (Inside K). split; [by split|]. simpl. split; [|left; split; [apply releases_add|done]].
    split; [apply tidy_add; [by rewrite Hr|done]|by apply owns_add|].
    eapply doing_work; [done..|]. intros rows Hn. rewrite stored_add. apply Hc. econstructor.
    by rewrite (seen_add K s _ _ r) in Hn.
  - simplify_eq. destruct Hi as [Hw Hi]. rewrite <- (keep_seen K) by done. eapply work_check; [done..| |].
    + intros n rows ? ?. by eapply computes_version.
    + intros e ? ?. by eapply computes_unscanned.
Qed.

Lemma next_leads s now st t σ σ' : at_work s now (heap σ) st t -> exec_next s now st σ = Some σ' -> leads s now σ σ'.
Proof.
  intros [Ht Ho Hd] Hx. inversion Hd; subst.
  - simpl in Hx. simplify_eq. apply (leads_on s now _ Outside); [done|]. split; [done..|]. by apply doing_lock.
  - destruct todo; simplify_eq/=. destruct (Z.eqb_spec n 0) as [->|Hn].
    + apply (leads_on s now _ Outside); [done|]. split; [done..|]. constructor.
    + apply (leads_on s now _ (Inside K)); [done|]. split; [by apply outside_inside|rename select (0 < n -> _) into Hk; apply Hk; lia|].
      eapply doing_work; [done|by eapply op_inside|]. intros rows. by rewrite outside_seen.
  - simpl in Hx. simplify_eq. by apply leads_commit_outside.
  - by eapply work_next.
  - destruct todo; simplify_eq/=. apply (leads_on s now _ (Inside K)); [done|]. split; [done..|].
    rename select (forall n rows, _) into Hc. eapply doing_work; [done..|]. intros rows Hn. eapply Hc. by rewrite progress_end.
  - done.
Qed.

(** A visit. *)
Lemma visit_leads s l now st t σ σ' : at_work s now (heap σ) st t -> exec_visit s l now st σ = Some σ' ->
  leads s now σ σ'.
Proof.
  intros [Ht Ho Hd] Hx. unfold exec_visit in Hx. destruct st as [p|q todo n k|r]; [done| |done].
  destruct (heap σ !! l) as [x|] eqn:El; [|done]. case_bool_decide as Hl; [|done].
  destruct (may_write s x) eqn:Ew; [|done]. simpl in Hx.
  assert ((forall r, visible s x = Some r -> matches q r = false) ->
    leads s now σ (become s now (Writing q (filter (fun i => i <> l) todo) n k) σ)) as Hpass.
  { intros Hm. apply (leads_on s now _ t); [done|]. split; [done..|]. inversion Hd; subst; [by apply doing_lock|].
    eapply doing_write; [done..|]. intros n' rows. erewrite progress_pass by done. eauto. }
  destruct (visible s x) as [r|] eqn:Ev; [destruct (matches q r) eqn:Em|simplify_eq; by apply Hpass];
    [|simplify_eq; apply Hpass; by intros r' [= <-]].
  destruct (match result q now r with Some _ => _ | None => _ end) in Hx;
    [|destruct (match result q now r with Some _ => _ | None => _ end) in Hx; [|done]; simplify_eq; apply leads_abort].
  simplify_eq. eexists _, t. split; [by split|]. simpl. split; [|left; split; [apply releases_put|done]]. inversion Hd; subst.
  - split; [eapply tidy_lock; eauto|done|]. apply doing_lock; [done|lia|]. intros _.
    destruct r as [r|r|r]; [|done..]. eexists l, _, r, _. split; [by apply put_at|]. simpl.
    rewrite <- (outside_visible s (heap σ) l x) by done. split; [done|]. split; [|done].
    destruct (locks_live_file K.1.1 K.1.2 K.2) as (w & [= <-] & Hw). destruct K as [[a c] f]. by apply Hw.
  - split; [by eapply tidy_write|by apply owns_put|]. eapply doing_write; [done..|]. intros n' rows.
    rewrite stored_put. erewrite progress_write by done. eauto.
Qed.

(** *** The system *)

(** The step of another session. *)
Lemma other_at_work s s' now now' h h' st st' t t' : s <> s' -> keys_hold h -> heap_step s' h h' ->
  at_work s' now' h st' t' -> at_work s now h st t -> at_work s now h' st t.
Proof.
  intros Hs Hk Hstep [Ht' Ho' _] [Ht Ho Hd]. pose proof (frame_other s s' h h' Hs Hstep) as Hf.
  assert (forall K, t = Inside K -> untouched K s h h') as Hu.
  { intros K ->. eapply untouched_step; [done..| |].
    - intros ->. by eapply Hs, owns_exclusive.
    - intros K' -> ->. by eapply Hs, owns_exclusive. }
  split; [by eapply frame_tidy|destruct t; [done|by eapply frame_owns|done]|].
  destruct Hd as [K b|K b todo n e Hb Hn How|r|K b p Hb Hi Hc|K b q todo n k Hb Hq Hi Hc|r]; [by constructor| |by constructor| | |by constructor].
  - constructor; [done..|]. intros Hlt. by eapply frame_owns, How.
  - specialize (Hu K eq_refl). apply (doing_work _ _ _ K b); [done..|].
    rewrite (untouched_seen K s h h' Hu), (untouched_stored K s h h' Hu). exact Hc.
  - specialize (Hu K eq_refl). apply (doing_write _ _ _ K b); [done..|].
    rewrite (untouched_progress K s q now todo h h' Hq Hu), (untouched_stored K s h h' Hu). exact Hc.
Qed.

(** Which sessions have had their turn: none before its end, and every one
    that succeeded. *)
Record turns_taken (ts : list nat) (σ : system unit) : Prop := TurnsTaken {
  tt_once : NoDup ts;
  tt_over : forall s, s ∈ ts -> exists y, sessions σ !! s = Some y /\ outcome y <> None;
  tt_all : forall s y, sessions σ !! s = Some y -> outcome y = Some (Some tt) -> s ∈ ts
}.

Inductive history : list entry -> list release -> list release -> Prop :=
| history_nil l : history [] l l
| history_turn ts s now l l1 l2 : history ts l l1 -> takes_turn s now l1 l2 ->
    history (ts ++ [Entry s now l1 l2]) l l2.

Lemma history_entries ts l l' : history ts l l' ->
  Forall (fun e => takes_turn (e_session e) (e_now e) (e_before e) (e_after e)) ts.
Proof. induction 1; [constructor|]. apply Forall_app. split; [done|]. by constructor. Qed.

Record serial_ok (rows : list release) (σ : system unit) (ts : list entry) : Prop := SerialOk {
  so_keys : keys_hold (heap σ);
  so_sessions : forall s y, sessions σ !! s = Some y -> exists t, at_work s (s_now y) (heap σ) (s_state y) t;
  so_holders : forall l x s v, heap σ !! l = Some x -> held x = Some (s, v) -> (s < length (sessions σ))%nat;
  so_taken : turns_taken (map e_session ts) σ;
  so_history : history ts rows (releases (heap σ))
}.

(** A session that moves on from a state that is not its end. *)
Lemma turns_move ts s now st st' σ σ' : turns_taken ts σ -> sessions σ !! s = Some (Session now st) ->
  (forall r, st <> Over r) -> sessions σ' = <[s := Session now st']> (sessions σ) ->
  ((forall a, st' <> Over (Some a)) -> turns_taken ts σ') /\
  (forall r, st' = Over r -> turns_taken (ts ++ [s]) σ').
Proof.
  intros [Hd Ho Ha] Hx Hst Hses. assert (s < length (sessions σ))%nat as Hlt by by eapply lookup_lt_Some.
  assert (s ∉ ts) as Hs.
  { intros (y & Hy & Hout)%Ho. simplify_eq. unfold outcome in Hout. simpl in Hout. destruct st; try done. by eapply Hst. }
  assert (forall s1, s1 ∈ ts -> exists y, sessions σ' !! s1 = Some y /\ outcome y <> None) as Ho'.
  { intros s1 Hs1. destruct (Ho s1 Hs1) as (y & Hy & ?). exists y. rewrite Hses, list_lookup_insert_ne; [done|set_solver]. }
  split.
  - intros Hst'. split; [done|done|]. intros s1 y Hy Hout. rewrite Hses in Hy.
    destruct (decide (s1 = s)) as [->|Hn]; [|by rewrite list_lookup_insert_ne in Hy by done; eapply Ha].
    rewrite list_lookup_insert_eq in Hy by done. injection Hy as <-. unfold outcome in Hout. simpl in Hout.
    destruct st'; simplify_eq. by destruct (Hst' tt).
  - intros r ->. split; [apply NoDup_app; split_and!; [done|set_solver|apply NoDup_singleton]| |].
    + intros s1 [Hs1| ->%list_elem_of_singleton]%elem_of_app; [by apply Ho'|].
      eexists. rewrite Hses, list_lookup_insert_eq by done. done.
    + intros s1 y Hy Hout. rewrite Hses in Hy. apply elem_of_app. destruct (decide (s1 = s)) as [->|Hn]; [by right; left|left].
      rewrite list_lookup_insert_ne in Hy by done. by eapply Ha.
Qed.

Lemma leads_serial_ok rows ts s now st t σ σ' : serial_ok rows σ ts -> sessions σ !! s = Some (Session now st) ->
  (forall r, st <> Over r) -> at_work s now (heap σ) st t -> heap_step s (heap σ) (heap σ') -> leads s now σ σ' ->
  exists u, serial_ok rows σ' (ts ++ u).
Proof.
  intros [Hk Hs Hh Htt Hhist] Hx Hst Hw Hstep (st' & t' & [Hses _] & Hw' & Hturn).
  destruct (turns_move _ s now st st' σ σ' Htt Hx Hst Hses) as [Hsame Hnew].
  assert (s < length (sessions σ))%nat as Hlt by by eapply lookup_lt_Some.
  assert (forall ts', turns_taken (map e_session ts') σ' -> history ts' rows (releases (heap σ')) -> serial_ok rows σ' ts') as Hok.
  { intros ts' Ht' Hh'. split; [by eapply heap_step_keys| | |done|done].
    - intros s1 y Hy. rewrite Hses in Hy. destruct (decide (s1 = s)) as [->|Hn].
      + rewrite list_lookup_insert_eq in Hy by done. injection Hy as <-. by exists t'.
      + rewrite list_lookup_insert_ne in Hy by done. destruct (Hs s1 y Hy) as [t1 Hw1]. exists t1.
        by eapply other_at_work.
    - rewrite Hses, length_insert. by eapply heap_step_holders. }
  destruct Hturn as [[Hrel Ha]|[Hrel [r Hr]]].
  - exists []. rewrite app_nil_r. apply Hok; [by apply Hsame|]. by rewrite Hrel.
  - exists [Entry s now (releases (heap σ)) (releases (heap σ'))]. apply Hok; [rewrite map_app; by eapply Hnew|by econstructor].
Qed.

Lemma open_serial_ok rows ts now K b σ : serial_ok rows σ ts -> op (length (sessions σ)) now K b ->
  serial_ok rows (System (heap σ) (file_ids σ) (release_ids σ)
    (sessions σ ++ [Session now (Running (locked K.1.1 K.1.2 K.2 b))])) ts.
Proof.
  intros [Hk Hs Hh [Hd Ho Ha] Hhist] Hop. split; simpl; [done| | | |done].
  - intros s y [Hy|[Hl [Hs0 <-]%list_lookup_singleton_Some]]%lookup_app_Some; [by apply Hs|].
    assert (s = length (sessions σ)) as -> by lia.
    exists Outside. split; [|done|by constructor].
    intros l x v Hx Hv. specialize (Hh l x _ v Hx Hv). lia.
  - intros l x s v Hx Hv. rewrite length_app. specialize (Hh l x s v Hx Hv). lia.
  - split; simpl; [done| |].
    + intros s (y & Hy & ?)%Ho. exists y. split; [by apply lookup_app_l_Some|done].
    + intros s y [Hy|[_ [_ <-]%list_lookup_singleton_Some]]%lookup_app_Some Hout; [by eapply Ha|done].
Qed.

Lemma exec_serial_ok rows ts a σ σ' : serial_ok rows σ ts -> exec a σ = Some σ' ->
  match a with
  | Open_ now p => exists K b, op (length (sessions σ)) now K b /\ p = locked K.1.1 K.1.2 K.2 b
  | _ => True
  end -> exists u, serial_ok rows σ' (ts ++ u).
Proof.
  intros Hok Hx Hp. pose proof (exec_heap a σ σ' Hx) as Hstep. destruct a as [now p|s|s l|s]; simpl in *.
  - simplify_eq. destruct Hp as (K & b & Hb & ->). exists []. rewrite app_nil_r. by apply open_serial_ok.
  - destruct (sessions σ !! s) as [[now st]|] eqn:Es; [|done]. simpl in Hx.
    destruct (so_sessions _ _ _ Hok s _ Es) as [t Hw]. eapply leads_serial_ok; [done..| |done|done|by eapply next_leads].
    by intros r ->.
  - destruct (sessions σ !! s) as [[now st]|] eqn:Es; [|done]. simpl in Hx.
    destruct (so_sessions _ _ _ Hok s _ Es) as [t Hw]. eapply leads_serial_ok; [done..| |done|done|by eapply visit_leads].
    by intros r ->.
  - destruct (sessions σ !! s) as [[now st]|] eqn:Es; [|done]. simpl in Hx.
    destruct (so_sessions _ _ _ Hok s _ Es) as [t Hw].
    eapply (leads_serial_ok _ _ s now); [done..| |done|done|]; destruct st; simplify_eq/=; try done; apply leads_abort.
Qed.

Lemma at_rest_serial_ok rs fid rid : distinct row_clash rs = true ->
  serial_ok (omap release_of rs) (at_rest rs fid rid) [].
Proof.
  intros Hd. split; [by apply keys_at_rest|done| | |].
  - intros l x s v (r & _ & ->)%lookup_map_Some. done.
  - split; [apply NoDup_nil_2|intros s Hs; by apply elem_of_nil in Hs|done].
  - unfold releases. simpl. rewrite committed_at_rest. constructor.
Qed.
End serial.

(** *** Schedules *)

(** The transactions a schedule opens: the first is session 0, and so on. *)
Definition opening (a : action unit) : option (Z * prog unit) :=
  match a with Open_ now p => Some (now, p) | _ => None end.
Definition openings (l : list (action unit)) : list (Z * prog unit) := omap opening l.

Lemma exec_sessions (a : action unit) σ σ' : exec a σ = Some σ' ->
  length (sessions σ') = (length (sessions σ) + length (openings [a]))%nat.
Proof.
  assert (forall s now hd e (ς : system unit), length (sessions (fail_call s now hd e ς)) = length (sessions ς)) as Hf.
  { intros s now hd e ς. destruct hd; simpl; apply length_insert. }
  destruct a as [now p|s|s l|s]; simpl; rewrite ?Nat.add_0_r.
  { intros [= <-]. apply length_app. }
  all: destruct (sessions σ !! s) as [[now st]|]; [|done]; simpl.
  - intros Hx. unfold exec_next in Hx.
    destruct st as [[r|hd r k|hd p|hd args q k|hd i p|hd w k|hd k]|q [|l todo] n k|r]; simplify_eq/=;
      rewrite ?length_insert; try done.
    + destruct r; simpl; rewrite ?Hf, ?length_insert; done.
    + destruct args; simpl; by rewrite length_insert.
    + destruct i; simpl in Hx; case_match; simplify_eq/=; rewrite ?length_insert; try done;
        case_match; simplify_eq/=; by rewrite length_insert.
    + destruct (scan_uint64 _); simpl; rewrite ?Hf, ?length_insert; done.
    + destruct (omap _ _); [apply Hf|]; simpl. by rewrite length_insert.
  - intros Hx. unfold exec_visit in Hx. repeat case_match; simplify_eq/=; by rewrite ?length_insert.
  - intros Hx. destruct st; simplify_eq/=; by rewrite length_insert.
Qed.

(** Every state on the way has its history, and histories only grow. *)
Lemma run_serial_ok op rows σ0 l : (forall s now K b, op s now K b -> inside K b) -> serial_ok op rows σ0 [] ->
  sessions σ0 = [] -> forall σ, run l σ0 = Some σ ->
  (forall s now p, openings l !! s = Some (now, p) -> exists K b, op s now K b /\ p = locked K.1.1 K.1.2 K.2 b) ->
  length (sessions σ) = length (openings l) /\ exists ts, serial_ok op rows σ ts /\
    forall l1 l2 σ1, l = l1 ++ l2 -> run l1 σ0 = Some σ1 -> exists u v, ts = u ++ v /\ serial_ok op rows σ1 u.
Proof.
  intros Hop H0 Hses. induction l as [|a l IH] using rev_ind; intros σ Hr Ho.
  - simpl in Hr. simplify_eq. split; [by rewrite Hses|]. exists []. split; [done|].
    intros [|] l2 σ1 Hl Hr1; simplify_eq/=. by exists [], [].
  - rewrite run_app in Hr. destruct (run l σ0) as [σ2|] eqn:E; [|done]. simpl in Hr.
    destruct (exec a σ2) as [σ'|] eqn:Ea; [|done]. simplify_eq/=.
    assert (openings (l ++ [a]) = openings l ++ openings [a]) as Hop1 by apply omap_app.
    destruct (IH σ2 eq_refl) as (Hlen & ts & Hok & Hpre).
    { intros s now p Hp. apply Ho. rewrite Hop1. by apply lookup_app_l_Some. }
    destruct (exec_serial_ok op Hop rows ts a σ2 σ Hok Ea) as [u Hok'].
    { destruct a as [now p| | |]; [|done..]. apply Ho. rewrite Hop1, Hlen.
      by rewrite lookup_app_r, Nat.sub_diag by done. }
    split; [by rewrite (exec_sessions a σ2 σ Ea), Hop1, length_app, Hlen|]. exists (ts ++ u). split; [done|].
    intros l1 l2 σ1 Hl Hr1. destruct l2 as [|b l2 _] using rev_ind.
    + rewrite app_nil_r in Hl. subst l1. rewrite run_app, E in Hr1. simpl in Hr1. rewrite Ea in Hr1. simplify_eq/=.
      exists (ts ++ u), []. by rewrite app_nil_r.
    + rewrite app_assoc in Hl. apply app_inj_tail in Hl as [-> ->].
      destruct (Hpre l1 l2 σ1 eq_refl Hr1) as (u1 & v & -> & Hok1). exists u1, (v ++ u). by rewrite app_assoc.
Qed.
