(* ===== verification/ReleaseTurns.v ===== *)
(** * Release operations one after the other (config_file_release.go)

    Every writing operation of [configFileReleaseStore], run after
    [LockConfigFile] of its file in the same transaction: [effect_of] is what
    the operation leaves of the releases, which is what it does in the
    sequential model ([run_op_effect]), and the theorem of this file is that
    overlapping operations leave what some order of them leaves. *)
From stdpp Require Import base list strings sets relations.
From Stdlib Require Import ZArith Lia.
From S2P Require Import Prelude Driver Rows Schema Common ConfigFile ConfigRelease ReadCommitted.
From S2P Require Import LockDiscipline SessionAlone Publishers Serial.
Open Scope Z_scope.

Abbreviation release := config_file_release_row.

(** ** The operations on releases *)

Section operations.
Context `{Env} `{PolarisApi} `{Strconv} `{ReleaseTypes}.

Definition file_of_op (o : release_op) : file_key :=
  match o with
  | OpCreate x | OpActive x | OpInactive x => (Namespace x, Group x, FileName x)
  | OpDelete k => (k_Namespace k, k_Group k, k_FileName k)
  | OpClean namespace group fileName => (namespace, group, fileName)
  end.

Definition next_version (x : ConfigFileRelease) (l : list release) : Z :=
  max_version (keep (of_file (Namespace x) (Group x) (FileName x)) l) + 1.

(** What an operation leaves of the releases.  An activation whose version the
    driver refuses returns an error after it has deactivated the releases of
    the type; a caller that commits all the same keeps that part. *)
Definition effect_of (o : release_op) (id now : Z) (l : list release) : list release :=
  match o with
  | OpCreate x =>
      let l := deactivated x now (keep (fun r => negb (dead_release x r)) l) in
      l ++ [new_release_row id (next_version x l) x now]
  | OpDelete k =>
      change (of_release (k_Namespace k) (k_Group k) (k_FileName k) (k_Name k)) (set_deleted now) l
  | OpClean namespace group fileName => change (of_file namespace group fileName) (set_deleted now) l
  | OpActive x =>
      let l := deactivated x now l in
      if next_version x l <? 2 ^ 63
      then change (of_release (Namespace x) (Group x) (FileName x) (Name x))
             (set_activated (next_version x l) (ReleaseType x) now) l
      else l
  | OpInactive x =>
      change (fun r => of_release (Namespace x) (Group x) (FileName x) (Name x) r &&
        str_eq (cfr_release_type r) (ReleaseType x)) (set_active 0 now) l
  end.

(** It is what the operation does in the sequential model. *)
Lemma update_effect w f (m : M database unit) c c' :
  Implements m (p_map_err store_Error (p_void (sql_update w f))) -> txst c = TxOpen ->
  Bind m (fun _ => commit_tx) c = (Ok tt, c') -> tbl (committed c') = change w (f (tx_now c)) (tbl (R:=release) (work c)).
Proof.
  intros Hm Ho Hr. destruct (finish_spec _ _ _ _ _ Ho Hr) as [Hd _].
  apply p_map_err_Ok, p_void_Ok in Hd as (n & [-> _]%update_Ok_inv). by rewrite tbl_set.
Qed.

Lemma run_op_effect o c c' : txst c = TxOpen -> run_op o c = (Ok tt, c') ->
  exists id, tbl (committed c') = effect_of o id (tx_now c) (tbl (work c)).
Proof.
  intros Ho Hr. destruct o as [x|k|ns g f|x|x]; simpl in Hr.
  - destruct (finish_spec (create_release x) _ _ _ _ Ho Hr) as [(rest & v & -> & -> & _ & -> & _)%p_create_Ok _].
    eexists. rewrite tbl_set. done.
  - exists 0. eapply update_effect, Hr; [apply _|done].
  - exists 0. eapply update_effect, Hr; [apply _|done].
  - destruct (finish_spec (activate x) _ _ _ _ Ho Hr) as [(rest & v & -> & -> & Hv & ->)%p_activate_Ok _].
    exists 0. rewrite tbl_set. simpl. unfold next_version. by apply Z.ltb_lt in Hv as ->.
  - exists 0. eapply update_effect, Hr; [apply _|done].
Qed.

(** *** Their bodies *)

Lemma body_of_inside o : inside (file_of_op o) (body_of o).
Proof.
  assert (forall ns g f n r, of_release ns g f n r = true -> of_file ns g f r = true) as Hn.
  { intros ns g f n r. unfold of_release. by intros [? _]%andb_true_iff. }
  assert (forall d r, is_active d r = true -> of_file (Namespace d) (Group d) (FileName d) r = true) as Ha.
  { intros d r. rewrite <- is_active_of_same. unfold is_active_of. by intros [[? _]%andb_true_iff _]%andb_true_iff. }
  assert (forall d r, dead_release d r = true -> of_file (Namespace d) (Group d) (FileName d) r = true) as Hd.
  { intros d r. unfold dead_release. intros [? _]%andb_true_iff. by eapply Hn. }
  destruct o as [x|k|ns g f|x|x]; simpl; unfold inside_statement, in_file; simpl;
    repeat first [split | intros ?]; simplify_eq/=; try done; try solve [eauto 3].
  - unfold of_file. simpl. by rewrite !str_eq_refl.
  - rename select (_ && _ = true) into Hr. apply andb_true_iff in Hr as [Hr _]. by eapply Hn.
Qed.

(** What the body computes, with some id, is the effect of the operation. *)
Lemma computes_body o now l l' : computes now (body_of o) l l' -> exists id, l' = effect_of o id now l.
Proof.
  intros Hc. destruct o as [x|k|ns g f|x|x]; simpl in Hc;
    unfold create_body, mark_deleted_body, activate_body, inactivate_body, uint64_check, uint64_arg in Hc.
  all: repeat match goal with
    | Hc : computes _ (Checked _ _ _) _ _ |- _ =>
        destruct (_ <? 2 ^ 63) eqn:Hv; simpl in Hc; inversion Hc; clear Hc; subst; cbv beta in *
    | Hs : scan_uint64 _ = Ok _ |- _ => apply scan_uint64_Ok in Hs; subst
    | Hhd : _ = Plain \/ _ = ToStore |- _ => destruct Hhd; discriminate
    | Hc : computes _ _ _ _ |- _ => inversion Hc; clear Hc; subst; cbv beta in *
    end.
  all: simpl; unfold next_version, deactivated; first [by eexists | exists 0].
  all: cbn [effect_rows effect_on] in Hv.
  - by rewrite Hv.
  - by rewrite Hv.
Qed.

(** The effect depends on the rows only, not on their order. *)
Lemma max_version_in (l : list release) : l <> [] -> exists r, r ∈ l /\ max_version l = cfr_version r.
Proof.
  destruct l as [|r l]; [done|]. intros _. simpl. induction l as [|r' l (r1 & Hr1 & E)]; [exists r; by split; [left|]|].
  simpl. rewrite E. destruct (Z.max_spec (cfr_version r') (cfr_version r1)) as [[_ ->]|[_ ->]];
    [exists r1|exists r']; set_solver.
Qed.

#[local] Instance max_version_perm : Proper ((≡ₚ) ==> (=)) max_version.
Proof.
  intros l l' Hp. destruct l as [|r l]; [by apply Permutation_nil_l in Hp as ->|].
  destruct l' as [|r' l']; [by apply Permutation_nil_r in Hp|].
  destruct (max_version_in (r :: l)) as (a & Ha & Ea), (max_version_in (r' :: l')) as (b & Hb & Eb); [done..|].
  pose proof (max_version_le (r' :: l') a ltac:(by rewrite <- Hp)). pose proof (max_version_le (r :: l) b ltac:(by rewrite Hp)).
  lia.
Qed.

#[local] Instance keep_perm {B} (p : B -> bool) : Proper ((≡ₚ) ==> (≡ₚ)) (keep p).
Proof.
  intros l l' Hp. induction Hp as [|b l l' _ IH|b c l|l l' l2 _ IH1 _ IH2]; simpl; [done|..].
  - destruct (p b); [by constructor|done].
  - destruct (p b), (p c); done || by constructor.
  - by rewrite IH1.
Qed.

#[local] Instance change_perm {B} (p : B -> bool) f : Proper ((≡ₚ) ==> (≡ₚ)) (change p f).
Proof. intros l l' Hp. unfold change. by apply Permutation_map. Qed.

#[local] Instance effect_of_perm o id now : Proper ((≡ₚ) ==> (≡ₚ)) (effect_of o id now).
Proof.
  intros l l' Hp. destruct o as [x|k|ns g f|x|x]; simpl; unfold next_version, deactivated; try (by rewrite Hp).
  assert (max_version (keep (of_file (Namespace x) (Group x) (FileName x)) (change (is_active x) (set_active 0 now) l)) =
    max_version (keep (of_file (Namespace x) (Group x) (FileName x)) (change (is_active x) (set_active 0 now) l'))) as ->
    by by rewrite Hp.
  destruct (_ <? _); by rewrite Hp.
Qed.

(** An operation on releases, any of them, after [LockConfigFile] of its file. *)
Definition locked_operation (o : release_op) : prog unit :=
  locked (file_of_op o).1.1 (file_of_op o).1.2 (file_of_op o).2 (body_of o).

(** One turn of a serial execution, and its effect. *)
Record turn := Turn { t_session : nat; t_now : Z; t_op : release_op; t_id : Z }.
Definition take_turn (l : list release) (t : turn) : list release :=
  effect_of (t_op t) (t_id t) (t_now t) l.

(** Session [s] of the schedule runs an operation on [K] with body [b]. *)
Definition begun (schedule : list (action unit)) (s : nat) (now : Z) (K : file_key) (b : prog unit) : Prop :=
  exists o, openings schedule !! s = Some (now, locked_operation o) /\ K = file_of_op o /\ b = body_of o.

Lemma takes_turn_effect schedule s now l l' : takes_turn (begun schedule) s now l l' ->
  exists o id, openings schedule !! s = Some (now, locked_operation o) /\ l' ≡ₚ effect_of o id now l.
Proof.
  intros (K & b & mine & (o & Ho & -> & ->) & Hc & Hl).
  destruct (computes_from_file (file_of_op o) now (body_of o) l mine (body_of_inside o) Hc) as (l1 & Hc1 & Eo & Em).
  apply computes_body in Hc1 as (id & ->). exists o, id. split; [done|]. rewrite Hl, <- Eo, <- Em. symmetry.
  apply keep_split.
Qed.

(** The turn that an entry of the history is. *)
Definition is_turn (schedule : list (action unit)) (e : entry) (t : turn) : Prop :=
  t_session t = e_session e /\
  openings schedule !! t_session t = Some (t_now t, locked_operation (t_op t)) /\
  e_after e ≡ₚ take_turn (e_before e) t.

Lemma entries_are_turns schedule ts : Forall (fun e =>
    takes_turn (begun schedule) (e_session e) (e_now e) (e_before e) (e_after e)) ts ->
  exists turns, Forall2 (is_turn schedule) ts turns.
Proof.
  induction 1 as [|e ts He _ (turns & IH)]; [exists []; constructor|].
  destruct (takes_turn_effect _ _ _ _ _ He) as (o & id & Ho & Hl).
  exists (Turn (e_session e) (e_now e) o id :: turns). by constructor.
Qed.

Lemma turns_sessions schedule ts turns : Forall2 (is_turn schedule) ts turns ->
  map e_session ts = map t_session turns.
Proof. induction 1 as [|e t ts turns [E _] _ IH]; [done|]. simpl. by rewrite E, IH. Qed.

Lemma history_foldl schedule ts l l' turns : history (begun schedule) ts l l' ->
  Forall2 (is_turn schedule) ts turns -> l' ≡ₚ foldl take_turn l turns.
Proof.
  intros Hh. revert turns. induction Hh as [l|ts s now l l1 l2 _ IH _]; intros turns Ht.
  - by apply Forall2_nil_inv_l in Ht as ->.
  - apply Forall2_app_inv_l in Ht as (turns1 & turns2 & H1' & H2' & ->).
    apply Forall2_cons_inv_l in H2' as (t & turns3 & (_ & _ & Hl) & H3' & ->).
    apply Forall2_nil_inv_l in H3' as ->. rewrite foldl_app. simpl in *. rewrite Hl.
    apply effect_of_perm. by apply IH.
Qed.

(** C7: operations on releases that run under the lock of their file are
    strictly serialisable: however many overlap at read committed, in whatever
    order their calls and row visits are scheduled and wherever they fail, from
    rows that keep the primary and unique keys, there is one sequence of turns, each an operation of the schedule with the
    clock of its transaction, such that at every moment the committed releases
    are those a beginning of that sequence leaves, one operation after the
    other, each in full; by then only sessions that have ended have had their
    turn, each at most once, and all that succeeded have had it. *)
Theorem locked_operations_serialize rs fid rid schedule σ : distinct row_clash rs = true ->
  run schedule (at_rest rs fid rid) = Some σ ->
  (forall s now p, openings schedule !! s = Some (now, p) -> exists o, p = locked_operation o) ->
  exists turns,
    (forall t, t ∈ turns -> openings schedule !! t_session t = Some (t_now t, locked_operation (t_op t))) /\
    forall before after σ1, schedule = before ++ after -> run before (at_rest rs fid rid) = Some σ1 ->
      exists past future, turns = past ++ future /\ turns_taken (map t_session past) σ1 /\
        omap release_of (committed_rows (heap σ1)) ≡ₚ foldl take_turn (omap release_of rs) past.
Proof.
  intros Hd Hr Ho.
  destruct (run_serial_ok (begun schedule) (omap release_of rs) (at_rest rs fid rid) schedule) with (σ := σ)
    as (_ & ts & [_ _ _ _ Hhist] & Hpre); [|by apply at_rest_serial_ok|done|done| |].
  - intros s now K b (o & _ & -> & ->). apply body_of_inside.
  - intros s now p Hp. destruct (Ho s now p Hp) as [o ->]. eexists _, _. split; [by exists o|done].
  - destruct (entries_are_turns schedule ts (history_entries _ _ _ _ Hhist)) as [turns Ht]. exists turns. split.
    + intros t [i Hi]%list_elem_of_lookup. destruct (Forall2_lookup_r _ _ _ _ _ Ht Hi) as (e & _ & _ & Hin & _). done.
    + intros before after σ1 Hs Hr1. destruct (Hpre before after σ1 Hs Hr1) as (u & v & -> & [_ _ _ Htt Hh]).
      apply Forall2_app_inv_l in Ht as (past & future & Hp & _ & ->). exists past, future. split; [done|].
      split; [by rewrite <- (turns_sessions schedule u past)|by eapply history_foldl].
Qed.
End operations.
