(* ===== verification/Progress.v ===== *)
(** * Overlapping transactions come to an end

    The liveness of the interleaved model (files ReadCommitted, Publishers and
    ReleaseTurns): sessions that run release operations under the lock of
    their file never wait for each other in a circle, and none runs for ever.
    The one circle the code allows is that of [create_can_deadlock], where the
    release that is created has the name of another file: the lock that
    [CreateConfigFileReleaseTx] takes itself then goes to that file. *)
From stdpp Require Import base list strings relations.
From Stdlib Require Import ZArith Lia.
From S2P Require Import Prelude Driver Rows Schema Common ConfigFile ConfigRelease.
From S2P Require Import ReadCommitted LockDiscipline SessionAlone Publishers Serial ReleaseTurns.
Open Scope Z_scope.
Open Scope store_scope.

(** ** No session runs for ever *)

Section ending.
Context {A : Type}.
Implicit Types (p : prog A) (st : state A) (σ : system A).

(** [later st' st]: a call or a visit can lead from [st] to [st']. *)
Inductive later : state A -> state A -> Prop :=
| later_checked hd r k n : later (Running (k n)) (Running (Checked hd r k))
| later_prepared hd p : later (Running p) (Running (Prepared hd p))
| later_write hd args q k todo n : later (Writing q todo n k) (Running (Write hd args q k))
| later_add hd i p : later (Running p) (Running (AddRow hd i p))
| later_version hd w k n : later (Running (k n)) (Running (MaxVersion hd w k))
| later_module hd k r : later (Running (k r)) (Running (FirstModule hd k))
| later_visit q todo todo' n n' k : (length todo' < length todo)%nat ->
    later (Writing q todo' n' k) (Writing q todo n k)
| later_end q todo n k : later (Running (k n)) (Writing q todo n k)
| later_failed p e : (forall r, p <> Finish r) -> later (Running (Finish (Err e))) (Running p)
| later_over st r : (forall r, st <> Over r) -> later (Over r) st.

Lemma over_ends r : Acc later (Over r).
Proof. constructor. intros st Hst. inversion Hst; subst. rename select (forall r, _) into Hn. by destruct (Hn r). Qed.

Lemma finish_ends_later r : Acc later (Running (Finish r)).
Proof.
  constructor. intros st Hst. inversion Hst; subst; [|apply over_ends].
  rename select (forall r, _) into Hn. by destruct (Hn r).
Qed.

Lemma writing_ends q k : (forall n, Acc later (Running (k n))) -> forall todo n, Acc later (Writing q todo n k).
Proof.
  intros Hk todo. induction todo as [todo IH] using (induction_ltof1 _ (@length nat)). intros n.
  constructor. intros st Hst. inversion Hst; subst; [by apply IH|apply Hk|apply over_ends].
Qed.

Lemma running_ends p : Acc later (Running p).
Proof.
  induction p as [r|hd r k IH|hd p IH|hd args q k IH|hd i p IH|hd w k IH|hd k IH]; [apply finish_ends_later|..];
    constructor; intros st Hst; inversion Hst; subst; try apply over_ends; try apply finish_ends_later; try apply IH.
  by apply writing_ends.
Qed.

Lemma state_ends st : Acc later st.
Proof. destruct st as [p|q todo n k|r]; [apply running_ends|apply writing_ends; intros; apply running_ends|apply over_ends]. Qed.

(** One of the sessions is further on. *)
Definition later_in (l' l : list (state A)) : Prop := exists i x y, l !! i = Some x /\ l' = <[i := y]> l /\ later y x.

Lemma cons_ends x l : Acc later x -> Acc later_in l -> Acc later_in (x :: l).
Proof.
  intros Hx. revert l. induction Hx as [x Hx IHx]. intros l Hl. induction Hl as [l Hl IHl].
  constructor. intros l' (i & a & b & Hi & -> & Hab). destruct i as [|i]; simpl in *.
  - injection Hi as <-. apply IHx; [done|by constructor].
  - apply IHl. by exists i, a, b.
Qed.

Lemma states_end l : Acc later_in l.
Proof.
  induction l as [|x l IH]; [|by apply cons_ends; [apply state_ends|]].
  constructor. intros l' (i & x & y & Hi & _). by rewrite lookup_nil in Hi.
Qed.

(** A session goes on by a call or by a visit. *)
Definition goes_on σ σ' : Prop := exists s, exec (Next s) σ = Some σ' \/ exists l, exec (Visit s l) σ = Some σ'.

Definition states σ : list (state A) := map s_state (sessions σ).

Lemma moved s now st st' σ l : sessions σ !! s = Some (Session now st) -> l = <[s := Session now st']> (sessions σ) ->
  later st' st -> later_in (map s_state l) (states σ).
Proof.
  intros Hs -> Hl. exists s, st, st'. split; [unfold states; by rewrite list_lookup_fmap, Hs|]. split; [|done].
  apply list_fmap_insert.
Qed.

Lemma next_later s now st σ σ' : sessions σ !! s = Some (Session now st) -> exec_next s now st σ = Some σ' ->
  later_in (states σ') (states σ).
Proof.
  intros Hs Hx. unfold exec_next in Hx.
  assert (forall st' σ2, sessions σ2 = sessions σ -> later st' st -> later_in (states (become s now st' σ2)) (states σ)) as Hb.
  { intros st' σ2 E Hl. apply (moved s now st st'); [done| |done]. simpl. by rewrite E. }
  assert ((forall r, st <> Over r) -> forall σ2, sessions σ2 = sessions σ -> later_in (states (abort s now σ2)) (states σ)) as Ha.
  { intros Hn σ2 E. apply (moved s now st (Over None)); [done|simpl; by rewrite E|by constructor]. }
  assert (forall p hd e, st = Running p -> (forall r, p <> Finish r) -> later_in (states (fail_call s now hd e σ)) (states σ)) as Hf.
  { intros p hd e -> Hn. destruct hd; simpl; try (by apply Ha); apply Hb; [done|by constructor|done|by constructor]. }
  destruct st as [[r|hd r k|hd p|hd args q k|hd i p|hd w k|hd k]|q [|l todo] n k|r]; simplify_eq/=.
  - apply (moved s now (Running (Finish r)) (Over (match r with Ok a => Some a | _ => None end))); [done..|by constructor].
  - destruct r; [apply Hb; [done|constructor]|by eapply Hf|by apply Ha].
  - apply Hb; [done|constructor].
  - destruct args; [apply Hb; [done|constructor]|by apply Ha..].
  - destruct i; simpl in Hx; (case_match; [|case_match; [|done]]); simplify_eq/=;
      first [by apply Ha | apply Hb; [done|constructor]].
  - destruct (scan_uint64 _); [apply Hb; [done|constructor]|by eapply Hf|by apply Ha].
  - destruct (omap _ _); [by eapply Hf|apply Hb; [done|constructor]].
  - apply Hb; [done|constructor].
Qed.

Lemma visit_later s l now st σ σ' : sessions σ !! s = Some (Session now st) -> exec_visit s l now st σ = Some σ' ->
  later_in (states σ') (states σ).
Proof.
  intros Hs Hx. unfold exec_visit in Hx. destruct st as [p|q todo n k|r]; [done| |done].
  destruct (heap σ !! l) as [x|]; [|done]. case_bool_decide as Hl; [|done]. simpl in Hx.
  assert (length (filter (fun i => i <> l) todo) < length todo)%nat as Hlt.
  { clear -Hl. induction todo as [|i todo IH]; [by apply elem_of_nil in Hl|]. rewrite filter_cons.
    pose proof (length_filter (fun i => i <> l) todo) as Hle. case_decide as Hi; simpl; [|lia].
    apply elem_of_cons in Hl as [->|Hl]; [done|]. specialize (IH Hl). lia. }
  assert (forall n' σ2, sessions σ2 = sessions σ ->
    later_in (states (become s now (Writing q (filter (fun i => i <> l) todo) n' k) σ2)) (states σ)) as Hb.
  { intros n' σ2 E. apply (moved s now (Writing q todo n k) (Writing q (filter (fun i => i <> l) todo) n' k));
      [done|simpl; by rewrite E|by constructor]. }
  assert (later_in (states (abort s now σ)) (states σ)) as Ha
    by (apply (moved s now (Writing q todo n k) (Over None)); [done..|by constructor]).
  repeat (case_match; simplify_eq; try done); by apply Hb.
Qed.

(** However the sessions are scheduled, they cannot go on for ever. *)
Lemma no_endless_run σ : Acc (fun σ2 σ1 => goes_on σ1 σ2) σ.
Proof.
  assert (forall l, Acc later_in l -> forall σ, states σ = l -> Acc (fun σ2 σ1 => goes_on σ1 σ2) σ) as Hacc;
    [|by eapply Hacc; [apply states_end|]].
  intros l Hl. induction Hl as [l _ IH]. intros σ1 <-. constructor. intros σ2 (s & Hx).
  eapply IH; [|done]. destruct Hx as [Hx|[i Hx]]; simpl in Hx;
    destruct (sessions σ1 !! s) as [[now st]|] eqn:Es; try done; simpl in Hx; [by eapply next_later|by eapply visit_later].
Qed.
End ending.

(** ** What the sessions of locked operations keep *)

Section ready.
Context (rs : list row).               (* the rows there were at first *)
Implicit Types (h : list slot) (x : slot) (K : file_key).

(** The statements keep the keys of the rows, and the files they lock have
    the key [K]. *)
Definition orderly_statement K (q : statement) : Prop :=
  match q with
  | OnFiles w e => forall r, RFile r ∈ rs -> w r = true -> key_of r = K
  | OnReleases w e => keeps_keys q /\ forall f, e = Set_ f -> forall now r, cfr_id (f now r) = cfr_id r
  | OnModules _ _ => False
  end.

Fixpoint orderly K (p : prog unit) : Prop :=
  match p with
  | Finish _ => True
  | Checked _ _ k => forall n, orderly K (k n)
  | Prepared _ p => orderly K p
  | Write _ _ q k => orderly_statement K q /\ forall n, orderly K (k n)
  | AddRow _ (NewRelease mk) p => (forall id now, cfr_id (mk id now) = id) /\ orderly K p
  | AddRow _ (NewFile _) _ => False
  | MaxVersion _ _ k => forall n, orderly K (k n)
  | FirstModule _ _ => False
  end.

(** The versions of a slot, and what is known of all of them: files are those
    there were at first, and the ids of releases are below their sequence. *)
Definition has_version x (r : row) : Prop := latest x = Some r \/ exists s, held x = Some (s, Some r).
Definition known_row (n : Z) (r : row) : Prop :=
  match r with RFile _ => r ∈ rs | RRelease r => cfr_id r < n | RModule _ => True end.
Definition known n h : Prop := forall l x r, h !! l = Some x -> has_version x r -> known_row n r.

Definition holds_none s h : Prop := forall l x v, h !! l = Some x -> held x <> Some (s, v).

(** Where a session may be, with what it needs to go on. *)
Inductive ready s h : state unit -> Prop :=
| ready_begin K b : inside K b -> orderly K b -> holds_none s h ->
    ready s h (Running (locked K.1.1 K.1.2 K.2 b))
| ready_lock K b todo n e : inside K b -> orderly K b -> 0 <= n -> (0 < n -> owns K s h) ->
    (forall l, l ∈ todo -> exists x f, h !! l = Some x /\ latest x = Some (RFile f) /\ key_of f = K) ->
    (holds_none s h \/ todo = []) ->
    ready s h (Writing (OnFiles (live_file K.1.1 K.1.2 K.2) Lock) todo n (fun n => if n =? 0 then Finish (Err e) else b))
| ready_refused e : ready s h (Running (Finish (Err e)))
| ready_run K p : owns K s h -> inside K p -> orderly K p -> ready s h (Running p)
| ready_write K q todo n k : owns K s h -> inside_statement K q -> orderly_statement K q ->
    (forall n, inside K (k n)) -> (forall n, orderly K (k n)) ->
    (forall l, l ∈ todo -> exists x r, h !! l = Some x /\ visible s x = Some r /\
       (row_of K r <> None \/ exists v, held x = Some (s, v))) ->
    ready s h (Writing q todo n k)
| ready_over r : ready s h (Over r).

(** *** What is known stays known *)

Lemma visible_version s x r : visible s x = Some r -> has_version x r.
Proof.
  unfold visible, view, has_version. destruct (held x) as [[s' v]|]; [|auto].
  destruct (s =? s')%nat; [|auto]. intros ->. right. eauto.
Qed.

Lemma known_put n s l v h : known n h -> (forall r, v = Some r -> known_row n r) -> known n (put s l v h).
Proof.
  intros Hk Hv i y r [[Hi Hy]|[-> (z & Hz & ->)]]%lookup_put Hr; [by eapply Hk|].
  destruct Hr as [Hr|[s' [= _ Hr]]]; simpl in *; [|by apply Hv]. eapply Hk; [exact Hz|by left].
Qed.

Lemma known_map n f h : known n h -> (forall x r, has_version (f x) r -> has_version x r) -> known n (map f h).
Proof. intros Hk Hf l y r (x & Hx & ->)%lookup_map_Some Hr. eapply Hk; [exact Hx|by apply Hf]. Qed.

Lemma known_settle n s h : known n h -> known n (map (settle s) h).
Proof.
  intros Hk. apply known_map; [done|]. intros x r. unfold settle, has_version.
  destruct (held x) as [[s' v]|] eqn:E; [|rewrite E; auto]. destruct (s =? s')%nat; simpl; [|by rewrite E].
  intros [->|[? ?]]; [eauto|done].
Qed.

Lemma known_release n s h : known n h -> known n (map (release_lock s) h).
Proof.
  intros Hk. apply known_map; [done|]. intros x r. unfold release_lock, has_version.
  destruct (held x) as [[s' v]|] eqn:E; [|rewrite E; auto]. destruct (s =? s')%nat; simpl; [|by rewrite E].
  intros [->|[? ?]]; [eauto|done].
Qed.

Lemma known_fresh n h : known n h -> known n (h ++ [Slot None None]).
Proof. intros Hk l x r [Hx| ->]%lookup_fresh Hr; [by eapply Hk|]. by destruct Hr as [?|[]]. Qed.

Lemma known_more n m h : n <= m -> known n h -> known m h.
Proof.
  intros Hnm Hk l x r Hx Hr. specialize (Hk l x r Hx Hr). destruct r; simpl in *; [done|lia|done].
Qed.

(** A statement leaves rows that are known. *)
Lemma known_result n K q now r r' : inside_statement K q -> orderly_statement K q -> matches q r = true ->
  known_row n r -> result q now r = Some r' -> known_row n r'.
Proof.
  intros Hi Ho Hm Hr Hres. destruct q as [w e|w e|w e], r as [r|r|r]; try done; simpl in *.
  - subst e. by injection Hres as <-.
  - destruct Ho as [_ Ho]. destruct e as [|f|]; simplify_eq/=; [done|]. by rewrite (Ho f eq_refl).
Qed.

(** *** Keys *)

Lemma view_writable S s x : may_write s x = true -> S s = true -> view S x = visible s x.
Proof.
  unfold may_write, visible, view. destruct (held x) as [[s' v]|]; [|done].
  intros ->%Nat.eqb_eq ->. by rewrite Nat.eqb_refl.
Qed.

(** A row that a session may write can get any version with its key. *)
Lemma keys_admit s l x r r' h : keys_hold h -> h !! l = Some x -> may_write s x = true -> visible s x = Some r ->
  (forall b, row_clash r' b = row_clash r b) -> admits s l r' h = true.
Proof.
  intros Hk Hx Hw Hv He. apply admits_true. intros i y u Hi Hy Hu. rewrite He.
  assert (exists S, S s = true /\ view S y = Some u) as (S & Hs & Hyu).
  { unfold versions in Hu. unfold view. destruct (held y) as [[s' v]|] eqn:E.
    - destruct (Nat.eqb_spec s s') as [<-|Hn].
      + exists (fun _ => true). split; [done|]. destruct v; simpl in Hu; set_solver.
      + apply elem_of_app in Hu as [Hu|Hu].
        * exists (Nat.eqb s). split; [apply Nat.eqb_refl|]. destruct (Nat.eqb_spec s s'); [done|].
          destruct (latest y); simpl in Hu; set_solver.
        * exists (fun _ => true). split; [done|]. destruct v; simpl in Hu; set_solver.
    - exists (fun _ => true). split; [done|]. destruct (latest y); simpl in Hu; set_solver. }
  apply (Hk S l i x y); [congruence|done|done| |done]. by rewrite (view_writable S s x).
Qed.

(** There is one row per file. *)
Lemma one_file_row h l i x y f g : keys_hold h -> h !! l = Some x -> h !! i = Some y ->
  latest x = Some (RFile f) -> latest y = Some (RFile g) -> key_of f = key_of g -> l = i.
Proof.
  intros Hk Hx Hy Hf Hg E. destruct (decide (l = i)) as [|Hn]; [done|]. exfalso.
  assert (row_clash (RFile f) (RFile g) = false) as Hc
    by (apply (Hk (fun _ => false) l i x y); rewrite <- ?latest_view; done).
  simpl in Hc. unfold clash in Hc. simpl in Hc. unfold clash_config_file in Hc. injection E as E1 E2 E3.
  rewrite E1, E2, E3, !str_eq_refl, orb_true_r in Hc. done.
Qed.

(** *** Steps of another session *)

Lemma file_latest s t h h' l x f : heap_step s h h' -> tidy t s h -> h !! l = Some x -> latest x = Some (RFile f) ->
  exists x', h' !! l = Some x' /\ latest x' = Some (RFile f).
Proof.
  intros Hstep Ht Hx Hf. destruct Hstep as [|i v y Hy _ _|r _| |].
  - eauto.
  - destruct (decide (i = l)) as [->|Hn]; [|exists x; by rewrite put_other].
    simplify_eq. eexists. split; [by apply put_at|done].
  - exists x. split; [|done]. rewrite put_other by (apply lookup_lt_Some in Hx; lia). by apply lookup_app_l_Some.
  - exists (settle s x). split; [change (map (settle s) h) with (settle s <$> h); by rewrite list_lookup_fmap, Hx|].
    rewrite <- visible_settle. destruct (held_cases s x) as [[v Hv]|Hn]; [|by rewrite visible_not_held].
    rewrite (visible_held s x v Hv). specialize (Ht l x v Hx Hv).
    assert (file_lock x v -> v = Some (RFile f)) as Hfl by (intros (r & _ & ->); done).
    destruct t as [|K|]; [by apply Hfl| |done]. destruct Ht as [Ht|[Ht _]]; [by apply Hfl|]. by destruct (Ht _ Hf).
  - exists (release_lock s x). split; [change (map (release_lock s) h) with (release_lock s <$> h); by rewrite list_lookup_fmap, Hx|].
    by rewrite latest_release.
Qed.

(** What another session holds is no release of a file that [s] owns. *)
Lemma foreign s s' t K h l x v : s <> s' -> keys_hold h -> owns K s h -> tidy t s' h -> owns_if t s' h ->
  h !! l = Some x -> held x = Some (s', v) -> latest x ≫= row_of K = None /\ v ≫= row_of K = None.
Proof.
  intros Hs Hk Ho Ht Ho' Hx Hv. eapply tidy_apart; [exact Ht| | |exact Hx|exact Hv].
  - intros ->. by eapply Hs, owns_exclusive.
  - intros K' -> ->. by eapply Hs, owns_exclusive.
Qed.

Lemma other_ready s s' t h h' st : s <> s' -> keys_hold h -> heap_step s' h h' -> tidy t s' h -> owns_if t s' h ->
  ready s h st -> ready s h' st.
Proof.
  intros Hs Hk Hstep Ht Ho Hr. pose proof (frame_other s s' h h' Hs Hstep) as Hf.
  assert (holds_none s h -> holds_none s h') as Hnone.
  { intros Hn l x v Hx Hv. eapply Hn; [|exact Hv]. by eapply (frame_no_more _ _ _ _ Hf). }
  destruct Hr as [K b Hi Hb Hn|K b todo n e Hi Hb Hn Hown Htodo Hor|e|K p Hown Hi Hp|K q todo n k Hown Hiq Hq Hi Hp Htodo|r].
  - constructor; auto.
  - constructor; [done..| | |destruct Hor; auto].
    + intros Hlt. by eapply frame_owns, Hown.
    + intros l Hl. destruct (Htodo l Hl) as (x & f & Hx & Hlf & Hkey).
      destruct (file_latest s' t h h' l x f Hstep Ht Hx Hlf) as (x' & ? & ?). eauto.
  - constructor.
  - apply (ready_run s h' K); [by eapply frame_owns|done..].
  - apply (ready_write s h' K); [by eapply frame_owns|done..|]. intros l Hl.
    destruct (Htodo l Hl) as (x & r & Hx & Hv & [Hrow|[v Hheld]]).
    + destruct (untouched_step K s s' t h h') as [_ Hlen Hrows]; [done..|by intros ->; eapply Hs, owns_exclusive| |].
      { intros K' -> ->. by eapply Hs, owns_exclusive. }
      destruct (lookup_lt_is_Some_2 h' l) as [x' Hx']; [apply lookup_lt_Some in Hx; lia|].
      destruct (Hrows l x' Hx') as [(x1 & Hx1 & E & _)|(Hno & _)]; [|congruence]. simplify_eq.
      rewrite Hv in E. simpl in E. destruct (visible s x') as [r'|] eqn:Hv'; simpl in E; [|by rewrite E in Hrow].
      exists x', r'. split_and!; [done..|]. left. congruence.
    + exists x, r. split; [by eapply (frame_keeps _ _ _ _ Hf)|]. split; [done|right; eauto].
  - constructor.
Qed.

(** *** Steps of the session itself *)

(** Session [s] is at [st'] now, ready, and what is known of the rows holds. *)
Definition stays s (now : Z) (σ σ' : system unit) : Prop := exists st', moves s now st' (heap σ') σ σ' /\
  ready s (heap σ') st' /\ known (release_ids σ') (heap σ').

Lemma stays_at s now st σ : ready s (heap σ) st -> known (release_ids σ) (heap σ) -> stays s now σ (become s now st σ).
Proof. intros Hr Hk. exists st. split; [by split|done]. Qed.

Lemma stays_abort s now σ : known (release_ids σ) (heap σ) -> stays s now σ (abort s now σ).
Proof. intros Hk. exists (Over None). split; [by split|]. split; [constructor|by apply known_release]. Qed.

Lemma stays_commit s now r σ : known (release_ids σ) (heap σ) -> stays s now σ (commit s now r σ).
Proof. intros Hk. exists (Over r). split; [by split|]. split; [constructor|by apply known_settle]. Qed.

Lemma stays_check s now hd (r : res Z) k σ : known (release_ids σ) (heap σ) ->
  (forall n, ready s (heap σ) (Running (k n))) ->
  stays s now σ (match r with
                 | Ok n => become s now (Running (k n)) σ
                 | Err e => fail_call s now hd e σ
                 | Panic _ => abort s now σ
                 end).
Proof.
  intros Hk Hr. destruct r as [n|e|w]; [by apply stays_at| |by apply stays_abort].
  destruct hd; simpl; try (by apply stays_abort); (apply stays_at; [constructor|done]).
Qed.

(** The rows a statement is about to visit. *)
Lemma targets_ready K s q h : keys_hold h -> (exists n, known n h) -> owns K s h -> inside_statement K q ->
  orderly_statement K q -> forall l, l ∈ targets s q h -> exists x r, h !! l = Some x /\ visible s x = Some r /\
    (row_of K r <> None \/ exists v, held x = Some (s, v)).
Proof.
  intros Hk [n Hkn] Ho Hi Hq l (x & r & Hx & Hv & Hm)%elem_of_targets. exists x, r. split_and!; [done..|].
  destruct (matched_release K q r Hi Hm) as [(f & ->)|Hrow]; [|by left]. right.
  destruct q as [w e|w e|w e]; try done. simpl in *.
  pose proof (Hkn l x _ Hx (visible_version s x _ Hv)) as Hin. simpl in Hin. specialize (Hq f Hin Hm).
  destruct (held_cases s x) as [?|Hn]; [done|]. rewrite visible_not_held in Hv by done.
  destruct Ho as (i & y & g & v & Hy & Hg & Hkey & Hh). exists v.
  assert (l = i) as -> by (eapply one_file_row; [done|exact Hx|exact Hy|exact Hv|exact Hg|congruence]).
  by simplify_eq.
Qed.

Lemma next_stays s now st σ σ' : keys_hold (heap σ) -> known (release_ids σ) (heap σ) -> ready s (heap σ) st ->
  exec_next s now st σ = Some σ' -> stays s now σ σ'.
Proof.
  intros Hk Hkn Hr Hx.
  destruct Hr as [K b Hi Hb Hn|K b todo n e Hi Hb Hn Hown Htodo Hor|e|K p Hown Hi Hp|K q todo n k Hown Hiq Hq Hi Hp Htodo|r].
  - simpl in Hx. injection Hx as <-. apply stays_at; [|done]. constructor; [done..|lia|lia| |by left].
    intros l (x & r & Hl & Hv & Hm)%elem_of_targets. destruct r as [r|r|r]; [|done..]. exists x, r.
    rewrite visible_not_held in Hv by (intros v; by apply (Hn l)). split_and!; [done..|].
    destruct (locks_live_file K.1.1 K.1.2 K.2) as (w & [= <-] & Hw). destruct K as [[a c] f]. by apply Hw.
  - destruct todo as [|l todo]; [|done]. simpl in Hx. injection Hx as <-. apply stays_at; [|done].
    destruct (Z.eqb_spec n 0) as [->|Hz]; [constructor|]. apply (ready_run s _ K); [apply Hown; lia|done..].
  - simpl in Hx. injection Hx as <-. by apply stays_commit.
  - destruct p as [r|hd r k|hd p|hd args q k|hd i p|hd w k|hd k]; simpl in *; [..|done].
    + injection Hx as <-. by apply stays_commit.
    + injection Hx as <-. apply stays_check; [done|]. intros n. by apply (ready_run s _ K).
    + injection Hx as <-. apply stays_at; [by apply (ready_run s _ K)|done].
    + destruct args as [[]|e|w]; simplify_eq/=; [|by apply stays_abort..]. destruct Hi as [Hiq Hi], Hp as [Hq Hp].
      apply stays_at; [|done]. apply (ready_write s _ K); [done..|]. eapply targets_ready; eauto.
    + destruct i as [mk|mk]; [done|]. destruct Hi as [Hmk Hi], Hp as [Hid Hp]. simpl in Hx.
      assert (known (release_ids σ + 1) (heap σ)) as Hkn1 by (eapply known_more; [|exact Hkn]; lia).
      case_match; [|case_match; [|done]]; simplify_eq/=.
      * exists (Running p). split; [by split|]. simpl. split.
        { apply (ready_run s _ K); [by apply owns_add|done..]. }
        apply known_put; [by apply known_fresh|]. intros r [= <-]. simpl. rewrite Hid. lia.
      * exact (stays_abort s now (System (heap σ) (file_ids σ) (release_ids σ + 1) (sessions σ)) Hkn1).
    + injection Hx as <-. destruct Hi as [_ Hi]. apply stays_check; [done|]. intros n. by apply (ready_run s _ K).
  - destruct todo as [|l todo]; [|done]. simpl in Hx. injection Hx as <-.
    apply stays_at; [by apply (ready_run s _ K)|done].
  - done.
Qed.

(** A row that is passed over, or rewritten. *)
Lemma todo_rest (todo : list nat) l (P : nat -> Prop) : (forall i, i ∈ todo -> P i) ->
  forall i, i ∈ filter (fun i => i <> l) todo -> i <> l /\ P i.
Proof. intros Ht i [Hi Hin]%list_elem_of_filter. auto. Qed.

Lemma pass_ready s h q todo l n k : ready s h (Writing q todo n k) ->
  ready s h (Writing q (filter (fun i => i <> l) todo) n k).
Proof.
  intros Hr. inversion Hr as [|K b ? ? e Hi Hb Hn Hown Htodo Hor| | |K ? ? ? ? Hown Hiq Hq Hi Hp Htodo|]; subst.
  - constructor; [done..| |destruct Hor as [?| ->]; auto]. intros i Hi'. by apply (todo_rest todo l _ Htodo).
  - apply (ready_write s h K); [done..|]. intros i Hi'. by apply (todo_rest todo l _ Htodo).
Qed.

Lemma write_ready s now h q todo l n k x r : keys_hold h -> ready s h (Writing q todo n k) -> l ∈ todo ->
  h !! l = Some x -> may_write s x = true -> visible s x = Some r -> matches q r = true ->
  ready s (put s l (result q now r) h) (Writing q (filter (fun i => i <> l) todo) (n + 1) k) /\
  forall m, known m h -> known m (put s l (result q now r) h).
Proof.
  intros Hk Hr Hl Hx Hw Hv Hm.
  inversion Hr as [|K b ? ? e Hi Hb Hn Hown Htodo Hor| | |K ? ? ? ? Hown Hiq Hq Hi Hp Htodo|]; subst.
  - destruct Hor as [Hnone| ->]; [|by apply elem_of_nil in Hl].
    rewrite visible_not_held in Hv by (intros v; by apply (Hnone l)).
    destruct (Htodo l Hl) as (y & f & Hy & Hf & Hkey). simplify_eq. simpl. split.
    + replace (filter (fun i => i <> l) todo) with (@nil nat).
      * apply (ready_lock _ _ (key_of f)); [done..|lia| |by intros i Hi0%elem_of_nil|by right].
        intros _. eexists l, _, f, _. split; [by apply put_at|done].
      * destruct (filter (fun i => i <> l) todo) as [|i rest] eqn:E; [done|]. exfalso.
        destruct (todo_rest todo l _ Htodo i) as [Hne (y & g & Hy & Hg & Hkg)]; [rewrite E; by left|].
        apply Hne. eapply one_file_row; [done|exact Hy|exact Hx|exact Hg|exact Hv|congruence].
    + intros m Hkn. apply known_put; [done|]. intros r [= <-]. eapply Hkn; [exact Hx|by left].
  - split.
    + apply (ready_write _ _ K); [by apply owns_put|done..|]. intros i Hi'.
      destruct (todo_rest todo l _ Htodo i Hi') as [Hne (y & u & Hy & Hu)]. exists y, u. by rewrite put_other.
    + intros m Hkn. apply known_put; [done|]. intros r' Hr'.
      eapply (known_result _ K q now r); [done..| |exact Hr']. eapply Hkn; [exact Hx|by eapply visible_version].
Qed.

Lemma visit_stays s l now st σ σ' : keys_hold (heap σ) -> known (release_ids σ) (heap σ) -> ready s (heap σ) st ->
  exec_visit s l now st σ = Some σ' -> stays s now σ σ'.
Proof.
  intros Hk Hkn Hr Hx. unfold exec_visit in Hx. destruct st as [p|q todo n k|r]; [done| |done].
  destruct (heap σ !! l) as [x|] eqn:El; [|done]. case_bool_decide as Hl; [|done].
  destruct (may_write s x) eqn:Ew; [|done]. simpl in Hx.
  assert (stays s now σ (become s now (Writing q (filter (fun i => i <> l) todo) n k) σ)) as Hpass
    by (apply stays_at; [by apply pass_ready|done]).
  destruct (visible s x) as [r|] eqn:Ev; [destruct (matches q r) eqn:Em|]; [|by simplify_eq..].
  destruct (write_ready s now (heap σ) q todo l n k x r Hk Hr Hl El Ew Ev Em) as [Hr' Hkn'].
  destruct (match result q now r with Some _ => _ | None => _ end) in Hx.
  - injection Hx as <-. exists (Writing q (filter (fun i => i <> l) todo) (n + 1) k). split; [by split|]. split; [exact Hr'|].
    by apply Hkn'.
  - destruct (match result q now r with Some _ => _ | None => _ end) in Hx; [|done]. simplify_eq. by apply stays_abort.
Qed.

(** *** A session that does not wait can go on *)

Lemma visit_possible s now q todo l n (k : Z -> prog unit) x σ : heap σ !! l = Some x -> l ∈ todo -> may_write s x = true ->
  (forall r r', visible s x = Some r -> matches q r = true -> result q now r = Some r' -> admits s l r' (heap σ) = true) ->
  exists σ', exec_visit s l now (Writing q todo n k) σ = Some σ'.
Proof.
  intros Hx Hl Hw Ha. unfold exec_visit. rewrite Hx, (bool_decide_true _ Hl), Hw. simpl.
  destruct (visible s x) as [r|] eqn:Ev; [|eauto]. destruct (matches q r) eqn:Em; [|eauto].
  destruct (result q now r) as [r'|] eqn:Er; [|eauto]. rewrite (Ha r r') by done. eauto.
Qed.

(** An insertion under the lock of the file does not wait: what other
    sessions hold has another key. *)
Lemma add_possible s K (mk : Z -> Z -> config_file_release_row) now (σ : system unit) : keys_hold (heap σ) -> known (release_ids σ) (heap σ) -> owns K s (heap σ) ->
  (forall l x s' v, heap σ !! l = Some x -> held x = Some (s', v) ->
     exists t, tidy t s' (heap σ) /\ owns_if t s' (heap σ)) ->
  (forall id now, in_file K (mk id now) = true) -> (forall id now, cfr_id (mk id now) = id) ->
  let r := RRelease (mk (release_ids σ) now) in
  admits s (length (heap σ)) r (heap σ) = true \/ taken s r (heap σ) = true.
Proof.
  intros Hk Hkn Ho Hothers Hmk Hid r. destruct (taken s r (heap σ)) eqn:Et; [by right|left].
  apply admits_true. intros i x u _ Hx Hu. destruct (row_clash r u) eqn:Ec; [exfalso|done].
  destruct (may_write s x) eqn:Ew.
  - unfold taken in Et. rewrite <- not_true_iff_false, existsb_exists in Et. apply Et. exists x.
    split; [by eapply list_elem_of_In, list_elem_of_lookup_2|]. rewrite Ew. simpl.
    assert (visible s x = Some u) as ->; [|done]. unfold may_write in Ew. unfold versions in Hu. unfold visible, view.
    destruct (held x) as [[s' v]|]; [rewrite Ew in *|]; [destruct v|destruct (latest x)]; simpl in Hu; set_solver.
  - unfold may_write in Ew. destruct (held x) as [[s' v]|] eqn:Eh; [|done]. apply Nat.eqb_neq in Ew.
    destruct (Hothers i x s' v Hx Eh) as (t & Ht & Hot).
    destruct (foreign s s' t K (heap σ) i x v Ew Hk Ho Ht Hot Hx Eh) as [Hl Hv].
    assert (has_version x u /\ row_of K u = None) as [Hver Hout].
    { unfold versions in Hu. rewrite Eh in Hu. destruct (Nat.eqb_spec s s'); [done|].
      apply elem_of_app in Hu as [Hu|Hu].
      - destruct (latest x) as [y|] eqn:El; simpl in Hu; [|by apply elem_of_nil in Hu].
        apply list_elem_of_singleton in Hu as ->. split; [by left|done].
      - destruct v as [y|]; simpl in Hu; [|by apply elem_of_nil in Hu].
        apply list_elem_of_singleton in Hu as ->. split; [right; eauto|done]. }
    pose proof (Hkn i x u Hx Hver) as Hkr. destruct u as [u|u|u]; [done| |done]. simpl in *.
    unfold clash in Ec. simpl in Ec. unfold clash_config_file_release in Ec. rewrite Hid in Ec.
    apply orb_true_iff in Ec as [Ec|Ec]; [apply Z.eqb_eq in Ec; lia|].
    specialize (Hmk (release_ids σ) now). destruct (in_file K u) eqn:Eu; [done|]. unfold in_file, of_file in *.
    rewrite !andb_true_iff, !str_eq_true in Hmk. rewrite !andb_true_iff, !str_eq_true in Ec. destruct Hmk as [[E1 E2] E3], Ec as [[[F1 F2] F3] _].
    rewrite <- F1, <- F2, <- F3, E1, E2, E3, !str_eq_refl in Eu. done.
Qed.
End ready.

(** ** The system *)

Section system.
Context (rs : list row) (rows : list config_file_release_row).
Context (op : nat -> Z -> file_key -> prog unit -> Prop).
Context (op_inside : forall s now K b, op s now K b -> inside K b).
Context (op_orderly : forall s now K b, op s now K b -> orderly rs K b).

Record live_ok (σ : system unit) : Prop := LiveOk {
  lo_serial : exists ts, serial_ok op rows σ ts;
  lo_ready : forall s y, sessions σ !! s = Some y -> ready rs s (heap σ) (s_state y);
  lo_known : known rs (release_ids σ) (heap σ)
}.

Lemma lo_keys σ : live_ok σ -> keys_hold (heap σ).
Proof. intros [[ts Hs] _ _]. by apply (so_keys _ _ _ _ Hs). Qed.

Lemma lo_work σ s y : live_ok σ -> sessions σ !! s = Some y ->
  exists t, at_work op s (s_now y) (heap σ) (s_state y) t.
Proof. intros [[ts Hs] _ _]. apply (so_sessions _ _ _ _ Hs). Qed.

Lemma lo_holder σ l x s v : live_ok σ -> heap σ !! l = Some x -> held x = Some (s, v) ->
  exists y t, sessions σ !! s = Some y /\ at_work op s (s_now y) (heap σ) (s_state y) t.
Proof.
  intros Hok Hx Hv. destruct (lo_serial _ Hok) as [ts Hs].
  destruct (lookup_lt_is_Some_2 (sessions σ) s) as [y Hy]; [by eapply (so_holders _ _ _ _ Hs)|].
  destruct (lo_work σ s y Hok Hy) as [t Ht]. eauto.
Qed.

(** *** Every step keeps this *)

Lemma stays_live σ σ' s now st : live_ok σ -> sessions σ !! s = Some (Session now st) ->
  heap_step s (heap σ) (heap σ') -> stays rs s now σ σ' -> (exists ts, serial_ok op rows σ' ts) -> live_ok σ'.
Proof.
  intros Hok Hx Hstep (st' & [Hses _] & Hr & Hkn) Hser. split; [done| |done].
  assert (s < length (sessions σ))%nat as Hlt by by eapply lookup_lt_Some.
  intros s1 y Hy. rewrite Hses in Hy. destruct (decide (s1 = s)) as [->|Hn].
  - rewrite list_lookup_insert_eq in Hy by done. by injection Hy as <-.
  - rewrite list_lookup_insert_ne in Hy by done. destruct (lo_work σ s _ Hok Hx) as [t [Ht Ho _]].
    eapply other_ready; [exact Hn|by apply lo_keys|exact Hstep|exact Ht|exact Ho|by apply (lo_ready _ Hok)].
Qed.

Lemma exec_live a σ σ' : live_ok σ -> exec a σ = Some σ' ->
  match a with
  | Open_ now p => exists K b, op (length (sessions σ)) now K b /\ p = locked K.1.1 K.1.2 K.2 b
  | _ => True
  end -> live_ok σ'.
Proof.
  intros Hok Hx Hp.
  assert (exists ts, serial_ok op rows σ' ts) as Hser.
  { destruct (lo_serial _ Hok) as [ts Hs]. destruct (exec_serial_ok op op_inside rows ts a σ σ' Hs Hx Hp) as [u Hu]. eauto. }
  pose proof (exec_heap a σ σ' Hx) as Hstep. pose proof (lo_keys _ Hok) as Hk. pose proof (lo_known _ Hok) as Hkn.
  destruct a as [now p|s|s l|s]; simpl in *.
  - simplify_eq. destruct Hp as (K & b & Hb & ->). split; [done| |done]. simpl.
    intros s y [Hy|[Hl [Hs0 <-]%list_lookup_singleton_Some]]%lookup_app_Some; [by apply (lo_ready _ Hok)|].
    assert (s = length (sessions σ)) as -> by lia. constructor; [by eapply op_inside|by eapply op_orderly|].
    intros l x v Hlx Hv. destruct (lo_holder _ _ _ _ _ Hok Hlx Hv) as (y & _ & Hy & _). apply lookup_lt_Some in Hy. lia.
  - destruct (sessions σ !! s) as [[now st]|] eqn:Es; [|done]. simpl in Hx. eapply stays_live; [done..| |done].
    eapply next_stays; [done..| |exact Hx]. apply (lo_ready _ Hok s _ Es).
  - destruct (sessions σ !! s) as [[now st]|] eqn:Es; [|done]. simpl in Hx. eapply stays_live; [done..| |done].
    eapply visit_stays; [done..| |exact Hx]. apply (lo_ready _ Hok s _ Es).
  - destruct (sessions σ !! s) as [[now st]|] eqn:Es; [|done]. simpl in Hx. eapply stays_live; [done..| |done].
    destruct st; simplify_eq/=; by apply stays_abort.
Qed.

(** *** Some session can go on *)

(** A session that is not over can go on, or waits to lock a file somebody
    else holds, and then holds nothing itself. *)
Lemma goes_or_waits σ s now st : live_ok σ -> sessions σ !! s = Some (Session now st) -> (forall r, st <> Over r) ->
  (exists σ', goes_on σ σ') \/
  (holds_none s (heap σ) /\ exists l x f s' v, heap σ !! l = Some x /\ latest x = Some (RFile f) /\
     held x = Some (s', v) /\ s <> s').
Proof.
  intros Hok Hs Hn. pose proof (lo_keys _ Hok) as Hk.
  assert (forall σ', exec_next s now st σ = Some σ' -> exists σ', goes_on σ σ') as Hnext.
  { intros σ' Hx. exists σ', s. left. simpl. by rewrite Hs. }
  assert (forall l σ', exec_visit s l now st σ = Some σ' -> exists σ', goes_on σ σ') as Hvisit.
  { intros l σ' Hx. exists σ', s. right. exists l. simpl. by rewrite Hs. }
  pose proof (lo_ready _ Hok s _ Hs) as Hr. simpl in Hr.
  destruct Hr as [K b Hi Hb Hnone|K b [|l todo] n e Hi Hb Hle Hown Htodo Hor|e|K p Hown Hi Hp|K q [|l todo] n k Hown Hiq Hq Hi Hp Htodo|r].
  - left. by eapply Hnext.
  - left. by eapply Hnext.
  - destruct (Htodo l ltac:(by left)) as (x & f & Hx & Hf & _). destruct (may_write s x) eqn:Ew.
    + left. destruct (visit_possible s now (OnFiles (live_file K.1.1 K.1.2 K.2) Lock) (l :: todo) l n
        (fun n => if n =? 0 then Finish (Err e) else b) x σ Hx) as [σ' Hv]; [by left|done| |by eapply Hvisit].
      intros r r' Hv Hm Hres. destruct r as [r|r|r]; [|done..]. injection Hres as <-. by eapply keys_admit.
    + right. destruct Hor as [Hnone|]; [|done]. split; [done|]. unfold may_write in Ew.
      destruct (held x) as [[s' v]|] eqn:Eh; [|done]. apply Nat.eqb_neq in Ew. exists l, x, f, s', v. done.
  - left. by eapply Hnext.
  - left. destruct p as [r|hd r k|hd p|hd args q k|hd [mk|mk] p|hd w k|hd k]; try done; try (by eapply Hnext).
    destruct Hi as [Hmk Hi], Hp as [Hid Hp]. simpl in Hnext.
    destruct (add_possible rs s K mk now σ Hk (lo_known _ Hok) Hown) as [Ha|Ha]; [|done..| |].
    + intros l x s' v Hx Hv. destruct (lo_holder _ _ _ _ _ Hok Hx Hv) as (y & t & _ & [? ? _]). eauto.
    + simpl in Ha. rewrite Ha in Hnext. by eapply Hnext.
    + destruct (admits _ _ _ _); [by eapply Hnext|]. simpl in Ha. rewrite Ha in Hnext. by eapply Hnext.
  - left. by eapply Hnext.
  - left. destruct (Htodo l ltac:(by left)) as (x & r & Hx & Hv & Hor).
    assert (may_write s x = true) as Hw.
    { unfold may_write. destruct (held x) as [[s' v]|] eqn:Eh; [|done]. apply Nat.eqb_eq.
      destruct (decide (s = s')) as [|Hne]; [done|exfalso]. destruct Hor as [Hrow|[w ?]]; [|congruence].
      destruct (lo_holder _ _ _ _ _ Hok Hx Eh) as (y & t & _ & [Ht Ho _]).
      destruct (foreign s s' t K (heap σ) l x v Hne Hk Hown Ht Ho Hx Eh) as [Hl _].
      rewrite (visible_other s s' x v) in Hv by done. by rewrite Hv in Hl. }
    destruct (visit_possible s now q (l :: todo) l n k x σ Hx) as [σ' Hgo]; [by left|done| |by eapply Hvisit].
    intros u u' Hu Hm Hres. eapply keys_admit; [done..|]. intros b.
    destruct q as [w e|w e|w e]; [|by destruct Hq as [Hq _]; eapply Hq|done].
    simpl in Hiq. subst e. destruct u; try done. by injection Hres as <-.
  - by destruct (Hn r).
Qed.

Lemma not_stuck σ s y : live_ok σ -> sessions σ !! s = Some y -> outcome y = None -> exists σ', goes_on σ σ'.
Proof.
  intros Hok Hs Ho. destruct y as [now st].
  assert (forall r, st <> Over r) as Hn by by intros r ->.
  destruct (goes_or_waits σ s now st Hok Hs Hn) as [?|(_ & l & x & f & s' & v & Hx & _ & Hv & _)]; [done|].
  destruct (lo_holder _ _ _ _ _ Hok Hx Hv) as ([now' st'] & t & Hs' & [Ht _ Hd]).
  destruct (goes_or_waits σ s' now' st' Hok Hs') as [?|[Hnone _]]; [|done|by destruct (Hnone l x v Hx)].
  intros r ->. simpl in Hd. inversion Hd; subst. by destruct (Ht l x v Hx Hv).
Qed.
End system.

(** ** Locked release operations *)

Section operations.
Context `{Env} `{PolarisApi} `{Strconv} `{ReleaseTypes}.

(** A release that is created has the name of no file of its group but its
    own, or there is no such file. *)
Definition names_no_other_file (rs : list row) (o : release_op) : Prop :=
  match o with
  | OpCreate x => forall f, RFile f ∈ rs -> key_of f = (Namespace x, Group x, Name x) -> Name x = FileName x
  | _ => True
  end.

Lemma body_of_orderly rs o : names_no_other_file rs o -> orderly rs (file_of_op o) (body_of o).
Proof.
  assert (forall w f, (forall now r, cfr_id (f now r) = cfr_id r /\ cfr_namespace (f now r) = cfr_namespace r /\
      cfr_group (f now r) = cfr_group r /\ cfr_file_name (f now r) = cfr_file_name r /\ cfr_name (f now r) = cfr_name r) ->
    orderly_statement rs (file_of_op o) (OnReleases w (Set_ f))) as Hset.
  { intros w f Hf. split; [by apply keeps_keys_releases|]. intros g [= <-] now r. apply Hf. }
  assert (forall w, orderly_statement rs (file_of_op o) (OnReleases w Remove)) as Hremove
    by (intros w; split; [apply keeps_keys_remove|done]).
  intros Hn. destruct o as [x|k|ns g f|x|x]; simpl;
    repeat first [done | by apply Hset | apply Hremove | split | intros ?].
  rename select (of_key _ _ _ _ = true) into Hkey. unfold of_key in Hkey.
  rewrite !andb_true_iff, !str_eq_true in Hkey. destruct Hkey as [[E1 E2] E3]. unfold key_of. rewrite E1, E2, E3.
  f_equal. eapply Hn; [done|]. unfold key_of. by rewrite E1, E2, E3.
Qed.

(** The operations of the theorem, as the sections above take them. *)
Definition allowed (rs : list row) (s : nat) (now : Z) (K : file_key) (b : prog unit) : Prop :=
  exists o, names_no_other_file rs o /\ K = file_of_op o /\ b = body_of o.
Definition locked_by_rule (rs : list row) (p : prog unit) : Prop :=
  exists o, names_no_other_file rs o /\ p = locked_operation o.

Lemma allowed_inside rs s now K b : allowed rs s now K b -> inside K b.
Proof. intros (o & _ & -> & ->). apply body_of_inside. Qed.
Lemma allowed_orderly rs s now K b : allowed rs s now K b -> orderly rs K b.
Proof. intros (o & Ho & -> & ->). by apply body_of_orderly. Qed.

Lemma at_rest_live rs fid rid : distinct row_clash rs = true -> (forall r, RRelease r ∈ rs -> cfr_id r < rid) ->
  live_ok rs (omap release_of rs) (allowed rs) (at_rest rs fid rid).
Proof.
  intros Hd Hid. split; [exists []; by apply at_rest_serial_ok|done|].
  intros l x r (r0 & Hr0 & ->)%lookup_map_Some Hr. apply list_elem_of_lookup_2 in Hr0.
  assert (r = r0) as -> by (destruct Hr as [[= ?]|[? ?]]; done). destruct r0; simpl; [done|by apply Hid|done].
Qed.

Lemma steps_live rs σ σ' : rtc (step (locked_by_rule rs)) σ σ' ->
  live_ok rs (omap release_of rs) (allowed rs) σ -> live_ok rs (omap release_of rs) (allowed rs) σ'.
Proof.
  induction 1 as [|σ1 σ2 σ3 (a & Ha & Hp) _ IH]; intros Hok; [done|]. apply IH.
  eapply exec_live; [apply allowed_inside|apply allowed_orderly|done|exact Ha|].
  destruct a as [now p| | |]; [|done..]. destruct Hp as (o & Ho & ->). exists (file_of_op o), (body_of o).
  split; [by exists o|done].
Qed.

Lemma goes_on_steps rs (σ σ' : system unit) : rtc goes_on σ σ' -> rtc (step (locked_by_rule rs)) σ σ'.
Proof.
  intros Hr. eapply rtc_subrel; [|exact Hr]. intros σ1 σ2 (s & [Hx|[l Hx]]); eexists; (split; [exact Hx|done]).
Qed.

(** C8: operations on releases that run under the lock of their file come to
    an end.  However many overlap at read committed, whatever the schedule has
    been and whatever has failed, they cannot go on for ever, and wherever
    they cannot go on every session is over: no one waits for ever and there
    is no deadlock.  The rows that were there keep the primary and unique keys,
    the ids of the releases among them are below their sequence, and no release
    is created under the name of another file of its group, which is where
    [create_can_deadlock] gets its circle from. *)
Theorem locked_operations_finish rs fid rid σ : distinct row_clash rs = true ->
  (forall r, RRelease r ∈ rs -> cfr_id r < rid) ->
  rtc (step (locked_by_rule rs)) (at_rest rs fid rid) σ ->
  Acc (fun σ2 σ1 => goes_on σ1 σ2) σ /\
  forall σ', rtc goes_on σ σ' -> (forall σ'', ~ goes_on σ' σ'') ->
    forall y, y ∈ sessions σ' -> outcome y <> None.
Proof.
  intros Hd Hid Hr. split; [apply no_endless_run|]. intros σ' Hgo Hstuck y [s Hs]%list_elem_of_lookup Hout.
  assert (live_ok rs (omap release_of rs) (allowed rs) σ') as Hok.
  { eapply steps_live; [|by apply (at_rest_live rs fid rid)]. etrans; [exact Hr|by apply goes_on_steps]. }
  destruct (not_stuck _ _ _ _ s y Hok Hs Hout) as [σ'' Hx]. by apply (Hstuck σ'').
Qed.
End operations.
