(* ===== verification/Operations.v ===== *)
(** * The operations of the package

    One constructor per operation that writes, over all stores, and what each
    does to a connection.  The theorems about the whole package are about
    arbitrary sequences of these ([perform_each] of Guards.v), whatever each
    of them returns. *)
From stdpp Require Import base list strings gmap.
From Stdlib Require Import ZArith.
From S2P Require Import Prelude Driver Rows Schema Sql Common Where RuleFilter Guards.
From S2P Require Import Namespace Service Transaction LeaderElection Cleanup Instances.
From S2P Require Import FaultDetect Store CircuitBreaker RateLimit RoutingV2 Routing.
From S2P Require Import ConfigRelease Gray ConfigFile ConfigGroup ConfigTemplate ConfigHistory.
From S2P Require Import Client ServiceContract Strategy User Group L5.
Open Scope Z_scope.
Open Scope store_scope.

Inductive operation :=
(* namespace.go, service.go *)
| OpAddNamespace (n : Namespace.Namespace)
| OpUpdateNamespace (n : Namespace.Namespace)
| OpUpdateNamespaceToken (name token : string)
| OpAddService (s : Service.Service)
| OpUpdateService (s : Service.Service) (needUpdateOwner : bool)
| OpDeleteService (id name namespace : string)
| OpUpdateServiceToken (id token revision : string)
| OpUpdateServiceAlias (s : Service.Service) (needUpdateOwner : bool)
| OpDeleteServiceAlias (name namespace : string)
(* instance.go *)
| OpAddInstance (i : model_Instance)
| OpBatchAddInstances (l : list model_Instance)
| OpUpdateInstance (i : model_Instance)
| OpCleanInstance (id : string)
| OpDeleteInstance (id : string)
| OpBatchDeleteInstances (ids : list string)
| OpSetInstanceHealthStatus (id : string) (flag : Z) (revision : string)
| OpBatchSetInstanceHealthStatus (ids : list string) (status : Z) (revision : string)
| OpBatchSetInstanceIsolate (ids : list string) (isolate : Z) (revision : string)
| OpBatchAppendInstanceMetadata (l : list InstanceMetadataRequest)
| OpBatchRemoveInstanceMetadata (l : list InstanceMetadataRequest)
(* default.go, tx.go, transaction.go *)
| OpBegin
| OpCommit
| OpRollback
| OpTransaction (ms : list method)
(* admin.go *)
| OpCreateLeaderElection (key : string)
| OpCompareAndSwapVersion (key : string) (cur new : Z) (leader : string)
| OpBatchCleanDeletedInstances (timeout batchSize : Z)
| OpBatchCleanDeletedClients (timeout batchSize : Z)
(* client.go *)
| OpCreateClient (x : Client.Client)
| OpUpdateClient (x : Client.Client)
| OpBatchAddClients (l : list Client.Client)
| OpBatchDeleteClients (ids : list string)
(* config_file.go, config_file_group.go, config_file_template.go, config_file_release*.go, gray_resource.go *)
| OpCreateConfigFile (x : ConfigFile.ConfigFile)
| OpUpdateConfigFile (x : ConfigFile.ConfigFile)
| OpDeleteConfigFile (namespace group name : string)
| OpHardDeleteConfigFile (namespace group name : string)
| OpCreateConfigFileGroup (x : ConfigFileGroup)
| OpUpdateConfigFileGroup (x : ConfigFileGroup)
| OpDeleteConfigFileGroup (namespace name : string)
| OpCreateConfigFileTemplate (x : ConfigFileTemplate)
| OpCreateConfigFileReleaseHistory (x : ConfigFileReleaseHistory)
| OpCleanConfigFileReleaseHistory (endTime limit : Z)
| OpRelease (op : release_op)
| OpCleanDeletedConfigFileRelease (endTime limit : Z)
| OpCreateGrayResource (x : GrayResource)
| OpCleanGrayResource (x : GrayResource)
| OpDeleteGrayResource (x : GrayResource)
(* service_contract.go, l5.go *)
| OpCreateServiceContract (x : ServiceContract.ServiceContract)
| OpUpdateServiceContract (x : ServiceContract.ServiceContract)
| OpDeleteServiceContract (x : ServiceContract.ServiceContract)
| OpAddServiceContractInterfaces (x : EnrichServiceContract)
| OpAppendServiceContractInterfaces (x : EnrichServiceContract)
| OpDeleteServiceContractInterfaces (x : EnrichServiceContract)
| OpGenNextL5Sid (layoutID : Z)
(* user.go, group.go, strategy.go *)
| OpAddUser (x : User.User)
| OpUpdateUser (x : User.User)
| OpDeleteUser (x : User.User)
| OpAddGroup (x : UserGroupDetail)
| OpUpdateGroup (x : ModifyUserGroup)
| OpDeleteGroup (x : UserGroupDetail)
| OpAddStrategy (x : StrategyDetail)
| OpUpdateStrategy (x : ModifyStrategyDetail)
| OpDeleteStrategy (id : string)
| OpLooseAddStrategyResources (l : list StrategyResource)
| OpRemoveStrategyResources (l : list StrategyResource)
(* faultdetect_config.go, circuitbreaker_config_v2.go, ratelimit_config.go, routing_config*.go *)
| OpCreateFaultDetectRule (x : FaultDetectRule)
| OpUpdateFaultDetectRule (x : FaultDetectRule)
| OpDeleteFaultDetectRule (id : string)
| OpCreateCircuitBreakerRule (x : CircuitBreakerRule)
| OpUpdateCircuitBreakerRule (x : CircuitBreakerRule)
| OpDeleteCircuitBreakerRule (id : string)
| OpEnableCircuitBreakerRule (x : CircuitBreakerRule)
| OpCreateRateLimit (x : RateLimit)
| OpEnableRateLimit (x : RateLimit)
| OpUpdateRateLimit (x : RateLimit)
| OpDeleteRateLimit (x : RateLimit)
| OpCreateRoutingConfigV2 (x : RouterConfig)
| OpUpdateRoutingConfigV2 (x : RouterConfig)
| OpEnableRouting (x : RouterConfig)
| OpDeleteRoutingConfigV2 (id : string)
| OpCreateRoutingConfigV2Tx (x : RouterConfig)
| OpUpdateRoutingConfigV2Tx (x : RouterConfig)
| OpDeleteRoutingConfigTx (id : string)
| OpCreateRoutingConfig (x : RoutingConfig)
| OpUpdateRoutingConfig (x : RoutingConfig)
| OpDeleteRoutingConfig (id : string).

(** A whole life of a caller's transaction: its methods, then nothing. *)
Definition transaction_run `{Env} `{PolarisApi} (ms : list method) : M database unit :=
  t <- CreateTransaction ;;
  (fun c => (Ok tt, snd (run ms t c))).

Section perform.
Context `{Env} `{PolarisApi} `{MapRange} `{Uuid} `{PgServer} `{PgInput} `{Strconv} `{ReleaseTypes}.
Context `{AuthApi} `{ModelInt}.

Definition perform (op : operation) : M database unit :=
  match op with
  | OpAddNamespace n => AddNamespace n
  | OpUpdateNamespace n => UpdateNamespace n
  | OpUpdateNamespaceToken name token => UpdateNamespaceToken name token
  | OpAddService s => AddService s
  | OpUpdateService s need => UpdateService s need
  | OpDeleteService id name namespace => DeleteService id name namespace
  | OpUpdateServiceToken id token revision => UpdateServiceToken id token revision
  | OpUpdateServiceAlias s need => UpdateServiceAlias s need
  | OpDeleteServiceAlias name namespace => DeleteServiceAlias name namespace
  | OpAddInstance i => AddInstance i
  | OpBatchAddInstances l => BatchAddInstances l
  | OpUpdateInstance i => UpdateInstance i
  | OpCleanInstance id => CleanInstance id
  | OpDeleteInstance id => DeleteInstance id
  | OpBatchDeleteInstances ids => BatchDeleteInstances ids
  | OpSetInstanceHealthStatus id flag revision => SetInstanceHealthStatus id flag revision
  | OpBatchSetInstanceHealthStatus ids status revision => BatchSetInstanceHealthStatus ids status revision
  | OpBatchSetInstanceIsolate ids isolate revision => BatchSetInstanceIsolate ids isolate revision
  | OpBatchAppendInstanceMetadata l => BatchAppendInstanceMetadata l
  | OpBatchRemoveInstanceMetadata l => BatchRemoveInstanceMetadata l
  | OpBegin => Begin
  | OpCommit => Commit
  | OpRollback => Rollback
  | OpTransaction ms => transaction_run ms
  | OpCreateLeaderElection key => pg_CreateLeaderElection key
  | OpCompareAndSwapVersion key cur new leader => void (pg_CompareAndSwapVersion key cur new leader)
  | OpBatchCleanDeletedInstances timeout batchSize => void (BatchCleanDeletedInstances timeout batchSize)
  | OpBatchCleanDeletedClients timeout batchSize => void (BatchCleanDeletedClients timeout batchSize)
  | OpCreateClient x => CreateClient x
  | OpUpdateClient x => UpdateClient x
  | OpBatchAddClients l => BatchAddClients l
  | OpBatchDeleteClients ids => BatchDeleteClients ids
  | OpCreateConfigFile x => CreateConfigFileTx (Some tt) x
  | OpUpdateConfigFile x => UpdateConfigFileTx (Some tt) x
  | OpDeleteConfigFile namespace group name => DeleteConfigFileTx (Some tt) namespace group name
  | OpHardDeleteConfigFile namespace group name => hardDeleteConfigFile namespace group name
  | OpCreateConfigFileGroup x => void (CreateConfigFileGroup x)
  | OpUpdateConfigFileGroup x => UpdateConfigFileGroup x
  | OpDeleteConfigFileGroup namespace name => DeleteConfigFileGroup namespace name
  | OpCreateConfigFileTemplate x => void (CreateConfigFileTemplate x)
  | OpCreateConfigFileReleaseHistory x => CreateConfigFileReleaseHistory x
  | OpCleanConfigFileReleaseHistory endTime limit => CleanConfigFileReleaseHistory endTime limit
  | OpRelease op => run_op op
  | OpCleanDeletedConfigFileRelease endTime limit => CleanDeletedConfigFileRelease endTime limit
  | OpCreateGrayResource x => CreateGrayResourceTx (Some tt) x
  | OpCleanGrayResource x => CleanGrayResource (Some tt) x
  | OpDeleteGrayResource x => DeleteGrayResource (Some tt) x
  | OpCreateServiceContract x => CreateServiceContract x
  | OpUpdateServiceContract x => UpdateServiceContract x
  | OpDeleteServiceContract x => DeleteServiceContract x
  | OpAddServiceContractInterfaces x => AddServiceContractInterfaces x
  | OpAppendServiceContractInterfaces x => AppendServiceContractInterfaces x
  | OpDeleteServiceContractInterfaces x => DeleteServiceContractInterfaces x
  | OpGenNextL5Sid layoutID => void (GenNextL5Sid layoutID)
  | OpAddUser x => AddUser x
  | OpUpdateUser x => UpdateUser x
  | OpDeleteUser x => DeleteUser x
  | OpAddGroup x => AddGroup x
  | OpUpdateGroup x => UpdateGroup x
  | OpDeleteGroup x => DeleteGroup x
  | OpAddStrategy x => AddStrategy x
  | OpUpdateStrategy x => UpdateStrategy x
  | OpDeleteStrategy id => DeleteStrategy id
  | OpLooseAddStrategyResources l => LooseAddStrategyResources l
  | OpRemoveStrategyResources l => RemoveStrategyResources l
  | OpCreateFaultDetectRule x => CreateFaultDetectRule x
  | OpUpdateFaultDetectRule x => UpdateFaultDetectRule x
  | OpDeleteFaultDetectRule id => DeleteFaultDetectRule id
  | OpCreateCircuitBreakerRule x => CreateCircuitBreakerRule x
  | OpUpdateCircuitBreakerRule x => UpdateCircuitBreakerRule x
  | OpDeleteCircuitBreakerRule id => DeleteCircuitBreakerRule id
  | OpEnableCircuitBreakerRule x => EnableCircuitBreakerRule x
  | OpCreateRateLimit x => CreateRateLimit x
  | OpEnableRateLimit x => EnableRateLimit x
  | OpUpdateRateLimit x => UpdateRateLimit x
  | OpDeleteRateLimit x => DeleteRateLimit x
  | OpCreateRoutingConfigV2 x => CreateRoutingConfigV2 x
  | OpUpdateRoutingConfigV2 x => UpdateRoutingConfigV2 x
  | OpEnableRouting x => EnableRouting x
  | OpDeleteRoutingConfigV2 id => DeleteRoutingConfigV2 id
  | OpCreateRoutingConfigV2Tx x => CreateRoutingConfigV2Tx (Some tt) x
  | OpUpdateRoutingConfigV2Tx x => UpdateRoutingConfigV2Tx (Some tt) x
  | OpDeleteRoutingConfigTx id => DeleteRoutingConfigTx (Some tt) id
  | OpCreateRoutingConfig x => CreateRoutingConfig x
  | OpUpdateRoutingConfig x => UpdateRoutingConfig x
  | OpDeleteRoutingConfig id => DeleteRoutingConfig id
  end.
End perform.

(** The text of the operations, down to the statements. *)
Create HintDb operations.
#[global] Hint Unfold Namespace.AddNamespace Namespace.addNamespace_body Namespace.cleanNamespace
  Namespace.UpdateNamespace Namespace.updateNamespace_body Namespace.UpdateNamespaceToken
  Namespace.updateNamespaceToken_body : operations.
#[global] Hint Unfold Service.AddService Service.addService_body Service.cleanService Service.addServiceMain
  Service.addServiceMeta Service.updateServiceMeta Service.addOwnerServiceMap Service.updateOwnerServiceMap
  Service.deleteOwnerServiceMap Service.UpdateService Service.updateService_body Service.updateServiceMain
  Service.DeleteService Service.deleteService_body Service.deleteServiceByID Service.UpdateServiceToken
  Service.UpdateServiceAlias Service.updateServiceAlias Service.updateServiceAlias_body
  Service.DeleteServiceAlias Service.insert_service_meta Service.update_alias : operations.
#[global] Hint Unfold Instances.addInstanceMeta Instances.updateInstanceMeta Instances.addInstanceCheck
  Instances.updateInstanceCheck Instances.deleteInstanceCheck Instances.cleanInstance Instances.update_batch
  Instances.delete_batch Instances.batchAddInstances_body Instances.batchAddMainInstances
  Instances.batchAddInstanceCheck Instances.batchDeleteInstanceMeta Instances.batchAddInstanceMeta
  Instances.append_one Instances.remove_one Instances.AddInstance Instances.addInstance_body
  Instances.addMainInstance Instances.BatchAddInstances Instances.UpdateInstance Instances.updateInstance_body
  Instances.updateInstanceMain Instances.CleanInstance Instances.DeleteInstance Instances.BatchDeleteInstances
  Instances.SetInstanceHealthStatus Instances.BatchSetInstanceHealthStatus Instances.BatchSetInstanceIsolate
  Instances.BatchAppendInstanceMetadata Instances.BatchRemoveInstanceMetadata Instances.insert_main
  Instances.insert_checks Instances.insert_meta Instances.update_in Instances.append_meta Instances.remove_meta : operations.
#[global] Hint Unfold LeaderElection.pg_CreateLeaderElection LeaderElection.pg_CompareAndSwapVersion
  LeaderElection.swap : operations.
#[global] Hint Unfold Cleanup.BatchCleanDeletedInstances Cleanup.clean_instances Cleanup.delete_in
  Cleanup.BatchCleanDeletedClients Cleanup.delete_clients : operations.
#[global] Hint Unfold Client.deleteClient Client.addClientMain Client.batchAddClientMain Client.insert_clients
  Client.insert_stats Client.batchAddClientStat Client.addClientStat Client.delete_stats_in
  Client.clean_stats_batch Client.batchCleanClientStats Client.delete_clients_batch
  Client.batchDeleteClientsMain Client.updateClientMain Client.updateClientStat Client.createClient
  Client.CreateClient Client.updateClient Client.UpdateClient Client.add_clients Client.batchAddClients
  Client.BatchAddClients Client.batchDeleteClients Client.BatchDeleteClients : operations.
#[global] Hint Unfold ConfigFile.insert_file ConfigFile.batchCleanTags ConfigFile.insert_tags
  ConfigFile.batchAddTags ConfigFile.create_file ConfigFile.CreateConfigFileTx ConfigFile.update_file
  ConfigFile.UpdateConfigFileTx ConfigFile.delete_file ConfigFile.DeleteConfigFileTx
  ConfigFile.hardDeleteConfigFile : operations.
#[global] Hint Unfold ConfigGroup.insert_group ConfigGroup.GetConfigFileGroup ConfigGroup.create_group
  ConfigGroup.CreateConfigFileGroup ConfigGroup.UpdateConfigFileGroup ConfigGroup.DeleteConfigFileGroup : operations.
#[global] Hint Unfold ConfigTemplate.CreateConfigFileTemplate ConfigTemplate.GetConfigFileTemplate
  ConfigTemplate.insert_template : operations.
#[global] Hint Unfold ConfigHistory.insert_history ConfigHistory.CreateConfigFileReleaseHistory
  ConfigHistory.CleanConfigFileReleaseHistory : operations.
#[global] Hint Unfold ConfigRelease.inactiveConfigFileRelease ConfigRelease.selectMaxVersion
  ConfigRelease.CreateConfigFileReleaseTx ConfigRelease.create_release ConfigRelease.DeleteConfigFileReleaseTx
  ConfigRelease.CleanConfigFileReleasesTx ConfigRelease.mark_deleted ConfigRelease.ActiveConfigFileReleaseTx
  ConfigRelease.activate ConfigRelease.InactiveConfigFileReleaseTx ConfigRelease.CleanDeletedConfigFileRelease
  ConfigRelease.insert_release : operations.
#[global] Hint Unfold Gray.CreateGrayResourceTx Gray.CleanGrayResource Gray.DeleteGrayResource Gray.upsert_gray : operations.
#[global] Hint Unfold ServiceContract.CreateServiceContract ServiceContract.UpdateServiceContract
  ServiceContract.delete_contract ServiceContract.DeleteServiceContract ServiceContract.updateRevision
  ServiceContract.each_interface ServiceContract.AddServiceContractInterfaces
  ServiceContract.AppendServiceContractInterfaces ServiceContract.DeleteServiceContractInterfaces : operations.
#[global] Hint Unfold L5.select_module L5.write_module L5.genNextL5Sid_body L5.genNextL5Sid L5.GenNextL5Sid
  L5.update_module : operations.
#[global] Hint Unfold User.cleanInValidUser User.addUser User.AddUser User.updateUser User.UpdateUser
  User.deleteUser_body User.deleteUser User.DeleteUser : operations.
#[global] Hint Unfold Group.cleanInValidGroup Group.checked_relation Group.addGroupRelation
  Group.removeGroupRelation Group.addGroup_body Group.addGroup Group.AddGroup Group.updateGroup_body
  Group.updateGroup Group.UpdateGroup Group.deleteUserGroup_body Group.deleteUserGroup Group.DeleteGroup : operations.
#[global] Hint Unfold Strategy.tx_refused Strategy.stmt_wrong_args Strategy.addStrategyPrincipals
  Strategy.deleteStrategyPrincipals Strategy.addStrategyResources Strategy.deleteStrategyResources
  Strategy.cleanInvalidStrategy Strategy.addStrategy Strategy.AddStrategy Strategy.updateStrategy_body
  Strategy.updateStrategy Strategy.UpdateStrategy Strategy.deleteStrategy_body Strategy.deleteStrategy
  Strategy.DeleteStrategy Strategy.touch_strategy Strategy.loose_add Strategy.LooseAddStrategyResources
  Strategy.remove_one Strategy.RemoveStrategyResources Strategy.cleanLinkStrategy Strategy.createDefaultStrategy
  Strategy.insert_resources : operations.
#[global] Hint Unfold FaultDetect.CreateFaultDetectRule FaultDetect.createFaultDetectRule
  FaultDetect.UpdateFaultDetectRule FaultDetect.updateFaultDetectRule FaultDetect.DeleteFaultDetectRule
  FaultDetect.deleteFaultDetectRule : operations.
#[global] Hint Unfold CircuitBreaker.CreateCircuitBreakerRule CircuitBreaker.createCircuitBreakerRule
  CircuitBreaker.create_body CircuitBreaker.UpdateCircuitBreakerRule CircuitBreaker.updateCircuitBreakerRule
  CircuitBreaker.update_body CircuitBreaker.DeleteCircuitBreakerRule CircuitBreaker.deleteCircuitBreakerRule
  CircuitBreaker.delete_body CircuitBreaker.EnableCircuitBreakerRule CircuitBreaker.enableCircuitBreakerRule
  CircuitBreaker.enable_body : operations.
#[global] Hint Unfold Store.buildEtimeStr : operations.
#[global] Hint Unfold RateLimit.CreateRateLimit RateLimit.with_params RateLimit.createRateLimit
  RateLimit.limitToEtimeStr RateLimit.EnableRateLimit RateLimit.enableRateLimit RateLimit.enable_body
  RateLimit.UpdateRateLimit RateLimit.updateRateLimit RateLimit.update_body RateLimit.DeleteRateLimit
  RateLimit.deleteRateLimit : operations.
#[global] Hint Unfold RoutingV2.CreateRoutingConfigV2 RoutingV2.checked RoutingV2.createRoutingConfigV2Tx
  RoutingV2.enable_time RoutingV2.UpdateRoutingConfigV2 RoutingV2.updateRoutingConfigV2Tx
  RoutingV2.EnableRouting RoutingV2.DeleteRoutingConfigV2 RoutingV2.CreateRoutingConfigV2Tx
  RoutingV2.UpdateRoutingConfigV2Tx : operations.
#[global] Hint Unfold Routing.CreateRoutingConfig Routing.checked Routing.cleanRoutingConfig
  Routing.UpdateRoutingConfig Routing.DeleteRoutingConfig Routing.DeleteRoutingConfigTx Routing.mark_deleted : operations.
#[global] Hint Unfold quiet LockBootstrap getValidNamespace LockNamespace
  RLockNamespace Transaction.DeleteNamespace getValidService LockService RLockService BatchRLockServices
  transaction_DeleteService DeleteAliasWithSourceID delete_namespace delete_service delete_aliases : operations.
