(* ===== verification/Invariant.v ===== *)
(** * Constraints under every operation

    The primary keys and unique constraints ([db_wf]) hold of the committed
    content and of the open transaction's content throughout any sequence of
    the operations of the package, whatever faults occur.  The first half is
    what every such theorem needs: how the operations that are not built from
    the combinators of Guards.v are followed, and the tactic [guard_operation]
    that follows any of them down to its statements. *)
From stdpp Require Import base list strings gmap.
From Stdlib Require Import ZArith Lia.
From S2P Require Import Prelude Driver Rows Schema Sql Common Where Guards Operations.
From S2P Require Import Service Transaction Instances ConfigRelease Gray Client Strategy L5.
From S2P Require Import ConfigFile ConfigGroup ConfigTemplate ConfigHistory.
Open Scope Z_scope.
Open Scope store_scope.

(** ** Operations with a control flow of their own *)

(** The rows of owner_service_map are numbered by the clock. *)
#[export] Instance preserves_insert_owners `{Uuid} Q I owners service namespace :
  (forall l, PreservesAt Q I (sql_insert (fun _ => map owner_row l))) ->
  PreservesAt Q I (insert_owners owners service namespace).
Proof.
  intros Hp now d a d' Hq Hd. unfold insert_owners.
  destruct (values_loop 4 3 (owner_args now 0 owners service namespace) 1) as [groups args].
  destruct (params_ok _ _); [|done]. rewrite <- (map_map (map (arg_at args)) owner_row). by apply Hp.
Qed.

(** The methods of the caller's transaction; [U] is what the calls in them may
    rely on. *)
Class GuardsTM `{Env} {A} (Q U : Z -> Prop) (I : database -> Prop) (m : TM A) : Prop :=
  guards_tm : forall t c r t' c', m t c = (r, t', c') -> guarded Q I c -> guarded Q I c'.
#[export] Hint Mode GuardsTM - - ! ! ! ! : typeclass_instances.

Section special.
Context `{Env} `{PolarisApi} (Q U : Z -> Prop) (I : database -> Prop).
Implicit Types c : conn database.

#[export] Instance guards_current_times clients : GuardsAt Q U I (current_times clients).
Proof. induction clients; simpl; apply _. Qed.

#[export] Instance guards_insert_or_continue x ok :
  PreservesAt Q I (sql_insert (fun now => [resource_row now (resource_args x)])) ->
  GuardsAt Q U I ok -> GuardsAt Q U I (insert_or_continue x ok).
Proof.
  intros Hp Hok c r c'. unfold insert_or_continue.
  destruct (tx_Exec _ c) as [[n|e|w] c1] eqn:E; intros Hr Hc;
    pose proof (guards_tx_Exec Q U I _ Hp _ _ _ E Hc) as H1; [by eapply Hok|case_decide; by simplify_eq|by simplify_eq].
Qed.

#[export] Instance guards_recovered {A} (m : M database A) v :
  GuardsAt Q U I m -> GuardsAt Q U I (fun c => match m c with (Err _, c') => (Ok v, c') | rc => rc end).
Proof. apply guards_recover. Qed.

#[export] Instance tm_call {A} f (m : M database A) : GuardsAt Q U I m -> GuardsTM Q U I (call f m).
Proof. intros Hm t c r t' c'. unfold call. destruct (m c) as [[a|e|w] c1] eqn:E; intros; simplify_eq; by eapply Hm. Qed.

#[export] Instance tm_then {A B} (m : TM A) (f : A -> TM B) :
  GuardsTM Q U I m -> (forall a, GuardsTM Q U I (f a)) -> GuardsTM Q U I (then_ m f).
Proof.
  intros Hm Hf t c r t' c'. unfold then_. destruct (m t c) as [[[a|e|w] t1] c1] eqn:E; intros Hr Hc;
    pose proof (Hm _ _ _ _ _ E Hc); simplify_eq; [by eapply Hf|done..].
Qed.

#[export] Instance tm_value {A} (r : res A) : GuardsTM Q U I (value r).
Proof. by intros t c r' t' c' [= _ _ <-]. Qed.

#[export] Instance tm_unless_finished {A} (m : TM A) : GuardsTM Q U I m -> GuardsTM Q U I (unless_finished m).
Proof. intros Hm t c r t' c'. unfold unless_finished. destruct (finish t) as [u|e|w];
    intros Hr Hc; [by eapply Hm|by simplify_eq|by eapply Hm]. Qed.

#[export] Instance tm_Commit : GuardsTM Q U I transaction_Commit.
Proof.
  intros t c r t' c'. unfold transaction_Commit. destruct (commit t); [intros; by simplify_eq|].
  destruct (failed t).
  - pose proof (guards_Rollback Q I c) as Hr. destruct (Rollback c); intros; simplify_eq/=; auto.
  - destruct (Commit c) as [r1 c1] eqn:E; intros; simplify_eq. by eapply (guards_Commit Q U I).
Qed.

#[export] Instance tm_or_else {A B} (m : TM A) (k : TM B) : GuardsTM Q U I m -> GuardsTM Q U I k ->
  GuardsTM Q U I (fun t c => match m t c with
    | (Panic w, t', c') => (Panic w, t', c')
    | (_, t', c') => k t' c'
    end).
Proof.
  intros Hm Hk t c r t' c'. destruct (m t c) as [[[a|e|w] t1] c1] eqn:E; intros Hr Hc;
    pose proof (Hm _ _ _ _ _ E Hc); simplify_eq; [by eapply Hk..|done].
Qed.

Lemma guards_run ms t c : (forall m, GuardsTM Q U I (step m)) -> guarded Q I c -> guarded Q I (snd (run ms t c)).
Proof.
  intros Hs. revert t c. induction ms as [|m ms IH]; intros t c Hc; [done|]. simpl.
  destruct (step m t c) as [[r t1] c1] eqn:E. apply IH. by eapply Hs.
Qed.

#[export] Instance guards_Ping : GuardsAt Q U I Ping.
Proof. intros c r c' [= _ <-] Hc. exact Hc. Qed.

(** The transaction of a caller, whatever methods it runs. *)
#[export] Instance guards_transaction_run ms :
  Clock Q U -> (forall m, GuardsTM Q U I (step m)) -> GuardsAt Q U I (transaction_run ms).
Proof.
  intros Hk Hs. unfold transaction_run. apply guards_bind.
  - unfold CreateTransaction. apply _.
  - intros t c r c' [= _ <-]. by apply guards_run.
Qed.
End special.

#[export] Hint Extern 6 (GuardsTM _ _ _ (match ?x with _ => _ end)) => destruct x : typeclass_instances.

(** ** Following an operation down to its statements *)

(** Instances are found by the shape of the text; nothing is unfolded. *)
Ltac guard_operation := autounfold with operations; cbv zeta; apply _.

(** ** Statements keep the constraints *)

Section statements.

Ltac sequence_only :=
  intros now [] a d' Hd [= _ <-]; revert Hd; unfold db_wf, config_wf; simpl; tauto.

#[export] Instance wf_file_nextval : Preserves db_wf file_nextval.
Proof. sequence_only. Qed.
#[export] Instance wf_tag_nextvals n : Preserves db_wf (tag_nextvals n).
Proof. sequence_only. Qed.
#[export] Instance wf_group_nextval : Preserves db_wf group_nextval.
Proof. sequence_only. Qed.
#[export] Instance wf_template_nextval : Preserves db_wf template_nextval.
Proof. sequence_only. Qed.
#[export] Instance wf_history_nextval : Preserves db_wf history_nextval.
Proof. sequence_only. Qed.

#[export] Instance wf_expire n p :
  Preserves db_wf (fun _ d => Ok (tt, set_tbl (expire n p (tbl d)) d)).
Proof. intros now d a d' Hd [= _ <-]. apply set_tbl_wf; [done|]. apply expire_sub. by apply tbl_distinct. Qed.
End statements.

#[local] Hint Constants Opaque : typeclass_instances.
#[local] Hint Transparent M P TM : typeclass_instances.

Section operations.
Context `{Env} `{PolarisApi} `{MapRange} `{Uuid} `{PgServer} `{PgInput} `{Strconv} `{ReleaseTypes}.
Context `{AuthApi} `{ModelInt}.
Implicit Types c : conn database.

#[export] Instance wf_step m : GuardsTM anytime anytime db_wf (step m).
Proof. destruct m; cbn [step]; guard_operation. Qed.

#[export] Instance wf_run_op op : Guards db_wf (run_op op).
Proof. destruct op; cbn [run_op]; guard_operation. Qed.

#[export] Instance wf_perform op : Guards db_wf (perform op).
Proof. destruct op; cbn [perform]; guard_operation. Qed.

(** The server's promise, carried through every operation: what the theorems
    about arbitrary sequences assume of the tables. *)
Lemma operations_keep_constraints ops c : txst c <> TxOpen ->
  db_wf (committed c) -> db_wf (committed (perform_each perform ops c)).
Proof. intros Ht Hd. by eapply (perform_each_guarded perform anytime anytime db_wf), guarded_idle. Qed.
End operations.
