(* ===== verification/Types.v ===== *)
(** * What the store writes, it can read

    A row can be unreadable for the Go code although the schema allows it: a
    NULL where a string is scanned, an integer other than 0 and 1 where a bool
    is.  [db_typed] says that no row of the rule and template tables is; it
    holds throughout any sequence of the writing operations of the package,
    with any faults, together with the constraints of the schema, and the
    reads then never fail to scan. *)
From stdpp Require Import base list strings gmap sorting.
From Stdlib Require Import ZArith Lia.
From S2P Require Import Prelude Driver Rows Schema Sql Common Where RuleFilter Guards Operations Invariant.
From S2P Require Import Transaction FaultDetect CircuitBreaker RateLimit RoutingV2 Routing L5 Strategy.
From S2P Require Import ConfigFile ConfigGroup ConfigHistory ConfigRelease ConfigTemplate.
Open Scope Z_scope.
Open Scope store_scope.

(** ** Readable rows *)

(** A column that is not NULL. *)
Definition filled (o : option string) : bool := match o with Some _ => true | None => false end.

(** An int column that is scanned into a bool. *)
Definition flag01 (n : Z) : bool := (n =? 0) || (n =? 1).

Lemma scan_filled o : filled o = true -> exists s, scan_string o = Ok s.
Proof. destruct o; [by eexists|done]. Qed.

Lemma scan_flag01 n : flag01 n = true -> exists b, scan_bool n = Ok b.
Proof. unfold flag01, scan_bool. destruct (n =? 0), (n =? 1); eauto. done. Qed.

Lemma flag01_boolToInt b : flag01 (boolToInt b) = true.
Proof. by destruct b. Qed.

Definition fd_readable (r : fault_detect_rule_row) : bool := filled (fd_config r).
Definition cb_readable (r : circuitbreaker_rule_v2_row) : bool := flag01 (cb_enable r) && filled (cb_config r).
Definition rl_readable (r : ratelimit_config_row) : bool := flag01 (rl_disable r).
Definition rv_readable (r : routing_config_v2_row) : bool := filled (rv_config r).
Definition rc_readable (r : routing_config_row) : bool := filled (rc_in_bounds r) && filled (rc_out_bounds r).
Definition tpl_readable (r : config_file_template_row) : bool :=
  filled (tpl_comment r) && filled (tpl_format r) && filled (tpl_create_by r) && filled (tpl_modify_by r).

Definition all_rows {R} `{!Table R} (ok : R -> bool) (d : database) : Prop := Forall (fun r => ok r = true) (tbl d).

Definition db_typed (d : database) : Prop :=
  all_rows fd_readable d /\ all_rows cb_readable d /\ all_rows rl_readable d /\ all_rows rv_readable d /\
  all_rows rc_readable d /\ all_rows tpl_readable d.

(** The constraints and the types. *)
Definition db_ok (d : database) : Prop := db_wf d /\ db_typed d.

(** A table whose rows are to be readable. *)
Class Readable (R : Type) `{!Table R} := {
  readable : R -> bool;
  typed_rows : forall d, db_typed d -> all_rows readable d;
  set_typed : forall l d, db_typed d -> Forall (fun r => readable r = true) l -> db_typed (set_tbl l d)
}.

Ltac readable_laws f :=
  refine {| readable := f |}; unfold db_typed, all_rows; [tauto|];
  intros l [] (? & ? & ? & ? & ? & ?) ?; split_and!; done.

#[export] Instance fd_row_readable : Readable fault_detect_rule_row.
Proof. readable_laws fd_readable. Defined.
#[export] Instance cb_row_readable : Readable circuitbreaker_rule_v2_row.
Proof. readable_laws cb_readable. Defined.
#[export] Instance rl_row_readable : Readable ratelimit_config_row.
Proof. readable_laws rl_readable. Defined.
#[export] Instance rv_row_readable : Readable routing_config_v2_row.
Proof. readable_laws rv_readable. Defined.
#[export] Instance rc_row_readable : Readable routing_config_row.
Proof. readable_laws rc_readable. Defined.
#[export] Instance tpl_row_readable : Readable config_file_template_row.
Proof. readable_laws tpl_readable. Defined.

(** ** Statements keep them *)

Section statements.
Context {R} `{Readable R}.
Implicit Types d : database.

Lemma set_ok l d : db_ok d -> distinct clash l = true -> Forall (fun r => readable r = true) l -> db_ok (set_tbl l d).
Proof. intros [Hw Ht] Hd Hl. split; [by apply set_tbl_wf|by apply set_typed]. Qed.

Lemma insert_ok (mk : Z -> list R) : (forall now, Forall (fun r => readable r = true) (mk now)) ->
  Preserves db_ok (sql_insert mk).
Proof.
  intros Hmk now d n d' Hd [-> Hdist]%insert_Ok_inv. apply set_ok; [done|done|].
  apply Forall_app. split; [apply typed_rows, Hd|apply Hmk].
Qed.

Lemma update_keeps_ok (w : R -> bool) set : (forall now r, readable r = true -> readable (set now r) = true) ->
  Preserves db_ok (sql_update w set).
Proof.
  intros Hset now d n d' [Hw Ht] Hu. split; [by eapply update_wf|].
  unfold sql_update in Hu. case_match; [|done]. injection Hu as <- <-. apply set_typed; [done|].
  pose proof (typed_rows d Ht) as Hrows. unfold all_rows in Hrows. unfold change.
  rewrite Forall_forall in *. intros r (x & Hx & ->)%elem_of_change. case_match; auto.
Qed.

#[export] Instance delete_ok (w : R -> bool) : Preserves db_ok (sql_delete w).
Proof.
  intros now d n d' [Hw Ht] Hdel. split; [by eapply delete_wf|]. injection Hdel as <- <-.
  apply set_typed; [done|]. pose proof (typed_rows d Ht) as Hrows. unfold all_rows in Hrows.
  rewrite Forall_forall in *. intros r [Hr _]%elem_of_keep. auto.
Qed.
End statements.

(** New rows and changed rows are readable by computation. *)
Ltac readable_row :=
  cbn -[flag01 boolToInt];
  unfold fd_readable, cb_readable, rl_readable, rv_readable, rc_readable, tpl_readable;
  cbn -[flag01 boolToInt]; rewrite ?flag01_boolToInt;
  first [reflexivity|done|by intros [? ?]%andb_true_iff].

#[export] Hint Extern 1 (Preserves db_ok (sql_insert _)) =>
  apply insert_ok; intros ?; repeat constructor; readable_row : typeclass_instances.
#[export] Hint Extern 1 (Preserves db_ok (sql_update _ _)) =>
  apply update_keeps_ok; intros ? []; readable_row : typeclass_instances.

(** The other tables hold no readable column. *)
Section other_tables.
Context {R} `{!Table R} (untyped : forall (l : list R) d, db_typed d -> db_typed (set_tbl l d)).

Lemma insert_untyped (mk : Z -> list R) : Preserves db_ok (sql_insert mk).
Proof.
  intros now d n d' [Hw Ht] Hi. split; [by eapply insert_wf|]. apply insert_Ok_inv in Hi as [-> _]. by apply untyped.
Qed.

Lemma update_untyped w (set : Z -> R -> R) : Preserves db_ok (sql_update w set).
Proof.
  intros now d n d' [Hw Ht] Hi. split; [by eapply update_wf|]. apply update_Ok_inv in Hi as [-> _]. by apply untyped.
Qed.

Lemma delete_untyped (w : R -> bool) : Preserves db_ok (sql_delete w).
Proof. intros now d n d' [Hw Ht] Hi. split; [by eapply delete_wf|]. injection Hi as <- <-. by apply untyped. Qed.
End other_tables.

Ltac other_table lem := apply lem; intros ? ? Hother; exact Hother.
#[export] Hint Extern 2 (Preserves db_ok (sql_insert _)) => other_table insert_untyped : typeclass_instances.
#[export] Hint Extern 2 (Preserves db_ok (sql_update _ _)) => other_table update_untyped : typeclass_instances.
#[export] Hint Extern 2 (Preserves db_ok (sql_delete _)) => other_table delete_untyped : typeclass_instances.

(** Statements that keep the constraints and leave the typed tables alone. *)
Lemma ok_untyped {A} (p : P database A) : Preserves db_wf p ->
  (forall now d a d', p now d = Ok (a, d') -> db_typed d -> db_typed d') -> Preserves db_ok p.
Proof. intros Hw Ht now d a d' [? ?] Hp. split; [by eapply Hw|by eapply Ht]. Qed.

Ltac sequence_untyped := apply ok_untyped; [apply _|]; intros now [] a d' [= _ <-] Hd; exact Hd.

#[export] Instance ok_nextval : Preserves db_ok nextval.
Proof. sequence_untyped. Qed.
#[export] Instance ok_file_nextval : Preserves db_ok file_nextval.
Proof. sequence_untyped. Qed.
#[export] Instance ok_tag_nextvals n : Preserves db_ok (tag_nextvals n).
Proof. sequence_untyped. Qed.
#[export] Instance ok_group_nextval : Preserves db_ok group_nextval.
Proof. sequence_untyped. Qed.
#[export] Instance ok_template_nextval : Preserves db_ok template_nextval.
Proof. sequence_untyped. Qed.
#[export] Instance ok_history_nextval : Preserves db_ok history_nextval.
Proof. sequence_untyped. Qed.
#[export] Instance ok_expire n p : Preserves db_ok (fun _ d => Ok (tt, set_tbl (expire n p (tbl d)) d)).
Proof. apply ok_untyped; [apply _|]. intros now d a d' [= _ <-] Hd. exact Hd. Qed.

(** ** The operations *)

(** Instances are found by the shape of the text; nothing is unfolded. *)
#[local] Hint Constants Opaque : typeclass_instances.
#[local] Hint Transparent M P TM : typeclass_instances.

Section operations.
Context `{Env} `{PolarisApi} `{MapRange} `{Uuid} `{PgServer} `{PgInput} `{Strconv} `{ReleaseTypes}.
Context `{AuthApi} `{ModelInt}.

#[export] Instance ok_step m : GuardsTM anytime anytime db_ok (step m).
Proof. destruct m; cbn [step]; guard_operation. Qed.

#[export] Instance ok_run_op op : Guards db_ok (run_op op).
Proof. destruct op; cbn [run_op]; guard_operation. Qed.

#[export] Instance ok_perform op : Guards db_ok (perform op).
Proof. destruct op; cbn [perform]; guard_operation. Qed.

Lemma perform_each_ok ops c : txst c <> TxOpen ->
  db_ok (committed c) -> db_ok (committed (perform_each perform ops c)).
Proof. intros Ht Hd. by eapply (perform_each_guarded perform anytime anytime db_ok), guarded_idle. Qed.
End operations.

(** ** The reads *)

Lemma fetch_rows_total {R A} (scan : R -> res A) l :
  (forall r, r ∈ l -> exists a, scan r = Ok a) -> exists out, fetch_rows scan (Rows l None) = Ok out.
Proof.
  intros Hs. assert (exists out, Forall2 (fun r a => scan r = Ok a) l out) as [out Hout].
  { induction l as [|r l IH]; [by exists []|]. destruct (Hs r) as [a Ha]; [by left|].
    destruct IH as [out Hout]; [intros; apply Hs; by right|]. exists (a :: out). by constructor. }
  exists out. by apply fetch_rows_Ok.
Qed.

Section reads.
Context `{Env} `{PolarisApi}.
Implicit Types c : conn database.

Lemma read_total {R A} view (sel : Z -> database -> res (list R)) (scan : R -> res A) c l : reliable ->
  sel (current_timestamp c) (view c) = Ok l -> (forall r, r ∈ l -> exists a, scan r = Ok a) ->
  exists out c', (rs <- Query view sel ;; lift (fetch_rows scan rs)) c = (Ok out, c').
Proof.
  intros Hrel Hl Hs. unfold Bind. rewrite (Query_reliable _ _ _ _ Hrel Hl).
  destruct (fetch_rows_total scan l Hs) as [out Hout]. unfold lift. rewrite Hout. eauto.
Qed.

Lemma select_typed {R} `{Readable R} w d r : db_ok d -> r ∈ sql_select w d -> readable r = true.
Proof.
  intros [_ Ht] [Hr _]%elem_of_keep. pose proof (typed_rows d Ht) as Hrows. unfold all_rows in Hrows.
  rewrite Forall_forall in Hrows. auto.
Qed.

Definition returns {A} (op : M database A) c : Prop := exists a c', op c = (Ok a, c').

(** The whole-table reads of the caches, and the reads of one rule. *)
Definition cache_reads_return (mtime : Z) (firstUpdate : bool) c : Prop :=
  returns (GetFaultDetectRulesForCache mtime firstUpdate) c /\
  returns (GetCircuitBreakerRulesForCache mtime firstUpdate) c /\
  returns (GetRateLimitsForCache mtime firstUpdate) c /\
  returns (GetRoutingConfigsV2ForCache mtime firstUpdate) c /\
  returns (GetRoutingConfigsForCache mtime firstUpdate) c /\
  returns QueryAllConfigFileTemplates c.

Lemma fd_scan r : readable r = true -> exists a, scan_string (fd_config r) = Ok a.
Proof. apply scan_filled. Qed.

Lemma cb_scan r : readable r = true ->
  (exists b, scan_bool (cb_enable r) = Ok b) /\ exists a, scan_string (cb_config r) = Ok a.
Proof. intros [Hb Hf]%andb_true_iff. split; [by apply scan_flag01|by apply scan_filled]. Qed.

Lemma rc_scan r : readable r = true -> exists a, scan_routing r = Ok a.
Proof.
  intros [[x Hx]%scan_filled [y Hy]%scan_filled]%andb_true_iff. unfold scan_routing. rewrite Hx, Hy. by eexists.
Qed.

Lemma tpl_scan r : readable r = true -> exists a, scan_template r = Ok a.
Proof.
  intros [[[[a Ha]%scan_filled [b Hb]%scan_filled]%andb_true_iff [x Hx]%scan_filled]%andb_true_iff
    [y Hy]%scan_filled]%andb_true_iff.
  unfold scan_template. rewrite Ha, Hb, Hx, Hy. by eexists.
Qed.

Lemma cache_reads_total mtime firstUpdate c : reliable -> db_ok (committed c) -> db_ok (replica c) ->
  cache_reads_return mtime firstUpdate c.
Proof.
  intros Hrel Hc Hr. split_and!.
  - eapply read_total; [done|reflexivity|]. intros r [x Hx]%(select_typed _ _ _ Hr)%fd_scan. rewrite Hx. by eexists.
  - eapply read_total; [done|reflexivity|]. intros r [[b Hb] [x Hx]]%(select_typed _ _ _ Hr)%cb_scan.
    rewrite Hb, Hx. by eexists.
  - eapply read_total; [done|reflexivity|]. intros r _. by eexists.
  - eapply read_total; [done|reflexivity|]. intros r [x Hx]%(select_typed _ _ _ Hr)%scan_filled. rewrite Hx. by eexists.
  - eapply read_total; [done|reflexivity|]. intros r Hs%(select_typed _ _ _ Hr). by apply rc_scan.
  - unfold returns, QueryAllConfigFileTemplates, Bind, map_err.
    erewrite Query_reliable by done. unfold lift, ConfigTemplate.transferRows.
    destruct (fetch_rows_total scan_template (by_id_desc (tbl (committed c)))) as [out Hout].
    { intros r Hr'. apply tpl_scan. unfold by_id_desc in Hr'. rewrite list_elem_of_In in Hr'.
      eapply (Permutation_in _ (merge_sort_Permutation _ _)) in Hr'. rewrite <- list_elem_of_In in Hr'.
      pose proof (typed_rows _ (proj2 Hc)) as Hrows. unfold all_rows in Hrows. rewrite Forall_forall in Hrows. auto. }
    rewrite Hout. by eexists _, _.
Qed.
End reads.

(** C2: whatever sequence of writing operations of the package is run, with
    whatever faults, on content whose rule and template rows are readable and
    whose constraints hold, both remain so; and a connection without faults to
    that content, replicated, then reads every rule and template: no scan
    fails. *)
Theorem rules_stay_readable `{!PolarisApi} `{MapRange} `{Uuid} `{PgServer} `{PgInput} `{Strconv} `{ReleaseTypes}
    `{AuthApi} `{ModelInt} (E : Env) ops c0 : txst c0 <> TxOpen -> db_ok (committed c0) ->
  let d' := committed (perform_each perform ops c0) in
  db_ok d' /\
  forall (E' : Env) mtime firstUpdate (c : conn database),
    @reliable E' -> committed c = d' -> replica c = d' -> cache_reads_return (H:=E') mtime firstUpdate c.
Proof.
  intros Ht Hd d'. assert (db_ok d') as Hd' by (by apply perform_each_ok).
  split; [done|]. intros E' mtime firstUpdate c Hrel Hc Hr. apply cache_reads_total; [done|by rewrite Hc|by rewrite Hr].
Qed.
