(* ===== verification/Sessions.v ===== *)
(** * What an operation leaves of its connection

    Go returns a connection to its pool only when the transaction on it has
    ended; an operation that returns in between, after any error or panic,
    loses it.  [Closes] says that an operation leaves no transaction open
    where none was; [Returns] that it ends with a value or an error, and does
    not panic.  Both follow the text of the operations, like the invariants of
    Guards.v. *)
From stdpp Require Import base list strings gmap.
From Stdlib Require Import ZArith Lia.
From S2P Require Import Prelude Driver Rows Schema Sql Common Where RuleFilter Guards Operations Invariant.
From S2P Require Import Service Transaction Instances ConfigRelease Gray Client Strategy L5 Cleanup.
Open Scope Z_scope.
Open Scope store_scope.

(** ** No transaction is left open *)

Class Closes `{Env} {A} (m : M database A) : Prop :=
  closes : forall c, txst c <> TxOpen -> txst (snd (m c)) <> TxOpen.
#[export] Hint Mode Closes - - ! : typeclass_instances.

Section closes.
Context `{Env} `{PolarisApi}.

#[export] Instance closes_ret {A} (a : A) : Closes (Ret a).
Proof. by intros c. Qed.
#[export] Instance closes_fail {A} e : Closes (A:=A) (Fail e).
Proof. by intros c. Qed.
#[export] Instance closes_lift {A} (x : res A) : Closes (lift x).
Proof. by intros c. Qed.
#[export] Instance closes_time_Now : Closes time_Now.
Proof. by intros c. Qed.

#[export] Instance closes_bind {A B} (m : M database A) (f : A -> M database B) :
  Closes m -> (forall a, Closes (f a)) -> Closes (Bind m f) | 5.
Proof.
  intros Hm Hf c Hc. unfold Bind. pose proof (Hm c Hc) as H1. destruct (m c) as [[a|e|w] c1]; [by apply Hf|done..].
Qed.

#[export] Instance closes_void {A} (m : M database A) : Closes m -> Closes (void m) | 0.
Proof. intros. unfold void. apply _. Qed.

#[export] Instance closes_map_err {A} f (m : M database A) : Closes m -> Closes (map_err f m).
Proof. intros Hm c Hc. unfold map_err. pose proof (Hm c Hc) as H1. by destruct (m c) as [[a|e|w] c1]. Qed.
#[export] Instance closes_or_nil_stmt (m : M database unit) : Closes m -> Closes (or_nil_stmt m).
Proof. intros Hm c Hc. unfold or_nil_stmt. pose proof (Hm c Hc) as H1. by destruct (m c) as [[a|e|w] c1]. Qed.
#[export] Instance closes_ignore_error {A} (m : M database A) : Closes m -> Closes (ignore_error m).
Proof. intros Hm c Hc. unfold ignore_error. pose proof (Hm c Hc) as H1. by destruct (m c) as [[a|e|w] c1]. Qed.
#[export] Instance closes_recovered {A} (m : M database A) (k : error -> res A) :
  Closes m -> Closes (fun c => match m c with (Err e, c') => (k e, c') | rc => rc end).
Proof. intros Hm c Hc. pose proof (Hm c Hc) as H1. by destruct (m c) as [[a|e|w] c1]. Qed.

(** A statement outside a transaction fails. *)
#[export] Instance closes_tx_Exec {A} (p : P database A) : Closes (tx_Exec p).
Proof. intros c Hc. unfold tx_Exec. destruct (txst c) eqn:Es; simpl; congruence. Qed.
#[export] Instance closes_tx_Query {R} (sel : Z -> database -> res (list R)) : Closes (tx_Query sel).
Proof. intros c Hc. unfold tx_Query, tx_Exec. destruct (txst c) eqn:Es; simpl; congruence. Qed.
#[export] Instance closes_tx_Prepare : Closes tx_Prepare.
Proof. unfold tx_Prepare. apply _. Qed.
#[export] Instance closes_stmt_Exec {A} (p : P database A) : Closes (stmt_Exec p).
Proof. unfold stmt_Exec. apply _. Qed.
#[export] Instance closes_tx_QueryRow {R} (sel : Z -> database -> res (list R)) : Closes (tx_QueryRow sel).
Proof. unfold tx_QueryRow. apply _. Qed.

#[export] Instance closes_Retry {A} (m : M database A) : Closes m -> Closes (Retry m).
Proof.
  intros Hm c Hc. destruct (Retry m c) as [r c'] eqn:Hr.
  assert (PreOrder (fun c c' : conn database => txst c <> TxOpen -> txst c' <> TxOpen)) as Hpre.
  { split; [by intros x|]. intros x y z Hxy Hyz Hi. auto. }
  refine (Retry_rel (PreOrder0:=Hpre) _ m _ _ c r c' Hr Hc); [|by intros x ms].
  intros x rx x' Hx Hi. pose proof (Hm x Hi) as H1. by rewrite Hx in H1.
Qed.
#[export] Instance closes_RetryTransaction {A} (m : M database A) : Closes m -> Closes (RetryTransaction m).
Proof. intros. unfold RetryTransaction. apply _. Qed.

Lemma Commit_closed (c : conn database) : txst (snd (Commit c)) <> TxOpen.
Proof. unfold Commit. destruct (txst c) eqn:Es; [destruct (fault_at (calls c)) as [[]|]|..]; simpl; congruence. Qed.
Lemma Rollback_closed (c : conn database) : txst (snd (Rollback c)) <> TxOpen.
Proof. unfold Rollback. destruct (txst c) eqn:Es; simpl; congruence. Qed.

#[export] Instance closes_Commit : Closes Commit.
Proof. intros c _. apply Commit_closed. Qed.
#[export] Instance closes_Rollback : Closes Rollback.
Proof. intros c _. apply Rollback_closed. Qed.
#[export] Instance closes_rolls_back {A} (m : M database A) : Closes m -> Closes (rolls_back m).
Proof.
  intros Hm c Hc. unfold rolls_back. pose proof (Hm c Hc) as H1.
  destruct (m c) as [[a|e|w] c1]; [done|apply Rollback_closed..].
Qed.
#[export] Instance closes_commit_tx : Closes commit_tx.
Proof. unfold commit_tx. apply _. Qed.
#[export] Instance closes_with_tx {A} tx (m : M database A) : Closes m -> Closes (with_tx tx m).
Proof. intros. unfold with_tx. destruct tx; apply _. Qed.

(** The deferred rollback ends whatever was begun, whatever happened since. *)
#[export] Instance closes_defer_rollback {A} (m : M database A) : Closes (defer_rollback m) | 0.
Proof. intros c _. unfold defer_rollback. destruct (m c) as [r c1]. apply Rollback_closed. Qed.

(** A begin that fails opens nothing. *)
Lemma Begin_fails (c c' : conn database) r : Begin c = (r, c') -> r <> Ok tt -> txst c' = txst c.
Proof.
  assert (forall c x (c' : conn database), BeginTx c = (x, c') -> x <> Ok tt -> txst c' = txst c) as Hb.
  { intros c0 x c0'. unfold BeginTx. destruct (fault_at (calls c0)); by intros [= <- <-]. }
  intros (k & c1 & c2 & ms & _ & Hn & Hh & ->)%Retry_spec Hr. simpl. rewrite (Hb _ _ _ Hh Hr). clear Hh.
  induction Hn as [c|k c x c1 (e & x1 & i & Hx & _ & ->) _ IH]; [done|]. rewrite IH. simpl. by eapply Hb.
Qed.

#[export] Instance closes_begin_deferred {A} (m : unit -> M database A) :
  Closes (Bind Begin (fun u => defer_rollback (m u))) | 1.
Proof.
  intros c Hc. unfold Bind. destruct (Begin c) as [[[]|e|w] c1] eqn:Eb.
  - unfold defer_rollback. destruct (m tt c1) as [r c2]. apply Rollback_closed.
  - simpl. by rewrite (Begin_fails _ _ _ Eb).
  - simpl. by rewrite (Begin_fails _ _ _ Eb).
Qed.

#[export] Instance closes_process {A} (m : M database A) : Closes (processWithTransaction m) | 0.
Proof. unfold processWithTransaction. apply (closes_begin_deferred (fun _ => m)). Qed.

(** Calls outside transactions. *)
#[export] Instance closes_DB_Prepare : Closes DB_Prepare.
Proof. intros c Hc. unfold DB_Prepare. by destruct (fault_at (calls c)). Qed.
#[export] Instance closes_DB_Exec {A} (p : P database A) : Closes (DB_Exec p).
Proof.
  intros c Hc. unfold DB_Exec.
  destruct (fault_at (calls c)) as [[]|]; try done; by destruct (p (current_timestamp c) (committed c)) as [[]| |].
Qed.
#[export] Instance closes_Exec {A} (p : P database A) : Closes (Exec p).
Proof. unfold Exec. apply _. Qed.
#[export] Instance closes_Query {R} view (sel : Z -> database -> res (list R)) : Closes (Query view sel).
Proof. unfold Query. apply closes_Retry. intros c Hc. by destruct (fault_at (calls c)) as [[]|]. Qed.
#[export] Instance closes_QueryRow {R} view (sel : Z -> database -> res (list R)) : Closes (QueryRow view sel).
Proof. unfold QueryRow. apply _. Qed.

#[export] Instance closes_each {X} (handler : X -> M database unit) l :
  (forall x, Closes (handler x)) -> Closes (each handler l).
Proof. intros Hh. induction l; simpl; apply _. Qed.
#[export] Instance closes_BatchOperation {X} (data : list X) (handler : list X -> M database unit) :
  (forall x, Closes (handler x)) -> Closes (BatchOperation data handler).
Proof. intros Hh c. unfold BatchOperation. rewrite BatchOperation_loop_eq by lia. by apply closes_each. Qed.
#[export] Instance closes_current_times clients : Closes (current_times clients).
Proof. induction clients; simpl; apply _. Qed.
End closes.

#[export] Hint Extern 6 (Closes (match ?x with _ => _ end)) => destruct x : typeclass_instances.

(** ** No panic *)

(** Queries and calls that are no panic; for outcomes and statements, see
    Guards.v. *)
Class Selects {R} (sel : Z -> database -> res (list R)) : Prop := selects : forall now d, Settled (sel now d).
#[export] Hint Mode Selects - ! : typeclass_instances.
Class Returns `{Env} {A} (m : M database A) : Prop := returns : forall c, Settled (fst (m c)).
#[export] Hint Mode Returns - - ! : typeclass_instances.

Ltac settle := simpl in *; first [done | assumption
  | match goal with H : Settled (Panic ?w) |- _ => by destruct (H w) end | (intros ?; discriminate)].

#[export] Hint Extern 8 (Selects _) => (let now := fresh in let d := fresh in intros now d; cbv beta) : typeclass_instances.

Section returns.
Context `{Env} `{PolarisApi}.

#[export] Instance returns_ret {A} (a : A) : Returns (Ret a).
Proof. done. Qed.
#[export] Instance returns_fail {A} e : Returns (A:=A) (Fail e).
Proof. done. Qed.
#[export] Instance returns_lift {A} (x : res A) : Settled x -> Returns (lift x).
Proof. by intros Hx c. Qed.
#[export] Instance returns_time_Now : Returns time_Now.
Proof. done. Qed.

#[export] Instance returns_bind {A B} (m : M database A) (f : A -> M database B) :
  Returns m -> (forall a, Returns (f a)) -> Returns (Bind m f) | 5.
Proof.
  intros Hm Hf c. unfold Bind. pose proof (Hm c) as H1. destruct (m c) as [[a|e|w] c1]; [apply Hf|settle..].
Qed.
#[export] Instance returns_void {A} (m : M database A) : Returns m -> Returns (void m) | 0.
Proof. intros. unfold void. apply _. Qed.
#[export] Instance returns_map_err {A} f (m : M database A) : Returns m -> Returns (map_err f m).
Proof. intros Hm c. unfold map_err. pose proof (Hm c) as H1. destruct (m c) as [[a|e|w] c1]; settle. Qed.
#[export] Instance returns_ignore_error {A} (m : M database A) : Returns m -> Returns (ignore_error m).
Proof. intros Hm c. unfold ignore_error. pose proof (Hm c) as H1. destruct (m c) as [[a|e|w] c1]; settle. Qed.
#[export] Instance returns_recovered {A} (m : M database A) (k : error -> res A) :
  Returns m -> (forall e, Settled (k e)) -> Returns (fun c => match m c with (Err e, c') => (k e, c') | rc => rc end).
Proof. intros Hm Hk c. pose proof (Hm c) as H1. destruct (m c) as [[a|e|w] c1]; [settle|apply Hk|settle]. Qed.

#[export] Instance returns_tx_Exec {A} (p : P database A) : Runs p -> Returns (tx_Exec p).
Proof.
  intros Hp c. unfold tx_Exec. destruct (txst c); [|done..]. pose proof (Hp (tx_now c) (work c)) as H1.
  destruct (fault_at (calls c)) as [[]|]; try settle;
    destruct (p (tx_now c) (work c)) as [[]| |]; settle.
Qed.
#[export] Instance returns_tx_Query {R} (sel : Z -> database -> res (list R)) : Selects sel -> Returns (tx_Query sel).
Proof.
  intros Hs.
  assert (Returns (tx_Exec (fun now d => res_map (fun l => (Rows l None, d)) (sel now d)))) as He.
  { apply returns_tx_Exec. intros now d. apply settled_map, Hs. }
  intros c. unfold tx_Query. destruct (txst c); [|apply He..].
  destruct (fault_at (calls c)) as [[]|]; [apply He..| |apply He]. apply settled_map, Hs.
Qed.
#[export] Instance returns_tx_Prepare : Returns tx_Prepare.
Proof. unfold tx_Prepare. apply _. Qed.
(** What follows a refused statement is not reached. *)
#[export] Instance returns_refused {A B} e (f : A -> M database B) :
  Returns (Bind (tx_Exec (fun _ _ => Err e)) f) | 0.
Proof. intros c. unfold Bind, tx_Exec. destruct (txst c); [destruct (fault_at (calls c)) as [[]|]|..]; settle. Qed.

#[export] Instance returns_stmt_Exec {A} (p : P database A) : Runs p -> Returns (stmt_Exec p).
Proof. intros. unfold stmt_Exec. apply _. Qed.
#[export] Instance returns_tx_QueryRow {R} (sel : Z -> database -> res (list R)) :
  Selects sel -> Returns (tx_QueryRow sel).
Proof. intros. unfold tx_QueryRow. apply _. Qed.

#[export] Instance returns_Retry {A} (m : M database A) : Returns m -> Returns (Retry m).
Proof.
  intros Hm c w. destruct (Retry m c) as [r c'] eqn:Hr. apply Retry_spec in Hr as (k & c1 & c2 & ms & _ & _ & Hh & _).
  pose proof (Hm c1 w) as H1. by rewrite Hh in H1.
Qed.
#[export] Instance returns_RetryTransaction {A} (m : M database A) : Returns m -> Returns (RetryTransaction m).
Proof. intros. unfold RetryTransaction. apply _. Qed.
#[export] Instance returns_Begin : Returns Begin.
Proof. unfold Begin. apply returns_Retry. intros c. unfold BeginTx. by destruct (fault_at (calls c)). Qed.
#[export] Instance returns_Commit : Returns Commit.
Proof. intros c. unfold Commit. destruct (txst c); [destruct (fault_at (calls c)) as [[]|]|..]; done. Qed.
#[export] Instance returns_Rollback : Returns Rollback.
Proof. intros c. unfold Rollback. destruct (txst c), (fault_at (calls c)); done. Qed.
#[export] Instance returns_defer_rollback {A} (m : M database A) : Returns m -> Returns (defer_rollback m).
Proof. intros Hm c. unfold defer_rollback. pose proof (Hm c) as H1. destruct (m c); settle. Qed.
#[export] Instance returns_rolls_back {A} (m : M database A) : Returns m -> Returns (rolls_back m).
Proof. intros Hm c. unfold rolls_back. pose proof (Hm c) as H1. destruct (m c) as [[a|e|w] c1]; settle. Qed.
#[export] Instance returns_process {A} (m : M database A) : Returns m -> Returns (processWithTransaction m).
Proof. intros. unfold processWithTransaction. apply _. Qed.
#[export] Instance returns_then_commit {A} (m : M database A) : Returns m -> Returns (then_commit m).
Proof. intros. unfold then_commit. apply _. Qed.
#[export] Instance returns_commit_with {A} f (m : M database A) : Returns m -> Returns (commit_with f m).
Proof. intros. unfold commit_with. apply _. Qed.
#[export] Instance returns_commit_tx : Returns commit_tx.
Proof. unfold commit_tx. apply _. Qed.
#[export] Instance returns_with_tx {A} tx (m : M database A) : Returns m -> Returns (with_tx tx m).
Proof. intros. unfold with_tx. destruct tx; apply _. Qed.

#[export] Instance returns_DB_Prepare : Returns DB_Prepare.
Proof. intros c. unfold DB_Prepare. by destruct (fault_at (calls c)). Qed.
#[export] Instance returns_DB_Exec {A} (p : P database A) : Runs p -> Returns (DB_Exec p).
Proof.
  intros Hp c. unfold DB_Exec. pose proof (Hp (current_timestamp c) (committed c)) as H1.
  destruct (fault_at (calls c)) as [[]|]; try settle;
    destruct (p (current_timestamp c) (committed c)) as [[]| |]; settle.
Qed.
#[export] Instance returns_Exec {A} (p : P database A) : Runs p -> Returns (Exec p).
Proof. intros. unfold Exec. apply _. Qed.
#[export] Instance returns_Query {R} view (sel : Z -> database -> res (list R)) : Selects sel -> Returns (Query view sel).
Proof.
  intros Hs. unfold Query. apply returns_Retry. intros c.
  destruct (fault_at (calls c)) as [[]|]; [done..| |]; apply settled_map, Hs.
Qed.
#[export] Instance returns_QueryRow {R} view (sel : Z -> database -> res (list R)) :
  Selects sel -> Returns (QueryRow view sel).
Proof. intros. unfold QueryRow. apply _. Qed.

#[export] Instance returns_each {X} (handler : X -> M database unit) l :
  (forall x, Returns (handler x)) -> Returns (each handler l).
Proof. intros Hh. induction l; simpl; apply _. Qed.
#[export] Instance returns_BatchOperation {X} (data : list X) (handler : list X -> M database unit) :
  (forall x, Returns (handler x)) -> Returns (BatchOperation data handler).
Proof. intros Hh c. unfold BatchOperation. rewrite BatchOperation_loop_eq by lia. by apply returns_each. Qed.
#[export] Instance returns_current_times clients : Returns (current_times clients).
Proof. induction clients; simpl; apply _. Qed.
#[export] Instance runs_insert_owners `{Uuid} owners service namespace : Runs (insert_owners owners service namespace).
Proof.
  intros now d. unfold insert_owners. destruct (values_loop 4 3 _ 1) as [groups args]. destruct (params_ok _ _); [|settle].
  apply runs_sql_insert.
Qed.
#[export] Instance returns_insert_or_continue x ok : Returns ok -> Returns (insert_or_continue x ok).
Proof.
  intros Hok c. unfold insert_or_continue.
  assert (Returns (tx_Exec (sql_insert (fun now => [resource_row now (resource_args x)])))) as Hi by apply _.
  pose proof (Hi c) as H1. destruct (tx_Exec _ c) as [[n|e|w] c1]; [apply Hok|by case_decide|by destruct (H1 w)].
Qed.
End returns.

#[export] Hint Extern 6 (Returns (match ?x with _ => _ end)) => destruct x : typeclass_instances.

(** Functions that are no combination of others: one look at each. *)
Ltac head_of t := lazymatch t with ?f _ => head_of f | _ => t end.
Ltac by_cases :=
  let w := fresh in intros w;
  match goal with |- ?x <> _ => let h := head_of x in unfold h end;
  repeat case_match; first [discriminate|done].
#[export] Hint Extern 20 (Settled _) => solve [by_cases] : typeclass_instances.
#[export] Hint Extern 20 (Runs _) => solve [let now := fresh in let d := fresh in intros now d; by_cases] : typeclass_instances.

(** The operations that end what they begin: all but those that hand a
    transaction to their caller. *)
Definition own_transaction (op : operation) : bool :=
  match op with OpBegin | OpTransaction _ => false | _ => true end.

#[local] Hint Constants Opaque : typeclass_instances.
#[local] Hint Transparent M P : typeclass_instances.

Section operations.
Context `{Env} `{PolarisApi} `{MapRange} `{Uuid} `{PgServer} `{PgInput} `{Strconv} `{ReleaseTypes}.
Context `{AuthApi} `{ModelInt}.
Implicit Types c : conn database.

#[export] Instance closes_run_op op : Closes (run_op op).
Proof. destruct op; cbn [run_op]; guard_operation. Qed.

Lemma perform_closes op : own_transaction op = true -> Closes (perform op).
Proof. destruct op; intros Hop; try discriminate Hop; clear Hop; cbn [perform]; guard_operation. Qed.

(** The operations that look at no error of one of their Prepares. *)
Definition may_panic (op : operation) : bool :=
  match op with OpCreateCircuitBreakerRule _ | OpDeleteStrategy _ => true | _ => false end.

#[export] Instance returns_run_op op : Returns (run_op op).
Proof. destruct op; cbn [run_op]; guard_operation. Qed.

(** What the outside functions promise: an outcome. *)
Class OutsideReturns : Prop := {
  ParseFloat_returns : forall s, Settled (ParseFloat s);
  Unmarshal_returns : forall s, Settled (Unmarshal_map s);
  pg_int_returns : forall s, Settled (pg_int s);
  pg_timestamp_returns : forall s, Settled (pg_timestamp s)
}.
#[local] Existing Instances ParseFloat_returns Unmarshal_returns pg_int_returns pg_timestamp_returns.

Context `{!OutsideReturns}.

#[export] Instance settled_scan_group r : Settled (ConfigGroup.scan_group r).
Proof.
  unfold ConfigGroup.scan_group.
  pose proof (ParseFloat_returns (epoch_text (cfg_create_time r))) as Hc. destruct (ParseFloat _); [|settle..].
  pose proof (ParseFloat_returns (epoch_text (cfg_modify_time r))) as Hm. destruct (ParseFloat _); [|settle..]. apply _.
Qed.
#[export] Instance settled_scan_template r : Settled (ConfigTemplate.scan_template r).
Proof. unfold ConfigTemplate.scan_template. apply _. Qed.
#[export] Instance settled_groups rs : Settled (ConfigGroup.transferRows rs).
Proof. unfold ConfigGroup.transferRows. apply _. Qed.
#[export] Instance settled_templates rs : Settled (ConfigTemplate.transferRows rs).
Proof. unfold ConfigTemplate.transferRows. apply _. Qed.
#[export] Instance settled_history_row id args : Settled (ConfigHistory.history_row id args).
Proof. unfold ConfigHistory.history_row. apply _. Qed.

Lemma perform_returns op : own_transaction op = true -> may_panic op = false -> Returns (perform op).
Proof.
  destruct op; intros Hop Hp; try discriminate Hop; try discriminate Hp; clear Hop Hp; cbn [perform]; guard_operation.
Qed.

(** C6: operations end.  Whatever sequence of operations that run their own
    transaction is performed, on a connection without an open one, whatever
    faults occur and whatever each returns, no transaction is open afterwards
    (also none that a panic interrupted); and each of them returns a value or
    an error and does not panic, but for the creation of a circuit breaker
    rule and the deletion of a strategy, which look at no error of one of
    their Prepares. *)
Theorem operations_end ops c :
  Forall (fun op => own_transaction op = true) ops -> txst c <> TxOpen ->
  txst (perform_each perform ops c) <> TxOpen /\
  forall op c1 w, op ∈ ops -> may_panic op = false -> fst (perform op c1) <> Panic w.
Proof.
  intros Ho Hc. split.
  - revert c Hc. induction Ho as [|op ops Hop _ IH]; intros c Hc; [done|]. apply IH. by apply perform_closes.
  - intros op c1 w Hin Hp. rewrite Forall_forall in Ho. by apply (perform_returns op (Ho op Hin) Hp c1).
Qed.
End operations.
