(* ===== verification/Pauses.v ===== *)
(** * How long operations pause

    [Retry] sleeps between its attempts, and operations retry transactions
    whose begin retries too.  [Pauses b m] says that the call [m] sleeps at
    most [b] milliseconds, whatever faults occur; the bound of an operation is
    computed from its text. *)
From stdpp Require Import base list strings gmap.
From Stdlib Require Import ZArith Lia.
From S2P Require Import Prelude Driver Rows Schema Sql Common Where RuleFilter Guards Operations Invariant.
From S2P Require Import Service Transaction Instances ConfigRelease Gray Client Strategy L5 Cleanup.
Open Scope Z_scope.
Open Scope store_scope.

Class Pauses `{Env} {A} (b : Z) (m : M database A) : Prop :=
  pauses : 0 <= b /\ forall c, slept c <= slept (snd (m c)) <= slept c + b.
#[export] Hint Mode Pauses - - - ! : typeclass_instances.

Class NonNeg (b : Z) : Prop := nonneg : 0 <= b.
#[export] Hint Extern 0 (NonNeg _) => (unfold NonNeg; lia) : typeclass_instances.

Class Zero (b : Z) : Prop := zero : b = 0.
#[export] Hint Extern 0 (Zero _) => (unfold Zero; lia) : typeclass_instances.

(** A call that sleeps for no time. *)
Abbreviation Awake m := (Pauses 0 m).

Section pauses.
Context `{Env} `{PolarisApi}.
Implicit Types c : conn database.

Ltac awake := split; [lia|intros c; simpl; lia].

#[export] Instance pauses_ret {A} (a : A) : Awake (Ret a).
Proof. awake. Qed.
#[export] Instance pauses_fail {A} e : Pauses (A:=A) 0 (Fail e).
Proof. awake. Qed.
#[export] Instance pauses_lift {A} (x : res A) : Awake (lift x).
Proof. awake. Qed.
#[export] Instance pauses_time_Now : Awake time_Now.
Proof. awake. Qed.

#[export] Instance pauses_bind {A B} a b (m : M database A) (f : A -> M database B) :
  Pauses a m -> (forall x, Pauses b (f x)) -> NonNeg b -> Pauses (a + b) (Bind m f) | 5.
Proof.
  intros [Ha Hm] Hf Hb. split; [unfold NonNeg in Hb; lia|]. intros c. unfold Bind, NonNeg in *. pose proof (Hm c).
  destruct (m c) as [[x|e|w] c1]; simpl in *; [|lia..]. destruct (Hf x) as [_ Hx]. specialize (Hx c1). lia.
Qed.

#[export] Instance pauses_void {A} b (m : M database A) : Pauses b m -> Pauses b (void m) | 0.
Proof.
  intros [Hb Hm]. split; [done|]. intros c. unfold void, Bind. specialize (Hm c). by destruct (m c) as [[x|e|w] c1].
Qed.
#[export] Instance pauses_map_err {A} b f (m : M database A) : Pauses b m -> Pauses b (map_err f m).
Proof.
  intros [Hb Hm]. split; [done|]. intros c. unfold map_err. specialize (Hm c). by destruct (m c) as [[x|e|w] c1].
Qed.
#[export] Instance pauses_or_nil_stmt b (m : M database unit) : Pauses b m -> Pauses b (or_nil_stmt m).
Proof.
  intros [Hb Hm]. split; [done|]. intros c. unfold or_nil_stmt. specialize (Hm c). by destruct (m c) as [[x|e|w] c1].
Qed.
#[export] Instance pauses_ignore_error {A} b (m : M database A) : Pauses b m -> Pauses b (ignore_error m).
Proof.
  intros [Hb Hm]. split; [done|]. intros c. unfold ignore_error. specialize (Hm c). by destruct (m c) as [[x|e|w] c1].
Qed.
#[export] Instance pauses_recovered {A} b (m : M database A) (k : error -> res A) :
  Pauses b m -> Pauses b (fun c => match m c with (Err e, c') => (k e, c') | rc => rc end).
Proof. intros [Hb Hm]. split; [done|]. intros c. specialize (Hm c). by destruct (m c) as [[x|e|w] c1]. Qed.

Lemma Rollback_slept c : slept (snd (Rollback c)) = slept c.
Proof. unfold Rollback. by destruct (txst c). Qed.

#[export] Instance pauses_rolls_back {A} b (m : M database A) : Pauses b m -> Pauses b (rolls_back m).
Proof.
  intros [Hb Hm]. split; [done|]. intros c. unfold rolls_back. specialize (Hm c).
  destruct (m c) as [[x|e|w] c1]; simpl in *; rewrite ?Rollback_slept; lia.
Qed.
#[export] Instance pauses_defer_rollback {A} b (m : M database A) : Pauses b m -> Pauses b (defer_rollback m).
Proof.
  intros [Hb Hm]. split; [done|]. intros c. unfold defer_rollback. specialize (Hm c).
  destruct (m c) as [r c1]. simpl. by rewrite Rollback_slept.
Qed.

(** Statements, commits and rollbacks do not sleep. *)
#[export] Instance pauses_tx_Exec {A} (p : P database A) : Awake (tx_Exec p).
Proof.
  split; [lia|]. intros c. unfold tx_Exec. destruct (txst c); [|simpl; lia..].
  destruct (fault_at (calls c)) as [[]|]; try (destruct (p (tx_now c) (work c)) as [[]| |]); simpl; lia.
Qed.
#[export] Instance pauses_tx_Query {R} (sel : Z -> database -> res (list R)) : Awake (tx_Query sel).
Proof.
  split; [lia|]. intros c. unfold tx_Query.
  destruct (txst c); [destruct (fault_at (calls c)) as [[]|]|..]; try apply pauses_tx_Exec. simpl. lia.
Qed.
#[export] Instance pauses_tx_Prepare : Awake tx_Prepare.
Proof. unfold tx_Prepare. apply _. Qed.
#[export] Instance pauses_stmt_Exec {A} (p : P database A) : Awake (stmt_Exec p).
Proof. unfold stmt_Exec. apply (pauses_bind 0 0); apply _. Qed.
#[export] Instance pauses_tx_QueryRow {R} (sel : Z -> database -> res (list R)) : Awake (tx_QueryRow sel).
Proof. unfold tx_QueryRow. apply (pauses_bind 0 0); apply _. Qed.
#[export] Instance pauses_Commit : Awake Commit.
Proof.
  split; [lia|]. intros c. unfold Commit. destruct (txst c); [destruct (fault_at (calls c)) as [[]|]|..]; simpl; lia.
Qed.
#[export] Instance pauses_Rollback : Awake Rollback.
Proof. split; [lia|]. intros c. rewrite Rollback_slept. lia. Qed.
#[export] Instance pauses_commit_tx : Awake commit_tx.
Proof. unfold commit_tx. apply _. Qed.
#[export] Instance pauses_with_tx {A} b tx (m : M database A) : Pauses b m -> Pauses b (with_tx tx m).
Proof. intros [Hb Hm]. destruct tx; [by split|]. split; [done|]. intros c. unfold with_tx, Fail. simpl. lia. Qed.

(** ** Retries *)

(** What the loop of [Retry] sleeps from iteration [i] on. *)
Fixpoint pause_sum (left : nat) (i : Z) : Z :=
  5 * i + match left with O => 0 | S left' => pause_sum left' (i + 1) end.

Lemma pause_sum_nonneg left i : 0 <= i -> 0 <= pause_sum left i.
Proof. revert i. induction left as [|left IH]; intros i Hi; simpl; [lia|]. specialize (IH (i + 1)). lia. Qed.

Lemma pauses_retry_loop {A} b left i (m : M database A) : Pauses b m -> 0 <= i ->
  forall c, slept c <= slept (snd (retry_loop left i m c)) <= slept c + (Z.of_nat left + 1) * b + pause_sum left i.
Proof.
  intros [Hb Hm]. revert i. induction left as [|left IH]; intros i Hi c; simpl; pose proof (Hm c) as H1;
    destruct (m c) as [[x|e|w] c1]; try destruct (repeated e); simpl in *;
    try (pose proof (pause_sum_nonneg left (i + 1)); nia); try lia.
  specialize (IH (i + 1) ltac:(lia) (sleep (5 * i) c1)). simpl in IH. nia.
Qed.

(** Twenty attempts, and 1050 milliseconds between them. *)
#[export] Instance pauses_Retry {A} b (m : M database A) : Pauses b m -> Pauses (20 * b + 1050) (Retry m).
Proof.
  intros Hm. split; [destruct Hm; lia|]. intros c.
  pose proof (pauses_retry_loop b 19 1 m Hm ltac:(lia) c) as H1.
  change (pause_sum 19 1) with 1050 in H1. unfold Retry. simpl (maxTryTimes - 1)%nat. lia.
Qed.
#[export] Instance pauses_RetryTransaction {A} b (m : M database A) :
  Pauses b m -> Pauses (20 * b + 1050) (RetryTransaction m).
Proof. apply pauses_Retry. Qed.

#[export] Instance pauses_Begin : Pauses 1050 Begin.
Proof.
  apply (pauses_Retry 0). split; [lia|]. intros c. unfold BeginTx. destruct (fault_at (calls c)); simpl; lia.
Qed.
#[export] Instance pauses_process {A} b (m : M database A) : Pauses b m -> Pauses (1050 + b) (processWithTransaction m).
Proof. intros [Hb Hm]. unfold processWithTransaction. apply pauses_bind; [apply _| |done]. intros _. apply pauses_defer_rollback. by split. Qed.
Lemma pauses_le {A} a b (m : M database A) : Pauses a m -> a <= b -> Pauses b m.
Proof. intros [Ha Hm] Hb. split; [lia|]. intros c. specialize (Hm c). lia. Qed.

#[export] Instance pauses_then_commit {A} b (m : M database A) : Pauses b m -> Pauses b (then_commit m).
Proof. intros [Hb Hm]. apply (pauses_le (b + (0 + 0))); [|lia]. unfold then_commit. by apply pauses_bind; [|apply _|]. Qed.
#[export] Instance pauses_commit_with {A} b f (m : M database A) : Pauses b m -> Pauses b (commit_with f m).
Proof. intros [Hb Hm]. apply (pauses_le (b + (0 + 0))); [|lia]. unfold commit_with. by apply pauses_bind; [|apply _|]. Qed.

(** Calls outside transactions. *)
#[export] Instance pauses_DB_Prepare : Awake DB_Prepare.
Proof. split; [lia|]. intros c. unfold DB_Prepare. destruct (fault_at (calls c)); simpl; lia. Qed.
#[export] Instance pauses_DB_Exec {A} (p : P database A) : Awake (DB_Exec p).
Proof.
  split; [lia|]. intros c. unfold DB_Exec.
  destruct (fault_at (calls c)) as [[]|]; try (destruct (p (current_timestamp c) (committed c)) as [[]| |]); simpl; lia.
Qed.
#[export] Instance pauses_Exec {A} (p : P database A) : Pauses 1050 (Exec p).
Proof. apply (pauses_Retry 0). apply _. Qed.
#[export] Instance pauses_Query {R} view (sel : Z -> database -> res (list R)) : Pauses 1050 (Query view sel).
Proof. apply (pauses_Retry 0). split; [lia|]. intros c. destruct (fault_at (calls c)) as [[]|]; simpl; lia. Qed.
#[export] Instance pauses_QueryRow {R} view (sel : Z -> database -> res (list R)) : Pauses 1050 (QueryRow view sel).
Proof. unfold QueryRow. apply (pauses_bind 1050 0); apply _. Qed.

(** Loops over statements. *)
#[export] Instance pauses_each {X} b (handler : X -> M database unit) l :
  (forall x, Pauses b (handler x)) -> Zero b -> Awake (each handler l).
Proof.
  intros Hh ->. induction l; simpl; [apply _|]. apply (pauses_le (0 + 0)); [by apply pauses_bind|lia].
Qed.
#[export] Instance pauses_BatchOperation {X} b (data : list X) (handler : list X -> M database unit) :
  (forall x, Pauses b (handler x)) -> Zero b -> Awake (BatchOperation data handler).
Proof.
  intros Hh Hb. split; [lia|]. intros c. unfold BatchOperation. rewrite BatchOperation_loop_eq by lia.
  by eapply pauses_each.
Qed.
#[export] Instance pauses_current_times clients : Awake (current_times clients).
Proof. induction clients; simpl; [apply _|]. eapply pauses_le; [apply _|lia]. Qed.
#[export] Instance pauses_insert_or_continue b x ok : Pauses b ok -> Pauses b (insert_or_continue x ok).
Proof.
  intros [Hb Hok]. split; [lia|]. intros c. unfold insert_or_continue.
  destruct (pauses_tx_Exec (sql_insert (fun now => [resource_row now (resource_args x)]))) as [_ Hx]. specialize (Hx c).
  destruct (tx_Exec _ c) as [[n|e|w] c1]; simpl in *; [specialize (Hok c1)|case_decide|]; simpl; lia.
Qed.

(** Choices in the text: the longer side. *)
#[export] Instance pauses_if {A} a b (x : bool) (m k : M database A) :
  Pauses a m -> Pauses b k -> Pauses (a `max` b) (if x then m else k).
Proof. intros Hm Hk. destruct x; (eapply pauses_le; [eassumption|lia]). Qed.
#[export] Instance pauses_decide {A} a b (Q R : Prop) (x : {Q} + {R}) (m k : M database A) :
  Pauses a m -> Pauses b k -> Pauses (a `max` b) (if x then m else k).
Proof. intros Hm Hk. destruct x; (eapply pauses_le; [eassumption|lia]). Qed.
#[export] Instance pauses_option {A X} a b (x : option X) (m : X -> M database A) k :
  (forall y, Pauses a (m y)) -> Pauses b k ->
  Pauses (a `max` b) (match x with Some y => m y | None => k end).
Proof. intros Hm Hk. destruct x; (eapply pauses_le; [by eauto|lia]). Qed.
#[export] Instance pauses_list {A X} a b (x : list X) (m : X -> list X -> M database A) k :
  Pauses a k -> (forall y l, Pauses b (m y l)) ->
  Pauses (a `max` b) (match x with [] => k | y :: l => m y l end).
Proof. intros Hk Hm. destruct x; (eapply pauses_le; [by eauto|lia]). Qed.
End pauses.

(** Methods of a caller's transaction. *)
Class AwakeTM `{Env} {A} (m : TM A) : Prop := awake_tm : forall t c, slept (snd (m t c)) = slept c.
#[export] Hint Mode AwakeTM - - ! : typeclass_instances.

Section methods.
Context `{Env} `{PolarisApi}.

#[export] Instance awake_call {A} b f (m : M database A) : Pauses b m -> Zero b -> AwakeTM (call f m).
Proof.
  intros [_ Hm] -> t c. unfold call. specialize (Hm c). destruct (m c) as [[a|e|w] c1]; simpl in *; lia.
Qed.
#[export] Instance awake_then {A B} (m : TM A) (f : A -> TM B) :
  AwakeTM m -> (forall a, AwakeTM (f a)) -> AwakeTM (then_ m f).
Proof.
  intros Hm Hf t c. unfold then_. specialize (Hm t c). destruct (m t c) as [[[a|e|w] t1] c1]; simpl in *; [|done..].
  by rewrite (Hf a).
Qed.
#[export] Instance awake_value {A} (r : res A) : AwakeTM (value r).
Proof. done. Qed.
#[export] Instance awake_unless_finished {A} (m : TM A) : AwakeTM m -> AwakeTM (unless_finished m).
Proof. intros Hm t c. unfold unless_finished. by destruct (finish t). Qed.
#[export] Instance awake_commit : AwakeTM transaction_Commit.
Proof.
  intros t c. unfold transaction_Commit. destruct (commit t); [done|]. destruct (failed t).
  - pose proof (Rollback_slept c). by destruct (Rollback c).
  - destruct pauses_Commit as [_ Hc]. specialize (Hc c). destruct (Commit c). simpl in *. lia.
Qed.
#[export] Instance awake_or_else {A B} (m : TM A) (k : TM B) : AwakeTM m -> AwakeTM k ->
  AwakeTM (fun t c => match m t c with
    | (Panic w, t', c') => (Panic w, t', c')
    | (_, t', c') => k t' c'
    end).
Proof.
  intros Hm Hk t c. specialize (Hm t c). destruct (m t c) as [[[a|e|w] t1] c1]; simpl in *; [by rewrite (Hk t1)..|done].
Qed.

Lemma run_slept ms t c : (forall m, AwakeTM (step m)) -> slept (snd (run ms t c)) = slept c.
Proof.
  intros Hs. revert t c. induction ms as [|m ms IH]; intros t c; [done|]. simpl. specialize (Hs m t c).
  destruct (step m t c) as [[r t1] c1]. by rewrite IH.
Qed.

#[export] Instance pauses_Ping : Awake Ping.
Proof. split; [lia|]. intros c. unfold Ping. simpl. lia. Qed.
End methods.

#[export] Hint Extern 6 (AwakeTM (match ?x with _ => _ end)) => destruct x : typeclass_instances.

#[local] Hint Constants Opaque : typeclass_instances.
#[local] Hint Transparent M P TM : typeclass_instances.

Section operations.
Context `{Env} `{PolarisApi} `{MapRange} `{Uuid} `{PgServer} `{PgInput} `{Strconv} `{ReleaseTypes}.
Context `{AuthApi} `{ModelInt}.
Implicit Types c : conn database.

Ltac within_bound := eapply pauses_le; [guard_operation|vm_compute; discriminate].

#[export] Instance awake_step m : AwakeTM (step m).
Proof. destruct m; cbn [step]; guard_operation. Qed.

#[export] Instance pauses_transaction_run ms : Pauses 1050 (transaction_run ms).
Proof.
  unfold transaction_run. apply (pauses_bind 1050 0); [unfold CreateTransaction; within_bound| |apply _].
  intros t. split; [lia|]. intros c. simpl. rewrite (run_slept ms t c) by apply _. lia.
Qed.

#[export] Instance pauses_run_op op : Pauses 1050 (run_op op).
Proof. destruct op; cbn [run_op]; within_bound. Qed.

(** What one operation may sleep: twenty attempts at a transaction, each with
    twenty attempts at its begin, the pauses between them, and (adding a
    strategy) one begin before. *)
Definition longest_pause : Z := (20 + 1 + 1) * 1050.

Lemma perform_pauses op : Pauses longest_pause (perform op).
Proof. destruct op; cbn [perform]; within_bound. Qed.

(** C35: every writing operation of the package pauses for at most 23100
    milliseconds, whatever faults occur: Retry stops after twenty attempts,
    retries are nested at most twice, and no loop over data contains one; a
    sequence of operations pauses for at most that much each. *)
Theorem operations_pause_bounded ops c :
  slept c <= slept (perform_each perform ops c) <= slept c + longest_pause * Z.of_nat (length ops).
Proof.
  revert c. induction ops as [|op ops IH]; intros c; cbn [perform_each length]; [lia|].
  destruct (perform_pauses op) as [_ Hp]. specialize (Hp c). specialize (IH (snd (perform op c))). lia.
Qed.
End operations.
