(* ===== verification/Frozen.v ===== *)
(** * What the package never adds

    The INSERT statements of several stores are refused by the server, always:
    they were written for MySQL, or name columns the tables do not have.  Each
    store file shows this for its operations; here it is an invariant of the
    whole package.  Whatever operations run, with whatever faults, no row is
    ever added to the tables of users, members of groups, strategies, rate
    limits, service contracts, interfaces of contracts and routing rules of
    the first version; the table of users does not change at all. *)
From stdpp Require Import base list strings gmap.
From Stdlib Require Import ZArith Lia.
From S2P Require Import Prelude Driver Rows Schema Sql Common Where RuleFilter Guards Operations Invariant.
From S2P Require Import Transaction L5 Strategy ConfigFile ConfigGroup ConfigHistory ConfigRelease ConfigTemplate.
Open Scope Z_scope.
Open Scope store_scope.

(** ** The invariant *)

(** The keys of the table are keys it had. *)
Definition no_new {R K} `{Table R} (key : R -> K) (d0 d : database) : Prop :=
  forall r, r ∈ tbl d -> exists r0, r0 ∈ tbl d0 /\ key r0 = key r.

(** The table is as it was. *)
Definition frozen (R : Type) `{Table R} (d0 d : database) : Prop := tbl (R:=R) d = tbl d0.

Record nothing_added (d0 d : database) : Prop := {
  users_frozen : frozen user_row d0 d;
  no_new_members : no_new (fun r => (ugr_group_id r, ugr_user_id r)) d0 d;
  no_new_strategies : no_new as_id d0 d;
  no_new_rate_limits : no_new rl_id d0 d;
  no_new_contracts : no_new sct_id d0 d;
  no_new_interfaces : no_new scd_id d0 d;
  no_new_routings : no_new rc_id d0 d
}.

Lemma nothing_added_refl d : nothing_added d d.
Proof. by split; [|intros r Hr; eauto..]. Qed.

Lemma added_split Q d0 {A} (p : P database A) :
  PreservesAt Q (frozen user_row d0) p ->
  PreservesAt Q (no_new (fun r => (ugr_group_id r, ugr_user_id r)) d0) p ->
  PreservesAt Q (no_new as_id d0) p -> PreservesAt Q (no_new rl_id d0) p ->
  PreservesAt Q (no_new sct_id d0) p -> PreservesAt Q (no_new scd_id d0) p ->
  PreservesAt Q (no_new rc_id d0) p -> PreservesAt Q (nothing_added d0) p.
Proof. intros H1 H2 H3 H4 H5 H6 H7 now d a d' Hq [] Hp. split; [by eapply H1|by eapply H2|by eapply H3|by eapply H4|by eapply H5|by eapply H6|by eapply H7]. Qed.

(** ** Statements *)

Section statements.
Context {R K} `{!Table R} (key : R -> K) (Q : Z -> Prop) (d0 : database).

Lemma update_no_new w (set : Z -> R -> R) : (forall now r, key (set now r) = key r) ->
  PreservesAt Q (no_new key d0) (sql_update w set).
Proof.
  intros Hk now n d d' _ Hd [-> _]%update_Ok_inv. intros r. rewrite tbl_set.
  intros (x & Hx & ->)%elem_of_change. destruct (Hd x Hx) as (r0 & Hr0 & He). exists r0. split; [done|].
  destruct (w x); [by rewrite Hk|done].
Qed.

Lemma delete_no_new (w : R -> bool) : PreservesAt Q (no_new key d0) (sql_delete w).
Proof. intros now n d d' _ Hd [= _ <-]. intros r. rewrite tbl_set. intros [Hr _]%elem_of_keep. auto. Qed.

Lemma untouched_no_new {A} (p : P database A) :
  (forall now d a d', p now d = Ok (a, d') -> tbl (R:=R) d' = tbl d) -> PreservesAt Q (no_new key d0) p.
Proof. intros Hp now a d d' _ Hd Hr. unfold no_new in *. by rewrite (Hp _ _ _ _ Hr). Qed.

Lemma untouched_frozen {A} (p : P database A) :
  (forall now d a d', p now d = Ok (a, d') -> tbl (R:=R) d' = tbl d) -> PreservesAt Q (frozen R d0) p.
Proof. intros Hp now a d d' _ Hd Hr. unfold frozen in *. by rewrite (Hp _ _ _ _ Hr). Qed.
End statements.

(** Statements on another table. *)
Section other_tables.
Context {R S} `{!Table R} `{!Table S} `{!Apart R S}.

Lemma insert_elsewhere (mk : Z -> list S) now d a d' : sql_insert mk now d = Ok (a, d') -> tbl (R:=R) d' = tbl d.
Proof. intros [-> _]%insert_Ok_inv. apply apart. Qed.
Lemma update_elsewhere w (set : Z -> S -> S) now d a d' : sql_update w set now d = Ok (a, d') -> tbl (R:=R) d' = tbl d.
Proof. intros [-> _]%update_Ok_inv. apply apart. Qed.
Lemma delete_elsewhere (w : S -> bool) now d a d' : sql_delete w now d = Ok (a, d') -> tbl (R:=R) d' = tbl d.
Proof. intros [= _ <-]. apply apart. Qed.
End other_tables.

Ltac elsewhere :=
  first [apply untouched_no_new|apply untouched_frozen];
  first [exact (insert_elsewhere _)|exact (update_elsewhere _ _)|exact (delete_elsewhere _)
    |unfold nextval, file_nextval, tag_nextvals, group_nextval, template_nextval, history_nextval;
     intros ? ? ? ? [= _ <-]; reflexivity].
Ltac adds_nothing := apply added_split;
  first [elsewhere|apply delete_no_new|apply update_no_new; reflexivity].
#[export] Hint Extern 1 (PreservesAt _ (nothing_added _) (sql_insert _)) => adds_nothing : typeclass_instances.
#[export] Hint Extern 1 (PreservesAt _ (nothing_added _) (sql_update _ _)) => adds_nothing : typeclass_instances.
#[export] Hint Extern 1 (PreservesAt _ (nothing_added _) (sql_delete _)) => adds_nothing : typeclass_instances.
#[export] Hint Extern 3 (PreservesAt _ (nothing_added _) _) => adds_nothing : typeclass_instances.

(** ** Operations *)

#[local] Hint Constants Opaque : typeclass_instances.
#[local] Hint Transparent M P TM : typeclass_instances.

Section operations.
Context `{Env} `{PolarisApi} `{MapRange} `{Uuid} `{PgServer} `{PgInput} `{Strconv} `{ReleaseTypes}.
Context `{AuthApi} `{ModelInt}.

#[export] Instance added_step d0 m : GuardsTM anytime anytime (nothing_added d0) (step m).
Proof. destruct m; cbn [step]; guard_operation. Qed.
#[export] Instance added_run_op d0 op : Guards (nothing_added d0) (run_op op).
Proof. destruct op; cbn [run_op]; guard_operation. Qed.
#[export] Instance added_perform d0 op : Guards (nothing_added d0) (perform op).
Proof. destruct op; cbn [perform]; guard_operation. Qed.

(** C11: whatever operations of the package run, with whatever faults, the
    table of users is as it was and no user joins a group, no strategy, rate
    limit, service contract, interface of a contract or routing rule of the
    first version is ever added: every row's key was in the table before. *)
Theorem package_adds_nothing ops (c : conn database) : txst c <> TxOpen ->
  nothing_added (committed c) (committed (perform_each perform ops c)).
Proof.
  intros Ht.
  apply (perform_each_guarded perform anytime anytime (nothing_added (committed c)) ops c).
  apply guarded_idle; [done|apply nothing_added_refl].
Qed.
End operations.
