(* ===== verification/Cache.v ===== *)
(** * Writes and incremental reads together

    The caches of the server load a table once and then ask for the rows
    modified since ([Get...ForCache]); a deleted rule comes as one that is no
    longer valid.  This file shows for the stores of fault detection rules,
    circuit breaker rules and rate limits that this is sound: laying the
    increment over the first load gives what a new load would, whatever
    sequence of operations of the whole package ran in between, with whatever
    faults, as long as the clocks stand after the time the cache asks for. *)
From stdpp Require Import base list strings gmap.
From Stdlib Require Import ZArith Lia.
From S2P Require Import Prelude Driver Rows Schema Sql Common Where RuleFilter Guards Operations Invariant Types.
From S2P Require Import Transaction FaultDetect CircuitBreaker RateLimit L5 Strategy.
From S2P Require Import ConfigFile ConfigGroup ConfigHistory ConfigRelease ConfigTemplate.
Open Scope Z_scope.
Open Scope store_scope.

(** ** The tables *)

(** A table with an id for its rows, the time of their last change and a mark
    for the deleted ones. *)
Class Stamped (R : Type) `{!Table R} := {
  key : R -> string;
  stamp : R -> Z;
  dead : R -> bool;
  clash_key : forall x y, clash x y = str_eq (key x) (key y)
}.
#[export] Hint Mode Stamped ! - : typeclass_instances.

(** The rules [A] the reads for the caches deliver, and how rows are shown as
    rules. *)
Class CacheEntry (A : Type) := { shown_id : A -> string; shown_valid : A -> bool }.

Class CacheTable (R A : Type) `{Stamped R} `{CacheEntry A} := {
  show : R -> A;
  show_id : forall r, shown_id (show r) = key r;
  show_valid : forall r, shown_valid (show r) = negb (dead r)
}.
#[export] Hint Mode CacheTable ! ! - - - : typeclass_instances.

(** The rows a read for the cache selects. *)
Definition cache_where {R} `{Stamped R} (mtime : Z) (firstUpdate : bool) (r : R) : bool :=
  (mtime <? stamp r) && (negb firstUpdate || negb (dead r)).

Definition rows_in (R : Type) `{Stamped R} (d : database) (mtime : Z) (firstUpdate : bool) : list R :=
  sql_select (cache_where mtime firstUpdate) d.

Lemma same_key {R} `{Stamped R} d (x y : R) :
  db_wf d -> x ∈ tbl d -> y ∈ tbl d -> key x = key y -> x = y.
Proof.
  intros Hd Hx Hy Hk. apply (distinct_eq clash (tbl d)); [by apply tbl_distinct|done|done|..];
    rewrite clash_key, Hk; apply str_eq_refl.
Qed.

Lemma rows_in_distinct {R} `{Stamped R} d mtime first :
  db_wf d -> distinct clash (rows_in R d mtime first) = true.
Proof. intros Hd. by apply distinct_keep, tbl_distinct. Qed.

(** What the store promises to a cache of such a table: on readable content
    and without faults the read delivers these rows of the replica. *)
Class CacheRead (R A : Type) `{CacheTable R A} (read : Env -> Z -> bool -> M database (list A)) : Prop :=
  cache_read : forall (E : Env) mtime firstUpdate c, @reliable E -> db_ok (replica c) ->
    fst (read E mtime firstUpdate c) =
      Ok (map (show (A:=A)) (rows_in R (replica c) mtime firstUpdate)).

(** ** The cache *)

(** One rule of a read, and a whole one. *)
Definition take_in {A} `{CacheEntry A} (m : gmap string A) (x : A) : gmap string A :=
  if shown_valid x then <[shown_id x := x]> m else delete (shown_id x) m.
Definition overlay {A} `{CacheEntry A} (inc : list A) (m : gmap string A) : gmap string A :=
  fold_left take_in inc m.

Section overlay.
Context {R A} `{CacheTable R A}.
Implicit Types (r : R) (l : list R) (m : gmap string A).

Lemma take_in_lookup m r k : take_in m (show r) !! k =
  if str_eq (key r) k then (if dead r then None else Some (show r)) else m !! k.
Proof.
  unfold take_in. rewrite show_valid, show_id. destruct (str_eq (key r) k) eqn:E.
  - apply str_eq_true in E as <-. destruct (dead r); simpl; by simplify_map_eq.
  - apply str_eq_false in E. destruct (dead r); simpl; by simplify_map_eq.
Qed.

(** Rows with different keys: each counts, in whatever order. *)
Lemma overlay_lookup l m k a : distinct clash l = true ->
  overlay (map show l) m !! k = Some a <->
  (exists r, r ∈ l /\ key r = k /\ dead r = false /\ a = show r) \/
  ((forall r, r ∈ l -> key r <> k) /\ m !! k = Some a).
Proof.
  unfold overlay. revert m. induction l as [|x l IH]; intros m Hd; simpl.
  { setoid_rewrite elem_of_nil. naive_solver. }
  apply distinct_cons in Hd as [Hx Hd]. rewrite (IH _ Hd), take_in_lookup.
  setoid_rewrite clash_key in Hx. setoid_rewrite elem_of_cons. destruct (str_eq (key x) k) eqn:E.
  - apply str_eq_true in E as <-.
    assert (forall r, r ∈ l -> key r <> key x) as Hne.
    { intros r Hr He. specialize (Hx r Hr). by rewrite He, str_eq_refl in Hx. }
    split.
    + intros [(r & Hr & Hk & _)|[_ Ha]]; [by destruct (Hne r)|]. destruct (dead x) eqn:Ed; [done|].
      injection Ha as <-. left. exists x. auto.
    + intros [(r & [->|Hr] & Hk & Hl & ->)|[Hall _]]; [right|by destruct (Hne r)|by destruct (Hall x); auto].
      rewrite Hl. split; [exact Hne|done].
  - apply str_eq_false in E. split.
    + intros [(r & Hr & Hrest)|[Hall Ha]]; [left; exists r; auto|right; split; [|done]]. intros r [->|Hr]; auto.
    + intros [(r & [->|Hr] & Hk & Hrest)|[Hall Ha]]; [done|left; exists r; auto|right; split; auto].
Qed.
End overlay.

(** ** What happens to the rows *)

(** Every row of [d] is a row of [d0] or was written at a time [W]; no row of
    [d0] is gone, and a deleted one stays deleted. *)
Definition since (R : Type) `{Stamped R} (W : Z -> Prop) (d0 d : database) : Prop :=
  (forall r : R, r ∈ tbl d -> W (stamp r) \/ r ∈ tbl d0) /\
  (forall r : R, r ∈ tbl d0 -> exists r' : R, r' ∈ tbl d /\ key r' = key r /\ (dead r = true -> dead r' = true)).

Lemma since_refl {R} `{Stamped R} W d : since R W d d.
Proof. split; eauto. Qed.

(** An overlay of the increment is as good as a new load. *)
Lemma overlay_since {R A} `{CacheTable R A} t0 T d0 d : db_wf d0 -> db_wf d -> since R (Z.lt T) d0 d -> t0 <= T ->
  overlay (map show (rows_in R d T false)) (overlay (map show (rows_in R d0 t0 true)) ∅) =
  overlay (map show (rows_in R d t0 true)) ∅.
Proof.
  intros Hd0 Hd [Hs Hp] Ht. apply map_eq. intros k. apply option_eq. intros a.
  pose proof (rows_in_distinct (R:=R) d T false Hd). pose proof (rows_in_distinct (R:=R) d0 t0 true Hd0).
  pose proof (rows_in_distinct (R:=R) d t0 true Hd).
  rewrite !overlay_lookup by done. unfold rows_in, sql_select, cache_where.
  setoid_rewrite elem_of_keep. setoid_rewrite andb_true_iff. setoid_rewrite Z.ltb_lt. simpl.
  setoid_rewrite negb_true_iff. setoid_rewrite lookup_empty.
  split.
  - intros [(r & (Hr & Ht' & _) & Hk & Hl & ->)|[Hno [(r & (Hr & Ht' & _) & Hk & Hl & ->)|[? [=]]]]].
    + left. exists r. split_and!; auto; lia.
    + left. destruct (Hp r Hr) as (r' & Hr' & Hk' & _). destruct (Hs r' Hr') as [Hlt|Hin].
      * destruct (Hno r'); [by split_and!|congruence].
      * rewrite (same_key d0 r' r) in Hr' by (congruence || done). exists r. by split_and!.
  - intros [(r & (Hr & Ht' & _) & Hk & Hl & ->)|[_ [=]]]. destruct (decide (T < stamp r)) as [Hlt|Hge].
    + left. exists r. by split_and!.
    + right. split.
      * intros x (Hx & Hxt & _) Hxk. rewrite (same_key d x r) in Hxt by (congruence || done). lia.
      * left. destruct (Hs r Hr) as [|Hin]; [lia|]. exists r. by split_and!.
Qed.

(** ** Statements *)

Section statements.
Context {R} `{Stamped R} (W : Z -> Prop) (d0 : database).
Notation keeps p := (PreservesAt W (since R W d0) p).

Lemma insert_since (mk : Z -> list R) :
  (forall now r, W now -> r ∈ mk now -> W (stamp r)) -> keeps (sql_insert mk).
Proof.
  intros Hmk now n d d' Hq [Hs Hp] [-> _]%insert_Ok_inv. unfold since. rewrite tbl_set. split.
  - intros r [Hr|Hr]%elem_of_app; [by apply Hs|]. left. by eapply Hmk.
  - intros r (r' & Hr' & Hk)%Hp. exists r'. split; [apply elem_of_app; by left|done].
Qed.

Lemma update_since (w : R -> bool) set :
  (forall now r, W now -> W (stamp (set now r)) /\ key (set now r) = key r /\ (dead r = true -> dead (set now r) = true)) ->
  keeps (sql_update w set).
Proof.
  intros Hset now n d d' Hq [Hs Hp] [-> _]%update_Ok_inv. unfold since. rewrite tbl_set. split.
  - intros r (x & Hx & ->)%elem_of_change. destruct (w x); [left; by apply Hset|by apply Hs].
  - intros r (r' & Hr' & Hk & Hl)%Hp. exists (if w r' then set now r' else r'). split.
    + apply elem_of_change. by exists r'.
    + destruct (w r'); [|done]. destruct (Hset now r' Hq) as (_ & -> & Hd). auto.
Qed.

(** Statements that leave the table alone. *)
Lemma untouched_since {A} (p : P database A) :
  (forall now d a d', p now d = Ok (a, d') -> tbl (R:=R) d' = tbl d) -> keeps p.
Proof. intros Hp now a d d' _ Hs Hr. unfold since in *. by rewrite (Hp _ _ _ _ Hr). Qed.

Context {S} `{!Table S} `{!Apart R S}.

Lemma insert_apart (mk : Z -> list S) : keeps (sql_insert mk).
Proof. apply untouched_since. intros now d a d' [-> _]%insert_Ok_inv. apply apart. Qed.

Lemma update_apart w (set : Z -> S -> S) : keeps (sql_update w set).
Proof. apply untouched_since. intros now d a d' [-> _]%update_Ok_inv. apply apart. Qed.

Lemma delete_apart (w : S -> bool) : keeps (sql_delete w).
Proof. apply untouched_since. intros now d a d' [= _ <-]. apply apart. Qed.
End statements.

#[export] Hint Extern 1 (PreservesAt _ (since _ _ _) (sql_insert _)) =>
  apply insert_since; intros ? ? ? ->%list_elem_of_singleton; simpl; assumption : typeclass_instances.
#[export] Hint Extern 1 (PreservesAt _ (since _ _ _) (sql_update _ _)) =>
  apply update_since; intros; simpl; split_and!; [assumption|reflexivity|tauto] : typeclass_instances.
#[export] Hint Extern 2 (PreservesAt _ (since _ _ _) (sql_insert _)) => apply insert_apart : typeclass_instances.
#[export] Hint Extern 2 (PreservesAt _ (since _ _ _) (sql_update _ _)) => apply update_apart : typeclass_instances.
#[export] Hint Extern 2 (PreservesAt _ (since _ _ _) (sql_delete _)) => apply delete_apart : typeclass_instances.

(** Sequences and the clean-up of releases. *)
Ltac untouched :=
  apply untouched_since;
  unfold nextval, file_nextval, tag_nextvals, group_nextval, template_nextval, history_nextval;
  intros ? ? ? ? [= _ <-]; reflexivity.
#[export] Hint Extern 3 (PreservesAt _ (since _ _ _) _) => untouched : typeclass_instances.

(** What the program's clock shows once it is written to the second. *)
Definition formatted (W : Z -> Prop) (t : Z) : Prop := W (GetCurrentTimeFormat t).

(** No operation of the package, or method of a caller's transaction, does
    anything else to the table. *)
Class KeepsSince (R : Type) `{Stamped R} : Prop :=
  keeps_since : forall `{Env} `{PolarisApi} `{MapRange} `{Uuid} `{PgServer} `{PgInput} `{Strconv} `{ReleaseTypes}
    `{AuthApi} `{ModelInt} W d0, Clock W (formatted W) ->
    forall op, GuardsAt W (formatted W) (since R W d0) (perform op).

#[local] Hint Constants Opaque : typeclass_instances.
#[local] Hint Transparent M P TM : typeclass_instances.

Ltac keep_table R :=
  intros E A MR UU PS PI SC RT AU MI W d0 Hk;
  assert (forall m, GuardsTM W (formatted W) (since R W d0) (step m))
    by (intros m; destruct m; cbn [step]; guard_operation);
  assert (forall op, GuardsAt W (formatted W) (since R W d0) (run_op op))
    by (intros op; destruct op; cbn [run_op]; guard_operation);
  intros op; destruct op; cbn [perform]; guard_operation.

#[export] Instance fd_stamped : Stamped fault_detect_rule_row.
Proof. by refine {| key := fd_id; stamp := fd_mtime; dead r := fd_flag r =? 1 |}. Defined.
#[export] Instance fd_keeps_since : KeepsSince fault_detect_rule_row.
Proof. keep_table fault_detect_rule_row. Qed.

#[export] Instance cb_stamped : Stamped circuitbreaker_rule_v2_row.
Proof. by refine {| key := cb_id; stamp := cb_mtime; dead r := cb_flag r =? 1 |}. Defined.
#[export] Instance cb_keeps_since : KeepsSince circuitbreaker_rule_v2_row.
Proof. keep_table circuitbreaker_rule_v2_row. Qed.

#[export] Instance rl_stamped : Stamped ratelimit_config_row.
Proof. by refine {| key := rl_id; stamp := rl_mtime; dead r := rl_flag r =? 1 |}. Defined.
#[export] Instance rl_keeps_since : KeepsSince ratelimit_config_row.
Proof. keep_table ratelimit_config_row. Qed.

(** ** The rules the caches hold *)

#[export] Instance fd_entry : CacheEntry FaultDetectRule :=
  {| shown_id := FaultDetect.ID; shown_valid := FaultDetect.Valid |}.
#[export] Instance fd_cache : CacheTable fault_detect_rule_row FaultDetectRule.
Proof.
  by refine {| show r := mkFaultDetectRule (fd_id r) (fd_name r) (fd_namespace r) (fd_revision r) (fd_description r)
    (fd_dst_service r) (fd_dst_namespace r) (fd_dst_method r) (default "" (fd_config r)) (negb (fd_flag r =? 1))
    (fd_ctime r) (fd_mtime r) |}.
Defined.

#[export] Instance cb_entry : CacheEntry CircuitBreakerRule :=
  {| shown_id := CircuitBreaker.ID; shown_valid := CircuitBreaker.Valid |}.
#[export] Instance cb_cache : CacheTable circuitbreaker_rule_v2_row CircuitBreakerRule.
Proof.
  by refine {| show r := mkCircuitBreakerRule (cb_id r) (cb_name r) (cb_namespace r) (cb_enable r =? 1) (cb_revision r)
    (cb_description r) (cb_level r) (cb_src_service r) (cb_src_namespace r) (cb_dst_service r) (cb_dst_namespace r)
    (cb_dst_method r) (default "" (cb_config r)) (negb (cb_flag r =? 1)) (cb_ctime r) (cb_mtime r) (cb_etime r) |}.
Defined.

#[export] Instance rl_entry : CacheEntry RateLimit :=
  {| shown_id := RateLimit.ID; shown_valid := RateLimit.Valid |}.
#[export] Instance rl_cache : CacheTable ratelimit_config_row RateLimit.
Proof.
  by refine {| show r := mkRateLimit (rl_id r) (rl_service_id r) (rl_name r) (rl_method r) (rl_labels r) (rl_priority r)
    (rl_rule r) (rl_revision r) (rl_disable r =? 1) (negb (rl_flag r =? 1)) (rl_ctime r) (rl_mtime r) (rl_etime r) |}.
Defined.

(** ** The reads keep the promise *)

Section reads.
Context `{PolarisApi}.

Lemma cache_query {R A} `{Readable R} (E : Env) (w : R -> bool) (scan : R -> res A) (f : R -> A) (c : conn database) :
  reliable -> db_ok (replica c) -> (forall r, readable r = true -> scan r = Ok (f r)) ->
  fst ((rs <- Query replica (fun _ d => Ok (sql_select w d)) ;; lift (fetch_rows scan rs)) c) =
    Ok (map f (sql_select w (replica c))).
Proof.
  intros Hrel Hok Hf. erewrite Query_then by done. unfold lift. simpl.
  apply fetch_rows_map. intros r Hr. by eapply Hf, select_typed.
Qed.

#[export] Instance fd_read :
  CacheRead fault_detect_rule_row FaultDetectRule (fun E => GetFaultDetectRulesForCache).
Proof.
  intros E mtime first c Hrel Hok. apply (cache_query (R:=fault_detect_rule_row)); [done..|].
  intros r [x Hx]%fd_scan. unfold scan_string in *. simpl. by destruct (fd_config r).
Qed.

#[export] Instance cb_read :
  CacheRead circuitbreaker_rule_v2_row CircuitBreakerRule (fun E => GetCircuitBreakerRulesForCache).
Proof.
  intros E mtime first c Hrel Hok. apply (cache_query (R:=circuitbreaker_rule_v2_row)); [done..|].
  intros r [[b Hb] [x Hx]]%cb_scan. unfold scan_bool, scan_string in *. simpl.
  destruct (cb_config r); [|done]. destruct (cb_enable r =? 0) eqn:E0; [by apply Z.eqb_eq in E0 as ->|].
  by destruct (cb_enable r =? 1).
Qed.

#[export] Instance rl_read : CacheRead ratelimit_config_row RateLimit (fun E => GetRateLimitsForCache).
Proof. intros E mtime first c Hrel Hok. by apply (cache_query (R:=ratelimit_config_row)). Qed.
End reads.

(** ** Properties *)

Section properties.
Context `{!PolarisApi} `{MapRange} `{Uuid} `{PgServer} `{PgInput} `{Strconv} `{ReleaseTypes} `{AuthApi} `{ModelInt}.

Lemma perform_each_since {R} `{KeepsSince R} (E : Env) W ops (c : conn database) : Clock W (formatted W) ->
  txst c <> TxOpen -> since R W (committed c) (committed (perform_each perform ops c)).
Proof.
  intros Hk Ht.
  assert (forall op, GuardsAt W (formatted W) (since R W (committed c)) (perform op)) as Hop
    by (intros op; by apply keeps_since).
  apply (perform_each_guarded perform W (formatted W) (since R W (committed c)) ops c).
  apply guarded_idle; [done|apply since_refl].
Qed.

(** A cache that loaded [d0] with [read] from [t0] on, and asks for what came
    after [T] when the content is [d1], is where a new load would take it. *)
Definition in_sync {A} `{CacheEntry A} (read : Env -> Z -> bool -> M database (list A)) (t0 T : Z)
    (d0 d1 : database) : Prop :=
  forall (E0 E1 : Env) (c0 c1 : conn database), @reliable E0 -> @reliable E1 -> replica c0 = d0 -> replica c1 = d1 ->
  exists first inc again, fst (read E0 t0 true c0) = Ok first /\ fst (read E1 T false c1) = Ok inc /\
    fst (read E1 t0 true c1) = Ok again /\ overlay inc (overlay first ∅) = overlay again ∅.

Lemma table_in_sync {R A} read `{CacheRead R A read} `{!KeepsSince R} (E : Env) t0 T ops (c : conn database) :
  Clock (Z.lt T) (formatted (Z.lt T)) -> t0 <= T -> txst c <> TxOpen -> db_ok (committed c) ->
  in_sync read t0 T (committed c) (committed (perform_each perform ops c)).
Proof.
  intros Hk Ht0 Ht Hok. pose proof (perform_each_ok ops c Ht Hok) as Hok1.
  pose proof (perform_each_since (R:=R) E (Z.lt T) ops c Hk Ht) as Hs.
  intros E0 E1 c0 c1 Hr0 Hr1 Hc0 Hc1. rewrite <- Hc0 in *. rewrite <- Hc1 in *.
  eexists _, _, _. split_and!; [by apply cache_read..|].
  apply (overlay_since t0 T); [apply Hok|apply Hok1|done|done].
Qed.

(** C3: the caches of fault detection rules, circuit breaker rules and rate
    limits stay in step with the store: whatever sequence of operations of the
    package runs, with whatever faults, the rows changed after [T] laid over
    the rules loaded before are the rules a new load delivers, deleted ones
    gone, as long as no transaction was open at the first load and the clocks,
    written to the second, stand after [T] from then on. *)
Theorem caches_stay_in_sync (E : Env) t0 T ops (c : conn database) :
  Clock (Z.lt T) (formatted (Z.lt T)) -> t0 <= T -> txst c <> TxOpen -> db_ok (committed c) ->
  let d1 := committed (perform_each perform ops c) in
  in_sync (fun E' => GetFaultDetectRulesForCache) t0 T (committed c) d1 /\
  in_sync (fun E' => GetCircuitBreakerRulesForCache) t0 T (committed c) d1 /\
  in_sync (fun E' => GetRateLimitsForCache) t0 T (committed c) d1.
Proof.
  intros Hk Ht0 Ht Hok d1.
  split_and!; [exact (table_in_sync (R:=fault_detect_rule_row) _ E t0 T ops c Hk Ht0 Ht Hok)
    |exact (table_in_sync (R:=circuitbreaker_rule_v2_row) _ E t0 T ops c Hk Ht0 Ht Hok)
    |exact (table_in_sync (R:=ratelimit_config_row) _ E t0 T ops c Hk Ht0 Ht Hok)].
Qed.

(** A deleted row is there after any operations. *)
Lemma dead_row_stays {R} `{KeepsSince R} (E : Env) ops (c : conn database) (r : R) : txst c <> TxOpen ->
  r ∈ tbl (committed c) -> dead r = true ->
  exists r' : R, r' ∈ tbl (committed (perform_each perform ops c)) /\ key r' = key r /\ dead r' = true.
Proof.
  intros Ht Hr Hd. destruct (perform_each_since (R:=R) E anytime ops c) as [_ Hp]; [by split|done|].
  destruct (Hp r Hr) as (r' & Hr' & Hk & Hd'). eauto.
Qed.

(** C4: a deleted fault detection rule never comes back: once
    [DeleteFaultDetectRule] has returned, no sequence of operations of the
    package makes its id found again, and creating a rule with that id is
    refused without a trace. *)
Theorem deleted_rule_stays_deleted (E : Env) id (c c1 c2 : conn database) ops : id <> ""%string ->
  db_wf (committed c) -> (exists r : fault_detect_rule_row, r ∈ tbl (committed c) /\ fd_id r = id) ->
  DeleteFaultDetectRule id c = (Ok tt, c1) -> committed c2 = committed c1 -> txst c2 <> TxOpen ->
  let d' := committed (perform_each perform ops c2) in
  forall (E' : Env) (c' : conn database), @reliable E' -> committed c' = d' ->
  fst (HasFaultDetectRule id c') = Ok false /\
  (forall f r c'', FaultDetect.ID f = id -> CreateFaultDetectRule f c' = (r, c'') ->
     committed c'' = committed c' /\ is_Ok r = false).
Proof.
  intros Hid Hd (x & Hx & Hxid) Hdel Hc2 Ht2 d' E' c' Hrel Hc'. subst d'.
  destruct (DeleteFaultDetectRule_correct id c _ c1 Hd Hdel) as (Hd1 & _ & Hok & _).
  destruct (Hok eq_refl) as [now Hc1].
  destruct (dead_row_stays E ops c2 (FaultDetect.set_deleted now x)) as (r & Hr & Hk & Hdead); [done| |done|].
  { rewrite Hc2, Hc1, tbl_set. apply elem_of_change. exists x. split; [done|].
    unfold FaultDetect.with_id. by rewrite (proj2 (str_eq_true _ _) Hxid). }
  assert (db_wf (committed c')) as Hw by (rewrite Hc'; apply operations_keep_constraints; [done|by rewrite Hc2]).
  rewrite <- Hc' in Hr. simpl in Hk, Hdead. split.
  - rewrite HasFaultDetectRule_correct by done. f_equal. apply existsb_none. intros y Hy.
    destruct (str_eq (fd_id y) id) eqn:E1; [|by rewrite andb_false_r]. apply str_eq_true in E1.
    rewrite (same_key (committed c') y r) by (done || simpl; congruence).
    unfold fd_live. by apply Z.eqb_eq in Hdead as ->.
  - intros f res c'' Hf Hcr. eapply CreateFaultDetectRule_correct; [done|exact Hcr|]. exists r. by split; [|congruence].
Qed.
End properties.
