(* ===== verification/RuleSpec.v ===== *)
(** * Rule stores and namespaces refine a registry

    What the stores of fault detection rules, circuit breaker rules, rate
    limits, routing rules of the second version and namespaces promise, without
    tables, transactions or retries: a registry from ids to entries in which an
    operation adds one entry under a free id (or, in some stores, under the id
    of a deleted one) or changes the entry of one id, at one time, and in which
    an error means that this did or did not happen, and nothing else.
    [RuleStore] is the interface the stores implement; sequences of their
    operations are shown to be runs of the registry with the same results. *)
From stdpp Require Import base list strings gmap.
From Stdlib Require Import ZArith Lia.
From S2P Require Import Prelude Driver Rows Schema Common Where RuleFilter FaultDetect CircuitBreaker RateLimit Cache.
From S2P Require Import Namespace RoutingV2.
Open Scope Z_scope.
Open Scope store_scope.

(** ** The specification *)

Section registry.
Context {R : Type}.
Notation registry := (gmap string R).
Implicit Types (m : registry) (k : string).

(** What an operation is meant to do; the times are chosen when it runs. *)
Inductive intent :=
| Add (k : string) (entry : Z * Z * Z -> R)
| Renew (gone : R -> bool) (k : string) (entry : Z * Z * Z -> R)
| Change (k : string) (f : Z * Z * Z -> R -> R)
| Refuse.

Definition effect (i : intent) (t : Z * Z * Z) m : option registry :=
  match i with
  | Add k entry => match m !! k with None => Some (<[k := entry t]> m) | Some _ => None end
  | Renew gone k entry =>
      if match m !! k with None => true | Some x => gone x end then Some (<[k := entry t]> m) else None
  | Change k f => Some (alter (f t) k m)
  | Refuse => None
  end.

(** One operation: success is the effect, an error the effect or nothing. *)
Inductive spec_step (i : intent) m : res unit -> registry -> Prop :=
| spec_done t m' : effect i t m = Some m' -> spec_step i m (Ok tt) m'
| spec_reply_lost t m' r : effect i t m = Some m' -> is_Ok r = false -> spec_step i m r m'
| spec_failed r : is_Ok r = false -> spec_step i m r m.

(** A sequence of operations with their results. *)
Inductive spec_run : list (intent * res unit) -> registry -> registry -> Prop :=
| spec_stop m : spec_run [] m m
| spec_next i r rest m1 m2 m3 : spec_step i m1 r m2 -> spec_run rest m2 m3 -> spec_run ((i, r) :: rest) m1 m3.

(** Ids are never given up. *)
Lemma spec_step_dom i m r m' : spec_step i m r m' -> dom m ⊆ dom m'.
Proof.
  intros Hs. assert (forall t m', effect i t m = Some m' -> dom m ⊆ dom m') as He.
  { intros t m1. destruct i as [k e|g k e|k f|]; simpl; [destruct (m !! k); [done|]|case_match; [|done]|..|done];
      intros [= <-]; set_solver. }
  destruct Hs; eauto.
Qed.

Lemma spec_run_dom l m m' : spec_run l m m' -> dom m ⊆ dom m'.
Proof. induction 1 as [|i r rest m1 m2 m3 Hs%spec_step_dom _ IH]; set_solver. Qed.

(** An entry that is not gone is not replaced. *)
Lemma spec_renew_refused gone k entry m x r m' : m !! k = Some x -> gone x = false ->
  spec_step (Renew gone k entry) m r m' -> m' = m /\ is_Ok r = false.
Proof.
  intros Hx Hg Hs. destruct Hs as [t m' He|t m' r He Hr|r Hr]; [| |done]; simpl in He; by rewrite Hx, Hg in He.
Qed.

(** An id that is in use is refused. *)
Lemma spec_add_refused k entry m r m' : is_Some (m !! k) -> spec_step (Add k entry) m r m' -> m' = m /\ is_Ok r = false.
Proof. intros [x Hx] Hs. destruct Hs as [t m' He|t m' r He Hr|r Hr]; [| |done]; simpl in He; by rewrite Hx in He. Qed.
End registry.
Arguments intent : clear implicits.

(** ** The table as a registry *)

Section abstraction.
Context {R} `{Stamped R}.
Implicit Types (d : database) (r x : R).

Definition registry_of (d : database) : gmap string R := list_to_map (map (fun r => (key r, r)) (tbl d)).

Lemma keys_NoDup d : db_wf d -> NoDup (map fst (map (fun r : R => (key r, r)) (tbl d))).
Proof.
  intros Hd. rewrite map_map. simpl. apply (distinct_NoDup clash); [|by apply tbl_distinct].
  intros x y Hk. rewrite clash_key, Hk. apply str_eq_refl.
Qed.

Lemma registry_lookup d k r : db_wf d -> registry_of d !! k = Some r <-> r ∈ tbl d /\ key r = k.
Proof.
  intros Hd. unfold registry_of. rewrite <- elem_of_list_to_map by by apply keys_NoDup.
  rewrite list_elem_of_fmap. naive_solver.
Qed.

Lemma registry_None d k : db_wf d -> registry_of d !! k = None <-> forall r : R, r ∈ tbl d -> key r <> k.
Proof.
  intros Hd. rewrite eq_None_not_Some. unfold is_Some. setoid_rewrite registry_lookup; [|done]. naive_solver.
Qed.

Lemma registry_insert d (r : R) : db_wf d -> db_wf (set_tbl (tbl d ++ [r]) d) ->
  registry_of d !! key r = None /\ registry_of (set_tbl (tbl d ++ [r]) d) = <[key r := r]> (registry_of d).
Proof.
  intros Hd Hd'. pose proof (tbl_distinct (R:=R) _ Hd') as Hu. rewrite tbl_set in Hu.
  apply distinct_app in Hu as (_ & _ & Hu). split.
  - apply registry_None; [done|]. intros x Hx Hk. specialize (Hu x r Hx ltac:(left)).
    by rewrite clash_key, Hk, str_eq_refl in Hu.
  - apply map_eq. intros k. apply option_eq. intros x. rewrite registry_lookup by done.
    rewrite tbl_set, elem_of_app, list_elem_of_singleton, lookup_insert_Some, registry_lookup by done.
    split; [|naive_solver]. intros [[Hx| ->] <-]; [|naive_solver]. right. split; [|done]. intros Hk.
    specialize (Hu x r Hx ltac:(left)). by rewrite clash_key, <- Hk, str_eq_refl in Hu.
Qed.

(** A row in place of one that is gone, under the same key. *)
Lemma registry_renew d (w gone : R -> bool) (row : R) : db_wf d ->
  (forall r, w r = str_eq (key r) (key row) && gone r) ->
  db_wf (set_tbl (keep (fun r => negb (w r)) (tbl d) ++ [row]) d) ->
  match registry_of d !! key row with None => true | Some x => gone x end = true /\
  registry_of (set_tbl (keep (fun r => negb (w r)) (tbl d) ++ [row]) d) = <[key row := row]> (registry_of d).
Proof.
  intros Hd Hw Hd'. pose proof (tbl_distinct (R:=R) _ Hd') as Hu. rewrite tbl_set in Hu.
  apply distinct_app in Hu as (_ & _ & Hu).
  assert (forall x, x ∈ tbl d -> key x = key row -> gone x = true) as Hgone.
  { intros x Hx Hk. destruct (gone x) eqn:Eg; [done|]. exfalso.
    assert (x ∈ keep (fun r => negb (w r)) (tbl d)) as Hin.
    { apply elem_of_keep. split; [done|]. by rewrite Hw, Eg, andb_false_r. }
    specialize (Hu x row Hin ltac:(left)). by rewrite clash_key, Hk, str_eq_refl in Hu. }
  split.
  - destruct (registry_of d !! key row) as [x|] eqn:E; [|done]. apply registry_lookup in E as [Hx Hk]; [|done]. auto.
  - apply map_eq. intros k. apply option_eq. intros x. rewrite registry_lookup by done.
    rewrite tbl_set, elem_of_app, list_elem_of_singleton, elem_of_keep, lookup_insert_Some, registry_lookup, Hw by done.
    split; [|intros [[<- <-]|[Hne [Hx <-]]]; [naive_solver|]].
    + intros [[[Hx Hn]| ->] <-]; [|naive_solver]. right. split; [|done]. intros Hk.
      by rewrite <- Hk, str_eq_refl, (Hgone x Hx (eq_sym Hk)) in Hn.
    + split; [|done]. left. split; [done|]. by rewrite (proj2 (str_eq_false (key x) (key row))) by done.
Qed.

Lemma registry_change d k (w : R -> bool) f : db_wf d -> db_wf (set_tbl (change w f (tbl d)) d) ->
  (forall r, w r = str_eq (key r) k) -> (forall r, key (f r) = key r) ->
  registry_of (set_tbl (change w f (tbl d)) d) = alter f k (registry_of d).
Proof.
  intros Hd Hd' Hw Hf. apply map_eq. intros j. apply option_eq. intros x. rewrite registry_lookup by done.
  rewrite tbl_set, elem_of_change. setoid_rewrite Hw. rewrite lookup_alter_Some.
  setoid_rewrite registry_lookup; [|done..]. split.
  - intros [(y & Hy & ->) <-]. destruct (str_eq (key y) k) eqn:E.
    + apply str_eq_true in E. left. rewrite Hf. split; [done|]. by exists y.
    + apply str_eq_false in E. right. by split_and!.
  - intros [(-> & y & [Hy <-] & ->)|(Hne & Hx & <-)].
    + rewrite Hf. split; [|done]. exists y. by rewrite str_eq_refl.
    + split; [|done]. exists x. split; [done|]. by rewrite (proj2 (str_eq_false _ _)).
Qed.
End abstraction.

(** ** The interface *)

(** A store of rules [R] with operations [Op]: what each is meant to do, and
    that it does it, whatever faults occur. *)
Class RuleStore (Op R : Type) `{Stamped R} `{PolarisApi} := {
  run_rule : forall `{Env}, Op -> M database unit;
  meaning : Op -> intent R;
  run_rule_steps : forall `{Env} op (c : conn database) r c', db_wf (committed c) -> run_rule op c = (r, c') ->
    db_wf (committed c') /\ spec_step (meaning op) (registry_of (committed c)) r (registry_of (committed c'))
}.
#[export] Hint Mode RuleStore ! - - - - : typeclass_instances.

Section runs.
Context {Op R : Type} `{RuleStore Op R} `{Env}.

(** Operations one after the other, with their results. *)
Fixpoint run_rules (ops : list Op) (c : conn database) : list (res unit) * conn database :=
  match ops with
  | [] => ([], c)
  | op :: ops' =>
      let '(r, c) := run_rule op c in
      let '(rs, c) := run_rules ops' c in
      (r :: rs, c)
  end.

(** Every sequence of operations is a run of the registry. *)
Lemma run_rules_refine ops c rs c' : db_wf (committed c) -> run_rules ops c = (rs, c') ->
  db_wf (committed c') /\ spec_run (zip (map meaning ops) rs) (registry_of (committed c)) (registry_of (committed c')).
Proof.
  revert c rs c'. induction ops as [|op ops IH]; intros c rs c' Hd Hr; simpl in Hr.
  - injection Hr as <- <-. split; [done|constructor].
  - destruct (run_rule op c) as [r c1] eqn:E1. destruct (run_rules ops c1) as [rs1 c2] eqn:E2.
    injection Hr as <- <-. apply run_rule_steps in E1 as [Hd1 Hs]; [|done].
    destruct (IH _ _ _ Hd1 E2) as [Hd2 Hrest]. split; [done|]. by econstructor.
Qed.
End runs.

(** ** What the theorems of the stores amount to *)

Section steps.
Context {R X : Type} `{Stamped R}.
Implicit Types d : database.

Lemma effect_step (i : intent R) d d' r (changed : Prop) : (r = Ok tt -> changed) -> (d' = d \/ changed) ->
  (changed -> exists t, effect i t (registry_of d) = Some (registry_of d')) ->
  spec_step i (registry_of d) r (registry_of d').
Proof.
  intros Hok Hor He. destruct r as [[]|e|w].
  - destruct (He (Hok eq_refl)) as [t Ht]. by apply (spec_done _ _ t).
  - destruct Hor as [->|[t Ht]%He]; [by apply spec_failed|by apply (spec_reply_lost _ _ t)].
  - destruct Hor as [->|[t Ht]%He]; [by apply spec_failed|by apply (spec_reply_lost _ _ t)].
Qed.

Lemma inserted_step (mk : X -> R) k (entry : Z * Z * Z -> R) d d' r : db_wf d -> db_wf d' ->
  (r = Ok tt -> inserted mk d d') -> (d' = d \/ inserted mk d d') ->
  (forall x, key (mk x) = k /\ exists t, entry t = mk x) ->
  spec_step (Add k entry) (registry_of d) r (registry_of d').
Proof.
  intros Hd Hd' Hok Hor Hk. apply (effect_step _ _ _ _ (inserted mk d d') Hok Hor).
  intros [x ->]. destruct (Hk x) as [<- [t Ht]]. exists t. simpl.
  destruct (registry_insert d (mk x) Hd Hd') as [-> ->]. by rewrite Ht.
Qed.

Lemma updated_step (w : R -> bool) (set : X -> R -> R) k (f : Z * Z * Z -> R -> R) d d' r : db_wf d -> db_wf d' ->
  (r = Ok tt -> updated w set d d') -> (d' = d \/ updated w set d d') ->
  (forall x, w x = str_eq (key x) k) -> (forall x y, key (set x y) = key y) -> (forall x, exists t, f t = set x) ->
  spec_step (Change k f) (registry_of d) r (registry_of d').
Proof.
  intros Hd Hd' Hok Hor Hw Hk Hf. apply (effect_step _ _ _ _ (updated w set d d') Hok Hor).
  intros [x ->]. destruct (Hf x) as [t Ht]. exists t. simpl. rewrite Ht. f_equal. symmetry.
  by apply registry_change.
Qed.

(** An update that keeps the keys keeps the constraints. *)
Lemma updated_wf (w : R -> bool) (set : X -> R -> R) d d' : db_wf d ->
  (forall x y, key (set x y) = key y) -> d' = d \/ updated w set d d' -> db_wf d'.
Proof.
  intros Hd Hk [->|[x ->]]; [done|]. apply set_tbl_wf; [done|].
  apply distinct_change; [..|by apply tbl_distinct]; intros; by rewrite !clash_key, ?Hk.
Qed.
End steps.

#[export] Instance rv_stamped : Stamped routing_config_v2_row.
Proof. by refine {| key := rv_id; stamp := rv_mtime; dead r := rv_flag r =? 1 |}. Defined.
#[export] Instance ns_stamped : Stamped namespace_row.
Proof. by refine {| key := ns_name; stamp := ns_mtime; dead r := ns_flag r =? 1 |}. Defined.

(** Namespaces, by the rows of each name. *)
Section named.
Implicit Types d : database.

Lemma named_lookup d k x : db_wf d -> registry_of (R:=namespace_row) d !! k = Some x <-> x ∈ named k d.
Proof. intros Hd. rewrite registry_lookup by done. unfold named. by rewrite elem_of_keep, str_eq_true. Qed.

Lemma named_elsewhere name d d' k : only_namespace name d d' -> k <> name -> forall x, x ∈ named k d' <-> x ∈ named k d.
Proof.
  intros [_ Ho] Hk x. unfold named, not_named in *. rewrite !elem_of_keep.
  assert (forall d, x ∈ tbl d /\ str_eq (ns_name x) k = true <->
    x ∈ keep (fun r => negb (str_eq (ns_name r) name)) (tbl d) /\ str_eq (ns_name x) k = true) as He.
  { intros e. rewrite elem_of_keep, negb_true_iff, str_eq_true, str_eq_false. naive_solver. }
  by rewrite He, Ho, <- He.
Qed.

Lemma named_replaced name d d' (row : namespace_row) : db_wf d -> db_wf d' -> only_namespace name d d' ->
  named name d' = [row] -> registry_of (R:=namespace_row) d' = <[name := row]> (registry_of d).
Proof.
  intros Hd Hd' Ho Hn. apply map_eq. intros k. apply option_eq. intros x.
  rewrite lookup_insert_Some, !named_lookup by done. destruct (decide (name = k)) as [<-|Hk].
  - rewrite Hn, list_elem_of_singleton. naive_solver.
  - rewrite (named_elsewhere name d d' k Ho) by done. naive_solver.
Qed.

Lemma named_changed name d d' (f : namespace_row -> namespace_row) : db_wf d -> db_wf d' -> only_namespace name d d' ->
  named name d' = map f (named name d) -> registry_of (R:=namespace_row) d' = alter f name (registry_of d).
Proof.
  intros Hd Hd' Ho Hn. apply map_eq. intros k. apply option_eq. intros x.
  rewrite lookup_alter_Some. setoid_rewrite named_lookup; [|done..]. destruct (decide (name = k)) as [<-|Hk].
  - rewrite Hn. setoid_rewrite list_elem_of_fmap. naive_solver.
  - rewrite (named_elsewhere name d d' k Ho) by done. naive_solver.
Qed.
End named.

(** ** The stores *)

Inductive fd_operation :=
| FdCreate (x : FaultDetectRule)
| FdUpdate (x : FaultDetectRule)
| FdDelete (id : string).

Inductive cb_operation :=
| CbCreate (x : CircuitBreakerRule)
| CbUpdate (x : CircuitBreakerRule)
| CbEnable (x : CircuitBreakerRule)
| CbDelete (id : string).

Inductive rl_operation :=
| RlCreate (x : RateLimit)
| RlUpdate (x : RateLimit)
| RlEnable (x : RateLimit)
| RlDelete (x : RateLimit).

Inductive rv_operation :=
| RvCreate (x : RouterConfig)
| RvUpdate (x : RouterConfig)
| RvEnable (x : RouterConfig)
| RvDelete (id : string).

Inductive ns_operation :=
| NsAdd (x : Namespace.Namespace)
| NsUpdate (x : Namespace.Namespace)
| NsUpdateToken (name token : string).

Definition unless {R} (refused : bool) (i : intent R) : intent R := if refused then Refuse else i.

(** An operation on a rate limit without id or revision is refused. *)
Definition unless_missing (x : RateLimit) (i : intent ratelimit_config_row) : intent ratelimit_config_row :=
  if str_empty (RateLimit.ID x) || str_empty (RateLimit.Revision x) then Refuse else i.

Section stores.
Context `{PolarisApi}.

Definition fd_meaning (op : fd_operation) : intent fault_detect_rule_row :=
  match op with
  | FdCreate x => Add (FaultDetect.ID x) (fun t => new_fault_detect_row x t.2)
  | FdUpdate x => Change (FaultDetect.ID x) (fun t => set_fault_detect x t.2)
  | FdDelete id => Change id (fun t => FaultDetect.set_deleted t.2)
  end.

#[export] Instance fd_store : RuleStore fd_operation fault_detect_rule_row.
Proof.
  refine {| run_rule := fun _ op =>
    match op with
    | FdCreate x => CreateFaultDetectRule x
    | FdUpdate x => UpdateFaultDetectRule x
    | FdDelete id => DeleteFaultDetectRule id
    end; meaning := fd_meaning |}.
  intros E op c r c' Hd Hr. destruct op as [x|x|id]; simpl.
  - destruct (CreateFaultDetectRule_correct x c r c' Hd Hr) as (Hd' & _ & Hok & Hor & _). split; [done|].
    apply (inserted_step _ _ _ _ _ _ Hd Hd' Hok Hor). intros t. split; [done|]. by exists (0, 0, t).
  - destruct (UpdateFaultDetectRule_correct x c r c' Hd Hr) as (Hd' & _ & Hok & Hor). split; [done|].
    apply (updated_step _ _ _ _ _ _ _ Hd Hd' Hok Hor); [done..|]. intros t. by exists (0, 0, t).
  - destruct (DeleteFaultDetectRule_correct id c r c' Hd Hr) as (Hd' & _ & Hok & Hor). split; [done|].
    apply (updated_step _ _ _ _ _ _ _ Hd Hd' Hok Hor); [done..|]. intros t. by exists (0, 0, t).
Defined.

Definition cb_meaning (op : cb_operation) : intent circuitbreaker_rule_v2_row :=
  match op with
  | CbCreate x => Add (CircuitBreaker.ID x) (fun t =>
      new_cb_row x (GetCurrentTimeFormat t.1.2) (GetCurrentTimeFormat t.2) (etime_of (CircuitBreaker.Enable x) t.1.1))
  | CbUpdate x => Change (CircuitBreaker.ID x) (fun t =>
      set_cb x (GetCurrentTimeFormat t.2) (etime_of (CircuitBreaker.Enable x) t.1.1))
  | CbEnable x => Change (CircuitBreaker.ID x) (fun t =>
      set_cb_enable x (GetCurrentTimeFormat t.2) (etime_of (CircuitBreaker.Enable x) t.1.1))
  | CbDelete id => Change id (fun t => set_cb_deleted (GetCurrentTimeFormat t.2))
  end.

#[export] Instance cb_store : RuleStore cb_operation circuitbreaker_rule_v2_row.
Proof.
  refine {| run_rule := fun _ op =>
    match op with
    | CbCreate x => CreateCircuitBreakerRule x
    | CbUpdate x => UpdateCircuitBreakerRule x
    | CbEnable x => EnableCircuitBreakerRule x
    | CbDelete id => DeleteCircuitBreakerRule id
    end; meaning := cb_meaning |}.
  intros E op c r c' Hd Hr. destruct op as [x|x|x|id]; simpl.
  - destruct (CreateCircuitBreakerRule_correct x c r c' Hd Hr) as (Hd' & _ & Hok & Hor & _). split; [done|].
    apply (inserted_step _ _ _ _ _ _ Hd Hd' Hok Hor). intros t. split; [done|]. by exists t.
  - destruct (UpdateCircuitBreakerRule_correct x c r c' Hd Hr) as (Hd' & _ & Hok & Hor). split; [done|].
    apply (updated_step _ _ _ _ _ _ _ Hd Hd' Hok Hor); [done..|]. intros t. by exists (t.1, 0, t.2).
  - destruct (EnableCircuitBreakerRule_correct x c r c' Hd Hr) as (Hd' & _ & Hok & Hor). split; [done|].
    apply (updated_step _ _ _ _ _ _ _ Hd Hd' Hok Hor); [done..|]. intros t. by exists (t.1, 0, t.2).
  - destruct (DeleteCircuitBreakerRule_correct id c r c' Hd Hr) as (Hd' & _ & Hok & Hor). split; [done|].
    apply (updated_step _ _ _ _ _ _ _ Hd Hd' Hok Hor); [done..|]. intros t. by exists (0, 0, t).
Defined.

Definition rl_meaning (op : rl_operation) : intent ratelimit_config_row :=
  match op with
  | RlCreate x => Refuse
  | RlUpdate x => unless_missing x (Change (RateLimit.ID x) (fun t =>
      set_rl x t.1.1 (rl_etime_of (RateLimit.Disable x) t.2)))
  | RlEnable x => unless_missing x (Change (RateLimit.ID x) (fun t =>
      set_rl_enable x t.1.1 (rl_etime_of (RateLimit.Disable x) t.2)))
  | RlDelete x => unless_missing x (Change (RateLimit.ID x) (fun t => set_rl_deleted t.2))
  end.

Lemma with_params_step `{Env} what x (m : M database unit) i (c : conn database) r c' :
  db_wf (committed c) -> with_params what x m c = (r, c') ->
  (db_wf (committed c') /\ spec_step i (registry_of (committed c)) r (registry_of (committed c'))) ->
  db_wf (committed c') /\
  spec_step (unless_missing x i) (registry_of (committed c)) r (registry_of (committed c')).
Proof.
  unfold with_params, unless_missing. destruct (_ || _); [|auto].
  intros Hd [= <- <-] _. split; [done|]. by apply spec_failed.
Qed.

#[export] Instance rl_store : RuleStore rl_operation ratelimit_config_row.
Proof.
  refine {| run_rule := fun _ op =>
    match op with
    | RlCreate x => CreateRateLimit x
    | RlUpdate x => UpdateRateLimit x
    | RlEnable x => EnableRateLimit x
    | RlDelete x => DeleteRateLimit x
    end; meaning := rl_meaning |}.
  intros E op c r c' Hd Hr. destruct op as [x|x|x|x]; simpl.
  - destruct (CreateRateLimit_fails x c r c' Hr) as (Hc & _ & Hok). rewrite Hc. split; [done|by apply spec_failed].
  - destruct (UpdateRateLimit_correct x c r c' Hd Hr) as (Hd' & _ & Hok & Hor).
    eapply (with_params_step "update" x); [done|exact Hr|]. split; [done|].
    apply (updated_step _ _ _ _ _ _ _ Hd Hd' Hok Hor); [done..|]. intros t. by exists (t.1, 0, t.2).
  - destruct (EnableRateLimit_correct x c r c' Hd Hr) as (Hd' & _ & Hok & Hor).
    eapply (with_params_step "enable" x); [done|exact Hr|]. split; [done|].
    apply (updated_step _ _ _ _ _ _ _ Hd Hd' Hok Hor); [done..|]. intros t. by exists (t.1, 0, t.2).
  - destruct (DeleteRateLimit_correct x c r c' Hd Hr) as (Hd' & _ & Hok & Hor).
    eapply (with_params_step "delete" x); [done|exact Hr|]. split; [done|].
    apply (updated_step _ _ _ _ _ _ _ Hd Hd' Hok Hor); [done..|]. intros t. by exists (0, 0, t).
Defined.

(** Routing rules of the second version. *)
Definition rv_incomplete (x : RouterConfig) : bool :=
  str_empty (RoutingV2.ID x) || str_empty (RoutingV2.Revision x) || str_empty (Policy x) || str_empty (Config x).

Definition rv_meaning (op : rv_operation) : intent routing_config_v2_row :=
  match op with
  | RvCreate x => unless (rv_incomplete x) (Renew (fun r => rv_flag r =? 1) (RoutingV2.ID x)
      (fun t => new_rv_row x t.2 (rv_etime_of (RoutingV2.Enable x) t.1.1)))
  | RvUpdate x => Change (RoutingV2.ID x) (fun t => set_rv x t.2)
  | RvEnable x => Change (RoutingV2.ID x) (fun t => set_rv_enable x t.1.1 (rv_etime_of (RoutingV2.Enable x) t.2))
  | RvDelete id => Change id (fun t => set_rv_deleted t.2)
  end.

#[export] Instance rv_store : RuleStore rv_operation routing_config_v2_row.
Proof.
  refine {| run_rule := fun _ op =>
    match op with
    | RvCreate x => CreateRoutingConfigV2 x
    | RvUpdate x => UpdateRoutingConfigV2 x
    | RvEnable x => EnableRouting x
    | RvDelete id => DeleteRoutingConfigV2 id
    end; meaning := rv_meaning |}.
  intros E op c r c' Hd Hr. destruct op as [x|x|x|id]; simpl.
  - destruct (CreateRoutingConfigV2_correct x c r c' Hd Hr) as (Hd' & _ & Hok & Hor & Hmiss & _). split; [done|].
    unfold unless, rv_incomplete. destruct (_ || _) eqn:Em.
    + rewrite !orb_true_iff, !str_empty_spec in Em.
      destruct (Hmiss ltac:(tauto)) as [-> [m ->]]. by apply spec_failed.
    + apply (effect_step _ _ _ _ _ Hok Hor). intros (now & t & Hnew & _). exists (t, 0, now). simpl.
      rewrite Hnew in Hd' |- *.
      destruct (registry_renew (committed c) (rv_dead (RoutingV2.ID x)) (fun r => rv_flag r =? 1)
        (new_rv_row x now (rv_etime_of (RoutingV2.Enable x) t)) Hd) as [Hg ->]; [done|done|].
      change (RoutingV2.ID x) with (key (new_rv_row x now (rv_etime_of (RoutingV2.Enable x) t))). by rewrite Hg.
  - destruct (UpdateRoutingConfigV2_correct x c r c' Hr) as (_ & Hok & Hor).
    pose proof (updated_wf _ (set_rv x) _ _ Hd (fun _ _ => eq_refl) Hor) as Hd'.
    split; [done|]. apply (updated_step _ _ _ _ _ _ _ Hd Hd' Hok Hor); [done..|]. intros t. by exists (0, 0, t).
  - destruct (EnableRouting_correct x c r c' Hd Hr) as (Hd' & _ & Hok & Hor). split; [done|].
    apply (updated_step _ _ _ _ _ _ _ Hd Hd' Hok Hor); [done..|]. intros t. by exists (t.1, 0, t.2).
  - destruct (DeleteRoutingConfigV2_correct id c r c' Hr) as (_ & Hok & Hor).
    pose proof (updated_wf _ set_rv_deleted _ _ Hd (fun _ _ => eq_refl) Hor) as Hd'.
    split; [done|]. apply (updated_step _ _ _ _ _ _ _ Hd Hd' (fun h => proj2 (Hok h)) Hor); [done..|].
    intros t. by exists (0, 0, t).
Defined.

(** Namespaces. *)
Definition ns_meaning (op : ns_operation) : intent namespace_row :=
  match op with
  | NsAdd x => unless (str_empty (Namespace.Name x))
      (Renew (fun r => ns_flag r =? 1) (Namespace.Name x) (fun t => new_namespace_row t.2 x))
  | NsUpdate x => Change (Namespace.Name x) (fun t => set_namespace x t.2)
  | NsUpdateToken name token => Change name (fun t => set_namespace_token token t.2)
  end.

Lemma ns_wf `{Env} op (c : conn database) r c' : db_wf (committed c) ->
  match op with
  | NsAdd x => AddNamespace x
  | NsUpdate x => UpdateNamespace x
  | NsUpdateToken name token => UpdateNamespaceToken name token
  end c = (r, c') -> db_wf (committed c').
Proof.
  intros Hd. assert (forall (body : M database unit) p (x : bool) e, Implements body p -> Preserves db_wf p ->
    (if x then Fail e else RetryTransaction (processWithTransaction (then_commit body))) c = (r, c') ->
    db_wf (committed c')) as Hp.
  { intros body p x e Hi Hw. destruct x; [by intros [= _ <-]|]. intros [Ho _]%(retry_process_spec body p).
    eapply (retried_outcome_inv db_wf); [|exact Hd|exact Ho]. intros now d a d' Hx Hr. by eapply Hw. }
  destruct op; intros Hr; eapply Hp in Hr; first [exact Hr|apply _].
Qed.

Lemma named_step name (i : intent namespace_row) d d' r (changed : Z -> Prop) : db_wf d -> db_wf d' ->
  only_namespace name d d' ->
  (r = Ok tt -> exists now, changed now) ->
  (named name d' = named name d \/ exists now, changed now) ->
  (forall now, changed now -> effect i (0, 0, now) (registry_of d) = Some (registry_of d')) ->
  spec_step i (registry_of d) r (registry_of d').
Proof.
  intros Hd Hd' Ho Hok Hor He.
  assert (named name d' = named name d -> registry_of (R:=namespace_row) d' = registry_of d) as Hsame.
  { intros Hs. rewrite (named_changed name d d' id Hd Hd' Ho); [by apply alter_id|]. by rewrite Hs, map_id. }
  destruct (decide (r = Ok tt)) as [->|Hr]; [destruct (Hok eq_refl) as [now Hn%He]; by eapply spec_done|].
  assert (is_Ok r = false) as Hf by (by destruct r as [[]| |]).
  destruct Hor as [Hs%Hsame|[now Hn%He]]; [rewrite Hs; by apply spec_failed|by eapply spec_reply_lost].
Qed.

Lemma changed_step name f d d' r : db_wf d -> db_wf d' -> only_namespace name d d' ->
  (r = Ok tt -> exists now, named name d' = map (f now) (named name d)) ->
  (named name d' = named name d \/ exists now, named name d' = map (f now) (named name d)) ->
  spec_step (Change name (fun t => f t.2)) (registry_of (R:=namespace_row) d) r (registry_of d').
Proof.
  intros Hd Hd' Ho Hok Hor. apply (named_step name _ d d' r _ Hd Hd' Ho Hok Hor).
  intros now Hn. simpl. f_equal. symmetry. by apply named_changed.
Qed.

#[export] Instance ns_store : RuleStore ns_operation namespace_row.
Proof.
  refine {| run_rule := fun _ op =>
    match op with
    | NsAdd x => AddNamespace x
    | NsUpdate x => UpdateNamespace x
    | NsUpdateToken name token => UpdateNamespaceToken name token
    end; meaning := ns_meaning |}.
  intros E op c r c' Hd Hr. pose proof (ns_wf op c r c' Hd Hr) as Hd'. split; [done|]. destruct op as [x|x|name token]; simpl.
  - unfold unless. destruct (str_empty (Namespace.Name x)) eqn:Ee.
    + unfold AddNamespace in Hr. rewrite Ee in Hr. injection Hr as <- <-. by apply spec_failed.
    + destruct (AddNamespace_correct x c r c' Hr) as (_ & Ho & Hok & Hor & Hlive).
      destruct (registry_of (R:=namespace_row) (committed c) !! Namespace.Name x) as [y|] eqn:Ey;
        [destruct (decide (ns_flag y = 1)) as [Hy|Hy]|].
      2: { apply named_lookup in Ey; [|done]. destruct (Hlive ltac:(eauto)) as [-> Hne].
           apply spec_failed. by destruct r as [[]| |]. }
      all: apply (named_step (Namespace.Name x) _ _ _ _ _ Hd Hd' Ho (fun h => proj2 (Hok h)) Hor);
        intros now Hn; simpl; rewrite Ey; rewrite ?(proj2 (Z.eqb_eq _ _) Hy); f_equal; symmetry;
        by apply named_replaced.
  - destruct (UpdateNamespace_correct x c r c' Hr) as (_ & Ho & Hok & Hor). by apply changed_step.
  - destruct (UpdateNamespaceToken_correct name token c r c' Hr) as (_ & Ho & Hok & Hor). by apply changed_step.
Defined.
End stores.

(** ** Properties *)

Section properties.
Context `{PolarisApi} `{PgInput} `{MapRange}.

(** The look-up by id answers from the registry. *)
Lemma registry_existsb {R} `{Stamped R} (p : R -> bool) (d : database) k : db_wf d ->
  existsb (fun r => p r && str_eq (key r) k) (tbl d) =
    match registry_of (R:=R) d !! k with Some r => p r | None => false end.
Proof.
  intros Hd. destruct (registry_of d !! k) as [r|] eqn:E.
  - apply registry_lookup in E as [Hr Hk]; [|done]. destruct (p r) eqn:Ep.
    + apply existsb_exists. exists r. rewrite <- list_elem_of_In, Ep, Hk, str_eq_refl. done.
    + apply existsb_none. intros x Hx. destruct (str_eq (key x) k) eqn:Ek; [|by rewrite andb_false_r].
      apply str_eq_true in Ek. rewrite (same_key d x r) by (done || congruence). by rewrite Ep.
  - rewrite registry_None in E by done. apply existsb_none. intros x Hx.
    rewrite (proj2 (str_eq_false _ _) (E x Hx)). by rewrite andb_false_r.
Qed.

(** C5: the stores of fault detection rules, circuit breaker rules, rate
    limits, routing rules of the second version and namespaces refine the
    registry: whatever faults occur, a sequence of their operations with the
    results it returned is a run of the specification, in which each operation
    adds one entry under a free id or (for the last two) the id of a deleted
    one, changes one entry or, after an error, may have done nothing; and the
    check whether a fault detection rule exists answers from that registry. *)
Theorem stores_refine_registry `{Env} (c : conn database) : db_wf (committed c) ->
  (forall (ops : list fd_operation) rs c', run_rules ops c = (rs, c') ->
     spec_run (zip (map meaning ops) rs) (registry_of (R:=fault_detect_rule_row) (committed c))
       (registry_of (committed c')) /\
     forall (E' : Env) (c2 : conn database) id, @reliable E' -> committed c2 = committed c' -> id <> ""%string ->
       fst (HasFaultDetectRule (H:=E') id c2) =
         Ok (match registry_of (R:=fault_detect_rule_row) (committed c') !! id with
             | Some r => fd_live r
             | None => false
             end)) /\
  (forall (ops : list cb_operation) rs c', run_rules ops c = (rs, c') ->
     spec_run (zip (map meaning ops) rs) (registry_of (R:=circuitbreaker_rule_v2_row) (committed c))
       (registry_of (committed c'))) /\
  (forall (ops : list rl_operation) rs c', run_rules ops c = (rs, c') ->
     spec_run (zip (map meaning ops) rs) (registry_of (R:=ratelimit_config_row) (committed c))
       (registry_of (committed c'))) /\
  (forall (ops : list rv_operation) rs c', run_rules ops c = (rs, c') ->
     spec_run (zip (map meaning ops) rs) (registry_of (R:=routing_config_v2_row) (committed c))
       (registry_of (committed c'))) /\
  (forall (ops : list ns_operation) rs c', run_rules ops c = (rs, c') ->
     spec_run (zip (map meaning ops) rs) (registry_of (R:=namespace_row) (committed c))
       (registry_of (committed c'))).
Proof.
  intros Hd. split_and!; intros ops rs c' Hr; apply run_rules_refine in Hr as [Hd' Hrun]; try done.
  split; [done|]. intros E' c2 id Hrel Hc2 Hid. rewrite HasFaultDetectRule_correct, Hc2 by done.
  f_equal. exact (registry_existsb fd_live (committed c') id Hd').
Qed.
End properties.
