(* ===== verification/Examples.v ===== *)
(** * Concrete runs

    Each main theorem applied to a concrete input, with its hypotheses
    evaluated: a calm environment without faults (or with chosen ones), the
    plain instances of the outside functions, and small databases. *)
From stdpp Require Import base list strings gmap relations sorting.
From Stdlib Require Import ZArith Lia.
From S2P Require Import Prelude Driver Rows Schema Sql Common Namespace Service Transaction LeaderElection Cleanup.
From S2P Require Import Instances ConfigRelease Gray Store.
Open Scope Z_scope.
Open Scope store_scope.

#[local] Existing Instances calm plain_api plain_range plain_uuid plain_server plain_strconv
  plain_instances plain_expand.

Definition plain_types : ReleaseTypes.
Proof. by refine {| ReleaseTypeFull := ""; ReleaseTypeGray := "gray" |}. Defined.
#[local] Existing Instance plain_types.

(** ** The driver *)

Definition c0 : conn database := fresh empty_database.

Lemma empty_wf : db_wf empty_database.
Proof. by split_and!. Defined.

(** A transaction that inserts one health check. *)
Definition insert_check : M database Z := tx_Exec (sql_insert (fun _ => [HealthCheckRow "i1" 1 5])).

Lemma all_or_nothing_witness :
  t_health_check (committed (snd (processWithTransaction (then_commit insert_check) c0))) =
    [HealthCheckRow "i1" 1 5] /\
  fst (processWithTransaction (then_commit insert_check) c0) = Ok 1.
Proof.
  split; [vm_compute; reflexivity|].
  pose (out := processWithTransaction (then_commit insert_check) c0).
  refine (eq_trans (proj2 (proj2 (processWithTransaction_all_or_nothing insert_check _ c0 (fst out) (snd out)
    (impl_tx_Exec _) (surjective_pairing _))) calm_reliable) _).
  vm_compute. reflexivity.
Defined.

(** A handle that always loses its connection is tried twenty times. *)
Definition lost : M database unit := Fail (EDriver "driver: bad connection").

Lemma Retry_bounded_witness :
  slept (snd (Retry lost c0)) = 1050 /\ slept (snd (Retry lost c0)) <= slept c0 + 1050.
Proof.
  split; [vm_compute; reflexivity|].
  refine (proj2 (proj2 (Retry_bounded lost c0 (fst (Retry lost c0)) (snd (Retry lost c0)) _
    (surjective_pairing _)))).
  by intros c r c' [= _ <-].
Defined.

(** ** Services *)

Definition s1 : Service.Service :=
  Service.mkService "id1" "svc" "default" "biz" "80" (Some {["k" := "v"; "l" := "w"]}%string) "hello" "dep"
    "m1" "m2" "m3" "tok" "polaris" "rev" "" "" "" true 0 0.

Definition c1 : conn database := Eval vm_compute in snd (AddService s1 c0).

Lemma AddService_witness :
  fst (AddService s1 c0) = Ok tt /\ exists now, added now s1 (committed c0) (committed c1).
Proof.
  split; [vm_compute; reflexivity|].
  refine (proj1 (proj2 (AddService_correct s1 c0 (fst (AddService s1 c0)) c1 (surjective_pairing _))) _).
  vm_compute. reflexivity.
Defined.

(** Deleted and made again under its id, with other metadata. *)
Definition s1_again : Service.Service :=
  Service.mkService "id1" "svc" "default" "biz" "80" (Some {["m" := "x"]}%string) "hello" "dep"
    "m1" "m2" "m3" "tok" "polaris" "rev" "" "" "" true 0 0.
Definition c1_deleted : conn database := Eval vm_compute in snd (DeleteService "id1" "svc" "default" c1).
Definition c1_again : conn database := Eval vm_compute in snd (AddService s1_again c1_deleted).

Lemma AddService_GetService_witness : exists now, fst (GetService "svc" "default" c1_again) =
  Ok (Some (Service.mkService "id1" "svc" "default" "biz" "80" (Some {["m" := "x"; "k" := "v"; "l" := "w"]}%string)
    "hello" "dep" "m1" "m2" "m3" "tok" "polaris" "rev" "" "" "" true now now)).
Proof.
  destruct (AddService_GetService s1_again c1_deleted c1_again calm_reliable) as (now & Hg);
    [vm_compute; reflexivity|]. exists now. etrans; [exact Hg|]. vm_compute. reflexivity.
Defined.

Definition s2 : Service.Service :=
  Service.mkService "id1" "svc" "default" "biz2" "81" None "hi" "dep" "m1" "m2" "m3" "tok" "polaris" "rev2"
    "" "" "" true 0 0.

Lemma c1_wf : db_wf (committed c1).
Proof. vm_compute. split_and!; reflexivity. Defined.

Lemma UpdateService_witness :
  exists old now, fst (GetServiceByID "id1" c1) = Ok (Some old) /\
    fst (GetServiceByID "id1" (snd (UpdateService s2 true c1))) =
    Ok (Some (Service.mkService "id1" "svc" "default" "biz2" "81" (Service.Meta old) "hi" "dep" "m1" "m2" "m3"
      "tok" "polaris" "rev2" (Reference old) (ReferFilter old) "" true (Service.CreateTime old) now)).
Proof.
  destruct (fst (GetServiceByID "id1" c1)) as [[old|]|e|w] eqn:E; [|vm_compute in E; discriminate..].
  destruct (UpdateService_GetServiceByID s2 true c1 (snd (GetServiceByID "id1" c1)) old
    (snd (UpdateService s2 true c1)) calm_reliable c1_wf) as [now Hn].
  - change (Service.ID s2) with "id1"%string. rewrite <- E. apply surjective_pairing.
  - vm_compute. reflexivity.
  - exists old, now. split; [reflexivity|exact Hn].
Defined.

Lemma DeleteService_witness :
  fst (DeleteService "id1" "svc" "default" c1) = Ok tt /\
  forall x, x ∈ tbl (committed (snd (DeleteService "id1" "svc" "default" c1))) ->
    Service.with_id "id1" x = true -> svc_flag x = 1.
Proof.
  split; [vm_compute; reflexivity|].
  pose (out := DeleteService "id1" "svc" "default" c1).
  destruct (DeleteService_hides "id1" "svc" "default" c1 (fst out) (snd out) (surjective_pairing _))
    as (_ & _ & _ & _ & Hd).
  apply Hd. vm_compute. reflexivity.
Defined.

Definition alias1 : Service.Service :=
  Service.mkService "id2" "alias" "default" "" "" None "" "" "" "" "" "tok" "polaris" "rev" "id1" "" "" true 0 0.

Definition c2 : conn database := Eval vm_compute in snd (AddService alias1 c1).

Lemma UpdateServiceAlias_witness :
  fst (UpdateServiceAlias alias1 false c2) = Ok tt /\ source_live "id1" (committed c2) = true.
Proof.
  split; [vm_compute; reflexivity|].
  assert (forall code msg, store_Code (EStatus code msg) = code) as Hcode by (intros; reflexivity).
  pose (out := UpdateServiceAlias alias1 false c2).
  destruct (UpdateServiceAlias_correct alias1 false c2 (fst out) (snd out)
    Hcode (surjective_pairing _)) as (_ & _ & Hok).
  apply Hok. vm_compute. reflexivity.
Defined.

Lemma GetServices_witness :
  is_Ok (fst (GetServices [("name", "svc")]%string ∅ None 0 10 c1)) = false.
Proof.
  pose (out := GetServices [("name", "svc")]%string ∅ None 0 10 c1).
  refine (proj2 (GetServices_refused [("name", "svc")]%string ∅ None 0 10 c1 (fst out) (snd out) _
    (surjective_pairing _))).
  vm_compute. discriminate.
Defined.

(** The replica has caught up with the master. *)
Definition synced (c : conn database) : conn database :=
  Conn (committed c) (committed c) (work c) (txst c) (tx_now c) (calls c) (slept c).

Lemma GetMoreServices_witness :
  exists m s, fst (GetMoreServices 0 true false true (synced c1)) = Ok m /\ m !! "id1"%string = Some s.
Proof.
  destruct (GetMoreServices 0 true false true (synced c1)) as [[m|e|w] c'] eqn:E;
    [|apply (f_equal (fun p => is_Ok (fst p))) in E; vm_compute in E; discriminate..].
  destruct (GetMoreServices_first 0 false true (synced c1) m c' c1_wf E) as [_ Hm].
  exists m. eexists. split; [reflexivity|]. apply Hm.
  eexists _, _. split; [left|]. split_and!; vm_compute; reflexivity.
Defined.

(** ** Instances *)

Definition i1 : model_Instance :=
  mkInstance "i1" "id1" "vpc" "10.0.0.1" 8080 "grpc" "v1" true false 100 true "set" "r" "z" "c" 0 "rev"
    (Some (1, 5)) (Some {["k" := "v"]}%string) true.

Definition i2 : model_Instance :=
  mkInstance "i1" "id1" "vpc" "10.0.0.1" 8080 "http" "v2" true true 50 true "set" "r" "z" "c" 0 "rev2"
    None (Some ∅) true.

Definition ci : conn database := Eval vm_compute in snd (AddInstance i1 c1).

Lemma AddInstance_witness :
  fst (AddInstance i1 c1) = Ok tt /\ exists now, stored now i1 (committed c1) (committed ci).
Proof.
  split; [vm_compute; reflexivity|].
  refine (proj1 (proj2 (AddInstance_correct i1 c1 (fst (AddInstance i1 c1)) ci (surjective_pairing _))) _).
  vm_compute. reflexivity.
Defined.

(** Deleted and registered again under its id, without a health check and
    without metadata: both come back. *)
Definition i1_again : model_Instance :=
  mkInstance "i1" "id1" "vpc" "10.0.0.2" 8081 "grpc" "v2" true false 100 false "set" "r" "z" "c" 0 "rev2"
    None None true.
Definition ci_deleted : conn database := Eval vm_compute in snd (DeleteInstance "i1" ci).
Definition ci_again : conn database := Eval vm_compute in snd (AddInstance i1_again ci_deleted).

Lemma AddInstance_GetInstance_witness : exists now, fst (GetInstance "i1" ci_again) = Ok (Some (set_Metadata
  (Some {["k" := "v"]}%string) (Store2Instance (store_of i1_again (Some (HealthCheckRow "i1" 1 5)) now)))).
Proof.
  destruct (AddInstance_GetInstance i1_again ci_deleted ci_again calm_reliable) as (now & Hg);
    [vm_compute; reflexivity|]. exists now. etrans; [exact Hg|]. vm_compute. reflexivity.
Defined.

Lemma UpdateInstance_witness :
  fst (UpdateInstance i2 ci) = Ok tt /\
  exists mtime now, Instances.updated mtime now i2 (committed ci) (committed (snd (UpdateInstance i2 ci))).
Proof.
  split; [vm_compute; reflexivity|].
  pose (out := UpdateInstance i2 ci).
  refine (proj1 (proj2 (UpdateInstance_correct i2 ci (fst out) (snd out) (surjective_pairing _))) _).
  vm_compute. reflexivity.
Defined.

Lemma ReAddInstance_witness :
  fst (AddInstance i1 (snd (DeleteInstance "i1" ci))) <> Ok tt.
Proof.
  pose (del := DeleteInstance "i1" ci). pose (out := AddInstance i1 (snd del)).
  refine (proj1 (ReAddInstance_fails i1 i1 c1 ci (fst del) (snd del) (fst out) (snd out) _ _
    (surjective_pairing _) eq_refl _ (surjective_pairing _))).
  - vm_compute. reflexivity.
  - discriminate.
  - discriminate.
Defined.

Lemma ci_wf : db_wf (committed ci).
Proof. vm_compute. split_and!; reflexivity. Defined.

Lemma BatchDeleteInstances_witness :
  fst (BatchDeleteInstances ["i1"; "i9"]%string ci) = Ok tt /\
  map ins_flag (t_instance (committed (snd (BatchDeleteInstances ["i1"; "i9"]%string ci)))) = [1].
Proof.
  split; [|vm_compute; reflexivity].
  pose (out := BatchDeleteInstances ["i1"; "i9"]%string ci).
  refine (proj2 (proj2 (proj2 (BatchDeleteInstances_correct ["i1"; "i9"]%string ci (fst out) (snd out)
    (surjective_pairing _)))) calm_reliable ci_wf).
Defined.

(** A transaction the caller has open on [ci]. *)
Definition opened (c : conn database) : conn database := snd (Begin c).

Lemma GetMoreInstances_witness :
  exists m x, fst (GetMoreInstances 0 true false [] (opened ci)) = Ok m /\ m !! "i1"%string = Some x.
Proof.
  destruct (GetMoreInstances 0 true false [] (opened ci)) as [[m|e|w] c'] eqn:E;
    [|apply (f_equal (fun p => is_Ok (fst p))) in E; vm_compute in E; discriminate..].
  exists m. eexists. split; [reflexivity|].
  apply (GetMoreInstances_main 0 true [] (opened ci) m c' eq_refl ci_wf E).
  eexists _, _, _. split; [left|]. split_and!; vm_compute; reflexivity.
Defined.

Lemma GetMoreInstances_incremental_witness :
  fst (GetMoreInstances 0 false true [] (synced c1)) = Ok ∅ /\
  keep (Instances.more_where 0 false []) (t_instance (committed c1)) = [].
Proof.
  split; [vm_compute; reflexivity|].
  pose (out := GetMoreInstances 0 false true [] (synced c1)).
  refine (proj2 (GetMoreInstances_incremental 0 [] (synced c1) ∅ (snd out) _)).
  vm_compute. reflexivity.
Defined.

Definition deleted_instance : conn database := Eval vm_compute in snd (DeleteInstance "i1" ci).

Lemma BatchCleanDeletedInstances_witness :
  replica (snd (BatchCleanDeletedInstances 0 10 deleted_instance)) = empty_database.
Proof.
  pose (out := BatchCleanDeletedInstances 0 10 deleted_instance).
  refine (proj1 (BatchCleanDeletedInstances_one 0 10 deleted_instance (fst out) (snd out)
    (surjective_pairing _))).
Defined.

(** ** Configuration releases *)

Definition r1 : ConfigFileRelease :=
  mkConfigFileRelease 0 "v1" "ns" "g" "app.yaml" "a: 1" "" "md5" 0 0 "me" 0 "me" 0 true true
    {["author" := ""]}%string "first" "".
Definition r2 : ConfigFileRelease :=
  mkConfigFileRelease 0 "v2" "ns" "g" "app.yaml" "a: 2" "" "md5" 0 0 "me" 0 "me" 0 true true
    {["author" := ""]}%string "second" "".

Definition cr1 : conn database := Eval vm_compute in snd (CreateConfigFileReleaseTx (Some tt) r1 (opened c0)).
Definition cr2 : conn database := Eval vm_compute in snd (CreateConfigFileReleaseTx (Some tt) r2 (opened cr1)).

Lemma CreateConfigFileRelease_witness :
  fst (CreateConfigFileReleaseTx (Some tt) r2 (opened cr1)) = Ok tt /\
  created r2 (tx_now (opened cr1)) (work (opened cr1)) (committed cr2) /\
  map (fun r => (cfr_name r, cfr_version r, cfr_active r)) (t_config_file_release (committed cr2)) =
    [("v1", 1, 0); ("v2", 2, 1)]%string.
Proof.
  split; [vm_compute; reflexivity|]. split; [|vm_compute; reflexivity].
  pose (out := CreateConfigFileReleaseTx (Some tt) r2 (opened cr1)).
  refine (proj1 (proj2 (CreateConfigFileReleaseTx_correct r2 (opened cr1) (fst out) (snd out) eq_refl
    (surjective_pairing _))) _).
  vm_compute. reflexivity.
Defined.

Lemma release_reachable_witness : releases_ok (committed cr2).
Proof.
  apply release_reachable_ok.
  refine (release_step (OpCreate r2) (opened cr1) (fst (run_op (OpCreate r2) (opened cr1))) cr2 _
    eq_refl eq_refl (surjective_pairing _)).
  refine (release_step (OpCreate r1) (opened c0) (fst (run_op (OpCreate r1) (opened c0))) cr1 _
    eq_refl eq_refl (surjective_pairing _)).
  exact (release_start _ empty_wf eq_refl).
Defined.

Lemma Create_GetActiveRelease_witness :
  exists id v rel, fst (GetConfigFileActiveRelease (mkConfigFileKey "ns" "g" "app.yaml") cr1) = Ok (Some rel) /\
    Id rel = id /\ ConfigRelease.Version rel = v /\ Content rel = "a: 1"%string.
Proof.
  destruct (Create_GetActiveRelease r1 (opened c0) cr1) as (id & v & Hg).
  - exact calm_reliable.
  - reflexivity.
  - vm_compute. split; [discriminate|reflexivity].
  - vm_compute. reflexivity.
  - reflexivity.
  - vm_compute. reflexivity.
  - exists id, v. eexists. split; [exact Hg|]. done.
Defined.

Lemma ActiveConfigFileRelease_witness :
  fst (ActiveConfigFileReleaseTx (Some tt) r1 (opened cr2)) = Ok tt /\
  activated r1 (tx_now (opened cr2)) (work (opened cr2))
    (committed (snd (ActiveConfigFileReleaseTx (Some tt) r1 (opened cr2)))).
Proof.
  split; [vm_compute; reflexivity|].
  pose (out := ActiveConfigFileReleaseTx (Some tt) r1 (opened cr2)).
  refine (proj1 (proj2 (ActiveConfigFileReleaseTx_correct r1 (opened cr2) (fst out) (snd out) eq_refl
    (surjective_pairing _))) _).
  vm_compute. reflexivity.
Defined.

Lemma CleanDeletedConfigFileRelease_witness :
  fst (CleanDeletedConfigFileRelease 10 5 cr2) = Ok tt.
Proof.
  pose (out := CleanDeletedConfigFileRelease 10 5 cr2).
  refine (proj1 (proj2 (proj2 (CleanDeletedConfigFileRelease_correct 10 5 cr2 (fst out) (snd out)
    (surjective_pairing _))) calm_reliable _)).
  vm_compute. split; [discriminate|reflexivity].
Defined.

Definition g1 : GrayResource := mkGrayResource "app@v1" "rule" 0 0 "me" "me" true.
Definition cg : conn database := Eval vm_compute in snd (CreateGrayResourceTx (Some tt) g1 (opened c0)).
Definition cg' : conn database := Eval vm_compute in snd (CleanGrayResource (Some tt) g1 (opened cg)).

(** Created, cleaned and created again, the resource is still marked deleted. *)
Lemma CreateGrayResource_witness :
  exists new, new ∈ grays "app@v1" (committed (snd (CreateGrayResourceTx (Some tt) g1 (opened cg')))) /\
    gry_match_rule new = "rule"%string /\ gry_flag new = Some 1.
Proof.
  pose (out := CreateGrayResourceTx (Some tt) g1 (opened cg')).
  destruct (CreateGrayResourceTx_correct g1 (opened cg') (fst out) (snd out) eq_refl (surjective_pairing _))
    as (_ & _ & _ & Hk).
  eapply Hk.
  - vm_compute. reflexivity.
  - left.
  - vm_compute. reflexivity.
Defined.

(** ** Namespaces *)

Definition n1 : Namespace.Namespace := Namespace.mkNamespace "ns" "a comment" "tok" "polaris" ∅ true 0 0.

Definition cn : conn database := Eval vm_compute in snd (AddNamespace n1 c0).

Lemma AddNamespace_witness :
  exists now, Namespace.named "ns" (committed cn) = [new_namespace_row now n1].
Proof.
  assert (AddNamespace n1 c0 = (Ok tt, cn)) as E by (vm_compute; reflexivity).
  exact (proj2 (proj1 (proj2 (proj2 (AddNamespace_correct n1 c0 (Ok tt) cn E))) eq_refl)).
Defined.

Lemma AddNamespace_GetNamespace_witness :
  exists now, fst (GetNamespace "ns" cn) =
    Ok (Some (Namespace.mkNamespace "ns" "a comment" "tok" "polaris" ∅ true now now)).
Proof.
  assert (AddNamespace n1 c0 = (Ok tt, cn)) as E by (vm_compute; reflexivity).
  refine (AddNamespace_GetNamespace n1 c0 cn calm_reliable _ E). vm_compute. reflexivity.
Defined.

Definition page1 : res (list Namespace.Namespace * Z) * conn database :=
  Eval vm_compute in GetNamespaces [("name", ["n*"])]%string 0 10 cn.

Lemma GetNamespaces_witness :
  exists out num, fst page1 = Ok (out, num) /\ num = 1 /\ Z.of_nat (length out) <= 10.
Proof.
  assert (GetNamespaces [("name", ["n*"])]%string 0 10 cn = page1) as E by (vm_compute; reflexivity).
  unfold page1 in *. eexists _, _. split; [reflexivity|]. split; [reflexivity|].
  exact (proj2 (proj2 (proj2 (proj2 (proj2 (GetNamespaces_correct _ _ _ _ _ _ _ E)))))).
Defined.

(** Two metadata entries are accepted, and no [host]. *)
Definition where_sql : sql * list arg :=
  genWhereSQLAndArgs [T "select 1"] [("name", "svc"); ("managed", "true")]%string
    [("k", "v"); ("l", "w")]%string (Some (mkOrder "mtime" "desc")) 0 10.

Lemma genWhereSQLAndArgs_witness : params_ok (fst where_sql) (length (snd where_sql)) = true.
Proof.
  refine (proj2 (genWhereSQLAndArgs_accepted [T "select 1"] [("name", "svc"); ("managed", "true")]%string
    [("k", "v"); ("l", "w")]%string (Some (mkOrder "mtime" "desc")) 0 10 eq_refl _) _).
  - apply (bool_decide_unpack _). vm_compute. exact I.
  - split; [|by right]. apply (bool_decide_unpack _). vm_compute. exact I.
Defined.

(** ** Transactions of the caller *)

Definition ct : conn database := Eval vm_compute in snd (CreateTransaction c1).

Definition methods1 : list method :=
  [MRLockService "svc" "default"; MDeleteService "svc" "default"; MCommit]%string.

Lemma transaction_all_or_nothing_witness :
  exists t c, run methods1 (mkTransaction false false) ct = (t, c) /\ commit t = true /\
    map svc_flag (t_service (committed c)) = [1] /\
    committed c = meant_all (tx_now ct) [MRLockService "svc" "default"; MDeleteService "svc" "default"]%string
      (committed c1).
Proof.
  assert (CreateTransaction c1 = (Ok (mkTransaction false false), ct)) as E by (vm_compute; reflexivity).
  pose (out := run methods1 (mkTransaction false false) ct).
  exists (fst out), (snd out). split; [apply surjective_pairing|].
  split; [vm_compute; reflexivity|]. split; [vm_compute; reflexivity|].
  refine (proj2 (proj2 (transaction_all_or_nothing methods1 c1 _ ct (fst out) (snd out) E (surjective_pairing _)))
    [MRLockService "svc" "default"; MDeleteService "svc" "default"]%string [] eq_refl eq_refl _ _);
    vm_compute; reflexivity.
Defined.

(** The connection is lost while [DeleteAliasWithSourceID] executes its
    statement; it clears the failure flag, and the commit that follows fails
    all the same. *)
Definition alias_lost : Env :=
  faulty (fun k => if Nat.eqb k 2 then Some (FailBefore (EDriver "driver: bad connection")) else None).

Definition t0 : transaction := mkTransaction false false.

Definition alias_step : res unit * transaction * conn database :=
  Eval vm_compute in @step alias_lost plain_api (MDeleteAliasWithSourceID "id1") t0 (opened c0).

Definition methods2 : list method := [MDeleteService "svc" "default"; MCommit]%string.

Lemma transaction_error_witness :
  fst (fst alias_step) = Err (EDriver "driver: bad connection") /\ failed (snd (fst alias_step)) = false /\
  committed (snd (@run alias_lost plain_api methods2 (snd (fst alias_step)) (snd alias_step))) = empty_database.
Proof.
  split; [reflexivity|]. split; [reflexivity|].
  pose (out := @run alias_lost plain_api methods2 (snd (fst alias_step)) (snd alias_step)).
  refine (@transaction_error_is_final alias_lost plain_api (MDeleteAliasWithSourceID "id1") t0 (opened c0) _
    (snd (fst alias_step)) (snd alias_step) methods2 (fst out) (snd out) eq_refl eq_refl eq_refl _ eq_refl
    (surjective_pairing _)).
  vm_compute. reflexivity.
Defined.

(** ** Leader election *)

Definition ce : conn database := Eval vm_compute in snd (pg_CreateLeaderElection "job" c0).

Lemma ce_wf : db_wf (committed ce).
Proof. vm_compute. split_and!; reflexivity. Defined.

(** Two servers swap the same version; the second loses. *)
Definition swap_a : res bool * conn database := Eval vm_compute in pg_CompareAndSwapVersion "job" 0 1 "a" ce.
Definition swap_b : res bool * conn database :=
  Eval vm_compute in pg_CompareAndSwapVersion "job" 0 1 "b" (snd swap_a).

Lemma one_winner_witness :
  exists s, snd s = [(1, "a"%string)] /\ election (fst s) "job" = Some (1, "a"%string) /\
    StronglySorted Z.gt (map fst (snd s)).
Proof.
  assert (pg_CompareAndSwapVersion "job" 0 1 "a" ce = swap_a) as Ea by (vm_compute; reflexivity).
  assert (pg_CompareAndSwapVersion "job" 0 1 "b" (snd swap_a) = swap_b) as Eb by (vm_compute; reflexivity).
  exists (committed (snd swap_b), [(1, "a"%string)]). split; [reflexivity|]. split; [reflexivity|].
  refine (proj1 (one_winner_per_version "job" (committed ce) _ ce_wf _)).
  refine (rtc_l _ _ (committed (snd swap_a), [(1, "a"%string)]) _ _ (rtc_once _ _ _)).
  - exact (election_swap "job" ce (fst swap_a) (snd swap_a) 0 "a" [] Ea).
  - exact (election_swap "job" (snd swap_a) (fst swap_b) (snd swap_b) 0 "b" [(1, "a"%string)] Eb).
Defined.

(** The lease appears expired when the row is far in the future of the server. *)
Definition late : conn database :=
  Conn (set_tbl [LeaderElectionRow "job" 7 "other" 0 900000000] empty_database) empty_database empty_database
    TxDone 0 0 0.

Definition ticked : leaderElectionStateMachine * conn database :=
  Eval vm_compute in tick (changeToFollower "" (new_machine "job")) late.

Lemma tick_leader_witness :
  isLeader (fst ticked) = true /\ exists v, election (committed (snd ticked)) "job" = Some (v, "127.0.0.1"%string).
Proof.
  assert (tick (changeToFollower "" (new_machine "job")) late = ticked) as E by (vm_compute; reflexivity).
  split; [reflexivity|].
  refine (tick_leader_recorded (changeToFollower "" (new_machine "job")) late (fst ticked) (snd ticked) _
    eq_refl E eq_refl).
  vm_compute. split_and!; reflexivity.
Defined.

Lemma release_abstains_witness :
  let '(le', c') := ticks 16 (setReleaseSignal (fst ticked)) (snd ticked) in
  c' = snd ticked /\ isLeader le' = false.
Proof.
  pose proof (release_abstains (fst ticked) (snd ticked) 15 eq_refl eq_refl ltac:(lia)) as Hx.
  destruct (ticks 16 (setReleaseSignal (fst ticked)) (snd ticked)) as [le' c']. split; apply Hx.
Defined.

Definition hundred_ticks : leaderElectionStateMachine * conn database :=
  ticks 100 (changeToFollower "" (new_machine "job")) ce.

Lemma never_elected_witness :
  isLeader (fst hundred_ticks) = false /\ committed (snd hundred_ticks) = committed ce.
Proof.
  assert (pg_CreateLeaderElection "job" c0 = (Ok tt, ce)) as E by (vm_compute; reflexivity).
  refine (never_elected "job" c0 ce 100 (fst hundred_ticks) (snd hundred_ticks) _ _ _ E (surjective_pairing _)).
  - intros j k Hjk. unfold utc, calm. lia.
  - unfold session_tz, calm. lia.
  - discriminate.
Defined.

(** ** The store object *)

Definition settings : gmap string scalar :=
  list_to_map [("dbType", VStr "postgres"); ("dbUser", VStr "u"); ("dbPwd", VInt 5); ("dbAddr", VStr "h");
    ("dbPort", VInt 5432); ("dbName", VStr "polaris"); ("maxOpenConns", VInt 30); ("maxIdleConns", VInt (-1))]%string.

Lemma parseStoreConfig_witness :
  parseStoreConfig needCheckFields (EMap settings) =
    Ok (mkDbConfig "postgres" "u" "5" "h" "5432" "polaris" 30 0 1800) /\
  exists k, k ∈ needCheckFields /\ parseStoreConfig needCheckFields (EMap (delete "dbPwd"%string settings)) =
    Err (missing_field k).
Proof.
  split.
  - refine (eq_trans (proj1 (parseStoreConfig_correct needCheckFields settings (reflexivity _)) _) _);
      [|vm_compute; reflexivity].
    intros k Hk. unfold needCheckFields in Hk.
    repeat (apply elem_of_cons in Hk as [->|Hk]; [eexists; vm_compute; reflexivity|]). by apply elem_of_nil in Hk.
  - destruct (proj2 (parseStoreConfig_correct needCheckFields (delete "dbPwd"%string settings) (reflexivity _)))
      as (k & Hk & _ & He).
    + exists "dbPwd"%string. split; [do 2 right; left|vm_compute; reflexivity].
    + exists k. done.
Defined.

Definition all_open : nat -> string -> string -> open_outcome := fun _ _ _ => Opens.
Definition options : gmap string entry :=
  list_to_map [("master", EMap settings); ("slave", EMap settings)]%string.
Definition no_handles : handles := mkHandles 0 [].
Definition store1 : res unit * PostgresqlStore * handles :=
  Eval vm_compute in Initialize all_open None needCheckFields options new_store no_handles.

Lemma Initialize_Destroy_witness :
  live (snd store1) = [1; 0]%nat /\
  start (snd (fst store1)) = true /\ live (snd (Destroy (snd (fst store1)) (snd store1))) = [].
Proof.
  split; [reflexivity|].
  assert (Initialize all_open None needCheckFields options new_store no_handles =
    (Ok tt, snd (fst store1), snd store1)) as E by (vm_compute; reflexivity).
  pose (out := Destroy (snd (fst store1)) (snd store1)).
  assert (numbered no_handles) as Hn by apply list.Forall_nil_2.
  destruct (Initialize_Destroy all_open None needCheckFields options no_handles (snd (fst store1)) (snd store1)
    (snd (fst out)) (snd out) Hn E eq_refl) as (Hs & _ & _ & _ & _ & _ & Hl).
  split; [exact Hs|exact Hl].
Defined.
