(* ===== verification/ExamplesRules.v ===== *)
(** * Concrete runs of the rule, file, client and account stores

    The theorems of the files after Gray applied to concrete inputs, in the
    environment of Examples. *)
From stdpp Require Import base list strings gmap relations sorting.
From Stdlib Require Import ZArith Lia.
From S2P Require Import Prelude Driver Rows Schema Sql Common Where RuleFilter FaultDetect Store L5 CircuitBreaker.
From S2P Require Import RateLimit RoutingV2 Routing Client ServiceContract Strategy User Group ConfigFile.
From S2P Require Import ConfigTemplate Types Examples.
Open Scope Z_scope.
Open Scope store_scope.

#[local] Existing Instances calm plain_api plain_range plain_uuid plain_strconv plain_pg_input plain_int.

(** ** L5 session ids *)

(** One row, about to carry. *)
Definition last_of_range : Z * Z * Z := (7, 4095, 65535).

Definition cl5 : conn database :=
  fresh (set_tbl [Cl5ModuleRow 7 4095 65535 0] empty_database).

Lemma cl5_wf : db_wf (committed cl5).
Proof. vm_compute. split_and!; reflexivity. Defined.

Lemma cl5_is : module_is last_of_range (committed cl5).
Proof. exists 0. reflexivity. Defined.

Lemma cl5_ok : module_ok last_of_range.
Proof. unfold module_ok, last_of_range. simpl. lia. Defined.

Lemma GenNextL5Sid_witness :
  fst (GenNextL5Sid 3 cl5) = Ok "515:65536"%string /\
  fst (GenNextL5Sid 3 cl5) = Ok (sid_text 3 (next_module last_of_range)).
Proof.
  split; [vm_compute; reflexivity|]. pose (out := GenNextL5Sid 3 cl5).
  refine (proj1 (proj2 (proj2 (proj2 (GenNextL5Sid_bounds 3 last_of_range cl5 (fst out) (snd out) _ cl5_wf cl5_is
    cl5_ok _ (surjective_pairing _))))) calm_reliable); [lia|].
  unfold position, last_position, last_of_range. simpl. lia.
Defined.

Definition sids : list string := Eval vm_compute in
  match fst (gen_sids [3; 3; 4] cl5) with Ok l => l | _ => [] end.

Lemma gen_sids_witness : NoDup (keep (fun s => negb (str_empty s)) sids).
Proof.
  refine (gen_sids_distinct [3; 3; 4] last_of_range cl5 sids (snd (gen_sids [3; 3; 4] cl5)) _ cl5_wf cl5_is cl5_ok _ _).
  - repeat constructor; lia.
  - unfold position, last_position, last_of_range. simpl. lia.
  - vm_compute. reflexivity.
Defined.

(** ** Configuration files *)

Definition f1 : ConfigFile :=
  ConfigFile.mkConfigFile 0 "app.yaml" "ns" "g" "a: 1" "first" "yaml" 0 "ann" 0 "ann" {["env" := "prod"]}%string.

Definition cf1 : conn database := Eval vm_compute in snd (CreateConfigFileTx (Some tt) f1 (opened c0)).

Lemma CreateConfigFile_witness :
  file_created f1 (tx_now (opened c0)) (work (opened c0)) (committed cf1) /\
  length (t_config_file_tag (x_config (committed cf1))) = 1%nat.
Proof.
  split; [|reflexivity].
  assert (CreateConfigFileTx (Some tt) f1 (opened c0) = (Ok tt, cf1)) as E by (vm_compute; reflexivity).
  exact (proj1 (proj2 (CreateConfigFileTx_correct f1 (opened c0) (Ok tt) cf1 eq_refl E)) eq_refl).
Defined.

Lemma Create_GetConfigFile_witness :
  exists f, fst (GetConfigFile "ns" "g" "app.yaml" cf1) = Ok (Some f) /\
    ConfigFile.Content f = "a: 1"%string /\ ConfigFile.Metadata f = {["env" := "prod"]}%string.
Proof.
  eexists. split.
  - refine (Create_GetConfigFile f1 (opened c0) cf1 calm_reliable eq_refl _ _).
    + vm_compute. split; [discriminate|reflexivity].
    + vm_compute. reflexivity.
  - split; reflexivity.
Defined.

(** ** Fault detection rules *)

Definition fd1 : FaultDetectRule :=
  FaultDetect.mkFaultDetectRule "fd1" "ping" "default" "r1" "" "svc" "default" "*" "{}" true 0 0.
Definition fd2 : FaultDetectRule :=
  FaultDetect.mkFaultDetectRule "fd2" "http" "default" "r1" "" "web" "default" "*" "{}" true 0 0.

Definition cfd : conn database := Eval vm_compute in
  snd (CreateFaultDetectRule fd2 (snd (CreateFaultDetectRule fd1 c0))).

Definition fd_filter : gmap string string := {["dstService" := "sv"; "brief" := "True"]}%string.

Lemma GetFaultDetectRules_witness : exists r c', GetFaultDetectRules fd_filter 0 10 cfd = (Ok (1, [r]), c') /\
  FaultDetect.ID r = "fd1"%string /\ FaultDetect.Rule r = ""%string.
Proof.
  pose (out := GetFaultDetectRules fd_filter 0 10 cfd).
  destruct (GetFaultDetectRules_correct fd_filter 0 10 cfd (fst out) (snd out) (surjective_pairing _)) as (_ & _ & Hok).
  assert (exists l, fd_wanted fd_filter (committed cfd) = Ok l /\ map fd_id l = ["fd1"]%string) as (l & Hl & Hid).
  { eexists. split; [vm_compute; reflexivity|]. reflexivity. }
  specialize (Hok calm_reliable l Hl (or_introl eq_refl)). vm_compute in Hl. injection Hl as <-.
  exists (brief_of (hd (new_fault_detect_row fd1 0) (tbl (committed cfd)))), (snd out). split; [|by split].
  rewrite (surjective_pairing out) at 1. by rewrite Hok.
Defined.

(** ** Routing rules *)

Definition rv1 : RouterConfig :=
  RoutingV2.mkRouterConfig "rv1" "default" "canary" "RulePolicy" "{}" true 1 "r1" "" true 0 0 0.

Definition crv : conn database := Eval vm_compute in snd (CreateRoutingConfigV2 rv1 c0).

Lemma CreateRoutingConfigV2_witness :
  exists now, rv_created rv1 now (committed c0) (committed crv).
Proof.
  assert (CreateRoutingConfigV2 rv1 c0 = (Ok tt, crv)) as E by (vm_compute; reflexivity).
  exact (proj1 (proj2 (proj2 (CreateRoutingConfigV2_correct rv1 c0 (Ok tt) crv empty_wf E))) eq_refl).
Defined.

(** ** Clients *)

Definition plain_client : ClientApi :=
  {| Store2Client := fun s => Client.mkClient (st_ID s) (st_Host s) (st_Type s) (st_Version s) (st_Region s)
       (st_Zone s) (st_Campus s) []; Store2ClientStat := fun s => s |}.
#[local] Existing Instance plain_client.

Definition cli1 : Client :=
  Client.mkClient "cl1" "10.0.0.1" "SDK" "v1" "r" "z" "c" [mkStatInfo "prometheus" 9090 "http" "/metrics"].

Definition ccl : conn database := Eval vm_compute in snd (BatchAddClients [cli1] c0).

Lemma BatchAddClients_witness :
  clients_added [cli1] (committed c0) (committed ccl) /\ is_Ok (fst (BatchAddClients [cli1] ccl)) = false.
Proof.
  split.
  - assert (BatchAddClients [cli1] c0 = (Ok tt, ccl)) as E by (vm_compute; reflexivity).
    exact (proj1 (proj2 (proj2 (BatchAddClients_correct [cli1] c0 (Ok tt) ccl empty_wf E))) eq_refl).
  - vm_compute. reflexivity.
Defined.

(** ** Strategies, groups, users *)

Definition plain_auth : AuthApi :=
  {| PrincipalUser := 1; PrincipalGroup := 2; MaxBatchSize := 100%nat; InvalidUserIDSlice := EmptyParamsErr;
     BuildDefaultStrategyName := fun _ name => ("default strategy of " +:+ name)%string; READ_WRITE := "READ_WRITE" |}.
#[local] Existing Instance plain_auth.

(** A live strategy bound to a user, a group with a member, an account with a
    sub-account. *)
Definition auth_db : database := Eval vm_compute in
  set_tbl [AuthStrategyRow "st1" "rules" "READ" "owner" "" 0 "" "r" 0 0 0]
  (set_tbl [AuthPrincipalRow "st1" "u2" 1]
  (set_tbl [UserGroupRow "g1" "team" "u1" "tok" "" 1 0 0 0]
  (set_tbl [UserGroupRelationRow "u2" "g1" 0 0]
  (set_tbl [UserRow "u1" "ann" "p" "" "polaris" "" "" "t" 1 20 "" 0 0 5; UserRow "u2" "bob" "p" "u1" "polaris" "" "" "t" 1 50 "" 0 0 3]
    empty_database)))).

Definition ca : conn database := fresh auth_db.

Lemma ca_wf : db_wf (committed ca).
Proof. vm_compute. split_and!; reflexivity. Defined.

Definition res1 : StrategyResource := mkStrategyResource "st1" 1 "svc1".

Definition mod1 : ModifyStrategyDetail :=
  mkModifyStrategyDetail "st1" "READ_WRITE" "wider" [] [mkPrincipal "u2" 1] [res1] [].

Lemma UpdateStrategy_witness :
  exists t, committed (snd (UpdateStrategy mod1 ca)) = strategy_updated mod1 t auth_db.
Proof.
  pose (out := UpdateStrategy mod1 ca).
  destruct (UpdateStrategy_correct mod1 ca (fst out) (snd out) ca_wf (surjective_pairing _)) as (_ & Hok & _).
  apply Hok. vm_compute. reflexivity.
Defined.

Definition cas : conn database := Eval vm_compute in snd (LooseAddStrategyResources [res1] ca).

Lemma LooseAdd_GetStrategyResources_witness :
  exists out, fst (GetStrategyResources "u2" 1 cas) = Ok out /\ mkStrategyResource "" 1 "svc1" ∈ out.
Proof.
  refine (LooseAdd_GetStrategyResources [res1] res1 "u2" 1 ca cas calm_reliable _ _ _ _).
  - reflexivity.
  - vm_compute. reflexivity.
  - by left.
  - vm_compute. reflexivity.
Defined.

Definition modg : ModifyUserGroup := mkModifyUserGroup "g1" "tok2" false "closed" [] ["u2"%string].

Lemma UpdateGroup_witness :
  exists now, committed (snd (UpdateGroup modg ca)) = group_updated modg now auth_db.
Proof.
  pose (out := UpdateGroup modg ca).
  destruct (UpdateGroup_correct modg ca (fst out) (snd out) (surjective_pairing _)) as (_ & Hok & _).
  apply Hok. vm_compute. reflexivity.
Defined.

Lemma GetUsers_witness :
  exists a b, fst (GetUsers {["owner" := "u1"]}%string 0 10 ca) = Ok (2, [a; b]) /\
    User.Name a = "bob"%string /\ User.Name b = "ann"%string.
Proof.
  assert (exists l, where_rows user_cols
      (map (fun kv => user_entry kv.1 kv.2) (range_map (user_filters {["owner" := "u1"]}%string)))
      (sql_select (user_base (hides_admin {["owner" := "u1"]}%string)) (committed ca)) = Ok l /\
    map us_id l = ["u1"; "u2"]%string) as (l & Hl & Hid).
  { eexists. split; [vm_compute; reflexivity|reflexivity]. }
  pose proof (GetUsers_correct {["owner" := "u1"]}%string 0 10 ca l calm_reliable eq_refl Hl) as E.
  vm_compute in Hl. injection Hl as <-. eexists _, _. split; [exact E|]. split; reflexivity.
Defined.

(** ** Service contracts *)

Definition contract_db : database := Eval vm_compute in
  set_tbl [ServiceContractRow "k1" "" "default" "svc" "http" "v1" "r" (Some 0) (Some "{}"%string) 0 0]
  (set_tbl [ServiceContractDetailRow "d1" "k1" "" "default" "svc" "http" "v1" "GET" "/" (Some 1) (Some ""%string) "r" (Some 0) 0 0]
    empty_database).

Definition contract1 : ServiceContract :=
  ServiceContract.mkServiceContract "k1" "default" "" "svc" "http" "v1" "r" "{}" 0 0 true.

Lemma DeleteServiceContract_witness :
  fst (DeleteServiceContract contract1 (fresh contract_db)) = Ok tt /\
  exists now, contract_deleted "k1" now contract_db (committed (snd (DeleteServiceContract contract1 (fresh contract_db)))).
Proof.
  split; [vm_compute; reflexivity|].
  pose (out := DeleteServiceContract contract1 (fresh contract_db)).
  destruct (DeleteServiceContract_correct contract1 (fresh contract_db) (fst out) (snd out) (surjective_pairing _))
    as (_ & Hok & _).
  apply Hok. vm_compute. reflexivity.
Defined.

(** ** All rules *)

Definition cb1 : CircuitBreakerRule :=
  CircuitBreaker.mkCircuitBreakerRule "cb1" "errors" "default" true "r1" "" 1 "*" "*" "svc" "default" "*" "{}" true 0 0 0.

Definition rl1 : RateLimit :=
  RateLimit.mkRateLimit "rl1" "svc1" "limit" "*" "{}" 1 "{}" "r1" false true 0 0 0.
