(* ===== verification/ExamplesStore.v ===== *)
(** * Concrete runs of the whole package

    The theorems about arbitrary sequences of operations, at concrete ones. *)
From stdpp Require Import base list strings gmap.
From Stdlib Require Import ZArith Lia.
From S2P Require Import Prelude Driver Rows Schema Sql Common Timestamps Where RuleFilter Guards Operations.
From S2P Require Import Namespace Service Instances Transaction ConfigRelease CircuitBreaker RateLimit Strategy L5.
From S2P Require Import FaultDetect Invariant Types Sessions Pauses Frozen Cache RuleSpec Publish.
From S2P Require Examples ExamplesRules.
Open Scope Z_scope.
Open Scope store_scope.

#[local] Existing Instances calm plain_api plain_range plain_uuid plain_server plain_strconv plain_pg_input plain_int.
#[local] Existing Instances Examples.plain_types ExamplesRules.plain_auth.

Definition some_ops : list operation :=
  [OpAddService Examples.s1; OpAddInstance Examples.i1; OpUpdateInstance Examples.i2; OpDeleteInstance "i1";
   OpTransaction [MLockService "svc" "ns"; MCommit]; OpBegin; OpRelease (OpCreate Examples.r1);
   OpGenNextL5Sid 1].

Lemma empty_ok : db_ok empty_database.
Proof. split; [exact Examples.empty_wf|]. unfold db_typed, all_rows. split_and!; constructor. Defined.

Definition rule_ops : list operation :=
  [OpCreateFaultDetectRule ExamplesRules.fd1; OpCreateCircuitBreakerRule ExamplesRules.cb1;
   OpCreateRoutingConfigV2 ExamplesRules.rv1; OpAddNamespace Examples.n1; OpDeleteFaultDetectRule "fd1";
   OpUpdateRateLimit ExamplesRules.rl1].

Lemma fresh_dbs (d : database) : committed (fresh d) = d /\ replica (fresh d) = d.
Proof. by split. Defined.

Lemma rules_stay_readable_witness :
  length (t_circuitbreaker_rule_v2 (x_rule (committed (perform_each perform rule_ops (fresh empty_database))))) = 1%nat /\
  cache_reads_return 0 false (fresh (committed (perform_each perform rule_ops (fresh empty_database)))).
Proof.
  split; [vm_compute; reflexivity|].
  destruct (rules_stay_readable calm rule_ops (fresh empty_database) ltac:(done) empty_ok) as [_ Hr].
  exact (Hr calm 0 false (fresh (committed (perform_each perform rule_ops (fresh empty_database)))) calm_reliable
    (proj1 (fresh_dbs _)) (proj2 (fresh_dbs _))).
Defined.

(** ** Caches *)

(** The same store a day later. *)
Definition later : Env :=
  {| fault_at := fun k => if (k =? 2)%nat then Some (FailAfter (EMsg "driver: bad connection")) else None;
     utc := fun k => 100000000000 + 1000000 * Z.of_nat k; session_tz := 0 |}.

Lemma later_clock : Clock (H:=later) (Z.lt 90000000000) (formatted (Z.lt 90000000000)).
Proof.
  split; intros n; [simpl; lia|]. unfold formatted, GetCurrentTimeFormat, unix_seconds, GetLocation. simpl.
  pose proof (Z.div_le_mono 100000000000 (100000000000 + 1000000 * Z.of_nat n) 1000000 ltac:(lia) ltac:(lia)) as Hm.
  change (100000000000 / 1000000) with 100000 in Hm. lia.
Defined.

Definition loaded : conn database := Eval vm_compute in perform_each perform rule_ops (fresh empty_database).

Definition later_ops : list operation :=
  [OpCreateFaultDetectRule (FaultDetect.mkFaultDetectRule "fd2" "n" "ns" "r" "" "" "" "" "{}" true 0 0);
   OpDeleteCircuitBreakerRule "cb1"].

Definition changed_later : conn database := Eval vm_compute in perform_each (perform (H:=later)) later_ops loaded.

Lemma loaded_ok : db_ok (committed loaded).
Proof. exact (perform_each_ok rule_ops (fresh empty_database) ltac:(done) empty_ok). Defined.

Lemma caches_stay_in_sync_witness :
  length (t_fault_detect_rule (x_rule (committed changed_later))) = 2%nat /\
  in_sync (fun E' => GetFaultDetectRulesForCache) 0 90000000000 (committed loaded) (committed changed_later) /\
  in_sync (fun E' => GetCircuitBreakerRulesForCache) 0 90000000000 (committed loaded) (committed changed_later).
Proof.
  split; [reflexivity|].
  destruct (caches_stay_in_sync later 0 90000000000 later_ops loaded later_clock ltac:(lia) ltac:(done) loaded_ok)
    as (Hf & Hc & _).
  replace (committed (perform_each perform later_ops loaded)) with (committed changed_later) in Hf, Hc
    by (vm_compute; reflexivity).
  split; [exact Hf|exact Hc].
Defined.

Definition fd_deleted : conn database := Eval vm_compute in snd (DeleteFaultDetectRule "fd2" changed_later).

Lemma deleted_rule_stays_deleted_witness :
  fst (HasFaultDetectRule "fd2" (fresh (committed (perform_each perform rule_ops fd_deleted)))) = Ok false.
Proof.
  refine (proj1 (deleted_rule_stays_deleted calm "fd2" changed_later fd_deleted fd_deleted rule_ops ltac:(done) _ _ _
    eq_refl ltac:(done) calm (fresh (committed (perform_each perform rule_ops fd_deleted))) calm_reliable
    (proj1 (fresh_dbs _)))).
  - exact (proj1 (perform_each_ok (H:=later) later_ops loaded ltac:(done) loaded_ok)).
  - eexists. split; [right; left|reflexivity].
  - vm_compute. reflexivity.
Defined.

(** ** The registry *)

Definition fd_run : list fd_operation :=
  [FdCreate ExamplesRules.fd1; FdCreate ExamplesRules.fd1; FdUpdate ExamplesRules.fd1; FdDelete "fd1"].

(** A live rule is not replaced, a deleted one is. *)
Definition rv_run : list rv_operation :=
  [RvCreate ExamplesRules.rv1; RvCreate ExamplesRules.rv1; RvDelete (RoutingV2.ID ExamplesRules.rv1);
   RvCreate ExamplesRules.rv1].

Lemma stores_refine_registry_witness :
  map is_Ok (fst (run_rules fd_run (fresh empty_database))) = [true; false; true; true] /\
  map is_Ok (fst (run_rules rv_run (fresh empty_database))) = [true; false; true; true] /\
  spec_run (zip (map meaning fd_run) (fst (run_rules fd_run (fresh empty_database)))) ∅
    (registry_of (R:=fault_detect_rule_row) (committed (snd (run_rules fd_run (fresh empty_database))))) /\
  spec_run (zip (map meaning rv_run) (fst (run_rules rv_run (fresh empty_database)))) ∅
    (registry_of (R:=routing_config_v2_row) (committed (snd (run_rules rv_run (fresh empty_database))))).
Proof.
  split; [vm_compute; reflexivity|]. split; [vm_compute; reflexivity|].
  destruct (stores_refine_registry (fresh empty_database) Examples.empty_wf) as (Hf & _ & _ & Hv & _).
  split; [exact (proj1 (Hf fd_run _ _ (surjective_pairing _)))|].
  exact (Hv rv_run _ _ (surjective_pairing _)).
Defined.

(** ** Services made again *)

Definition s3 : Service.Service :=
  Service.mkService "id3" "svc" "default" "biz" "80" None "hello" "dep" "m1" "m2" "m3" "tok" "polaris" "rev"
    "" "" "" true 0 0.

(** A service deleted and made again under its name between two reads of the
    cache: the row marked deleted is gone, and no later read, from whatever
    time, tells that the old id is no longer valid. *)
Definition made_again : conn database :=
  Eval vm_compute in perform_each perform [OpDeleteService "id1" "svc" "default"; OpAddService s3] Examples.c1.

Example service_deletion_missed :
  (exists m x, fst (Service.GetMoreServices 0 true false false (Examples.synced Examples.c1)) = Ok m /\
     m !! "id1"%string = Some x /\ Service.Valid x = true) /\
  exists m x, fst (Service.GetMoreServices 0 false false false (Examples.synced made_again)) = Ok m /\
    m !! "id1"%string = None /\ m !! "id3"%string = Some x.
Proof. split; (eexists _, _; split; [vm_compute; reflexivity|split; vm_compute; reflexivity]). Qed.

(** ** Publishing *)



(** ** What is never added *)

Definition us1 : User.User :=
  User.mkUser "u1" "alice" "pw" "" "Polaris" 20 "tok" true true "" 0 0 "" "".

Lemma package_adds_nothing_witness :
  frozen user_row (committed loaded) (committed (perform_each perform (OpAddUser us1 :: some_ops) loaded)).
Proof.
  exact (users_frozen _ _ (package_adds_nothing (OpAddUser us1 :: some_ops) loaded ltac:(done))).
Defined.

(** ** Timestamps *)

(** 2024-02-29 12:34:56.789 in UTC. *)
Lemma TimestampToInt64_witness :
  GetCurrentTimeFormat_text 1709210096789000 = "2024-02-29 20:34:56"%string /\
  TimestampToInt64 (timestamp_text 1709210096789000) = 1709210096 /\
  TimestampToInt64 (GetCurrentTimeFormat_text 1709210096789000) = 1709238896.
Proof.
  split; [vm_compute; reflexivity|].
  exact (TimestampToInt64_reads 1709210096789000 1709210096789000 ltac:(vm_compute; split; discriminate)
    ltac:(vm_compute; split; discriminate)).
Defined.

(** ** Sessions *)

(** The server goes away at the third Prepare of a deletion. *)
Definition prepare_fails : Env :=
  {| fault_at := fun k => if (k =? 5)%nat then Some (FailBefore (EMsg "broken pipe")) else None;
     utc := fun k => Z.of_nat k; session_tz := 0 |}.

Lemma settled_digits s acc : Settled (digits acc s).
Proof. revert acc. induction s as [|c s IH]; intros acc w; [done|]. simpl. repeat case_match; [done|apply IH|done]. Qed.

Lemma plain_outside_returns : OutsideReturns.
Proof.
  split; intros s w; [|done| |done]; simpl.
  - unfold plain_ParseFloat. case_match; [done|apply settled_digits].
  - unfold plain_pg_int. repeat case_match; try done; first [apply settled_digits|apply settled_map, settled_digits].
Qed.

Definition own_ops : list operation := [OpDeleteStrategy "st1"; OpAddNamespace Examples.n1; OpDeleteFaultDetectRule "fd1"].

Lemma operations_end_witness :
  (exists w, fst (perform (H:=prepare_fails) (OpDeleteStrategy "st1") (fresh empty_database)) = Panic w) /\
  txst (perform_each (perform (H:=prepare_fails)) own_ops (fresh empty_database)) <> TxOpen /\
  forall c w, fst (perform (H:=prepare_fails) (OpAddNamespace Examples.n1) c) <> Panic w.
Proof.
  split; [eexists; vm_compute; reflexivity|]. pose proof plain_outside_returns.
  destruct (operations_end (H:=prepare_fails) own_ops (fresh empty_database)
    ltac:(repeat constructor) ltac:(done)) as [Ht Hp].
  split; [exact Ht|]. intros c w. apply (Hp (OpAddNamespace Examples.n1) c w); [right; left|reflexivity].
Defined.

(** ** Pauses *)

(** On a lost connection the retry of the begin is nested in that of the
    transaction: four hundred begins and 22 seconds. *)
Definition dead : Env :=
  {| fault_at := fun _ => Some (FailBefore (EMsg "driver: bad connection")); utc := fun k => Z.of_nat k; session_tz := 0 |}.

Example dead_connection_pause :
  let c' := snd (perform (H:=dead) (OpAddService Examples.s1) (fresh empty_database)) in
  calls c' = 400%nat /\ slept c' = 22050 /\ slept c' <= longest_pause.
Proof. split_and!; vm_compute; [reflexivity..|discriminate]. Qed.
