(* ===== verification/ExamplesConcurrent.v ===== *)
(** * Concrete schedules

    The theorems about overlapping transactions, at runs of two publishers. *)
From stdpp Require Import base list strings relations gmap.
From Stdlib Require Import ZArith Lia.
From S2P Require Import Prelude Driver Rows Schema Common ConfigFile ConfigRelease.
From S2P Require Import ReadCommitted LockDiscipline SessionAlone Publishers Serial ReleaseTurns Progress.
From S2P Require Examples.
Open Scope Z_scope.

#[local] Existing Instances calm plain_api plain_strconv.
#[local] Existing Instance Examples.plain_types.

(** Two publications of one file under its lock: the second waits for the
    first to commit, then deactivates what it published. *)
Definition one_after_the_other : list (action unit) :=
  [Open_ 10 (locked_creation (release_named "v1")); Open_ 20 (locked_creation (release_named "v2"));
   Next 0; Next 1; Visit 0 0; Next 0; Next 0; Next 0; Next 0; Next 0; Next 0; Next 0; Next 0; Next 0; Next 0; Next 0;
   Visit 1 0; Next 1; Next 1; Next 1; Next 1; Next 1; Next 1; Visit 1 1; Next 1; Next 1; Next 1; Next 1; Next 1]%nat.

(** The second cannot visit the row of the file before the first has ended. *)
Example second_waits :
  run [Open_ 10 (locked_creation (release_named "v1")); Open_ 20 (locked_creation (release_named "v2"));
       Next 0; Next 1; Visit 0 0; Visit 1 0]%nat (at_rest [RFile shared_file] 2 1) = None.
Proof. vm_compute. reflexivity. Qed.

Lemma published_reachable : exists σ, reachable well_behaved [RFile shared_file] σ /\
  map outcome (sessions σ) = [Some (Some tt); Some (Some tt)] /\
  map (fun r => (cfr_name r, cfr_active r, cfr_version r)) (omap release_of (committed_rows (heap σ))) =
    [("v1", 0, 1); ("v2", 1, 2)]%string.
Proof.
  destruct (run_observe (fun σ => (map outcome (sessions σ),
    map (fun r => (cfr_name r, cfr_active r, cfr_version r)) (omap release_of (committed_rows (heap σ)))))
    one_after_the_other (at_rest [RFile shared_file] 2 1)
    ([Some (Some tt); Some (Some tt)], [("v1", 0, 1); ("v2", 1, 2)]%string)) as (σ & Hr & [= E1 E2]); [by vm_compute|].
  exists σ. split; [|exact (conj E1 E2)]. split; [done|]. exists 2, 1. eapply run_reaches; [exact Hr|].
  repeat (apply List.Forall_cons; [first [exact I | apply locked_create]|]). apply List.Forall_nil.
Defined.

Lemma locked_publishers_witness : exists σ, reachable well_behaved [RFile shared_file] σ /\
  map outcome (sessions σ) = [Some (Some tt); Some (Some tt)] /\
  forall ns g f t, (active_releases ns g f t (committed_rows (heap σ)) <= 1)%nat.
Proof.
  destruct published_reachable as (σ & Hr & Ho & _). exists σ. split; [exact Hr|]. split; [exact Ho|].
  exact (locked_publishers_one_active [RFile shared_file] σ Hr (fun ns g f t => Nat.le_0_l 1)).
Defined.

Lemma committed_rows_witness : exists σ, reachable well_behaved [RFile shared_file] σ /\
  map outcome (sessions σ) = [Some (Some tt); Some (Some tt)] /\
  distinct row_clash (committed_rows (heap σ)) = true.
Proof.
  destruct published_reachable as (σ & Hr & Ho & _). exists σ. split; [exact Hr|]. split; [exact Ho|].
  exact (committed_rows_distinct well_behaved [RFile shared_file] σ Hr).
Defined.

Lemma operation_alone_witness : exists l σ,
  run (Open_ (tx_now (Examples.opened Examples.c0)) (body_of (OpCreate Examples.r1)) :: l)
    (system_of (committed (Examples.opened Examples.c0))) = Some σ /\
  map outcome (sessions σ) = [Some (Some tt)].
Proof.
  pose (out := run_op (OpCreate Examples.r1) (Examples.opened Examples.c0)).
  destruct (operation_alone (OpCreate Examples.r1) (Examples.opened Examples.c0) (snd out) Examples.empty_wf
    eq_refl eq_refl) as (l & σ & _ & Hrun & Ho & _).
  { vm_compute. reflexivity. }
  exists l, σ. exact (conj Hrun Ho).
Defined.

(** The two publications took turns, and the second had its turn on what the
    first left. *)
Lemma locked_operations_witness : exists σ turns,
  run one_after_the_other (at_rest [RFile shared_file] 2 1) = Some σ /\
  map (fun r => (cfr_name r, cfr_active r, cfr_version r)) (omap release_of (committed_rows (heap σ))) =
    [("v1", 0, 1); ("v2", 1, 2)]%string /\
  NoDup (map t_session turns) /\ 0%nat ∈ map t_session turns /\ 1%nat ∈ map t_session turns /\
  omap release_of (committed_rows (heap σ)) ≡ₚ foldl take_turn [] turns.
Proof.
  destruct (run_observe (fun σ => (map outcome (sessions σ),
    map (fun r => (cfr_name r, cfr_active r, cfr_version r)) (omap release_of (committed_rows (heap σ)))))
    one_after_the_other (at_rest [RFile shared_file] 2 1)
    ([Some (Some tt); Some (Some tt)], [("v1", 0, 1); ("v2", 1, 2)]%string)) as (σ & Hr & [= E1 E2]); [by vm_compute|].
  destruct (locked_operations_serialize [RFile shared_file] 2 1 one_after_the_other σ eq_refl Hr) as (turns & _ & Hpre).
  { intros [|[|s]] now p [= <- <-]; [by exists (OpCreate (release_named "v1"))|by exists (OpCreate (release_named "v2"))]. }
  destruct (Hpre one_after_the_other [] σ eq_refl Hr) as (past & future & _ & [Hd _ Hall] & Hp).
  exists σ, past. split; [exact Hr|]. split; [exact E2|]. split; [exact Hd|].
  assert (forall s, map outcome (sessions σ) !! s = Some (Some (Some tt)) -> s ∈ map t_session past) as Hs.
  { intros s (y & Hy & Ho)%lookup_map_Some. by eapply Hall. }
  split; [apply Hs; by rewrite E1|]. split; [apply Hs; by rewrite E1|exact Hp].
Defined.

(** The first publication is at work, the second waits for the file. *)
Definition one_waits : list (action unit) :=
  [Open_ 10 (locked_creation (release_named "v1")); Open_ 20 (locked_creation (release_named "v2"));
   Next 0; Next 1; Visit 0 0; Next 0]%nat.
Definition going_on : list (action unit) :=
  [Next 0; Next 0; Next 0; Next 0; Next 0; Next 0; Next 0; Next 0; Next 0; Next 0;
   Visit 1 0; Next 1; Next 1; Next 1; Next 1; Next 1; Next 1; Visit 1 1; Next 1; Next 1; Next 1; Next 1; Next 1]%nat.

Lemma run_goes_on l σ σ' : run l σ = Some σ' ->
  forallb (fun a => match a with Next _ | Visit _ _ => true | _ => false end) l = true -> rtc (goes_on (A:=unit)) σ σ'.
Proof.
  revert σ. induction l as [|a l IH]; intros σ Hr Hl; simpl in *; [by injection Hr as ->|].
  apply andb_true_iff in Hl as [Ha Hl]. destruct (exec a σ) as [σ1|] eqn:E; [|done]. simpl in Hr.
  eapply rtc_l; [|by apply IH]. destruct a as [|s|s i|]; [done|exists s; by left|exists s; right; by exists i|done].
Defined.

Lemma locked_operations_finish_witness : exists σ σ',
  run one_waits (at_rest [RFile shared_file] 2 1) = Some σ /\ rtc goes_on σ σ' /\
  map outcome (sessions σ) = [None; None] /\ map outcome (sessions σ') = [Some (Some tt); Some (Some tt)] /\
  Acc (fun σ2 σ1 => goes_on σ1 σ2) σ /\
  forall σ', rtc goes_on σ σ' -> (forall σ'', ~ goes_on σ' σ'') -> forall y, y ∈ sessions σ' -> outcome y <> None.
Proof.
  destruct (run_observe (fun σ => map outcome (sessions σ)) one_waits (at_rest [RFile shared_file] 2 1) [None; None])
    as (σ & Hr & E); [by vm_compute|].
  destruct (run_observe (fun σ => map outcome (sessions σ)) (one_waits ++ going_on) (at_rest [RFile shared_file] 2 1)
    [Some (Some tt); Some (Some tt)]) as (σ' & Hr' & E'); [by vm_compute|].
  rewrite run_app, Hr in Hr'. exists σ, σ'. split; [exact Hr|]. split; [exact (run_goes_on _ _ _ Hr' eq_refl)|].
  split; [exact E|]. split; [exact E'|].
  apply (locked_operations_finish [RFile shared_file] 2 1 σ eq_refl).
  - intros r Hin. exfalso. apply list_elem_of_singleton in Hin. discriminate Hin.
  - eapply run_reaches; [exact Hr|].
    repeat (apply List.Forall_cons; [first [exact I | eexists (OpCreate _); split; [|reflexivity]; intros f Hf]|]);
      [..|apply List.Forall_nil];
      apply list_elem_of_singleton in Hf; injection Hf as ->; intros Hkey; discriminate Hkey.
Defined.
